(** * Boundary / halo exchange of a mesh block (src/bvals/bvals.cpp)

    A shallow embedding of the boundary-value code of Athena++:
    the index-range table built by [InitBoundaryBuffer], the
    [BoundaryValues] constructor and enrollment functions, and the
    three transfer channels (fluid, field, eflux) with their
    StartReceiving / LoadAndSend / ReceiveAndSet operations.

    Conventions of the embedding.
    - C++ [int] is modelled by [Z].  Signed overflow is undefined in C++,
      so the model describes the executions in which the index and size
      arithmetic stays inside the range of [int].
    - [Real] is an abstract type: the code only copies values of it.
    - An [AthenaArray<Real>] is modelled by the function from its index
      tuple to the element stored there; the three-index access
      [a(k,j,i)] of a four-dimensional array is [a(0,k,j,i)].
    - A raw buffer [Real*] allocated with [new Real[n]] is a [list Real]
      of length [n]; an access outside of it is a [Fault].
    - Pointers to mesh blocks are positions in the mesh's block list. *)

From Stdlib Require Import String Ascii DecimalString.
From Stdlib Require Import ZArith List Lia Bool.
Import ListNotations.
Local Open Scope Z_scope.

(** ** Outcomes of a call *)

Inductive outcome (A : Type) : Type :=
| Ret (a : A)            (* normal return *)
| Throw (msg : string)   (* an exception is thrown; msg is its what() *)
| Fault                  (* undefined behaviour: bad buffer access, null pointer *)
| Blocked.               (* an MPI_Wait that never returns *)

Arguments Ret {A} a.
Arguments Throw {A} msg.
Arguments Fault {A}.
Arguments Blocked {A}.

Definition bind {A B} (m : outcome A) (f : A -> outcome B) : outcome B :=
  match m with
  | Ret a => f a
  | Throw msg => Throw msg
  | Fault => Fault
  | Blocked => Blocked
  end.

Notation "x <- m ;; k" := (bind m (fun x => k))
  (at level 61, m at next level, right associativity).
Notation "' p <- m ;; k" := (bind m (fun x => match x with p => k end))
  (at level 61, p pattern, m at next level, right associativity).

(** ** Directions and faces *)

(** Modelled from the spec: the values of [enum direction] (athena.hpp is
    not among the sources).  Even indices are inner faces, odd indices are
    outer faces, in the order x1, x2, x3. *)
Definition inner_x1 : Z := 0.
Definition outer_x1 : Z := 1.
Definition inner_x2 : Z := 2.
Definition outer_x2 : Z := 3.
Definition inner_x3 : Z := 4.
Definition outer_x3 : Z := 5.

(** [enum face]: only used as an index of the field tables. *)
Inductive face : Type := x1face | x2face | x3face.

Definition face_eqb (a b : face) : bool :=
  match a, b with
  | x1face, x1face | x2face, x2face | x3face, x3face => true
  | _, _ => false
  end.

(** [if(dir%2==0) oside=dir+1; else oside=dir-1;] *)
Definition oside (dir : Z) : Z :=
  if Z.rem dir 2 =? 0 then dir + 1 else dir - 1.

(** ** Arrays indexed by [int] *)

Definition upd {A} (f : Z -> A) (d : Z) (v : A) : Z -> A :=
  fun d' => if d' =? d then v else f d'.

Definition upd2 {A} (f : Z -> face -> A) (d : Z) (c : face) (v : A)
  : Z -> face -> A :=
  fun d' c' => if (d' =? d) && face_eqb c' c then v else f d' c'.

Definition upd3 {A} (f : Z -> Z -> Z -> A) (a b c : Z) (v : A)
  : Z -> Z -> Z -> A :=
  fun a' b' c' => if (a' =? a) && (b' =? b) && (c' =? c) then v else f a' b' c'.

(** ** The index-range table *)

(** A row [x_se_[dir][0..5]] of a start/end table.  The loaders read the
    slots as [si=[0]], [ei=[1]], [sj=[2]], [ej=[3]], [sk=[4]], [ek=[5]]. *)
Record Range : Type := mkRange
  { si : Z; ei : Z; sj : Z; ej : Z; sk : Z; ek : Z }.

(** The file-scope arrays of bvals.cpp. *)
Record Tables : Type := mkTables
  { fluid_send_se_ : Z -> Range;
    fluid_recv_se_ : Z -> Range;
    field_send_se_ : Z -> face -> Range;
    field_recv_se_ : Z -> face -> Range;
    fluid_bufsize_ : Z -> Z;
    field_bufsize_ : Z -> Z;
    eflux_bufsize_ : Z -> Z }.

(** Objects with static storage duration are zero-initialised. *)
Definition zero_range : Range := mkRange 0 0 0 0 0 0.
Definition zero_tables : Tables :=
  mkTables (fun _ => zero_range) (fun _ => zero_range)
           (fun _ _ => zero_range) (fun _ _ => zero_range)
           (fun _ => 0) (fun _ => 0) (fun _ => 0).

(** Number of iterations of [for (x=s; x<=e; ++x)]. *)
Definition extent (s e : Z) : Z := Z.max 0 (e - s + 1).

(** Number of index triples swept by the three nested loops over a row. *)
Definition range_count (r : Range) : Z :=
  extent (sk r) (ek r) * extent (sj r) (ej r) * extent (si r) (ei r).


(** ** Mesh data that does not depend on the element type *)

(** [NeighborBlock]: one entry of a block's neighbor table. *)
Module NeighborBlock.
Record t : Type := mk { gid : Z; lid : Z; rank : Z }.
End NeighborBlock.

(** [RegionSize]: the interior cell counts [block_size.nx1..nx3]. *)
Module RegionSize.
Record t : Type := mk { nx1 : Z; nx2 : Z; nx3 : Z }.
End RegionSize.

(** Boundary functions that can be stored in [FluidBoundary_],
    [FieldBoundary_] and [EFluxBoundary_].  The named ones are defined in
    other files of the repository; [UserFunction] stands for a function
    pointer passed to an enrollment call. *)
Inductive BValFunc : Type :=
| ReflectInnerX1 | ReflectOuterX1 | ReflectInnerX2
| ReflectOuterX2 | ReflectInnerX3 | ReflectOuterX3
| OutflowInnerX1 | OutflowOuterX1 | OutflowInnerX2
| OutflowOuterX2 | OutflowInnerX3 | OutflowOuterX3
| DefaultEFluxInnerX1 | DefaultEFluxOuterX1 | DefaultEFluxInnerX2
| DefaultEFluxOuterX2 | DefaultEFluxInnerX3 | DefaultEFluxOuterX3
| UserFunction (id : nat).

(** The three transfer channels. *)
Inductive chan : Type := Fluid | Field | EFlux.

(** ** Loops *)

(** The values taken by [x] in [for (x=s; x<=e; ++x)]. *)
Definition zrange (s e : Z) : list Z :=
  map (fun n => s + Z.of_nat n) (seq 0 (Z.to_nat (e - s + 1))).

Fixpoint for_each {X S : Type} (l : list X) (body : X -> S -> outcome S) (s : S)
  : outcome S :=
  match l with
  | [] => Ret s
  | x :: l' => s' <- body x s ;; for_each l' body s'
  end.

Definition for_loop {S : Type} (s e : Z) (body : Z -> S -> outcome S) (st : S)
  : outcome S :=
  for_each (zrange s e) body st.

(** ** Strings of the error messages *)

Definition endl : string := String (ascii_of_nat 10) EmptyString.

(** [operator<<(int)]: decimal digits with a leading minus sign. *)
Definition string_of_int (z : Z) : string :=
  NilZero.string_of_int (Z.to_int z).

(** Replace element [n] of a list (no change when [n] is out of range). *)
Fixpoint set_nth {A : Type} (n : nat) (x : A) (l : list A) : list A :=
  match l, n with
  | [], _ => []
  | _ :: l', O => x :: l'
  | y :: l', S n' => y :: set_nth n' x l'
  end.

Section Athena.

Set Default Proof Using "Type".

(** Compile-time configuration (defs.hpp, not among the sources). *)
Variable NGHOST : Z.
Variable NFLUID : Z.
Variable MAGNETIC_FIELDS_ENABLED : bool.

(** [void InitBoundaryBuffer(int nx1, int nx2, int nx3)], as a transformer
    of the file-scope tables.  The element counts [*_bufsize_] are kept as
    the exact values of the expressions of the source; the [int] that the
    source stores is [int_wrap] of them (vocabulary of the statements). *)
Definition InitBoundaryBuffer (nx1 nx2 nx3 : Z) (t : Tables) : Tables :=
  let is_ := NGHOST in
  let ie := is_ + nx1 - 1 in
  let js := if nx2 >? 1 then NGHOST else 0 in
  let je := if nx2 >? 1 then js + nx2 - 1 else 0 in
  let ks := if nx3 >? 1 then NGHOST else 0 in
  let ke := if nx3 >? 1 then ks + nx3 - 1 else 0 in
  let fs := fluid_send_se_ t in
  let fs := upd fs inner_x1 (mkRange is_ (is_+NGHOST-1) js je ks ke) in
  let fs := upd fs outer_x1 (mkRange (ie-NGHOST+1) ie js je ks ke) in
  let fs := upd fs inner_x2 (mkRange 0 (ie+NGHOST) js (js+NGHOST-1) ks ke) in
  let fs := upd fs outer_x2 (mkRange 0 (ie+NGHOST) (je-NGHOST+1) je ks ke) in
  let fs := upd fs inner_x3 (mkRange 0 (ie+NGHOST) 0 (je+NGHOST) ks (ks+NGHOST-1)) in
  let fs := upd fs outer_x3 (mkRange 0 (ie+NGHOST) 0 (je+NGHOST) (ke-NGHOST+1) ke) in
  let fr := fluid_recv_se_ t in
  let fr := upd fr inner_x1 (mkRange (is_-NGHOST) (is_-1) js je ks ke) in
  let fr := upd fr outer_x1 (mkRange (ie+1) (ie+NGHOST) js je ks ke) in
  let fr := upd fr inner_x2 (mkRange 0 (ie+NGHOST) (js-NGHOST) (js-1) ks ke) in
  let fr := upd fr outer_x2 (mkRange 0 (ie+NGHOST) (je+1) (je+NGHOST) ks ke) in
  let fr := upd fr inner_x3 (mkRange 0 (ie+NGHOST) 0 (je+NGHOST) (ks-NGHOST) (ks-1)) in
  let fr := upd fr outer_x3 (mkRange 0 (ie+NGHOST) 0 (je+NGHOST) (ke+1) (ke+NGHOST)) in
  let fb := fluid_bufsize_ t in
  let fb := upd fb inner_x1 (NGHOST*nx2*nx3*NFLUID) in
  let fb := upd fb outer_x1 (NGHOST*nx2*nx3*NFLUID) in
  let fb := upd fb inner_x2 ((nx1+2*NGHOST)*NGHOST*nx3*NFLUID) in
  let fb := upd fb outer_x2 ((nx1+2*NGHOST)*NGHOST*nx3*NFLUID) in
  let fb := upd fb inner_x3 ((nx1+2*NGHOST)*(nx2+2*NGHOST)*NGHOST*NFLUID) in
  let fb := upd fb outer_x3 ((nx1+2*NGHOST)*(nx2+2*NGHOST)*NGHOST*NFLUID) in
  if negb MAGNETIC_FIELDS_ENABLED then
    mkTables fs fr (field_send_se_ t) (field_recv_se_ t)
             fb (field_bufsize_ t) (eflux_bufsize_ t)
  else
  let bs := field_send_se_ t in
  let bs := upd2 bs inner_x1 x1face (mkRange (is_+1) (is_+NGHOST) js je ks ke) in
  let bs := upd2 bs inner_x1 x2face (mkRange is_ (is_+NGHOST-1) js (je+1) ks ke) in
  let bs := upd2 bs inner_x1 x3face (mkRange is_ (is_+NGHOST-1) js je ks (ke+1)) in
  let bs := upd2 bs outer_x1 x1face (mkRange (ie-NGHOST+1) ie js je ks ke) in
  let bs := upd2 bs outer_x1 x2face (mkRange (ie-NGHOST+1) ie js (je+1) ks ke) in
  let bs := upd2 bs outer_x1 x3face (mkRange (ie-NGHOST+1) ie js je ks (ke+1)) in
  let bs := upd2 bs inner_x2 x1face (mkRange 0 (ie+NGHOST+1) js (js+NGHOST-1) ks ke) in
  let bs := upd2 bs inner_x2 x2face (mkRange 0 (ie+NGHOST) (js+1) (js+NGHOST) ks ke) in
  let bs := upd2 bs inner_x2 x3face (mkRange 0 (ie+NGHOST) js (js+NGHOST-1) ks (ke+1)) in
  let bs := upd2 bs outer_x2 x1face (mkRange 0 (ie+NGHOST+1) (je-NGHOST+1) je ks ke) in
  let bs := upd2 bs outer_x2 x2face (mkRange 0 (ie+NGHOST) (je-NGHOST+1) je ks ke) in
  let bs := upd2 bs outer_x2 x3face (mkRange 0 (ie+NGHOST) (je-NGHOST+1) je ks (ke+1)) in
  let bs := upd2 bs inner_x3 x1face (mkRange 0 (ie+NGHOST+1) 0 (je+NGHOST) ks (ks+NGHOST-1)) in
  let bs := upd2 bs inner_x3 x2face (mkRange 0 (ie+NGHOST) 0 (je+NGHOST+1) ks (ks+NGHOST-1)) in
  let bs := upd2 bs inner_x3 x3face (mkRange 0 (ie+NGHOST) 0 (je+NGHOST) (ks+1) (ks+NGHOST)) in
  let bs := upd2 bs outer_x3 x1face (mkRange 0 (ie+NGHOST+1) 0 (je+NGHOST) (ke-NGHOST+1) ke) in
  let bs := upd2 bs outer_x3 x2face (mkRange 0 (ie+NGHOST) 0 (je+NGHOST+1) (ke-NGHOST+1) ke) in
  let bs := upd2 bs outer_x3 x3face (mkRange 0 (ie+NGHOST) 0 (je+NGHOST) (ke-NGHOST+1) ke) in
  let br := field_recv_se_ t in
  let br := upd2 br inner_x1 x1face (mkRange (is_-NGHOST) (is_-1) js je ks ke) in
  let br := upd2 br inner_x1 x2face (mkRange (is_-NGHOST) (is_-1) js (je+1) ks ke) in
  let br := upd2 br inner_x1 x3face (mkRange (is_-NGHOST) (is_-1) js je ks (ke+1)) in
  let br := upd2 br outer_x1 x1face (mkRange (ie+2) (ie+NGHOST+1) js je ks ke) in
  let br := upd2 br outer_x1 x2face (mkRange (ie+1) (ie+NGHOST) js (je+1) ks ke) in
  let br := upd2 br outer_x1 x3face (mkRange (ie+1) (ie+NGHOST) js je ks (ke+1)) in
  let br := upd2 br inner_x2 x1face (mkRange 0 (ie+NGHOST+1) (js-NGHOST) (js-1) ks ke) in
  let br := upd2 br inner_x2 x2face (mkRange 0 (ie+NGHOST) (js-NGHOST) (js-1) ks ke) in
  let br := upd2 br inner_x2 x3face (mkRange 0 (ie+NGHOST) (js-NGHOST) (js-1) ks (ke+1)) in
  let br := upd2 br outer_x2 x1face (mkRange 0 (ie+NGHOST+1) (je+1) (je+NGHOST) ks ke) in
  let br := upd2 br outer_x2 x2face (mkRange 0 (ie+NGHOST) (je+2) (je+NGHOST+1) ks ke) in
  let br := upd2 br outer_x2 x3face (mkRange 0 (ie+NGHOST) (je+1) (je+NGHOST) ks (ke+1)) in
  let br := upd2 br inner_x3 x1face (mkRange 0 (ie+NGHOST+1) 0 (je+NGHOST) (ks-NGHOST) (ks-1)) in
  let br := upd2 br inner_x3 x2face (mkRange 0 (ie+NGHOST) 0 (je+NGHOST+1) (ks-NGHOST) (ks-1)) in
  let br := upd2 br inner_x3 x3face (mkRange 0 (ie+NGHOST) 0 (je+NGHOST) (ks-NGHOST) (ks-1)) in
  let br := upd2 br outer_x3 x1face (mkRange 0 (ie+NGHOST+1) 0 (je+NGHOST) (ke+1) (ke+NGHOST)) in
  let br := upd2 br outer_x3 x2face (mkRange 0 (ie+NGHOST) 0 (je+NGHOST+1) (ke+1) (ke+NGHOST)) in
  let br := upd2 br outer_x3 x3face (mkRange 0 (ie+NGHOST) 0 (je+NGHOST) (ke+2) (ke+NGHOST+1)) in
  let bb := field_bufsize_ t in
  let b1 := NGHOST*(nx2*nx3+(nx2+1)*nx3+nx2*(nx3+1)) in
  let bb := upd (upd bb outer_x1 b1) inner_x1 b1 in
  let b2 := NGHOST*((nx1+2*NGHOST)*nx3
                    +(nx1+2*NGHOST+1)*nx3+(nx1+2*NGHOST)*(nx3+1)) in
  let bb := upd (upd bb outer_x2 b2) inner_x2 b2 in
  let b3 := NGHOST*((nx1+2*NGHOST+1)*(nx2+2*NGHOST)
                    +(nx1+2*NGHOST)*(nx2+2*NGHOST+1)
                    +(nx1+2*NGHOST)*(nx2+2*NGHOST)) in
  let bb := upd (upd bb outer_x3 b3) inner_x3 b3 in
  let eb := eflux_bufsize_ t in
  let eb :=
    if nx2 =? 1 then eb (* 1D *)
    else if nx3 =? 1 then (* 2D *)
      let e1 := (nx2+1)*2 in
      let eb := upd (upd eb outer_x1 e1) inner_x1 e1 in
      let e2 := (nx1+1)*2 in
      upd (upd eb outer_x2 e2) inner_x2 e2
    else (* 3D *)
      let e1 := (nx2+1)*nx3*2+nx2*(nx3+1)*2 in
      let eb := upd (upd eb outer_x1 e1) inner_x1 e1 in
      let e2 := (nx1+1)*nx3*2+nx1*(nx3+1)*2 in
      let eb := upd (upd eb outer_x2 e2) inner_x2 e2 in
      let e3 := (nx1+1)*nx2*2+nx1*(nx2+1)*2 in
      upd (upd eb outer_x3 e3) inner_x3 e3 in
  mkTables fs fr bs br fb bb eb.

(** The table of a process: the zero-initialised statics after the one
    call of [InitBoundaryBuffer]. *)
Definition the_tables (nx1 nx2 nx3 : Z) : Tables :=
  InitBoundaryBuffer nx1 nx2 nx3 zero_tables.


(** ** Buffers and arrays *)

Variable Real : Type.

(** [AthenaArray<Real>]: [a(n,k,j,i)]. *)
Definition Array : Type := Z -> Z -> Z -> Z -> Real.

Definition aset (a : Array) (n k j i : Z) (v : Real) : Array :=
  fun n' k' j' i' =>
    if (n' =? n) && (k' =? k) && (j' =? j) && (i' =? i) then v
    else a n' k' j' i'.

(** [InterfaceField]: the three face-centred arrays. *)
Record InterfaceField : Type := mkIF
  { x1f : Array; x2f : Array; x3f : Array }.

Definition set_x1f (f : InterfaceField) (n k j i : Z) (v : Real) :=
  mkIF (aset (x1f f) n k j i v) (x2f f) (x3f f).
Definition set_x2f (f : InterfaceField) (n k j i : Z) (v : Real) :=
  mkIF (x1f f) (aset (x2f f) n k j i v) (x3f f).
Definition set_x3f (f : InterfaceField) (n k j i : Z) (v : Real) :=
  mkIF (x1f f) (x2f f) (aset (x3f f) n k j i v).

(** [buf[p] = v] *)
Definition store (buf : list Real) (p : nat) (v : Real) : outcome (list Real) :=
  if (p <? length buf)%nat
  then Ret (firstn p buf ++ v :: skipn (S p) buf)
  else Fault.

(** [buf[p]] *)
Definition load (buf : list Real) (p : nat) : outcome Real :=
  match nth_error buf p with
  | Some v => Ret v
  | None => Fault
  end.

(** [sendbuf[p++] = v] *)
Definition put (v : Real) (st : nat * list Real) : outcome (nat * list Real) :=
  let '(p, buf) := st in
  buf' <- store buf p v ;; Ret (S p, buf').

(** [x = recvbuf[p++]], [x] being written by [write]. *)
Definition take {D : Type} (recvbuf : list Real) (write : Real -> D -> D)
  (st : nat * D) : outcome (nat * D) :=
  let '(p, d) := st in
  v <- load recvbuf p ;; Ret (S p, write v d).

(** [std::memcpy(dst, src, n*sizeof(Real))] *)
Definition memcpy (dst src : list Real) (n : Z) : outcome (list Real) :=
  if (0 <=? n) && (n <=? Z.of_nat (length src)) && (n <=? Z.of_nat (length dst))
  then Ret (firstn (Z.to_nat n) src ++ skipn (Z.to_nat n) dst)
  else Fault.

(** ** The message-passing layer

    MPI is an external library.  Its state and its calls are parameters:
    posting a receive or a send yields a request, and waiting on a request
    either never returns or returns with the value it has left in the
    request variable passed by address, and with the data that the
    completed receive has stored at the start of the buffer registered
    with it. *)

Variable MPI_PARALLEL : bool.
Variable myrank : Z.
Variable MPI : Type.
Variable MPI_Request : Type.
Variable MPI_Irecv : MPI -> Z -> Z -> Z -> MPI * MPI_Request.
Variable MPI_Isend : MPI -> list Real -> Z -> Z -> MPI * MPI_Request.
Variable MPI_Wait : MPI -> MPI_Request -> option (MPI * MPI_Request * list Real).
Variable CreateMPITag : Z -> Z -> Z -> Z -> Z -> Z -> Z.
Variables tag_fluid tag_field tag_eflux : Z.

(** What a completed receive leaves in the receive buffer. *)
Definition deliver (data buf : list Real) : list Real :=
  firstn (length buf) data ++ skipn (length data) buf.

(** ** Boundary values of a block *)

(** The per-channel members of [class BoundaryValues]: for the fluid
    channel [Boundary_] is [FluidBoundary_], [send_] is [fluid_send_],
    [recv_] is [fluid_recv_], [flag_] is [fluid_flag_], [req_send_] is
    [req_fluid_send_] and [req_recv_] is [req_fluid_recv_]; likewise for
    the field and eflux channels.  [None] is the null function pointer. *)
Record Channel : Type := mkChannel
  { Boundary_ : Z -> option BValFunc;
    send_ : Z -> list Real;
    recv_ : Z -> list Real;
    flag_ : Z -> Z -> Z -> bool;
    req_send_ : Z -> Z -> Z -> MPI_Request;
    req_recv_ : Z -> Z -> Z -> MPI_Request }.

Definition set_Boundary (c : Channel) (d : Z) (f : option BValFunc) : Channel :=
  mkChannel (upd (Boundary_ c) d f) (send_ c) (recv_ c) (flag_ c)
            (req_send_ c) (req_recv_ c).
Definition set_send (c : Channel) (d : Z) (b : list Real) : Channel :=
  mkChannel (Boundary_ c) (upd (send_ c) d b) (recv_ c) (flag_ c)
            (req_send_ c) (req_recv_ c).
Definition set_recv (c : Channel) (d : Z) (b : list Real) : Channel :=
  mkChannel (Boundary_ c) (send_ c) (upd (recv_ c) d b) (flag_ c)
            (req_send_ c) (req_recv_ c).
Definition set_flag (c : Channel) (d a b : Z) (v : bool) : Channel :=
  mkChannel (Boundary_ c) (send_ c) (recv_ c) (upd3 (flag_ c) d a b v)
            (req_send_ c) (req_recv_ c).
Definition set_req_send (c : Channel) (d a b : Z) (r : MPI_Request) : Channel :=
  mkChannel (Boundary_ c) (send_ c) (recv_ c) (flag_ c)
            (upd3 (req_send_ c) d a b r) (req_recv_ c).
Definition set_req_recv (c : Channel) (d a b : Z) (r : MPI_Request) : Channel :=
  mkChannel (Boundary_ c) (send_ c) (recv_ c) (flag_ c)
            (req_send_ c) (upd3 (req_recv_ c) d a b r).

Record BoundaryValues : Type := mkBV
  { fluid : Channel; field : Channel; eflux : Channel }.

Definition get_chan (c : chan) (bv : BoundaryValues) : Channel :=
  match c with Fluid => fluid bv | Field => field bv | EFlux => eflux bv end.

Definition set_chan (c : chan) (bv : BoundaryValues) (ch : Channel)
  : BoundaryValues :=
  match c with
  | Fluid => mkBV ch (field bv) (eflux bv)
  | Field => mkBV (fluid bv) ch (eflux bv)
  | EFlux => mkBV (fluid bv) (field bv) ch
  end.

(** The members of [MeshBlock] read by the boundary code.  [is_] is the
    member [is]. *)
Record MeshBlock : Type := mkMeshBlock
  { gid : Z; lid : Z;
    is_ : Z; ie : Z; js : Z; je : Z; ks : Z; ke : Z;
    block_size : RegionSize.t;
    block_bcs : Z -> Z;
    neighbor : Z -> Z -> Z -> NeighborBlock.t;
    pbval : BoundaryValues }.

Definition set_pbval (b : MeshBlock) (bv : BoundaryValues) : MeshBlock :=
  mkMeshBlock (gid b) (lid b) (is_ b) (ie b) (js b) (je b) (ks b) (ke b)
              (block_size b) (block_bcs b) (neighbor b) bv.

(** One process: the file-scope tables, the mesh ([mesh_bcs] and the
    linked list of blocks starting at [pblock]) and the MPI state. *)
Record Process : Type := mkProcess
  { tabs : Tables;
    mesh_bcs : Z -> Z;
    pblock : list MeshBlock;
    mpi : MPI }.

Definition set_mpi (w : Process) (m : MPI) : Process :=
  mkProcess (tabs w) (mesh_bcs w) (pblock w) m.

(** [*pmb], for the block at position [me] of the list. *)
Definition block (w : Process) (me : nat) : outcome MeshBlock :=
  match nth_error (pblock w) me with
  | Some b => Ret b
  | None => Fault
  end.

Definition set_block (w : Process) (me : nat) (b : MeshBlock) : Process :=
  mkProcess (tabs w) (mesh_bcs w) (set_nth me b (pblock w)) (mpi w).

(** Replace one channel of the boundary values of block [me]. *)
Definition put_chan (w : Process) (me : nat) (c : chan) (ch : Channel)
  : outcome Process :=
  b <- block w me ;;
  Ret (set_block w me (set_pbval b (set_chan c (pbval b) ch))).

(** [while(pbl!=NULL) { if(pbl->gid==g) break; pbl=pbl->next; }] from the
    head of the list: the position where the walk stops, [None] when it
    ends at the null pointer. *)
Fixpoint find_gid (g : Z) (bs : list MeshBlock) : option nat :=
  match bs with
  | [] => None
  | b :: bs' => if gid b =? g then Some O else option_map S (find_gid g bs')
  end.

Definition bufsize (c : chan) (t : Tables) : Z -> Z :=
  match c with
  | Fluid => fluid_bufsize_ t
  | Field => field_bufsize_ t
  | EFlux => eflux_bufsize_ t
  end.

Definition tag_of (c : chan) : Z :=
  match c with Fluid => tag_fluid | Field => tag_field | EFlux => tag_eflux end.

(** The boundary functions are external code: calling one yields the new
    contents of the array(s) it was given. *)
Variable call_fluid : BValFunc -> MeshBlock -> Array -> Array.
Variable call_field : BValFunc -> MeshBlock -> InterfaceField -> InterfaceField.
Variable call_eflux : BValFunc -> MeshBlock -> InterfaceField -> InterfaceField
                      -> InterfaceField * InterfaceField.

(** ** Sending a packed buffer

    The part "Send the buffer" that the three LoadAndSend functions share:
    for a neighbor on this rank, copy the send buffer of direction [dir]
    into the receive buffer of the opposite side of the neighbor block and
    raise its flag; otherwise post an [MPI_Isend] (when compiled with MPI). *)
Definition SendBuffer (c : chan) (w : Process) (me : nat) (dir flag : Z)
  : outcome Process :=
  pmb <- block w me ;;
  let nb := neighbor pmb dir 0 0 in
  let sendbuf := send_ (get_chan c (pbval pmb)) dir in
  if NeighborBlock.rank nb =? myrank then
    match find_gid (NeighborBlock.gid nb) (pblock w) with
    | None => Fault
    | Some ib =>
        pbl <- block w ib ;;
        let ch := get_chan c (pbval pbl) in
        buf <- memcpy (recv_ ch (oside dir)) sendbuf (bufsize c (tabs w) dir) ;;
        let ch := set_recv ch (oside dir) buf in
        let ch := set_flag ch (oside dir) 0 0 true in
        put_chan w ib c ch
    end
  else if MPI_PARALLEL then
    let tag := CreateMPITag (NeighborBlock.lid nb) flag (oside dir) (tag_of c) 0 0 in
    let '(m, rq) := MPI_Isend (mpi w)
                      (firstn (Z.to_nat (bufsize c (tabs w) dir)) sendbuf)
                      (NeighborBlock.rank nb) tag in
    put_chan (set_mpi w m) me c
             (set_req_send (get_chan c (pbval pmb)) dir 0 0 rq)
  else Ret w.

(** The part of the StartReceiving functions compiled with MPI: post a
    receive for direction [i] when its neighbor lives on another rank. *)
Definition PostReceive (c : chan) (flag : Z) (me : nat) (i : Z) (w : Process)
  : outcome Process :=
  pmb <- block w me ;;
  let nb := neighbor pmb i 0 0 in
  if negb (NeighborBlock.gid nb =? -1) && negb (NeighborBlock.rank nb =? myrank)
  then
    let tag := CreateMPITag (lid pmb) flag i (tag_of c) 0 0 in
    let '(m, rq) := MPI_Irecv (mpi w) (bufsize c (tabs w) i)
                      (NeighborBlock.rank nb) tag in
    put_chan (set_mpi w m) me c
             (set_req_recv (get_chan c (pbval pmb)) i 0 0 rq)
  else Ret w.

(** [MPI_Wait(&req_x_recv_[dir][0][0],MPI_STATUS_IGNORE)] *)
Definition WaitReceive (c : chan) (me : nat) (dir : Z) (w : Process)
  : outcome Process :=
  pmb <- block w me ;;
  let ch := get_chan c (pbval pmb) in
  match MPI_Wait (mpi w) (req_recv_ ch dir 0 0) with
  | None => Blocked
  | Some (m, rq, data) =>
      put_chan (set_mpi w m) me c
        (set_req_recv (set_recv ch dir (deliver data (recv_ ch dir)))
                      dir 0 0 rq)
  end.

(** ** Fluid channel *)

(** [void BoundaryValues::StartReceivingFluid(int flag)] *)
Definition StartReceivingFluid (w : Process) (me : nat) (flag : Z)
  : outcome Process :=
  if MPI_PARALLEL then for_loop 0 5 (PostReceive Fluid flag me) w
  else Ret w.

(** The pack loops of [LoadAndSendFluidBoundaryBuffer]. *)
Definition pack_fluid (src : Array) (r : Range) (sendbuf : list Real)
  : outcome (nat * list Real) :=
  for_loop 0 (NFLUID - 1) (fun n =>
  for_loop (sk r) (ek r) (fun k =>
  for_loop (sj r) (ej r) (fun j =>
  for_loop (si r) (ei r) (fun i =>
    put (src n k j i)))))
  (O, sendbuf).

(** [void BoundaryValues::LoadAndSendFluidBoundaryBuffer
         (enum direction dir, AthenaArray<Real> &src, int flag)] *)
Definition LoadAndSendFluidBoundaryBuffer
  (w : Process) (me : nat) (dir : Z) (src : Array) (flag : Z)
  : outcome Process :=
  pmb <- block w me ;;
  if NeighborBlock.gid (neighbor pmb dir 0 0) =? -1 then Ret w
  else
    let ch := fluid (pbval pmb) in
    '(p, sendbuf) <- pack_fluid src (fluid_send_se_ (tabs w) dir) (send_ ch dir) ;;
    w <- put_chan w me Fluid (set_send ch dir sendbuf) ;;
    SendBuffer Fluid w me dir flag.

(** The unpack loops of [ReceiveAndSetFluidBoundary]. *)
Definition unpack_fluid (recvbuf : list Real) (r : Range) (dst : Array)
  : outcome (nat * Array) :=
  for_loop 0 (NFLUID - 1) (fun n =>
  for_loop (sk r) (ek r) (fun k =>
  for_loop (sj r) (ej r) (fun j =>
  for_loop (si r) (ei r) (fun i =>
    take recvbuf (fun v dst => aset dst n k j i v)))))
  (O, dst).

(** [bool BoundaryValues::ReceiveAndSetFluidBoundary
         (enum direction dir, AthenaArray<Real> &dst)] *)
Definition ReceiveAndSetFluidBoundary
  (w : Process) (me : nat) (dir : Z) (dst : Array)
  : outcome (Process * Array * bool) :=
  pmb <- block w me ;;
  let nb := neighbor pmb dir 0 0 in
  if NeighborBlock.gid nb =? -1 then
    match Boundary_ (fluid (pbval pmb)) dir with
    | None => Fault
    | Some f => Ret (w, call_fluid f pmb dst, true)
    end
  else
    w <- (if MPI_PARALLEL
             && negb (flag_ (fluid (pbval pmb)) dir 0 0)
             && negb (NeighborBlock.rank nb =? myrank)
          then WaitReceive Fluid me dir w
          else Ret w) ;;
    pmb <- block w me ;;
    let ch := fluid (pbval pmb) in
    '(p, dst) <- unpack_fluid (recv_ ch dir) (fluid_recv_se_ (tabs w) dir) dst ;;
    w <- put_chan w me Fluid (set_flag ch dir 0 0 false) ;;
    Ret (w, dst, true).


(** ** Field channel *)

(** [void BoundaryValues::StartReceivingField(int flag)] *)
Definition StartReceivingField (w : Process) (me : nat) (flag : Z)
  : outcome Process :=
  if MPI_PARALLEL then for_loop 0 5 (PostReceive Field flag me) w
  else Ret w.

(** One "Set buffers" loop nest of [LoadAndSendFieldBoundaryBuffer]. *)
Definition pack_face (a : Array) (r : Range) (st : nat * list Real)
  : outcome (nat * list Real) :=
  for_loop (sk r) (ek r) (fun k =>
  for_loop (sj r) (ej r) (fun j =>
  for_loop (si r) (ei r) (fun i =>
    put (a 0 k j i))))
  st.

Definition pack_field (src : InterfaceField) (rs : face -> Range)
  (sendbuf : list Real) : outcome (nat * list Real) :=
  st <- pack_face (x1f src) (rs x1face) (O, sendbuf) ;;
  st <- pack_face (x2f src) (rs x2face) st ;;
  pack_face (x3f src) (rs x3face) st.

(** [void BoundaryValues::LoadAndSendFieldBoundaryBuffer
         (enum direction dir, InterfaceField &src, int flag)] *)
Definition LoadAndSendFieldBoundaryBuffer
  (w : Process) (me : nat) (dir : Z) (src : InterfaceField) (flag : Z)
  : outcome Process :=
  pmb <- block w me ;;
  if NeighborBlock.gid (neighbor pmb dir 0 0) =? -1 then Ret w
  else
    let ch := field (pbval pmb) in
    '(p, sendbuf) <- pack_field src (field_send_se_ (tabs w) dir) (send_ ch dir) ;;
    w <- put_chan w me Field (set_send ch dir sendbuf) ;;
    SendBuffer Field w me dir flag.

(** One "Load buffers" loop nest of [ReceiveAndSetFieldBoundary]. *)
Definition unpack_face (recvbuf : list Real)
  (set : InterfaceField -> Z -> Z -> Z -> Z -> Real -> InterfaceField)
  (r : Range) (st : nat * InterfaceField) : outcome (nat * InterfaceField) :=
  for_loop (sk r) (ek r) (fun k =>
  for_loop (sj r) (ej r) (fun j =>
  for_loop (si r) (ei r) (fun i =>
    take recvbuf (fun v dst => set dst 0 k j i v))))
  st.

Definition unpack_field (recvbuf : list Real) (rs : face -> Range)
  (dst : InterfaceField) : outcome (nat * InterfaceField) :=
  st <- unpack_face recvbuf set_x1f (rs x1face) (O, dst) ;;
  st <- unpack_face recvbuf set_x2f (rs x2face) st ;;
  unpack_face recvbuf set_x3f (rs x3face) st.

(** [bool BoundaryValues::ReceiveAndSetFieldBoundary
         (enum direction dir, InterfaceField &dst)] *)
Definition ReceiveAndSetFieldBoundary
  (w : Process) (me : nat) (dir : Z) (dst : InterfaceField)
  : outcome (Process * InterfaceField * bool) :=
  pmb <- block w me ;;
  let nb := neighbor pmb dir 0 0 in
  if NeighborBlock.gid nb =? -1 then
    match Boundary_ (field (pbval pmb)) dir with
    | None => Fault
    | Some f => Ret (w, call_field f pmb dst, true)
    end
  else
    w <- (if MPI_PARALLEL
             && negb (flag_ (field (pbval pmb)) dir 0 0)
             && negb (NeighborBlock.rank nb =? myrank)
          then WaitReceive Field me dir w
          else Ret w) ;;
    pmb <- block w me ;;
    let ch := field (pbval pmb) in
    '(p, dst) <- unpack_field (recv_ ch dir) (field_recv_se_ (tabs w) dir) dst ;;
    w <- put_chan w me Field (set_flag ch dir 0 0 false) ;;
    Ret (w, dst, true).

(** ** EFlux channel *)

(** Component indices of the edge fluxes (athena.hpp, not among the
    sources). *)
Variables X1E2 X1E3 X2E1 X2E3 X3E1 X3E2 : Z.

(** An edge segment: the array ([x1f], [x2f] or [x3f]), the flux
    component, and the index triples [(k,j,i)] in the order in which the
    loop nest of the segment visits them. *)
Record Segment : Type := mkSegment
  { seg_face : face; seg_comp : Z; seg_pts : list (Z * Z * Z) }.

Definition line (mk : Z -> Z * Z * Z) (s e : Z) : list (Z * Z * Z) :=
  map mk (zrange s e).

Definition plane (mk : Z -> Z -> Z * Z * Z) (s1 e1 s2 e2 : Z)
  : list (Z * Z * Z) :=
  flat_map (fun a => map (mk a) (zrange s2 e2)) (zrange s1 e1).

(** The segments of direction [dir], the face of the direction lying at
    index [x] of its axis.  In two dimensions ([nx3==1]) each of the four
    directions has one segment, a line; in three dimensions each of the six
    directions has two segments, planes. *)
Definition eflux_segments (pmb : MeshBlock) (dir x : Z) : list Segment :=
  let is_ := is_ pmb in let ie := ie pmb in
  let js := js pmb in let je := je pmb in
  let ks := ks pmb in let ke := ke pmb in
  if RegionSize.nx3 (block_size pmb) =? 1 then
    if (dir =? inner_x1) || (dir =? outer_x1) then
      [ mkSegment x2face X2E3 (line (fun j => (ks, j, x)) js (je+1)) ]
    else if (dir =? inner_x2) || (dir =? outer_x2) then
      [ mkSegment x1face X1E3 (line (fun i => (ks, x, i)) is_ (ie+1)) ]
    else []
  else
    if (dir =? inner_x1) || (dir =? outer_x1) then
      [ mkSegment x2face X2E3 (plane (fun k j => (k, j, x)) ks ke js (je+1));
        mkSegment x3face X3E2 (plane (fun k j => (k, j, x)) ks (ke+1) js je) ]
    else if (dir =? inner_x2) || (dir =? outer_x2) then
      [ mkSegment x1face X1E3 (plane (fun k i => (k, x, i)) ks ke is_ (ie+1));
        mkSegment x3face X3E1 (plane (fun k i => (k, x, i)) ks (ke+1) is_ ie) ]
    else if (dir =? inner_x3) || (dir =? outer_x3) then
      [ mkSegment x1face X1E2 (plane (fun j i => (x, j, i)) js je is_ (ie+1));
        mkSegment x2face X2E1 (plane (fun j i => (x, j, i)) js (je+1) is_ ie) ]
    else [].

(** The index of the face from which LoadAndSend reads: [is], [ie], [js],
    [je], [ks], [ke]. *)
Definition eflux_send_at (pmb : MeshBlock) (dir : Z) : Z :=
  if dir =? inner_x1 then is_ pmb else if dir =? outer_x1 then ie pmb
  else if dir =? inner_x2 then js pmb else if dir =? outer_x2 then je pmb
  else if dir =? inner_x3 then ks pmb else ke pmb.

(** The index of the face to which ReceiveAndSet writes: [is-1], [ie+1],
    [js-1], [je+1], [ks-1], [ke+1]. *)
Definition eflux_recv_at (pmb : MeshBlock) (dir : Z) : Z :=
  if dir =? inner_x1 then is_ pmb - 1 else if dir =? outer_x1 then ie pmb + 1
  else if dir =? inner_x2 then js pmb - 1 else if dir =? outer_x2 then je pmb + 1
  else if dir =? inner_x3 then ks pmb - 1 else ke pmb + 1.

Definition face_of (f : InterfaceField) (c : face) : Array :=
  match c with x1face => x1f f | x2face => x2f f | x3face => x3f f end.

Definition set_face (c : face) (f : InterfaceField) (n k j i : Z) (v : Real)
  : InterfaceField :=
  match c with
  | x1face => set_x1f f n k j i v
  | x2face => set_x2f f n k j i v
  | x3face => set_x3f f n k j i v
  end.

(** [void BoundaryValues::StartReceivingEFlux(int flag)] *)
Definition StartReceivingEFlux (w : Process) (me : nat) (flag : Z)
  : outcome Process :=
  pmb <- block w me ;;
  if RegionSize.nx2 (block_size pmb) =? 1 then Ret w
  else
    let ndir := if RegionSize.nx3 (block_size pmb) >? 1 then 6 else 4 in
    for_loop 0 (ndir - 1) (fun i w =>
      pmb <- block w me ;;
      w <- put_chan w me EFlux (set_flag (eflux (pbval pmb)) i 0 0 false) ;;
      if MPI_PARALLEL then PostReceive EFlux flag me i w else Ret w) w.

(** The block [p=0; ...] that packs direction [dir]: for each segment,
    the loop nest over the flux values, then the same loop nest over the
    weights. *)
Definition pack_eflux (pmb : MeshBlock) (fsrc wsrc : InterfaceField) (dir : Z)
  (sendbuf : list Real) : outcome (nat * list Real) :=
  for_each (eflux_segments pmb dir (eflux_send_at pmb dir)) (fun s st =>
    st <- for_each (seg_pts s) (fun '(k, j, i) =>
            put (face_of fsrc (seg_face s) (seg_comp s) k j i)) st ;;
    for_each (seg_pts s) (fun '(k, j, i) =>
            put (face_of wsrc (seg_face s) 0 k j i)) st)
  (O, sendbuf).

(** The directions handled by the 2D resp. 3D branch, in source order. *)
Definition eflux_dirs (pmb : MeshBlock) : list Z :=
  if RegionSize.nx3 (block_size pmb) =? 1
  then [inner_x1; outer_x1; inner_x2; outer_x2]
  else [inner_x1; outer_x1; inner_x2; outer_x2; inner_x3; outer_x3].

(** One block [if(pmb->neighbor[dir][0][0].gid!=-1) { p=0; ... }]. *)
Definition LoadEFlux (me : nat) (fsrc wsrc : InterfaceField) (dir : Z)
  (w : Process) : outcome Process :=
  pmb <- block w me ;;
  if negb (NeighborBlock.gid (neighbor pmb dir 0 0) =? -1) then
    let ch := eflux (pbval pmb) in
    '(p, sendbuf) <- pack_eflux pmb fsrc wsrc dir (send_ ch dir) ;;
    put_chan w me EFlux (set_send ch dir sendbuf)
  else Ret w.

(** The body of the loop [for(dir=0;dir<ndir;dir++)] that sends. *)
Definition SendEFlux (me : nat) (flag : Z) (dir : Z) (w : Process)
  : outcome Process :=
  pmb <- block w me ;;
  if NeighborBlock.gid (neighbor pmb dir 0 0) =? -1 then Ret w
  else SendBuffer EFlux w me dir flag.

(** [void BoundaryValues::LoadAndSendEFluxBoundaryBuffer
         (InterfaceField &fsrc, InterfaceField &wsrc, int flag)] *)
Definition LoadAndSendEFluxBoundaryBuffer
  (w : Process) (me : nat) (fsrc wsrc : InterfaceField) (flag : Z)
  : outcome Process :=
  pmb <- block w me ;;
  if RegionSize.nx2 (block_size pmb) =? 1 then Ret w
  else
    w <- for_each (eflux_dirs pmb) (LoadEFlux me fsrc wsrc) w ;;
    let ndir := if RegionSize.nx3 (block_size pmb) >? 1 then 6 else 4 in
    for_loop 0 (ndir - 1) (SendEFlux me flag) w.

(** The block [p=0; ...] that unpacks direction [dir]. *)
Definition unpack_eflux (pmb : MeshBlock) (recvbuf : list Real) (dir : Z)
  (dst : InterfaceField * InterfaceField)
  : outcome (nat * (InterfaceField * InterfaceField)) :=
  for_each (eflux_segments pmb dir (eflux_recv_at pmb dir)) (fun s st =>
    st <- for_each (seg_pts s) (fun '(k, j, i) =>
            take recvbuf (fun v '(fdst, wdst) =>
              (set_face (seg_face s) fdst (seg_comp s) k j i v, wdst))) st ;;
    for_each (seg_pts s) (fun '(k, j, i) =>
            take recvbuf (fun v '(fdst, wdst) =>
              (fdst, set_face (seg_face s) wdst 0 k j i v))) st)
  (O, dst).

(** The body of the loop that waits for the receives posted for remote
    neighbors (compiled with MPI only). *)
Definition WaitEFlux (me : nat) (dir : Z) (w : Process) : outcome Process :=
  pmb <- block w me ;;
  let nb := neighbor pmb dir 0 0 in
  if negb (NeighborBlock.gid nb =? -1)
     && negb (NeighborBlock.rank nb =? myrank)
  then
    w <- WaitReceive EFlux me dir w ;;
    pmb <- block w me ;;
    put_chan w me EFlux (set_flag (eflux (pbval pmb)) dir 0 0 true)
  else Ret w.

(** The treatment of one direction after the waits: the boundary
    function or the unpack block, then [eflux_flag_[dir][0][0] = false]. *)
Definition SetEFlux (me : nat) (dir : Z)
  (st : Process * (InterfaceField * InterfaceField))
  : outcome (Process * (InterfaceField * InterfaceField)) :=
  let '(w, dst) := st in
  pmb <- block w me ;;
  let ch := eflux (pbval pmb) in
  dst <- (if NeighborBlock.gid (neighbor pmb dir 0 0) =? -1 then
            match Boundary_ ch dir with
            | None => Fault
            | Some f => Ret (call_eflux f pmb (fst dst) (snd dst))
            end
          else
            '(p, dst) <- unpack_eflux pmb (recv_ ch dir) dir dst ;;
            Ret dst) ;;
  w <- put_chan w me EFlux (set_flag ch dir 0 0 false) ;;
  Ret (w, dst).

(** [bool BoundaryValues::ReceiveAndSetEFluxBoundary
         (InterfaceField &fdst, InterfaceField &wdst)] *)
Definition ReceiveAndSetEFluxBoundary
  (w : Process) (me : nat) (fdst wdst : InterfaceField)
  : outcome (Process * (InterfaceField * InterfaceField) * bool) :=
  pmb <- block w me ;;
  if RegionSize.nx2 (block_size pmb) =? 1 then Ret (w, (fdst, wdst), true)
  else
    let ndir := if RegionSize.nx3 (block_size pmb) >? 1 then 6 else 4 in
    w <- (if MPI_PARALLEL then for_loop 0 (ndir - 1) (WaitEFlux me) w
          else Ret w) ;;
    '(w, dst) <- for_each (eflux_dirs pmb) (SetEFlux me) (w, (fdst, wdst)) ;;
    Ret (w, dst, true).

(** ** Construction and enrollment *)

(** Contents of freshly allocated storage. *)
Variable indeterminate : Real.

(** [new Real[n]] *)
Definition new_Real (n : Z) : outcome (list Real) :=
  if n <? 0 then Throw "std::bad_array_new_length"
  else Ret (repeat indeterminate (Z.to_nat n)).

(** One [switch(pmb->block_bcs[d])] of the constructor; [name] is the flag
    name printed by its default case. *)
Definition bc_switch (name : string) (d : Z) (refl outf defl : BValFunc)
  (code : Z) (bv : BoundaryValues) : outcome BoundaryValues :=
  let assign (f g e : option BValFunc) :=
    mkBV (set_Boundary (fluid bv) d f) (set_Boundary (field bv) d g)
         (set_Boundary (eflux bv) d e) in
  if code =? 1 then Ret (assign (Some refl) (Some refl) (Some defl))
  else if code =? 2 then Ret (assign (Some outf) (Some outf) (Some defl))
  else if (code =? -1) || (code =? 3) || (code =? 4)
  then Ret (assign None None None)
  else Throw ("### FATAL ERROR in BoundaryValues constructor" ++ endl
              ++ "Flag " ++ name ++ "=" ++ string_of_int code
              ++ " not valid" ++ endl)%string.

(** Allocation of the send and receive buffers of one channel for the
    directions [0..r-1]. *)
Definition alloc_buffers (size : Z -> Z) (r : Z) (ch : Channel)
  : outcome Channel :=
  for_loop 0 (r - 1) (fun i ch =>
    s <- new_Real (size i) ;;
    rcv <- new_Real (size i) ;;
    Ret (set_recv (set_send ch i s) i rcv)) ch.

(** [x_flag_[i][0][0]=false; ... x_flag_[i][1][1]=false;] for [i<6]. *)
Definition init_flags (ch : Channel) : outcome Channel :=
  for_loop 0 5 (fun i ch =>
    Ret (set_flag (set_flag (set_flag (set_flag ch i 0 0 false)
                                      i 0 1 false) i 1 0 false) i 1 1 false)) ch.

(** The second half of the constructor: "Allocate Buffers" and
    "initialize flags". *)
Definition allocate_and_clear (t : Tables) (nx2 nx3 : Z) (bv : BoundaryValues)
  : outcome BoundaryValues :=
  let r := if nx3 >? 1 then 6 else if nx2 >? 1 then 4 else 2 in
  fl <- alloc_buffers (fluid_bufsize_ t) r (fluid bv) ;;
  '(fd, ef) <- (if MAGNETIC_FIELDS_ENABLED then
                  fd <- alloc_buffers (field_bufsize_ t) r (field bv) ;;
                  ef <- (if nx2 >? 1
                         then alloc_buffers (eflux_bufsize_ t) r (eflux bv)
                         else Ret (eflux bv)) ;;
                  Ret (fd, ef)
                else Ret (field bv, eflux bv)) ;;
  fl <- init_flags fl ;;
  '(fd, ef) <- (if MAGNETIC_FIELDS_ENABLED then
                  fd <- init_flags fd ;;
                  ef <- init_flags ef ;;
                  Ret (fd, ef)
                else Ret (fd, ef)) ;;
  Ret (mkBV fl fd ef).

(** [BoundaryValues::BoundaryValues(MeshBlock *pmb, ParameterInput *pin)];
    [raw] is the storage of the object before construction. *)
Definition BoundaryValues_new (t : Tables) (pmb : MeshBlock)
  (raw : BoundaryValues) : outcome BoundaryValues :=
  let bcs := block_bcs pmb in
  let nx2 := RegionSize.nx2 (block_size pmb) in
  let nx3 := RegionSize.nx3 (block_size pmb) in
  bv <- bc_switch "ix1_bc" inner_x1 ReflectInnerX1 OutflowInnerX1
          DefaultEFluxInnerX1 (bcs inner_x1) raw ;;
  bv <- bc_switch "ox1_bc" outer_x1 ReflectOuterX1 OutflowOuterX1
          DefaultEFluxOuterX1 (bcs outer_x1) bv ;;
  bv <- (if nx2 >? 1 then
           bv <- bc_switch "ix2_bc" inner_x2 ReflectInnerX2 OutflowInnerX2
                   DefaultEFluxInnerX2 (bcs inner_x2) bv ;;
           bc_switch "ox2_bc" outer_x2 ReflectOuterX2 OutflowOuterX2
                   DefaultEFluxOuterX2 (bcs outer_x2) bv
         else Ret bv) ;;
  bv <- (if nx3 >? 1 then
           bv <- bc_switch "ix3_bc" inner_x3 ReflectInnerX3 OutflowInnerX3
                   DefaultEFluxInnerX3 (bcs inner_x3) bv ;;
           bc_switch "ox3_bc" outer_x3 ReflectOuterX3 OutflowOuterX3
                   DefaultEFluxOuterX3 (bcs outer_x3) bv
         else Ret bv) ;;
  allocate_and_clear t nx2 nx3 bv.

(** The body shared by the three enrollment functions; [fn] is the name
    printed in the messages and [verb] the wording of the first one. *)
Definition Enroll (c : chan) (fn verb : string)
  (w : Process) (me : nat) (dir : Z) (my_bc : BValFunc) : outcome Process :=
  if (dir <? 0) || (dir >? 5) then
    Throw ("### FATAL ERROR in " ++ fn ++ " function" ++ endl
           ++ "dirName = " ++ string_of_int dir ++ verb ++ endl)%string
  else if negb (mesh_bcs w dir =? 3) then
    Throw ("### FATAL ERROR in " ++ fn ++ " function" ++ endl
           ++ "A user-defined boundary condition flag (3) must be specified "
           ++ "in the input file to use a user-defined boundary function."
           ++ endl)%string
  else
    pmb <- block w me ;;
    if NeighborBlock.gid (neighbor pmb dir 0 0) =? -1
    then put_chan w me c (set_Boundary (get_chan c (pbval pmb)) dir (Some my_bc))
    else Ret w.

(** [void BoundaryValues::EnrollFluidBoundaryFunction
         (enum direction dir, BValFluid_t my_bc)] *)
Definition EnrollFluidBoundaryFunction :=
  Enroll Fluid "EnrollFluidBoundaryCondition" " not valid".

(** [void BoundaryValues::EnrollFieldBoundaryFunction
         (enum direction dir, BValField_t my_bc)] *)
Definition EnrollFieldBoundaryFunction :=
  Enroll Field "EnrollFieldBoundaryCondition" " is not valid".

(** [void BoundaryValues::EnrollEFluxBoundaryFunction
         (enum direction dir, BValEFlux_t my_bc)] *)
Definition EnrollEFluxBoundaryFunction :=
  Enroll EFlux "EnrollEFluxBoundaryCondition" " is not valid".


(** ** Vocabulary of the statements *)

(** The element counts of the table are [int] products in the source;
    the table of the model holds their exact values.  [int_wrap z] is the
    value a 32-bit two's-complement [int] holds when the exact value of
    the expression is [z]; it is [z] itself when [z] is representable. *)
Definition INT_MIN : Z := -2147483648.
Definition INT_MAX : Z := 2147483647.

Definition int_wrap (z : Z) : Z := (z - INT_MIN) mod 2 ^ 32 + INT_MIN.

Definition fits_int (z : Z) : Prop := INT_MIN <= z <= INT_MAX.

(** The interval of a row along the axis normal to the face [d]. *)
Definition normal_range (d : Z) (r : Range) : Z * Z :=
  if d <? 2 then (si r, ei r)
  else if d <? 4 then (sj r, ej r)
  else (sk r, ek r).

(** The field component whose faces are parallel to the face [d]. *)
Definition aligned_face (d : Z) : face :=
  if d <? 2 then x1face else if d <? 4 then x2face else x3face.

(** An interval moved [n] layers towards the interior of the block:
    upwards at an inner face, downwards at an outer face. *)
Definition shift_inward (d n : Z) (r : Z * Z) : Z * Z :=
  if Z.even d then (fst r + n, snd r + n) else (fst r - n, snd r - n).

(** The plain ghost-width slab at face [d]: the cell-centred send range
    along the normal axis. *)
Definition plain_slab (t : Tables) (d : Z) : Z * Z :=
  normal_range d (fluid_send_se_ t d).

(** Index of the face that coincides with the boundary [d] in the array
    of the aligned component: the first interior index at an inner face,
    one past the last interior index at an outer face. *)
Definition boundary_face (t : Tables) (d : Z) : Z :=
  if Z.even d then fst (plain_slab t d) else snd (plain_slab t d) + 1.


(** What an enrollment function [F] of channel [c] does, case by case. *)
Definition enroll_cases (c : chan)
  (F : Process -> nat -> Z -> BValFunc -> outcome Process) : Prop :=
  forall (w : Process) (me : nat) (dir : Z) (my_bc : BValFunc),
    (dir < 0 \/ dir > 5 ->
       exists msg, F w me dir my_bc = Throw msg)
    /\ (0 <= dir <= 5 -> mesh_bcs w dir <> 3 ->
       exists msg, F w me dir my_bc = Throw msg)
    /\ (0 <= dir <= 5 -> mesh_bcs w dir = 3 ->
        forall pmb, nth_error (pblock w) me = Some pmb ->
          (NeighborBlock.gid (neighbor pmb dir 0 0) <> -1 ->
             F w me dir my_bc = Ret w)
          /\ (NeighborBlock.gid (neighbor pmb dir 0 0) = -1 ->
                F w me dir my_bc
                = Ret (set_block w me
                         (set_pbval pmb
                            (set_chan c (pbval pmb)
                               (set_Boundary (get_chan c (pbval pmb)) dir
                                             (Some my_bc))))))).


(** The completion flags of all blocks of a process, channel by channel. *)
Definition all_flags (w : Process)
  : list ((Z -> Z -> Z -> bool) * (Z -> Z -> Z -> bool) * (Z -> Z -> Z -> bool)) :=
  map (fun b => (flag_ (fluid (pbval b)), flag_ (field (pbval b)),
                 flag_ (eflux (pbval b)))) (pblock w).


(** The boundary codes accepted by the constructor. *)
Definition recognized (code : Z) : bool :=
  (code =? -1) || (code =? 1) || (code =? 2) || (code =? 3) || (code =? 4).

(** The directions whose code the constructor examines, in source order. *)
Definition checked_dirs (pmb : MeshBlock) : list Z :=
  [inner_x1; outer_x1]
  ++ (if RegionSize.nx2 (block_size pmb) >? 1 then [inner_x2; outer_x2] else [])
  ++ (if RegionSize.nx3 (block_size pmb) >? 1 then [inner_x3; outer_x3] else []).

(** The first examined direction with a code that is not accepted. *)
Definition first_invalid (pmb : MeshBlock) : option Z :=
  find (fun d => negb (recognized (block_bcs pmb d))) (checked_dirs pmb).

(** Name of the input flag of a direction. *)
Definition flag_name (d : Z) : string :=
  if d =? inner_x1 then "ix1_bc" else if d =? outer_x1 then "ox1_bc"
  else if d =? inner_x2 then "ix2_bc" else if d =? outer_x2 then "ox2_bc"
  else if d =? inner_x3 then "ix3_bc" else "ox3_bc".

(** The message that names direction [d] and its invalid code. *)
Definition invalid_code_message (d code : Z) : string :=
  ("### FATAL ERROR in BoundaryValues constructor" ++ endl
   ++ "Flag " ++ flag_name d ++ "=" ++ string_of_int code
   ++ " not valid" ++ endl)%string.

Definition reflect_of (d : Z) : BValFunc :=
  if d =? inner_x1 then ReflectInnerX1 else if d =? outer_x1 then ReflectOuterX1
  else if d =? inner_x2 then ReflectInnerX2 else if d =? outer_x2 then ReflectOuterX2
  else if d =? inner_x3 then ReflectInnerX3 else ReflectOuterX3.

Definition outflow_of (d : Z) : BValFunc :=
  if d =? inner_x1 then OutflowInnerX1 else if d =? outer_x1 then OutflowOuterX1
  else if d =? inner_x2 then OutflowInnerX2 else if d =? outer_x2 then OutflowOuterX2
  else if d =? inner_x3 then OutflowInnerX3 else OutflowOuterX3.

Definition default_eflux_of (d : Z) : BValFunc :=
  if d =? inner_x1 then DefaultEFluxInnerX1
  else if d =? outer_x1 then DefaultEFluxOuterX1
  else if d =? inner_x2 then DefaultEFluxInnerX2
  else if d =? outer_x2 then DefaultEFluxOuterX2
  else if d =? inner_x3 then DefaultEFluxInnerX3 else DefaultEFluxOuterX3.

(** The fluid, field and eflux functions that belong to an accepted code:
    reflecting for 1, outflow for 2, none (the neighbor-transfer
    placeholder) for -1, 3 and 4. *)
Definition handlers_for (d code : Z)
  : option BValFunc * option BValFunc * option BValFunc :=
  if code =? 1
  then (Some (reflect_of d), Some (reflect_of d), Some (default_eflux_of d))
  else if code =? 2
  then (Some (outflow_of d), Some (outflow_of d), Some (default_eflux_of d))
  else (None, None, None).

Definition handlers_at (bv : BoundaryValues) (d : Z)
  : option BValFunc * option BValFunc * option BValFunc :=
  (Boundary_ (fluid bv) d, Boundary_ (field bv) d, Boundary_ (eflux bv) d).


(** The index tuples visited by the loop nests over a row, in loop order. *)
Definition points3 (r : Range) : list (Z * Z * Z) :=
  flat_map (fun k =>
    flat_map (fun j =>
      map (fun i => (k, j, i)) (zrange (si r) (ei r)))
      (zrange (sj r) (ej r)))
    (zrange (sk r) (ek r)).

Definition points4 (r : Range) : list (Z * (Z * Z * Z)) :=
  flat_map (fun n => map (fun p => (n, p)) (points3 r)) (zrange 0 (NFLUID - 1)).

Definition at3 (a : Array) (p : Z * Z * Z) : Real :=
  let '(k, j, i) := p in a 0 k j i.

Definition at4 (a : Array) (p : Z * (Z * Z * Z)) : Real :=
  let '(n, (k, j, i)) := p in a n k j i.

(** A block whose index bounds agree with its interior cell counts, and
    whose cell counts are those the table was built for. *)
Definition block_fits (pmb : MeshBlock) (nx1 nx2 nx3 : Z) : Prop :=
  block_size pmb = RegionSize.mk nx1 nx2 nx3
  /\ ie pmb - is_ pmb + 1 = nx1
  /\ je pmb - js pmb + 1 = nx2
  /\ ke pmb - ks pmb + 1 = nx3.


(** The values written by the pack loops, in the order of writing. *)
Definition fluid_values (src : Array) (r : Range) : list Real :=
  map (at4 src) (points4 r).

Definition field_values (src : InterfaceField) (rs : face -> Range) : list Real :=
  map (at3 (x1f src)) (points3 (rs x1face))
  ++ map (at3 (x2f src)) (points3 (rs x2face))
  ++ map (at3 (x3f src)) (points3 (rs x3face)).

(** The flux values of a segment, and its weights. *)
Definition seg_fluxes (f : InterfaceField) (s : Segment) : list Real :=
  map (fun p => let '(k, j, i) := p in face_of f (seg_face s) (seg_comp s) k j i)
      (seg_pts s).

Definition seg_weights (f : InterfaceField) (s : Segment) : list Real :=
  map (fun p => let '(k, j, i) := p in face_of f (seg_face s) 0 k j i)
      (seg_pts s).

Definition eflux_values (pmb : MeshBlock) (fsrc wsrc : InterfaceField) (d : Z)
  : list Real :=
  flat_map (fun s => seg_fluxes fsrc s ++ seg_weights wsrc s)
           (eflux_segments pmb d (eflux_send_at pmb d)).


Definition aset4 (a : Array) (p : Z * (Z * Z * Z)) (v : Real) : Array :=
  let '(n, (k, j, i)) := p in aset a n k j i v.

(** Two rows with the same extent along every axis. *)
Definition same_extents (s r : Range) : Prop :=
  ei r - si r = ei s - si s
  /\ ej r - sj r = ej s - sj s
  /\ ek r - sk r = ek s - sk s.

(** The index triple of row [r] that corresponds to the triple [(k,j,i)]
    of row [s]: the same offsets from the start of the row. *)
Definition corresponding (s r : Range) (p : Z * Z * Z) : Z * Z * Z :=
  let '(k, j, i) := p in
  (k + (sk r - sk s), j + (sj r - sj s), i + (si r - si s)).


(** A location of the pair of edge-flux arrays [(f, w)] handled by the
    eflux channel: [false] for the flux arrays, [true] for the weight
    arrays; the face array; the component; the index triple. *)
Definition Loc : Type := bool * face * Z * (Z * Z * Z).

Definition read (d : InterfaceField * InterfaceField) (l : Loc) : Real :=
  let '(isw, c, n, (k, j, i)) := l in
  face_of (if isw : bool then snd d else fst d) c n k j i.

Definition write (l : Loc) (v : Real) (d : InterfaceField * InterfaceField)
  : InterfaceField * InterfaceField :=
  let '(isw, c, n, (k, j, i)) := l in
  if isw : bool then (fst d, set_face c (snd d) n k j i v)
  else (set_face c (fst d) n k j i v, snd d).

(** The locations of a segment in buffer order: the fluxes of all its
    points, then the weights of all its points. *)
Definition seg_locs (s : Segment) : list Loc :=
  map (fun p => (false, seg_face s, seg_comp s, p)) (seg_pts s)
  ++ map (fun p => (true, seg_face s, 0, p)) (seg_pts s).

Definition eflux_locs (pmb : MeshBlock) (dir x : Z) : list Loc :=
  flat_map seg_locs (eflux_segments pmb dir x).

(** Locations read by the pack block of direction [d], and locations
    written by the unpack block of direction [d]. *)
Definition eflux_send_locs (pmb : MeshBlock) (d : Z) : list Loc :=
  eflux_locs pmb d (eflux_send_at pmb d).

Definition eflux_recv_locs (pmb : MeshBlock) (d : Z) : list Loc :=
  eflux_locs pmb d (eflux_recv_at pmb d).


(** The locations written by the unpack loops of the field channel, in
    the order of writing. *)
Definition field_locs (rs : face -> Range) : list (face * (Z * Z * Z)) :=
  map (fun p => (x1face, p)) (points3 (rs x1face))
  ++ map (fun p => (x2face, p)) (points3 (rs x2face))
  ++ map (fun p => (x3face, p)) (points3 (rs x3face)).

Definition write_face (l : face * (Z * Z * Z)) (v : Real) (d : InterfaceField)
  : InterfaceField :=
  let '(c, (k, j, i)) := l in set_face c d 0 k j i v.


(** [b'] is the block [b] after some transfers: only its boundary values
    may differ, and in the eflux channel the boundary functions and the
    lengths of the receive buffers are those of [b]. *)
Definition kin (b b' : MeshBlock) : Prop :=
  b' = set_pbval b (pbval b')
  /\ Boundary_ (eflux (pbval b')) = Boundary_ (eflux (pbval b))
  /\ forall y, length (recv_ (eflux (pbval b')) y)
               = length (recv_ (eflux (pbval b)) y).

(** The boundary functions of the physical boundaries of block [A] leave
    the ghost edges of direction [e0] as they are. *)
Definition handlers_keep (A : MeshBlock) (e0 : Z) : Prop :=
  forall e f pmb' fd wd l,
    In e (eflux_dirs A) ->
    NeighborBlock.gid (neighbor A e 0 0) = -1 ->
    Boundary_ (eflux (pbval A)) e = Some f ->
    In l (eflux_recv_locs A e0) ->
    read (call_eflux f pmb' fd wd) l = read (fd, wd) l.

(** Every direction handled by ReceiveAndSetEFluxBoundary either is a
    physical boundary with a boundary function, or has a receive buffer
    that holds at least the elements its unpack block reads. *)
Definition eflux_receivable (A : MeshBlock) : Prop :=
  forall e, In e (eflux_dirs A) ->
    if NeighborBlock.gid (neighbor A e 0 0) =? -1
    then Boundary_ (eflux (pbval A)) e <> None
    else (length (eflux_recv_locs A e)
          <= length (recv_ (eflux (pbval A)) e))%nat.


(** The conditions under which the values unpacked for direction [e0]
    of block [A] are found in the destination arrays after the call: [e0]
    is handled and has a neighbor, the index bounds of [A] are ordered, and
    the boundary functions of the other faces keep away from its ghost
    edges. *)
Definition eflux_set_at (A : MeshBlock) (e0 : Z) : Prop :=
  In e0 (eflux_dirs A)
  /\ NeighborBlock.gid (neighbor A e0 0 0) <> -1
  /\ is_ A <= ie A /\ js A <= je A /\ ks A <= ke A
  /\ handlers_keep A e0.


(** The states in which ReceiveAndSetFluidBoundary has what it needs for
    direction [dir] of block [pmb]: at a physical boundary a boundary
    function; otherwise a receive buffer holding at least the elements the
    unpack loops read, and, where the code waits for a message, a wait
    that completes. *)
Definition fluid_receivable (w : Process) (pmb : MeshBlock) (dir : Z) : Prop :=
  if NeighborBlock.gid (neighbor pmb dir 0 0) =? -1
  then Boundary_ (fluid (pbval pmb)) dir <> None
  else NFLUID * range_count (fluid_recv_se_ (tabs w) dir)
       <= Z.of_nat (length (recv_ (fluid (pbval pmb)) dir))
       /\ (MPI_PARALLEL = true ->
           flag_ (fluid (pbval pmb)) dir 0 0 = false ->
           NeighborBlock.rank (neighbor pmb dir 0 0) <> myrank ->
           MPI_Wait (mpi w) (req_recv_ (fluid (pbval pmb)) dir 0 0) <> None).

Definition field_receivable (w : Process) (pmb : MeshBlock) (dir : Z) : Prop :=
  if NeighborBlock.gid (neighbor pmb dir 0 0) =? -1
  then Boundary_ (field (pbval pmb)) dir <> None
  else range_count (field_recv_se_ (tabs w) dir x1face)
       + range_count (field_recv_se_ (tabs w) dir x2face)
       + range_count (field_recv_se_ (tabs w) dir x3face)
       <= Z.of_nat (length (recv_ (field (pbval pmb)) dir))
       /\ (MPI_PARALLEL = true ->
           flag_ (field (pbval pmb)) dir 0 0 = false ->
           NeighborBlock.rank (neighbor pmb dir 0 0) <> myrank ->
           MPI_Wait (mpi w) (req_recv_ (field (pbval pmb)) dir 0 0) <> None).


(** [w'] is the process [w] after some transfers: the same tables, the
    same block found by every walk of the block list, and every block
    changed in its boundary values only. *)
Definition evolves (w w' : Process) : Prop :=
  tabs w' = tabs w
  /\ (forall g, find_gid g (pblock w') = find_gid g (pblock w))
  /\ forall n b, nth_error (pblock w) n = Some b ->
       exists b', nth_error (pblock w') n = Some b' /\ kin b b'.

(** What the send loop of LoadAndSendEFluxBoundaryBuffer needs for
    direction [e] of block [B]: a send buffer of the size of the table,
    and, for a neighbor on this rank, a block with the gid of the
    neighbor in the list, whose receive buffer of the opposite side has
    the size of the table. *)
Definition eflux_sendable_at (w : Process) (B : MeshBlock) (e : Z) : Prop :=
  NeighborBlock.gid (neighbor B e 0 0) <> -1 ->
  Z.of_nat (length (send_ (eflux (pbval B)) e)) = eflux_bufsize_ (tabs w) e
  /\ (NeighborBlock.rank (neighbor B e 0 0) = myrank ->
      exists n T,
        find_gid (NeighborBlock.gid (neighbor B e 0 0)) (pblock w) = Some n
        /\ nth_error (pblock w) n = Some T
        /\ Z.of_nat (length (recv_ (eflux (pbval T)) (oside e)))
           = eflux_bufsize_ (tabs w) e).

Definition eflux_sendable (w : Process) (B : MeshBlock) : Prop :=
  forall e, In e (eflux_dirs B) -> eflux_sendable_at w B e.


(** The buffer layout in the words of the specification: each flux value
    immediately followed by its weight sample. *)
Fixpoint adjacent_pairs (fluxes weights : list Real) : list Real :=
  match fluxes, weights with
  | f :: fs, v :: vs => f :: v :: adjacent_pairs fs vs
  | _, _ => []
  end.

(** The buffer layout of the pack blocks: per edge segment, the run of
    the flux values of the segment followed by the run of its weight
    samples. *)
Definition flux_run_then_weight_run (pmb : MeshBlock)
  (fsrc wsrc : InterfaceField) (d : Z) : list Real :=
  flat_map (fun s => seg_fluxes fsrc s ++ seg_weights wsrc s)
           (eflux_segments pmb d (eflux_send_at pmb d)).


(** ** Vocabulary of the further properties *)

(** The row [r] moved by [n] indices along the axis normal to face [d]. *)
Definition move_along (d n : Z) (r : Range) : Range :=
  if d <? 2 then mkRange (si r + n) (ei r + n) (sj r) (ej r) (sk r) (ek r)
  else if d <? 4 then mkRange (si r) (ei r) (sj r + n) (ej r + n) (sk r) (ek r)
  else mkRange (si r) (ei r) (sj r) (ej r) (sk r + n) (ek r + n).

(** The sign of the index direction that leaves the block through face
    [d]: downwards at an inner face, upwards at an outer face. *)
Definition outward (d : Z) : Z := if Z.even d then -1 else 1.

(** The cell count of the block along the axis normal to face [d]. *)
Definition cells_along (d nx1 nx2 nx3 : Z) : Z :=
  if d <? 2 then nx1 else if d <? 4 then nx2 else nx3.

(** A cell of a face-centred field: the face array, the component and
    the index triple. *)
Definition FCell : Type := face * Z * (Z * Z * Z).

Definition read_cell (f : InterfaceField) (l : FCell) : Real :=
  let '(c, n, (k, j, i)) := l in face_of f c n k j i.

Definition write_cell (l : FCell) (v : Real) (f : InterfaceField)
  : InterfaceField :=
  let '(c, n, (k, j, i)) := l in set_face c f n k j i v.

(** The cells of the rows [rs] in the order of the pack and unpack loops
    of the field channel: component 0 of [x1f], then of [x2f], then of
    [x3f]. *)
Definition field_cells (rs : face -> Range) : list FCell :=
  map (fun l => (fst l, 0, snd l)) (field_locs rs).

(** [w1] is the process [w] with some members of channel [c] written:
    the tables, the mesh, the geometry of every block, the other channels
    and the boundary functions are the same, and so is every send buffer
    outside [Ws], every receive buffer outside [Wr], every flag outside
    [Wf], every send request outside [Wqs] and every receive request
    outside [Wqr] (each given by the position of the block in the list and
    the indices of the member).  The MPI state may differ. *)
Definition same_except (c : chan)
  (Ws Wr : nat -> Z -> Prop) (Wf Wqs Wqr : nat -> Z -> Z -> Z -> Prop)
  (w w1 : Process) : Prop :=
  tabs w1 = tabs w
  /\ mesh_bcs w1 = mesh_bcs w
  /\ forall n b, nth_error (pblock w) n = Some b ->
       exists b',
         nth_error (pblock w1) n = Some b'
         /\ b' = set_pbval b (pbval b')
         /\ (forall c', c' <> c ->
               get_chan c' (pbval b') = get_chan c' (pbval b))
         /\ Boundary_ (get_chan c (pbval b')) = Boundary_ (get_chan c (pbval b))
         /\ (forall y, ~ Ws n y ->
               send_ (get_chan c (pbval b')) y = send_ (get_chan c (pbval b)) y)
         /\ (forall y, ~ Wr n y ->
               recv_ (get_chan c (pbval b')) y = recv_ (get_chan c (pbval b)) y)
         /\ (forall y u v, ~ Wf n y u v ->
               flag_ (get_chan c (pbval b')) y u v
               = flag_ (get_chan c (pbval b)) y u v)
         /\ (forall y u v, ~ Wqs n y u v ->
               req_send_ (get_chan c (pbval b')) y u v
               = req_send_ (get_chan c (pbval b)) y u v)
         /\ (forall y u v, ~ Wqr n y u v ->
               req_recv_ (get_chan c (pbval b')) y u v
               = req_recv_ (get_chan c (pbval b)) y u v).

(** What a LoadAndSend of channel [c] by block [me] in direction [dir]
    may write: the send buffer [x_send_[dir]] and the send request
    [req_x_send_[dir][0][0]] of block [me], and, in any block, the receive
    buffer [x_recv_[oside dir]] and the flag [x_flag_[oside dir][0][0]]. *)
Definition only_sends (c : chan) (me : nat) (dir : Z) (w w1 : Process) : Prop :=
  same_except c
    (fun n y => n = me /\ y = dir)
    (fun _ y => y = oside dir)
    (fun _ y u v => y = oside dir /\ u = 0 /\ v = 0)
    (fun n y u v => n = me /\ y = dir /\ u = 0 /\ v = 0)
    (fun _ _ _ _ => False)
    w w1.

(** What a WaitSend of channel [c] by block [me] may write: the send
    requests [req_x_send_[y][0][0]] of block [me] for the directions [y]
    in [dirs]. *)
Definition only_waits (c : chan) (me : nat) (dirs : Z -> Prop)
  (w w1 : Process) : Prop :=
  same_except c
    (fun _ _ => False) (fun _ _ => False) (fun _ _ _ _ => False)
    (fun n y u v => n = me /\ dirs y /\ u = 0 /\ v = 0)
    (fun _ _ _ _ => False)
    w w1.

(** What the switches of the constructor have established once the
    directions [L] are done: their codes are accepted and their functions
    stored, the other entries and all buffers and flags are those of the
    storage [raw]. *)
Definition switched (pmb : MeshBlock) (raw : BoundaryValues) (L : list Z)
  (bv : BoundaryValues) : Prop :=
  (forall d, In d L ->
     recognized (block_bcs pmb d) = true
     /\ handlers_at bv d = handlers_for d (block_bcs pmb d))
  /\ (forall d, ~ In d L -> handlers_at bv d = handlers_at raw d)
  /\ (forall c, send_ (get_chan c bv) = send_ (get_chan c raw)
                /\ recv_ (get_chan c bv) = recv_ (get_chan c raw)
                /\ flag_ (get_chan c bv) = flag_ (get_chan c raw)).

(** The number of directions that get buffers. *)
Definition allocated_dirs (pmb : MeshBlock) : Z :=
  if RegionSize.nx3 (block_size pmb) >? 1 then 6
  else if RegionSize.nx2 (block_size pmb) >? 1 then 4 else 2.


(** The cells of the block itself, with the bounds [is], [ie], [js],
    [je], [ks], [ke] that [InitBoundaryBuffer] computes, and the faces of
    array [c] that bound them. *)
Definition active_zone (nx1 nx2 nx3 : Z) : Range :=
  let is_ := NGHOST in
  let ie := is_ + nx1 - 1 in
  let js := if nx2 >? 1 then NGHOST else 0 in
  let je := if nx2 >? 1 then js + nx2 - 1 else 0 in
  let ks := if nx3 >? 1 then NGHOST else 0 in
  let ke := if nx3 >? 1 then ks + nx3 - 1 else 0 in
  mkRange is_ ie js je ks ke.

Definition active_faces (nx1 nx2 nx3 : Z) (c : face) : Range :=
  let a := active_zone nx1 nx2 nx3 in
  match c with
  | x1face => mkRange (si a) (ei a + 1) (sj a) (ej a) (sk a) (ek a)
  | x2face => mkRange (si a) (ei a) (sj a) (ej a + 1) (sk a) (ek a)
  | x3face => mkRange (si a) (ei a) (sj a) (ej a) (sk a) (ek a + 1)
  end.

Definition inside (r : Range) (k j i : Z) : Prop :=
  sk r <= k <= ek r /\ sj r <= j <= ej r /\ si r <= i <= ei r.

(** ** Waiting for sends *)

(** [if(pmb->neighbor[dir][0][0].rank!=-1
        && pmb->neighbor[dir][0][0].rank!=myrank)
      MPI_Wait(&req_x_send_[dir][0][0],MPI_STATUS_IGNORE);] *)
Definition WaitSend (c : chan) (me : nat) (dir : Z) (w : Process)
  : outcome Process :=
  pmb <- block w me ;;
  let nb := neighbor pmb dir 0 0 in
  if negb (NeighborBlock.rank nb =? -1) && negb (NeighborBlock.rank nb =? myrank)
  then
    match MPI_Wait (mpi w) (req_send_ (get_chan c (pbval pmb)) dir 0 0) with
    | None => Blocked
    | Some (m, rq, _) =>
        put_chan (set_mpi w m) me c
          (set_req_send (get_chan c (pbval pmb)) dir 0 0 rq)
    end
  else Ret w.

(** [void BoundaryValues::WaitSendFluid(enum direction dir)] *)
Definition WaitSendFluid (w : Process) (me : nat) (dir : Z) : outcome Process :=
  if MPI_PARALLEL then WaitSend Fluid me dir w else Ret w.

(** [void BoundaryValues::WaitSendField(enum direction dir)] *)
Definition WaitSendField (w : Process) (me : nat) (dir : Z) : outcome Process :=
  if MPI_PARALLEL then WaitSend Field me dir w else Ret w.

(** [void BoundaryValues::WaitSendEFlux(void)] *)
Definition WaitSendEFlux (w : Process) (me : nat) : outcome Process :=
  if MPI_PARALLEL then
    pmb <- block w me ;;
    if RegionSize.nx2 (block_size pmb) =? 1 then Ret w
    else
      let ndir := if RegionSize.nx3 (block_size pmb) >? 1 then 6 else 4 in
      for_loop 0 (ndir - 1) (WaitSend EFlux me) w
  else Ret w.

(** A direction in which the block has a neighbor on another rank, as
    the StartReceiving functions test it. *)
Definition remote_side (pmb : MeshBlock) (i : Z) : bool :=
  negb (NeighborBlock.gid (neighbor pmb i 0 0) =? -1)
  && negb (NeighborBlock.rank (neighbor pmb i 0 0) =? myrank).

(** The MPI state after the receives of channel [c] for the directions
    [l] have been posted, one after the other. *)
Definition receives_posted (c : chan) (flag : Z) (t : Tables) (pmb : MeshBlock)
  (l : list Z) (m : MPI) : MPI :=
  fold_left (fun m i =>
               fst (MPI_Irecv m (bufsize c t i)
                      (NeighborBlock.rank (neighbor pmb i 0 0))
                      (CreateMPITag (lid pmb) flag i (tag_of c) 0 0)))
            l m.

(** * Properties *)

Lemma dir_cases (d : Z) :
  0 <= d < 6 ->
  d = inner_x1 \/ d = outer_x1 \/ d = inner_x2 \/ d = outer_x2
  \/ d = inner_x3 \/ d = outer_x3.
Proof. unfold inner_x1, outer_x1, inner_x2, outer_x2, inner_x3, outer_x3. lia. Qed.

Ltac each_dir H :=
  apply dir_cases in H;
  destruct H as [H|[H|[H|[H|[H|H]]]]]; subst.

Ltac by_dir d :=
  destruct (Z.eqb_spec d 0) as [->|?]; [reflexivity|];
  destruct (Z.eqb_spec d 1) as [->|?]; [reflexivity|];
  destruct (Z.eqb_spec d 2) as [->|?]; [reflexivity|];
  destruct (Z.eqb_spec d 3) as [->|?]; [reflexivity|];
  destruct (Z.eqb_spec d 4) as [->|?]; [reflexivity|];
  destruct (Z.eqb_spec d 5) as [->|?]; reflexivity.

Lemma the_tables_fluid_bufsize (nx1 nx2 nx3 d : Z) :
  fluid_bufsize_ (the_tables nx1 nx2 nx3) d
  = if (d =? inner_x1) || (d =? outer_x1) then NGHOST*nx2*nx3*NFLUID
    else if (d =? inner_x2) || (d =? outer_x2)
    then (nx1+2*NGHOST)*NGHOST*nx3*NFLUID
    else if (d =? inner_x3) || (d =? outer_x3)
    then (nx1+2*NGHOST)*(nx2+2*NGHOST)*NGHOST*NFLUID
    else 0.
Proof.
  unfold the_tables, InitBoundaryBuffer. cbv zeta.
  destruct MAGNETIC_FIELDS_ENABLED; cbn [negb fluid_bufsize_]; unfold upd;
    unfold inner_x1, outer_x1, inner_x2, outer_x2, inner_x3, outer_x3;
    by_dir d.
Qed.

Lemma the_tables_field_bufsize (nx1 nx2 nx3 d : Z) :
  MAGNETIC_FIELDS_ENABLED = true ->
  field_bufsize_ (the_tables nx1 nx2 nx3) d
  = if (d =? inner_x1) || (d =? outer_x1)
    then NGHOST*(nx2*nx3+(nx2+1)*nx3+nx2*(nx3+1))
    else if (d =? inner_x2) || (d =? outer_x2)
    then NGHOST*((nx1+2*NGHOST)*nx3+(nx1+2*NGHOST+1)*nx3+(nx1+2*NGHOST)*(nx3+1))
    else if (d =? inner_x3) || (d =? outer_x3)
    then NGHOST*((nx1+2*NGHOST+1)*(nx2+2*NGHOST)
                 +(nx1+2*NGHOST)*(nx2+2*NGHOST+1)
                 +(nx1+2*NGHOST)*(nx2+2*NGHOST))
    else 0.
Proof.
  intros Hm. unfold the_tables, InitBoundaryBuffer. cbv zeta.
  rewrite Hm. cbn [negb field_bufsize_]. unfold upd.
  unfold inner_x1, outer_x1, inner_x2, outer_x2, inner_x3, outer_x3.
  by_dir d.
Qed.

Lemma the_tables_eflux_bufsize (nx1 nx2 nx3 d : Z) :
  MAGNETIC_FIELDS_ENABLED = true ->
  eflux_bufsize_ (the_tables nx1 nx2 nx3) d
  = if nx2 =? 1 then 0
    else if nx3 =? 1 then
      if (d =? inner_x1) || (d =? outer_x1) then (nx2+1)*2
      else if (d =? inner_x2) || (d =? outer_x2) then (nx1+1)*2
      else 0
    else
      if (d =? inner_x1) || (d =? outer_x1)
      then (nx2+1)*nx3*2+nx2*(nx3+1)*2
      else if (d =? inner_x2) || (d =? outer_x2)
      then (nx1+1)*nx3*2+nx1*(nx3+1)*2
      else if (d =? inner_x3) || (d =? outer_x3)
      then (nx1+1)*nx2*2+nx1*(nx2+1)*2
      else 0.
Proof.
  intros Hm. unfold the_tables, InitBoundaryBuffer. cbv zeta.
  rewrite Hm. cbn [negb eflux_bufsize_].
  destruct (nx2 =? 1); [reflexivity|].
  unfold upd, inner_x1, outer_x1, inner_x2, outer_x2, inner_x3, outer_x3.
  destruct (nx3 =? 1); by_dir d.
Qed.

Lemma the_tables_unmagnetized (nx1 nx2 nx3 d : Z) :
  MAGNETIC_FIELDS_ENABLED = false ->
  field_bufsize_ (the_tables nx1 nx2 nx3) d = 0
  /\ eflux_bufsize_ (the_tables nx1 nx2 nx3) d = 0.
Proof.
  intros Hm. unfold the_tables, InitBoundaryBuffer. cbv zeta.
  rewrite Hm. cbn. auto.
Qed.

Lemma oside_cases (d : Z) :
  0 <= d < 6 ->
  (d = inner_x1 /\ oside d = outer_x1) \/ (d = outer_x1 /\ oside d = inner_x1)
  \/ (d = inner_x2 /\ oside d = outer_x2) \/ (d = outer_x2 /\ oside d = inner_x2)
  \/ (d = inner_x3 /\ oside d = outer_x3) \/ (d = outer_x3 /\ oside d = inner_x3).
Proof.
  intros H. each_dir H; cbv; auto 10.
Qed.

Lemma fluid_bufsize_oside (nx1 nx2 nx3 d : Z) :
  0 <= d < 6 ->
  fluid_bufsize_ (the_tables nx1 nx2 nx3) d
    = fluid_bufsize_ (the_tables nx1 nx2 nx3) (oside d).
Proof.
  intros Hd. rewrite !the_tables_fluid_bufsize.
  destruct (oside_cases d Hd) as [[-> ->]|[[-> ->]|[[-> ->]|[[-> ->]|[[-> ->]|[-> ->]]]]]];
    reflexivity.
Qed.

(** C1: in the table of a process, every channel gives a direction and
    its opposite side the same buffer element count. *)
Theorem bufsize_opposite_side (nx1 nx2 nx3 d : Z) :
  0 <= d < 6 ->
  fluid_bufsize_ (the_tables nx1 nx2 nx3) d
    = fluid_bufsize_ (the_tables nx1 nx2 nx3) (oside d)
  /\ field_bufsize_ (the_tables nx1 nx2 nx3) d
    = field_bufsize_ (the_tables nx1 nx2 nx3) (oside d)
  /\ eflux_bufsize_ (the_tables nx1 nx2 nx3) d
    = eflux_bufsize_ (the_tables nx1 nx2 nx3) (oside d).
Proof.
  intros Hd. rewrite !the_tables_fluid_bufsize.
  destruct MAGNETIC_FIELDS_ENABLED eqn:Hm.
  - rewrite !the_tables_field_bufsize, !the_tables_eflux_bufsize by exact Hm.
    destruct (oside_cases d Hd) as [[-> ->]|[[-> ->]|[[-> ->]|[[-> ->]|[[-> ->]|[-> ->]]]]]];
      cbn; repeat split; reflexivity.
  - destruct (the_tables_unmagnetized nx1 nx2 nx3 d Hm) as [-> ->].
    destruct (the_tables_unmagnetized nx1 nx2 nx3 (oside d) Hm) as [-> ->].
    destruct (oside_cases d Hd) as [[-> ->]|[[-> ->]|[[-> ->]|[[-> ->]|[[-> ->]|[-> ->]]]]]];
      cbn; repeat split; reflexivity.
Qed.

(** ** The field table (C5) *)

(** C5: along the normal axis, the two components that are not
    aligned with the face use the plain slab of thickness [NGHOST]; the
    aligned component uses the plain slab moved one layer inward at an
    inner face and the plain slab itself at an outer face; in both cases
    it has thickness [NGHOST] and leaves out the face that coincides with
    the boundary. *)
Theorem field_send_normal_ranges (nx1 nx2 nx3 d : Z) :
  MAGNETIC_FIELDS_ENABLED = true ->
  0 <= d < 6 ->
  let t := the_tables nx1 nx2 nx3 in
  let al := normal_range d (field_send_se_ t d (aligned_face d)) in
  snd (plain_slab t d) - fst (plain_slab t d) + 1 = NGHOST
  /\ (forall c, c <> aligned_face d ->
        normal_range d (field_send_se_ t d c) = plain_slab t d)
  /\ al = (if Z.even d then shift_inward d 1 (plain_slab t d)
           else plain_slab t d)
  /\ snd al - fst al + 1 = NGHOST
  /\ ~ (fst al <= boundary_face t d <= snd al).
Proof.
  intros Hm Hd t al. subst t al.
  unfold boundary_face, plain_slab, the_tables, InitBoundaryBuffer.
  rewrite Hm. cbn [negb].
  each_dir Hd; cbn;
    destruct (nx2 >? 1); destruct (nx3 >? 1);
    (split; [ lia | split; [ intros [ | | ] Hc; try reflexivity; now elim Hc
                           | split; [ apply f_equal2; lia | split; cbn; lia ] ] ]).
Qed.


(** ** Lists of blocks *)

Lemma length_set_nth {A} (n : nat) (x : A) (l : list A) :
  length (set_nth n x l) = length l.
Proof.
  revert n; induction l as [|y l IH]; intros [|n]; cbn; auto.
Qed.

Lemma nth_error_set_nth_eq {A} (n : nat) (x : A) (l : list A) :
  (n < length l)%nat -> nth_error (set_nth n x l) n = Some x.
Proof.
  revert n; induction l as [|y l IH]; intros [|n] H; cbn in *;
    try lia; auto. apply IH; lia.
Qed.

Lemma nth_error_set_nth_ne {A} (n m : nat) (x : A) (l : list A) :
  n <> m -> nth_error (set_nth n x l) m = nth_error l m.
Proof.
  revert n m; induction l as [|y l IH]; intros [|n] [|m] H; cbn;
    try congruence; auto.
Qed.

Lemma block_Ret (w : Process) (me : nat) (b : MeshBlock) :
  nth_error (pblock w) me = Some b -> block w me = Ret b.
Proof. unfold block; now intros ->. Qed.

Lemma block_inv (w : Process) (me : nat) (b : MeshBlock) :
  block w me = Ret b -> nth_error (pblock w) me = Some b.
Proof. unfold block; destruct (nth_error _ _); congruence. Qed.

Lemma put_chan_Ret (w : Process) (me : nat) (c : chan) (ch : Channel)
  (b : MeshBlock) :
  nth_error (pblock w) me = Some b ->
  put_chan w me c ch = Ret (set_block w me (set_pbval b (set_chan c (pbval b) ch))).
Proof. intros H. unfold put_chan. now rewrite (block_Ret _ _ _ H). Qed.

(** ** Enrollment (C7) *)

Lemma Enroll_cases (c : chan) (fn verb : string) :
  enroll_cases c (Enroll c fn verb).
Proof.
  intros w me dir my_bc. unfold Enroll. repeat split.
  - intros H.
    destruct ((dir <? 0) || (dir >? 5)) eqn:E; [eauto|].
    apply orb_false_iff in E. lia.
  - intros H Hb.
    replace ((dir <? 0) || (dir >? 5)) with false
      by (symmetry; apply orb_false_iff; lia).
    apply Z.eqb_neq in Hb. rewrite Hb. cbn. eauto.
  - intros Hg.
    replace ((dir <? 0) || (dir >? 5)) with false
      by (symmetry; apply orb_false_iff; lia).
    rewrite H0, Z.eqb_refl. cbn [negb].
    rewrite (block_Ret _ _ _ H1). cbn [bind].
    apply Z.eqb_neq in Hg. now rewrite Hg.
  - intros Hg.
    replace ((dir <? 0) || (dir >? 5)) with false
      by (symmetry; apply orb_false_iff; lia).
    rewrite H0, Z.eqb_refl. cbn [negb].
    rewrite (block_Ret _ _ _ H1). cbn [bind].
    rewrite Hg. cbn. now apply put_chan_Ret.
Qed.

(** C7: an enrollment on an out-of-range direction index, or on
    a direction whose mesh boundary code is not 3, throws; with code 3 an
    enrollment on a direction backed by a neighbor returns normally and
    changes nothing, and on a direction without neighbor it installs the
    function. *)
Theorem enrollment_cases :
  enroll_cases Fluid EnrollFluidBoundaryFunction
  /\ enroll_cases Field EnrollFieldBoundaryFunction
  /\ enroll_cases EFlux EnrollEFluxBoundaryFunction.
Proof.
  split; [|split]; unfold EnrollFluidBoundaryFunction,
    EnrollFieldBoundaryFunction, EnrollEFluxBoundaryFunction;
    apply Enroll_cases.
Qed.

(** ** Physical boundaries (C8) *)




(** ** Loops *)

Lemma In_zrange (s e x : Z) : In x (zrange s e) <-> s <= x <= e.
Proof.
  unfold zrange. rewrite in_map_iff. split.
  - intros [n [<- Hn]]. apply in_seq in Hn. lia.
  - intros H. exists (Z.to_nat (x - s)). split; [lia|].
    apply in_seq. lia.
Qed.

Lemma length_zrange (s e : Z) : Z.of_nat (length (zrange s e)) = extent s e.
Proof. unfold zrange, extent. rewrite length_map, length_seq. lia. Qed.

Lemma for_each_app {X S} (l1 l2 : list X) (body : X -> S -> outcome S) (s : S) :
  for_each (l1 ++ l2) body s = (s' <- for_each l1 body s ;; for_each l2 body s').
Proof.
  revert s; induction l1 as [|x l1 IH]; intros s; cbn; [reflexivity|].
  destruct (body x s); cbn; auto.
Qed.

(** A loop whose body always returns and keeps an invariant that may
    mention the elements already visited. *)
Lemma for_each_acc {X S} (Q : list X -> S -> Prop) (l : list X)
  (body : X -> S -> outcome S) :
  (forall done x s, In x l -> Q done s ->
     exists s', body x s = Ret s' /\ Q (done ++ [x]) s') ->
  forall done s, Q done s ->
    exists s', for_each l body s = Ret s' /\ Q (done ++ l) s'.
Proof.
  induction l as [|x l IH]; intros Hstep done s HQ; cbn.
  - exists s. now rewrite app_nil_r.
  - destruct (Hstep done x s) as [s1 [E1 Q1]]; [now left | exact HQ |].
    rewrite E1. cbn.
    destruct (IH (fun d y s0 Hy => Hstep d y s0 (or_intror Hy)) _ _ Q1)
      as [s2 [E2 Q2]].
    exists s2. split; [exact E2|]. now rewrite <- app_assoc in Q2.
Qed.

Lemma for_each_inv {X S} (P : S -> Prop) (l : list X)
  (body : X -> S -> outcome S) (s : S) :
  P s ->
  (forall x s, In x l -> P s -> exists s', body x s = Ret s' /\ P s') ->
  exists s', for_each l body s = Ret s' /\ P s'.
Proof.
  intros HP Hstep.
  destruct (@for_each_acc X S (fun _ => P) l body
              (fun _ x s0 Hx HP0 => Hstep x s0 Hx HP0) [] s HP) as [s' [E HP']].
  eauto.
Qed.

(** ** Flags and the post-receive step (C9) *)

Lemma map_set_nth_same {A B} (f : A -> B) (n : nat) (x b : A) (l : list A) :
  nth_error l n = Some b -> f x = f b ->
  map f (set_nth n x l) = map f l.
Proof.
  revert n; induction l as [|y l IH]; intros [|n] H Hf; cbn in *;
    try congruence.
  f_equal. now apply IH.
Qed.

Lemma put_chan_keeps_flags (w : Process) (me : nat) (c : chan) (ch : Channel)
  (b : MeshBlock) :
  nth_error (pblock w) me = Some b ->
  flag_ ch = flag_ (get_chan c (pbval b)) ->
  all_flags (set_block w me (set_pbval b (set_chan c (pbval b) ch)))
  = all_flags w.
Proof.
  intros Hb Hf. unfold all_flags, set_block. cbn [pblock].
  apply map_set_nth_same with (b := b); [exact Hb|].
  destruct c; cbn in *; now rewrite Hf.
Qed.

Lemma nth_error_lt {A} (l : list A) (n : nat) (x : A) :
  nth_error l n = Some x -> (n < length l)%nat.
Proof. intros H. apply nth_error_Some. congruence. Qed.

Lemma nth_error_exists {A} (l : list A) (n : nat) :
  (n < length l)%nat -> exists x, nth_error l n = Some x.
Proof.
  intros H. destruct (nth_error l n) eqn:E; [eauto|].
  apply nth_error_None in E. lia.
Qed.

(** Posting a receive changes requests and the MPI state only. *)
Lemma PostReceive_keeps_flags (c : chan) (flag : Z) (me : nat) (i : Z)
  (w : Process) (b : MeshBlock) :
  nth_error (pblock w) me = Some b ->
  exists w' b',
    PostReceive c flag me i w = Ret w'
    /\ nth_error (pblock w') me = Some b'
    /\ block_size b' = block_size b
    /\ all_flags w' = all_flags w.
Proof.
  intros Hb. unfold PostReceive. rewrite (block_Ret _ _ _ Hb). cbn [bind].
  destruct (_ && _).
  - destruct (MPI_Irecv _ _ _ _) as [m rq].
    rewrite (@put_chan_Ret (set_mpi w m) me c _ b Hb).
    eexists; eexists; split; [reflexivity|]. split; [|split].
    + cbn. apply nth_error_set_nth_eq. eapply nth_error_lt; eauto.
    + reflexivity.
    + now apply (@put_chan_keeps_flags (set_mpi w m)).
  - exists w, b. auto.
Qed.

Lemma post_loop_keeps_flags (c : chan) (flag : Z) (me : nat) (s e : Z)
  (w : Process) (b : MeshBlock) :
  nth_error (pblock w) me = Some b ->
  exists w', for_loop s e (PostReceive c flag me) w = Ret w'
             /\ all_flags w' = all_flags w.
Proof.
  intros Hb. unfold for_loop.
  destruct (@for_each_inv Z Process
              (fun w' => (exists b', nth_error (pblock w') me = Some b')
                         /\ all_flags w' = all_flags w)
              (zrange s e) (PostReceive c flag me) w) as [w' [E [_ HF]]].
  - split; eauto.
  - intros x w0 _ [[b0 Hb0] HF0].
    destruct (@PostReceive_keeps_flags c flag me x w0 b0 Hb0)
      as [w1 [b1 [E1 [Hb1 [_ HF1]]]]].
    exists w1. split; [exact E1|]. split; [eauto | congruence].
  - eauto.
Qed.

(** C9: StartReceivingFluid and StartReceivingField return and
    leave every completion flag of the process as it was; StartReceivingEFlux
    does nothing on a 1D block and otherwise clears the eflux flag of each
    of the directions [0..ndir-1], whatever the flags were before. *)
Theorem start_receiving_flags
  (w : Process) (me : nat) (flag : Z) (pmb : MeshBlock) :
  nth_error (pblock w) me = Some pmb ->
  (exists w', StartReceivingFluid w me flag = Ret w'
              /\ all_flags w' = all_flags w)
  /\ (exists w', StartReceivingField w me flag = Ret w'
                 /\ all_flags w' = all_flags w)
  /\ (RegionSize.nx2 (block_size pmb) = 1 ->
        StartReceivingEFlux w me flag = Ret w)
  /\ (RegionSize.nx2 (block_size pmb) <> 1 ->
        exists w' pmb',
          StartReceivingEFlux w me flag = Ret w'
          /\ nth_error (pblock w') me = Some pmb'
          /\ forall d,
               0 <= d < (if RegionSize.nx3 (block_size pmb) >? 1 then 6 else 4) ->
               flag_ (eflux (pbval pmb')) d 0 0 = false).
Proof.
  intros Hb. split; [|split; [|split]].
  - unfold StartReceivingFluid. destruct MPI_PARALLEL; [|eauto].
    now apply post_loop_keeps_flags with (b := pmb).
  - unfold StartReceivingField. destruct MPI_PARALLEL; [|eauto].
    now apply post_loop_keeps_flags with (b := pmb).
  - intros H1. unfold StartReceivingEFlux.
    rewrite (block_Ret _ _ _ Hb). cbn [bind]. now rewrite H1.
  - intros H1. unfold StartReceivingEFlux.
    rewrite (block_Ret _ _ _ Hb). cbn [bind].
    apply Z.eqb_neq in H1. rewrite H1.
    set (ndir := if RegionSize.nx3 (block_size pmb) >? 1 then 6 else 4).
    unfold for_loop.
    match goal with |- exists _ _, for_each _ ?body _ = _ /\ _ =>
      destruct (@for_each_acc Z Process
        (fun done w' => exists b', nth_error (pblock w') me = Some b'
           /\ forall d, In d done -> flag_ (eflux (pbval b')) d 0 0 = false)
        (zrange 0 (ndir - 1)) body) with (done := @nil Z) (s := w)
        as [w' [E [b' [Hb' HF]]]]
    end.
    + intros done x w0 _ [b0 [Hb0 HF0]].
      rewrite (block_Ret _ _ _ Hb0). cbn [bind].
      rewrite (put_chan_Ret _ _ _ _ _ Hb0). cbn [bind].
      set (b1 := set_pbval b0 _). set (w1 := set_block w0 me b1).
      assert (Hb1 : nth_error (pblock w1) me = Some b1).
      { cbn. apply nth_error_set_nth_eq. eapply nth_error_lt; eauto. }
      assert (HF1 : forall d, In d (done ++ [x]) ->
                flag_ (eflux (pbval b1)) d 0 0 = false).
      { intros d Hd. cbn. unfold upd3.
        destruct ((d =? x) && (0 =? 0) && (0 =? 0)) eqn:Ed; [reflexivity|].
        apply in_app_iff in Hd. destruct Hd as [Hd|[Hd|[]]].
        - now apply HF0.
        - subst. rewrite Z.eqb_refl in Ed. discriminate. }
      destruct MPI_PARALLEL.
      * destruct (@PostReceive_keeps_flags EFlux flag me x w1 b1 Hb1)
          as [w2 [b2 [E2 [Hb2 [_ HF2]]]]].
        exists w2. split; [exact E2|]. exists b2. split; [exact Hb2|].
        intros d Hd. specialize (HF1 d Hd).
        assert (Hfl : nth_error (all_flags w2) me = nth_error (all_flags w1) me)
          by now rewrite HF2.
        unfold all_flags in Hfl. rewrite !nth_error_map, Hb1, Hb2 in Hfl.
        cbn in Hfl. injection Hfl as _ _ Hfl. now rewrite Hfl.
      * exists w1. split; [reflexivity|]. eauto.
    + exists pmb. split; [exact Hb|]. intros d [].
    + exists w', b'. split; [exact E|]. split; [exact Hb'|].
      intros d Hd. apply HF. cbn [app]. apply In_zrange. lia.
Qed.


(** ** The constructor (C6) *)

Lemma new_Real_Ret (n : Z) :
  0 <= n -> new_Real n = Ret (repeat indeterminate (Z.to_nat n)).
Proof.
  intros H. unfold new_Real.
  destruct (n <? 0) eqn:E; [apply Z.ltb_lt in E; lia | reflexivity].
Qed.

Lemma alloc_buffers_Ret (size : Z -> Z) (r : Z) (ch : Channel) :
  (forall i, 0 <= i < r -> 0 <= size i) ->
  exists ch', alloc_buffers size r ch = Ret ch'
              /\ Boundary_ ch' = Boundary_ ch
              /\ (forall i, 0 <= i < r ->
                    length (send_ ch' i) = Z.to_nat (size i)
                    /\ length (recv_ ch' i) = Z.to_nat (size i)).
Proof.
  intros Hs. unfold alloc_buffers, for_loop.
  destruct (for_each_acc
    (fun done ch' => Boundary_ ch' = Boundary_ ch
       /\ forall i, In i done ->
            length (send_ ch' i) = Z.to_nat (size i)
            /\ length (recv_ ch' i) = Z.to_nat (size i))
    (zrange 0 (r - 1))
    (fun i ch0 => s <- new_Real (size i) ;; rcv <- new_Real (size i) ;;
                  Ret (set_recv (set_send ch0 i s) i rcv)))
    with (done := @nil Z) (s := ch) as [ch' [E [HB HL]]].
  - intros done x ch0 Hx [HB HL]. apply In_zrange in Hx.
    rewrite new_Real_Ret by (apply Hs; lia). cbn.
    eexists; split; [reflexivity|]. split; [exact HB|].
    intros i Hi. cbn. unfold upd.
    destruct (i =? x) eqn:Ei.
    + apply Z.eqb_eq in Ei. subst. now rewrite repeat_length.
    + apply in_app_iff in Hi. destruct Hi as [Hi|[Hi|[]]].
      * now apply HL.
      * subst. rewrite Z.eqb_refl in Ei. discriminate.
  - split; [reflexivity | intros i []].
  - exists ch'. split; [exact E|]. split; [exact HB|].
    intros i Hi. apply HL. cbn [app]. apply In_zrange. lia.
Qed.

Lemma init_flags_Ret (ch : Channel) :
  exists ch', init_flags ch = Ret ch'
              /\ Boundary_ ch' = Boundary_ ch
              /\ send_ ch' = send_ ch /\ recv_ ch' = recv_ ch
              /\ (forall i, 0 <= i < 6 -> flag_ ch' i 0 0 = false).
Proof.
  unfold init_flags, for_loop.
  destruct (for_each_acc
    (fun done ch' => Boundary_ ch' = Boundary_ ch
       /\ send_ ch' = send_ ch /\ recv_ ch' = recv_ ch
       /\ forall i, In i done -> flag_ ch' i 0 0 = false)
    (zrange 0 5)
    (fun i ch0 =>
       Ret (set_flag (set_flag (set_flag (set_flag ch0 i 0 0 false)
                                         i 0 1 false) i 1 0 false) i 1 1 false)))
    with (done := @nil Z) (s := ch) as [ch' [E [HB [HS [HR HF]]]]].
  - intros done x ch0 _ [HB [HS [HR HF]]].
    eexists; split; [reflexivity|]. cbn. repeat split; auto.
    intros i Hi. unfold upd3.
    destruct (i =? x) eqn:Ei; cbn; [reflexivity|].
    apply in_app_iff in Hi. destruct Hi as [Hi|[Hi|[]]].
    + now apply HF.
    + subst. rewrite Z.eqb_refl in Ei. discriminate.
  - repeat split; auto. intros i [].
  - exists ch'. repeat split; auto.
    intros i Hi. apply HF. cbn [app]. apply In_zrange. lia.
Qed.

Lemma bc_switch_cases (name : string) (d : Z) (refl outf defl : BValFunc)
  (code : Z) (bv : BoundaryValues) :
  bc_switch name d refl outf defl code bv
  = if recognized code then
      let '(f, g, e) :=
        if code =? 1 then (Some refl, Some refl, Some defl)
        else if code =? 2 then (Some outf, Some outf, Some defl)
        else (None, None, None) in
      Ret (mkBV (set_Boundary (fluid bv) d f) (set_Boundary (field bv) d g)
                (set_Boundary (eflux bv) d e))
    else Throw ("### FATAL ERROR in BoundaryValues constructor" ++ endl
                ++ "Flag " ++ name ++ "=" ++ string_of_int code
                ++ " not valid" ++ endl)%string.
Proof.
  unfold bc_switch, recognized.
  destruct (code =? 1) eqn:E1; [now rewrite orb_true_r|].
  destruct (code =? 2) eqn:E2; [now rewrite orb_true_r|].
  destruct (code =? -1), (code =? 3), (code =? 4); reflexivity.
Qed.

(** The part of the constructor after the switches. *)
Lemma constructor_tail (t : Tables) (nx2 nx3 : Z) (bv : BoundaryValues) :
  (forall i, 0 <= i < 6 ->
     0 <= fluid_bufsize_ t i /\ 0 <= field_bufsize_ t i
     /\ 0 <= eflux_bufsize_ t i) ->
  exists bv',
    allocate_and_clear t nx2 nx3 bv = Ret bv'
    /\ forall d, handlers_at bv' d = handlers_at bv d.
Proof.
  intros Hs. unfold allocate_and_clear. cbv zeta.
  set (r := if nx3 >? 1 then 6 else if nx2 >? 1 then 4 else 2).
  assert (Hr : r <= 6) by (subst r; destruct (nx3 >? 1), (nx2 >? 1); lia).
  destruct (alloc_buffers_Ret (fluid_bufsize_ t) r (fluid bv))
    as [fl [E1 [B1 _]]]; [intros i Hi; apply Hs; lia|].
  rewrite E1. cbn [bind].
  destruct (init_flags_Ret fl) as [fl' [E2 [B2 _]]].
  destruct MAGNETIC_FIELDS_ENABLED.
  - destruct (alloc_buffers_Ret (field_bufsize_ t) r (field bv))
      as [fd [E3 [B3 _]]]; [intros i Hi; apply Hs; lia|].
    rewrite E3. cbn [bind].
    assert (He : exists ef,
               (if nx2 >? 1 then alloc_buffers (eflux_bufsize_ t) r (eflux bv)
                else Ret (eflux bv)) = Ret ef
               /\ Boundary_ ef = Boundary_ (eflux bv)).
    { destruct (nx2 >? 1); [|eauto].
      destruct (alloc_buffers_Ret (eflux_bufsize_ t) r (eflux bv))
        as [ef [E4 [B4 _]]]; [intros i Hi; apply Hs; lia|]. eauto. }
    destruct He as [ef [E4 B4]]. rewrite E4. cbn [bind].
    rewrite E2. cbn [bind].
    destruct (init_flags_Ret fd) as [fd' [E5 [B5 _]]].
    destruct (init_flags_Ret ef) as [ef' [E6 [B6 _]]].
    rewrite E5. cbn [bind]. rewrite E6. cbn [bind].
    eexists; split; [reflexivity|].
    intros d. unfold handlers_at. cbn. congruence.
  - cbn [bind]. rewrite E2. cbn [bind].
    eexists; split; [reflexivity|].
    intros d. unfold handlers_at. cbn. congruence.
Qed.

(** C6: the constructor examines the codes of the directions
    [checked_dirs] only (x1 always, x2 when [nx2>1], x3 when [nx3>1]).
    If one of them is not accepted, it throws the message naming the first
    such direction and its code; otherwise it returns, each examined
    direction holding the functions that belong to its code. *)
Theorem constructor_codes (t : Tables) (pmb : MeshBlock) (raw : BoundaryValues) :
  (forall i, 0 <= i < 6 ->
     0 <= fluid_bufsize_ t i /\ 0 <= field_bufsize_ t i
     /\ 0 <= eflux_bufsize_ t i) ->
  match first_invalid pmb with
  | Some d =>
      BoundaryValues_new t pmb raw
      = Throw (invalid_code_message d (block_bcs pmb d))
  | None =>
      exists bv,
        BoundaryValues_new t pmb raw = Ret bv
        /\ forall d, In d (checked_dirs pmb) ->
             handlers_at bv d = handlers_for d (block_bcs pmb d)
  end.
Proof.
  intros Hs. unfold BoundaryValues_new, first_invalid, checked_dirs.
  set (bcs := block_bcs pmb).
  set (nx2 := RegionSize.nx2 (block_size pmb)).
  set (nx3 := RegionSize.nx3 (block_size pmb)).
  cbv zeta.
  rewrite !bc_switch_cases.
  cbn [app find].
  destruct (recognized (bcs inner_x1)) eqn:R0; cbn [negb bind]; [|reflexivity].
  destruct (if bcs inner_x1 =? 1 then _ else _) as [[f0 g0] e0] eqn:A0.
  cbn [bind]. rewrite !bc_switch_cases.
  destruct (recognized (bcs outer_x1)) eqn:R1; cbn [negb bind]; [|reflexivity].
  destruct (if bcs outer_x1 =? 1 then _ else _) as [[f1 g1] e1] eqn:A1.
  cbn [bind].
  destruct (nx2 >? 1) eqn:E2; cbn [app find bind].
  - rewrite !bc_switch_cases.
    destruct (recognized (bcs inner_x2)) eqn:R2; cbn [negb bind]; [|reflexivity].
    destruct (if bcs inner_x2 =? 1 then _ else _) as [[f2 g2] e2] eqn:A2.
    cbn [bind]. rewrite !bc_switch_cases.
    destruct (recognized (bcs outer_x2)) eqn:R3; cbn [negb bind]; [|reflexivity].
    destruct (if bcs outer_x2 =? 1 then _ else _) as [[f3 g3] e3] eqn:A3.
    cbn [bind].
    destruct (nx3 >? 1) eqn:E3; cbn [app find bind].
    + rewrite !bc_switch_cases.
      destruct (recognized (bcs inner_x3)) eqn:R4; cbn [negb bind]; [|reflexivity].
      destruct (if bcs inner_x3 =? 1 then _ else _) as [[f4 g4] e4] eqn:A4.
      cbn [bind]. rewrite !bc_switch_cases.
      destruct (recognized (bcs outer_x3)) eqn:R5; cbn [negb bind]; [|reflexivity].
      destruct (if bcs outer_x3 =? 1 then _ else _) as [[f5 g5] e5] eqn:A5.
      cbn [bind].
      match goal with |- context [allocate_and_clear _ _ _ ?b] =>
        pose (bb := b) end.
      destruct (constructor_tail t nx2 nx3 bb Hs) as [bv [E H]].
      exists bv. split; [exact E|].
      intros d Hd. rewrite H. unfold handlers_at, handlers_for.
      cbn in Hd. unfold reflect_of, outflow_of, default_eflux_of.
      destruct Hd as [<-|[<-|[<-|[<-|[<-|[<-|[]]]]]]]; cbn; symmetry; assumption.
    + match goal with |- context [allocate_and_clear _ _ _ ?b] =>
        pose (bb := b) end.
      destruct (constructor_tail t nx2 nx3 bb Hs) as [bv [E H]].
      exists bv. split; [exact E|].
      intros d Hd. rewrite H. unfold handlers_at, handlers_for.
      cbn in Hd. unfold reflect_of, outflow_of, default_eflux_of.
      destruct Hd as [<-|[<-|[<-|[<-|[]]]]]; cbn; symmetry; assumption.
  - destruct (nx3 >? 1) eqn:E3; cbn [app find bind].
    + rewrite !bc_switch_cases.
      destruct (recognized (bcs inner_x3)) eqn:R4; cbn [negb bind]; [|reflexivity].
      destruct (if bcs inner_x3 =? 1 then _ else _) as [[f4 g4] e4] eqn:A4.
      cbn [bind]. rewrite !bc_switch_cases.
      destruct (recognized (bcs outer_x3)) eqn:R5; cbn [negb bind]; [|reflexivity].
      destruct (if bcs outer_x3 =? 1 then _ else _) as [[f5 g5] e5] eqn:A5.
      cbn [bind].
      match goal with |- context [allocate_and_clear _ _ _ ?b] =>
        pose (bb := b) end.
      destruct (constructor_tail t nx2 nx3 bb Hs) as [bv [E H]].
      exists bv. split; [exact E|].
      intros d Hd. rewrite H. unfold handlers_at, handlers_for.
      cbn in Hd. unfold reflect_of, outflow_of, default_eflux_of.
      destruct Hd as [<-|[<-|[<-|[<-|[]]]]]; cbn; symmetry; assumption.
    + match goal with |- context [allocate_and_clear _ _ _ ?b] =>
        pose (bb := b) end.
      destruct (constructor_tail t nx2 nx3 bb Hs) as [bv [E H]].
      exists bv. split; [exact E|].
      intros d Hd. rewrite H. unfold handlers_at, handlers_for.
      cbn in Hd. unfold reflect_of, outflow_of, default_eflux_of.
      destruct Hd as [<-|[<-|[]]]; cbn; symmetry; assumption.
Qed.


(** ** Loop nests as traversals of point lists *)

Lemma for_each_ext {X S} (l : list X) (f g : X -> S -> outcome S) (s : S) :
  (forall x s, f x s = g x s) -> for_each l f s = for_each l g s.
Proof.
  intros H. revert s; induction l as [|x l IH]; intros s; cbn; [reflexivity|].
  rewrite H. destruct (g x s); cbn; auto.
Qed.

Lemma for_each_map {X Y S} (h : X -> Y) (l : list X)
  (body : Y -> S -> outcome S) (s : S) :
  for_each (map h l) body s = for_each l (fun x => body (h x)) s.
Proof.
  revert s; induction l as [|x l IH]; intros s; cbn; [reflexivity|].
  destruct (body (h x) s); cbn; auto.
Qed.

Lemma for_each_flat_map {X Y S} (g : X -> list Y) (l : list X)
  (body : Y -> S -> outcome S) (s : S) :
  for_each (flat_map g l) body s = for_each l (fun x => for_each (g x) body) s.
Proof.
  revert s; induction l as [|x l IH]; intros s; cbn; [reflexivity|].
  rewrite for_each_app. destruct (for_each (g x) body s); cbn; auto.
Qed.

(** Three nested loops over a row visit [points3]. *)
Lemma nest3_points {S} (r : Range) (body : Z -> Z -> Z -> S -> outcome S) (s : S) :
  for_loop (sk r) (ek r) (fun k =>
  for_loop (sj r) (ej r) (fun j =>
  for_loop (si r) (ei r) (fun i => body k j i))) s
  = for_each (points3 r) (fun p => let '(k, j, i) := p in body k j i) s.
Proof.
  unfold for_loop, points3. rewrite for_each_flat_map.
  apply for_each_ext. intros k s1.
  rewrite for_each_flat_map. apply for_each_ext. intros j s2.
  now rewrite for_each_map.
Qed.

Lemma nest4_points {S} (r : Range)
  (body : Z -> Z -> Z -> Z -> S -> outcome S) (s : S) :
  for_loop 0 (NFLUID - 1) (fun n =>
  for_loop (sk r) (ek r) (fun k =>
  for_loop (sj r) (ej r) (fun j =>
  for_loop (si r) (ei r) (fun i => body n k j i)))) s
  = for_each (points4 r) (fun p => let '(n, (k, j, i)) := p in body n k j i) s.
Proof.
  unfold for_loop at 1. unfold points4. rewrite for_each_flat_map.
  apply for_each_ext. intros n s1.
  rewrite (nest3_points r (body n)). now rewrite for_each_map.
Qed.

(** ** Sequential writes and reads of a buffer *)

Lemma put_all (vs : list Real) :
  forall a old rest, length old = length vs ->
    for_each vs put (length a, a ++ old ++ rest)
    = Ret (length a + length vs, a ++ vs ++ rest)%nat.
Proof.
  induction vs as [|v vs IH]; intros a old rest H.
  - destruct old; [|discriminate]. cbn. now rewrite Nat.add_0_r.
  - destruct old as [|o old]; [discriminate|]. cbn in H.
    cbn [for_each]. unfold put at 1, store.
    replace (length a <? length (a ++ (o :: old) ++ rest))%nat with true
      by (symmetry; apply Nat.ltb_lt; rewrite length_app; cbn; lia).
    cbn [bind].
    assert (E1 : firstn (length a) (a ++ (o :: old) ++ rest) = a).
    { rewrite firstn_app, Nat.sub_diag, firstn_all. cbn. apply app_nil_r. }
    assert (E2 : skipn (S (length a)) (a ++ (o :: old) ++ rest) = old ++ rest).
    { rewrite skipn_app, skipn_all2 by lia.
      replace (S (length a) - length a)%nat with 1%nat by lia. reflexivity. }
    rewrite E1, E2.
    specialize (IH (a ++ [v]) old rest ltac:(lia)).
    rewrite length_app in IH. cbn [length] in IH.
    rewrite <- app_assoc in IH. cbn [app] in IH.
    replace (S (length a)) with (length a + 1)%nat by lia.
    rewrite IH. f_equal. f_equal; [cbn; lia | now rewrite <- app_assoc].
Qed.

(** Writing [vs] from position 0 into a buffer of the same length fills
    the buffer exactly. *)
Lemma put_all_exact (vs buf : list Real) :
  length buf = length vs ->
  for_each vs put (O, buf) = Ret (length buf, vs).
Proof.
  intros H. generalize (put_all vs [] buf [] H). cbn.
  rewrite !app_nil_r. now rewrite H.
Qed.

Lemma take_all {X D} (W : X -> Real -> D -> D) (pts : list X) :
  forall a vs rest d, length vs = length pts ->
    for_each pts (fun x => take (a ++ vs ++ rest) (W x)) (length a, d)
    = Ret ((length a + length pts)%nat,
           fold_left (fun d xv => W (fst xv) (snd xv) d) (combine pts vs) d).
Proof.
  induction pts as [|x pts IH]; intros a vs rest d H.
  - destruct vs; [|discriminate]. cbn. now rewrite Nat.add_0_r.
  - destruct vs as [|v vs]; [discriminate|]. cbn in H.
    cbn [for_each]. unfold take at 1, load.
    rewrite nth_error_app2 by lia. rewrite Nat.sub_diag. cbn [app nth_error bind].
    specialize (IH (a ++ [v]) vs rest (W x v d) ltac:(lia)).
    rewrite length_app in IH. cbn [length] in IH.
    rewrite <- app_assoc in IH. cbn [app] in IH.
    replace (S (length a)) with (length a + 1)%nat by lia.
    rewrite IH. cbn. f_equal. f_equal. lia.
Qed.

Lemma take_all_exact {X D} (W : X -> Real -> D -> D) (pts : list X)
  (vs : list Real) (d : D) :
  length vs = length pts ->
  for_each pts (fun x => take vs (W x)) (O, d)
  = Ret (length pts,
         fold_left (fun d xv => W (fst xv) (snd xv) d) (combine pts vs) d).
Proof.
  intros H. generalize (take_all W pts [] vs [] d H). cbn.
  now rewrite !app_nil_r.
Qed.

Lemma take_all_ge {X D} (W : X -> Real -> D -> D) (pts : list X) :
  forall a vs d, (length pts <= length vs)%nat ->
    for_each pts (fun x => take (a ++ vs) (W x)) (length a, d)
    = Ret ((length a + length pts)%nat,
           fold_left (fun d xv => W (fst xv) (snd xv) d) (combine pts vs) d).
Proof.
  induction pts as [|x pts IH]; intros a vs d H.
  - cbn. now rewrite Nat.add_0_r.
  - destruct vs as [|v vs]; [cbn in H; lia|]. cbn in H.
    cbn [for_each]. unfold take at 1, load.
    rewrite nth_error_app2 by lia. rewrite Nat.sub_diag. cbn [nth_error bind].
    specialize (IH (a ++ [v]) vs (W x v d) ltac:(lia)).
    rewrite length_app in IH. cbn [length] in IH.
    rewrite <- app_assoc in IH. cbn [app] in IH.
    replace (S (length a)) with (length a + 1)%nat by lia.
    rewrite IH. cbn. f_equal. f_equal. lia.
Qed.

Lemma take_prefix {X D} (W : X -> Real -> D -> D) (pts : list X)
  (vs : list Real) (d : D) :
  (length pts <= length vs)%nat ->
  for_each pts (fun x => take vs (W x)) (O, d)
  = Ret (length pts,
         fold_left (fun d xv => W (fst xv) (snd xv) d) (combine pts vs) d).
Proof. intros H. exact (take_all_ge W pts [] vs d H). Qed.

(** ** Sizes of point lists *)

Lemma length_flat_map_const {X Y} (g : X -> list Y) (l : list X) (n : nat) :
  (forall x, length (g x) = n) ->
  length (flat_map g l) = (length l * n)%nat.
Proof.
  intros H. induction l as [|x l IH]; cbn; [reflexivity|].
  rewrite length_app, H, IH. lia.
Qed.

Lemma extent_nonneg (s e : Z) : 0 <= extent s e.
Proof. unfold extent. lia. Qed.

Lemma length_zrange_nat (s e : Z) : length (zrange s e) = Z.to_nat (extent s e).
Proof. rewrite <- length_zrange. lia. Qed.

Lemma length_points3 (r : Range) :
  Z.of_nat (length (points3 r)) = range_count r.
Proof.
  unfold points3, range_count.
  rewrite length_flat_map_const
    with (n := (length (zrange (sj r) (ej r)) * length (zrange (si r) (ei r)))%nat).
  - rewrite !Nat2Z.inj_mul, !length_zrange. ring.
  - intros k. rewrite length_flat_map_const
      with (n := length (zrange (si r) (ei r))); [reflexivity|].
    intros j. now rewrite length_map.
Qed.

Lemma length_points4 (r : Range) :
  0 <= NFLUID ->
  Z.of_nat (length (points4 r)) = NFLUID * range_count r.
Proof.
  intros H. unfold points4.
  rewrite length_flat_map_const with (n := length (points3 r))
    by (intros n; now rewrite length_map).
  rewrite Nat2Z.inj_mul, length_zrange, length_points3.
  unfold extent. replace (NFLUID - 1 - 0 + 1) with NFLUID by lia.
  now rewrite Z.max_r.
Qed.

Lemma length_line (mk : Z -> Z * Z * Z) (s e : Z) :
  Z.of_nat (length (line mk s e)) = extent s e.
Proof. unfold line. now rewrite length_map, length_zrange. Qed.

Lemma length_plane (mk : Z -> Z -> Z * Z * Z) (s1 e1 s2 e2 : Z) :
  Z.of_nat (length (plane mk s1 e1 s2 e2)) = extent s1 e1 * extent s2 e2.
Proof.
  unfold plane.
  rewrite length_flat_map_const with (n := length (zrange s2 e2))
    by (intros a; now rewrite length_map).
  now rewrite Nat2Z.inj_mul, !length_zrange.
Qed.

(** ** The pack loops in normal form *)

Lemma pack_face_values (a : Array) (r : Range) (st : nat * list Real) :
  pack_face a r st = for_each (map (at3 a) (points3 r)) put st.
Proof.
  unfold pack_face.
  rewrite (nest3_points r (fun k j i => put (a 0 k j i))).
  rewrite for_each_map. apply for_each_ext. now intros [[k j] i] s.
Qed.

Lemma pack_fluid_values (src : Array) (r : Range) (buf : list Real) :
  pack_fluid src r buf = for_each (map (at4 src) (points4 r)) put (O, buf).
Proof.
  unfold pack_fluid.
  rewrite (nest4_points r (fun n k j i => put (src n k j i))).
  rewrite for_each_map. apply for_each_ext. now intros [n [[k j] i]] s.
Qed.


Lemma pack_field_values (src : InterfaceField) (rs : face -> Range)
  (buf : list Real) :
  pack_field src rs buf = for_each (field_values src rs) put (O, buf).
Proof.
  unfold pack_field, field_values. rewrite for_each_app, pack_face_values.
  destruct (for_each (map (at3 (x1f src)) (points3 (rs x1face))) put (O, buf))
    as [st| | |]; cbn [bind]; try reflexivity.
  rewrite for_each_app, pack_face_values.
  destruct (for_each (map (at3 (x2f src)) (points3 (rs x2face))) put st);
    cbn [bind]; try reflexivity.
  apply pack_face_values.
Qed.

Lemma pack_eflux_values (pmb : MeshBlock) (fsrc wsrc : InterfaceField) (d : Z)
  (buf : list Real) :
  pack_eflux pmb fsrc wsrc d buf
  = for_each (eflux_values pmb fsrc wsrc d) put (O, buf).
Proof.
  unfold pack_eflux, eflux_values. rewrite for_each_flat_map.
  apply for_each_ext. intros sg st. rewrite for_each_app.
  unfold seg_fluxes, seg_weights. rewrite !for_each_map.
  assert (E : forall (g : Z -> Z -> Z -> Real) l st,
            for_each l (fun '(k, j, i) => put (g k j i)) st
            = for_each l (fun x : Z * Z * Z =>
                            put (let '(k, j, i) := x in g k j i)) st).
  { intros g l st0. apply for_each_ext. now intros [[k j] i] s0. }
  rewrite (E (fun k j i => face_of fsrc (seg_face sg) (seg_comp sg) k j i)).
  destruct (for_each (seg_pts sg) _ st); cbn [bind]; try reflexivity.
  rewrite for_each_map.
  apply (E (fun k j i => face_of wsrc (seg_face sg) 0 k j i)).
Qed.

(** ** Element counts of the table rows (C3) *)

Ltac max0 := rewrite ?Z.max_r by lia.

Ltac is_one x :=
  match goal with H : x <= 1 |- _ => assert (x = 1) by lia; subst x end.

Ltac rows :=
  unfold upd, upd2, inner_x1, outer_x1, inner_x2, outer_x2, inner_x3, outer_x3
    in *;
  cbn [Z.eqb Pos.eqb face_eqb andb orb si ei sj ej sk ek];
  unfold range_count, extent;
  cbn [si ei sj ej sk ek].

Lemma fluid_send_count (nx1 nx2 nx3 d : Z) :
  0 <= NGHOST -> 1 <= nx1 -> 1 <= nx2 -> 1 <= nx3 ->
  0 <= d < 6 -> (nx2 = 1 -> d < 4) ->
  NFLUID * range_count (fluid_send_se_ (the_tables nx1 nx2 nx3) d)
  = fluid_bufsize_ (the_tables nx1 nx2 nx3) d.
Proof.
  intros Hg H1 H2 H3 Hd Hx. rewrite the_tables_fluid_bufsize.
  unfold the_tables, InitBoundaryBuffer. cbv zeta.
  destruct MAGNETIC_FIELDS_ENABLED; cbn [negb fluid_send_se_];
    destruct (Z.gtb_spec nx2 1); destruct (Z.gtb_spec nx3 1);
    try is_one nx2; try is_one nx3;
    each_dir Hd; rows; try (exfalso; lia); max0; ring.
Qed.

Lemma fluid_send_count_le (nx1 nx2 nx3 d : Z) :
  0 <= NGHOST -> 0 <= NFLUID -> 1 <= nx1 -> 1 <= nx2 -> 1 <= nx3 ->
  0 <= d < 6 ->
  NFLUID * range_count (fluid_send_se_ (the_tables nx1 nx2 nx3) d)
  <= fluid_bufsize_ (the_tables nx1 nx2 nx3) d.
Proof.
  intros Hg Hf H1 H2 H3 Hd.
  destruct (Z_lt_le_dec d 4) as [Hlt|Hge];
    [apply Z.eq_le_incl; apply fluid_send_count; auto|].
  destruct (Z.eq_dec nx2 1) as [E|E];
    [|apply Z.eq_le_incl; apply fluid_send_count; auto; lia].
  rewrite the_tables_fluid_bufsize.
  unfold the_tables, InitBoundaryBuffer. cbv zeta.
  destruct MAGNETIC_FIELDS_ENABLED; cbn [negb fluid_send_se_];
    destruct (Z.gtb_spec nx2 1); destruct (Z.gtb_spec nx3 1);
    try is_one nx2; try is_one nx3;
    each_dir Hd; rows; try (exfalso; lia); max0;
    rewrite (Z.mul_comm NFLUID); apply Z.mul_le_mono_nonneg_r; try lia;
    nia.
Qed.

(** With a single cell along x2 the x3 send rows are smaller than the
    table's element count of the x3 sides. *)
Lemma fluid_send_count_1d_x3 (nx1 nx3 d : Z) :
  0 < NGHOST -> 0 < NFLUID -> 1 <= nx1 -> 1 <= nx3 -> 4 <= d < 6 ->
  NFLUID * range_count (fluid_send_se_ (the_tables nx1 1 nx3) d)
  < fluid_bufsize_ (the_tables nx1 1 nx3) d.
Proof.
  intros Hg Hf H1 H3 Hd.
  assert (Hd' : 0 <= d < 6) by lia.
  rewrite the_tables_fluid_bufsize.
  unfold the_tables, InitBoundaryBuffer. cbv zeta.
  destruct MAGNETIC_FIELDS_ENABLED; cbn [negb fluid_send_se_];
    destruct (Z.gtb_spec 1 1); destruct (Z.gtb_spec nx3 1);
    try is_one nx3;
    each_dir Hd'; rows; try (exfalso; lia); max0;
    rewrite (Z.mul_comm NFLUID); apply Z.mul_lt_mono_pos_r; try lia;
    nia.
Qed.

Lemma fluid_recv_count (nx1 nx2 nx3 d : Z) :
  0 <= NGHOST -> 1 <= nx1 -> 1 <= nx2 -> 1 <= nx3 ->
  0 <= d < 6 -> (nx2 = 1 -> d < 4) ->
  NFLUID * range_count (fluid_recv_se_ (the_tables nx1 nx2 nx3) d)
  = fluid_bufsize_ (the_tables nx1 nx2 nx3) d.
Proof.
  intros Hg H1 H2 H3 Hd Hx. rewrite the_tables_fluid_bufsize.
  unfold the_tables, InitBoundaryBuffer. cbv zeta.
  destruct MAGNETIC_FIELDS_ENABLED; cbn [negb fluid_recv_se_];
    destruct (Z.gtb_spec nx2 1); destruct (Z.gtb_spec nx3 1);
    try is_one nx2; try is_one nx3;
    each_dir Hd; rows; try (exfalso; lia); max0; ring.
Qed.

Lemma field_send_count (nx1 nx2 nx3 d : Z) :
  MAGNETIC_FIELDS_ENABLED = true ->
  0 <= NGHOST -> 1 <= nx1 -> 1 <= nx2 -> 1 <= nx3 ->
  0 <= d < 6 -> (nx2 = 1 -> d < 4) ->
  range_count (field_send_se_ (the_tables nx1 nx2 nx3) d x1face)
  + range_count (field_send_se_ (the_tables nx1 nx2 nx3) d x2face)
  + range_count (field_send_se_ (the_tables nx1 nx2 nx3) d x3face)
  = field_bufsize_ (the_tables nx1 nx2 nx3) d.
Proof.
  intros Hm Hg H1 H2 H3 Hd Hx. rewrite the_tables_field_bufsize by exact Hm.
  unfold the_tables, InitBoundaryBuffer. cbv zeta.
  rewrite Hm; cbn [negb field_send_se_];
    destruct (Z.gtb_spec nx2 1); destruct (Z.gtb_spec nx3 1);
    try is_one nx2; try is_one nx3;
    each_dir Hd; rows; try (exfalso; lia); max0; ring.
Qed.

Lemma eflux_send_count (pmb : MeshBlock) (fsrc wsrc : InterfaceField)
  (nx1 nx2 nx3 d : Z) :
  MAGNETIC_FIELDS_ENABLED = true ->
  1 <= nx1 -> 1 < nx2 -> 1 <= nx3 -> 0 <= d < 6 ->
  block_fits pmb nx1 nx2 nx3 ->
  Z.of_nat (length (eflux_values pmb fsrc wsrc d))
  = eflux_bufsize_ (the_tables nx1 nx2 nx3) d.
Proof.
  intros Hm H1 H2 H3 Hd [Hsz [Hi [Hj Hk]]].
  rewrite the_tables_eflux_bufsize by exact Hm.
  unfold eflux_values, eflux_segments. rewrite Hsz. cbn [RegionSize.nx3].
  replace (nx2 =? 1) with false by (symmetry; apply Z.eqb_neq; lia).
  destruct (Z.eqb_spec nx3 1);
    each_dir Hd; cbn [Z.eqb Pos.eqb orb inner_x1 outer_x1 inner_x2 outer_x2
                      inner_x3 outer_x3 flat_map app];
    unfold inner_x1, outer_x1, inner_x2, outer_x2, inner_x3, outer_x3;
    cbn [Z.eqb Pos.eqb orb flat_map app length];
    rewrite ?app_nil_r, ?length_app; unfold seg_fluxes, seg_weights;
    rewrite ?length_map; cbn [seg_pts];
    rewrite ?Nat2Z.inj_add, ?length_line, ?length_plane;
    unfold extent; max0; lia.
Qed.


Lemma length_fluid_values (src : Array) (r : Range) :
  0 <= NFLUID ->
  Z.of_nat (length (fluid_values src r)) = NFLUID * range_count r.
Proof.
  intros H. unfold fluid_values. now rewrite length_map, length_points4.
Qed.

Lemma length_field_values (src : InterfaceField) (rs : face -> Range) :
  Z.of_nat (length (field_values src rs))
  = range_count (rs x1face) + range_count (rs x2face) + range_count (rs x3face).
Proof.
  unfold field_values.
  rewrite !length_app, !length_map, !Nat2Z.inj_add, !length_points3. ring.
Qed.

Lemma int_wrap_fits (z : Z) : fits_int z -> int_wrap z = z.
Proof.
  unfold fits_int, int_wrap, INT_MIN, INT_MAX. intros H.
  rewrite Z.mod_small; lia.
Qed.

(** Wrapping the operands of a sum or of a product, or not, gives the
    same [int]: the wrapped exact element count of the table is the [int]
    the source computes, whatever the order of its operations. *)
Lemma int_wrap_add (a b : Z) :
  int_wrap (int_wrap a + int_wrap b) = int_wrap (a + b).
Proof.
  unfold int_wrap. f_equal.
  assert (E : forall z, (z - INT_MIN) mod 2 ^ 32 + INT_MIN
                        = z + - ((z - INT_MIN) / 2 ^ 32) * 2 ^ 32).
  { intros z. rewrite Z.mod_eq by lia. ring. }
  rewrite (E a), (E b).
  set (ka := - ((a - INT_MIN) / 2 ^ 32)). set (kb := - ((b - INT_MIN) / 2 ^ 32)).
  replace (a + ka * 2 ^ 32 + (b + kb * 2 ^ 32) - INT_MIN)
    with (a + b - INT_MIN + (ka + kb) * 2 ^ 32) by ring.
  apply Z_mod_plus_full.
Qed.

Lemma int_wrap_mul (a b : Z) :
  int_wrap (int_wrap a * int_wrap b) = int_wrap (a * b).
Proof.
  unfold int_wrap. f_equal.
  assert (E : forall z, (z - INT_MIN) mod 2 ^ 32 + INT_MIN
                        = z + - ((z - INT_MIN) / 2 ^ 32) * 2 ^ 32).
  { intros z. rewrite Z.mod_eq by lia. ring. }
  rewrite (E a), (E b).
  set (ka := - ((a - INT_MIN) / 2 ^ 32)). set (kb := - ((b - INT_MIN) / 2 ^ 32)).
  replace ((a + ka * 2 ^ 32) * (b + kb * 2 ^ 32) - INT_MIN)
    with (a * b - INT_MIN + (ka * b + a * kb + ka * kb * 2 ^ 32) * 2 ^ 32)
    by ring.
  apply Z_mod_plus_full.
Qed.



(** ** Membership and distinctness of the visited points *)

Lemma In_points3 (r : Range) (k j i : Z) :
  In (k, j, i) (points3 r)
  <-> sk r <= k <= ek r /\ sj r <= j <= ej r /\ si r <= i <= ei r.
Proof.
  unfold points3. rewrite in_flat_map. split.
  - intros [k' [Hk H]]. apply in_flat_map in H. destruct H as [j' [Hj H]].
    apply in_map_iff in H. destruct H as [i' [E Hi]].
    injection E as -> -> ->.
    apply In_zrange in Hk, Hj, Hi. auto.
  - intros [Hk [Hj Hi]]. exists k. split; [now apply In_zrange|].
    apply in_flat_map. exists j. split; [now apply In_zrange|].
    apply in_map_iff. exists i. split; [reflexivity | now apply In_zrange].
Qed.

Lemma In_points4 (r : Range) (n k j i : Z) :
  In (n, (k, j, i)) (points4 r)
  <-> 0 <= n < NFLUID /\ In (k, j, i) (points3 r).
Proof.
  unfold points4. rewrite in_flat_map. split.
  - intros [n' [Hn H]]. apply in_map_iff in H. destruct H as [p [E Hp]].
    injection E as -> ->. apply In_zrange in Hn. split; [lia | exact Hp].
  - intros [Hn Hp]. exists n. split; [apply In_zrange; lia|].
    apply in_map_iff. eauto.
Qed.

Lemma NoDup_map_inj {X Y} (f : X -> Y) (l : list X) :
  (forall x y, In x l -> In y l -> f x = f y -> x = y) ->
  NoDup l -> NoDup (map f l).
Proof.
  intros Hinj Hl. induction Hl as [|x l Hx Hl IH]; cbn; constructor.
  - intros H. apply in_map_iff in H. destruct H as [y [E Hy]].
    apply Hx. rewrite (Hinj x y); cbn; auto.
  - apply IH. intros a b Ha Hb. apply Hinj; cbn; auto.
Qed.

Lemma NoDup_flat_map {X Y} (g : X -> list Y) (l : list X) :
  NoDup l ->
  (forall x, NoDup (g x)) ->
  (forall x1 x2 y, In y (g x1) -> In y (g x2) -> x1 = x2) ->
  NoDup (flat_map g l).
Proof.
  intros Hl Hg Hd. induction Hl as [|x l Hx Hl IH]; cbn; [constructor|].
  apply NoDup_app; auto.
  intros y Hy H. apply in_flat_map in H. destruct H as [x' [Hx' Hy']].
  rewrite (Hd x x' y Hy Hy') in Hx. contradiction.
Qed.

Lemma NoDup_zrange (s e : Z) : NoDup (zrange s e).
Proof.
  unfold zrange. apply NoDup_map_inj; [|apply seq_NoDup].
  intros x y _ _ H. lia.
Qed.

Lemma NoDup_points3 (r : Range) : NoDup (points3 r).
Proof.
  unfold points3. apply NoDup_flat_map; [apply NoDup_zrange| |].
  - intros k. apply NoDup_flat_map; [apply NoDup_zrange| |].
    + intros j. apply NoDup_map_inj; [|apply NoDup_zrange].
      intros x y _ _ H. now injection H.
    + intros j1 j2 y H1 H2.
      apply in_map_iff in H1, H2.
      destruct H1 as [i1 [<- _]], H2 as [i2 [E _]]. now injection E.
  - intros k1 k2 y H1 H2.
    apply in_flat_map in H1, H2.
    destruct H1 as [j1 [_ H1]], H2 as [j2 [_ H2]].
    apply in_map_iff in H1, H2.
    destruct H1 as [i1 [<- _]], H2 as [i2 [E _]]. now injection E.
Qed.

Lemma NoDup_points4 (r : Range) : NoDup (points4 r).
Proof.
  unfold points4. apply NoDup_flat_map; [apply NoDup_zrange| |].
  - intros n. apply NoDup_map_inj; [|apply NoDup_points3].
    intros x y _ _ H. now injection H.
  - intros n1 n2 y H1 H2.
    apply in_map_iff in H1, H2.
    destruct H1 as [p1 [<- _]], H2 as [p2 [E _]]. now injection E.
Qed.

(** ** Rows of equal extents visit corresponding points *)

Lemma zrange_shift (s e c : Z) :
  zrange (s + c) (e + c) = map (fun x => x + c) (zrange s e).
Proof.
  unfold zrange. rewrite map_map.
  replace (e + c - (s + c) + 1) with (e - s + 1) by lia.
  apply map_ext. intros n. lia.
Qed.

Lemma map_flat_map {X Y W} (h : Y -> W) (g : X -> list Y) (l : list X) :
  map h (flat_map g l) = flat_map (fun x => map h (g x)) l.
Proof.
  induction l as [|x l IH]; cbn; [reflexivity|]. now rewrite map_app, IH.
Qed.

Lemma flat_map_map {X Y W} (g : Y -> list W) (f : X -> Y) (l : list X) :
  flat_map g (map f l) = flat_map (fun x => g (f x)) l.
Proof.
  induction l as [|x l IH]; cbn; [reflexivity|]. now rewrite IH.
Qed.

Lemma points3_corresponding (s r : Range) :
  same_extents s r ->
  points3 r = map (corresponding s r) (points3 s).
Proof.
  intros [Hi [Hj Hk]]. unfold points3.
  replace (zrange (sk r) (ek r))
    with (map (fun x => x + (sk r - sk s)) (zrange (sk s) (ek s)))
    by (rewrite <- zrange_shift; f_equal; lia).
  replace (zrange (sj r) (ej r))
    with (map (fun x => x + (sj r - sj s)) (zrange (sj s) (ej s)))
    by (rewrite <- zrange_shift; f_equal; lia).
  replace (zrange (si r) (ei r))
    with (map (fun x => x + (si r - si s)) (zrange (si s) (ei s)))
    by (rewrite <- zrange_shift; f_equal; lia).
  rewrite flat_map_map, map_flat_map. apply flat_map_ext. intros k.
  rewrite flat_map_map, map_flat_map. apply flat_map_ext. intros j.
  rewrite !map_map. reflexivity.
Qed.

Lemma points4_corresponding (s r : Range) :
  same_extents s r ->
  points4 r = map (fun p => (fst p, corresponding s r (snd p))) (points4 s).
Proof.
  intros H. unfold points4. rewrite map_flat_map. apply flat_map_ext.
  intros n. rewrite (points3_corresponding s r H), !map_map. reflexivity.
Qed.

(** ** Reading back what a sequence of writes has stored *)

Section WriteRead.
Variables (X D : Type) (W : X -> Real -> D -> D) (R : D -> X -> Real).
Hypothesis R_W_same : forall x v d, R (W x v d) x = v.
Hypothesis R_W_other : forall x y v d, x <> y -> R (W x v d) y = R d y.

Lemma fold_write_other (pts : list X) :
  forall vs d y, ~ In y pts ->
    R (fold_left (fun d xv => W (fst xv) (snd xv) d) (combine pts vs) d) y
    = R d y.
Proof using R_W_other.
  induction pts as [|x pts IH]; intros vs d y Hy; [reflexivity|].
  destruct vs as [|v vs]; [reflexivity|]. cbn.
  rewrite IH by (intros H; apply Hy; now right).
  apply R_W_other. intros ->. apply Hy. now left.
Qed.

Lemma fold_write_read (pts : list X) :
  NoDup pts ->
  forall vs d x v, In (x, v) (combine pts vs) ->
    R (fold_left (fun d xv => W (fst xv) (snd xv) d) (combine pts vs) d) x
    = v.
Proof using R_W_same R_W_other.
  induction 1 as [|x0 pts Hx0 Hnd IH]; intros vs d x v Hin; [destruct Hin|].
  destruct vs as [|v0 vs]; [destruct Hin|]. cbn in *.
  destruct Hin as [E|Hin].
  - injection E as -> ->. rewrite fold_write_other by exact Hx0.
    apply R_W_same.
  - now apply IH.
Qed.
End WriteRead.

Lemma combine_map_same {X Y W} (f : X -> Y) (g : X -> W) (l : list X) :
  combine (map f l) (map g l) = map (fun x => (f x, g x)) l.
Proof.
  induction l as [|y l IH]; cbn; [reflexivity|]. now rewrite IH.
Qed.

Lemma at4_aset4_same (p : Z * (Z * Z * Z)) (v : Real) (a : Array) :
  at4 (aset4 a p v) p = v.
Proof.
  destruct p as [n [[k j] i]]. cbn. unfold aset. now rewrite !Z.eqb_refl.
Qed.

Lemma at4_aset4_other (p q : Z * (Z * Z * Z)) (v : Real) (a : Array) :
  p <> q -> at4 (aset4 a p v) q = at4 a q.
Proof.
  destruct p as [n [[k j] i]], q as [n' [[k' j'] i']]. intros H. cbn.
  unfold aset.
  destruct (Z.eqb_spec n' n); [|reflexivity].
  destruct (Z.eqb_spec k' k); [|reflexivity].
  destruct (Z.eqb_spec j' j); [|reflexivity].
  destruct (Z.eqb_spec i' i); [|reflexivity].
  subst. now elim H.
Qed.

Lemma unpack_fluid_points (recvbuf : list Real) (r : Range) (dst : Array) :
  unpack_fluid recvbuf r dst
  = for_each (points4 r) (fun p => take recvbuf (fun v d => aset4 d p v)) (O, dst).
Proof.
  unfold unpack_fluid.
  rewrite (nest4_points r
             (fun n k j i => take recvbuf (fun v d => aset d n k j i v))).
  apply for_each_ext. now intros [n [[k j] i]] st.
Qed.

(** The fluid receive row of the opposite side has the extents of the
    send row. *)
Lemma fluid_recv_matches_send (nx1 nx2 nx3 d : Z) :
  0 <= d < 6 ->
  same_extents (fluid_send_se_ (the_tables nx1 nx2 nx3) d)
               (fluid_recv_se_ (the_tables nx1 nx2 nx3) (oside d)).
Proof.
  intros Hd. unfold the_tables, InitBoundaryBuffer, same_extents. cbv zeta.
  destruct MAGNETIC_FIELDS_ENABLED; cbn [negb fluid_send_se_ fluid_recv_se_];
    destruct (oside_cases d Hd)
      as [[-> ->]|[[-> ->]|[[-> ->]|[[-> ->]|[[-> ->]|[-> ->]]]]]];
    rows; lia.
Qed.


(** ** Local transfer between two blocks of a process *)

Lemma find_gid_set_nth (g : Z) (n : nat) (b b' : MeshBlock) (l : list MeshBlock) :
  nth_error l n = Some b -> gid b' = gid b ->
  find_gid g (set_nth n b' l) = find_gid g l.
Proof.
  revert n; induction l as [|y l IH]; intros [|n] H Hg; cbn in *;
    try congruence.
  - injection H as ->. now rewrite Hg.
  - now rewrite (IH n H Hg).
Qed.

Lemma memcpy_whole (dst src : list Real) (n : Z) :
  Z.of_nat (length src) = n -> Z.of_nat (length dst) = n ->
  memcpy dst src n = Ret src.
Proof.
  intros Hs Hd. unfold memcpy.
  replace ((0 <=? n) && (n <=? Z.of_nat (length src))
           && (n <=? Z.of_nat (length dst))) with true
    by (symmetry; rewrite !andb_true_iff, !Z.leb_le; lia).
  rewrite firstn_all2 by lia. rewrite skipn_all2 by lia.
  now rewrite app_nil_r.
Qed.

(** The local branch of "Send the buffer". *)
Lemma SendBuffer_local (c : chan) (w : Process) (me ia : nat) (dir flag : Z)
  (B A : MeshBlock) :
  nth_error (pblock w) me = Some B ->
  NeighborBlock.rank (neighbor B dir 0 0) = myrank ->
  find_gid (NeighborBlock.gid (neighbor B dir 0 0)) (pblock w) = Some ia ->
  nth_error (pblock w) ia = Some A ->
  Z.of_nat (length (send_ (get_chan c (pbval B)) dir)) = bufsize c (tabs w) dir ->
  Z.of_nat (length (recv_ (get_chan c (pbval A)) (oside dir)))
    = bufsize c (tabs w) dir ->
  SendBuffer c w me dir flag
  = Ret (set_block w ia
           (set_pbval A
              (set_chan c (pbval A)
                 (set_flag
                    (set_recv (get_chan c (pbval A)) (oside dir)
                              (send_ (get_chan c (pbval B)) dir))
                    (oside dir) 0 0 true)))).
Proof.
  intros HB Hr Hf HA Hs Hrc. unfold SendBuffer.
  rewrite (block_Ret _ _ _ HB). cbn [bind].
  rewrite Hr, Z.eqb_refl, Hf.
  rewrite (block_Ret _ _ _ HA). cbn [bind].
  rewrite (memcpy_whole _ _ _ Hs Hrc). cbn [bind].
  now apply put_chan_Ret.
Qed.

Lemma put_prefix (vs buf : list Real) :
  (length vs <= length buf)%nat ->
  for_each vs put (O, buf) = Ret (length vs, vs ++ skipn (length vs) buf).
Proof.
  intros H.
  generalize (put_all vs [] (firstn (length vs) buf) (skipn (length vs) buf)).
  cbn [app length Nat.add]. rewrite firstn_skipn. intros E. apply E.
  rewrite length_firstn. lia.
Qed.

Lemma combine_prefix {X Y} (l : list X) (l1 l2 : list Y) :
  length l = length l1 -> combine l (l1 ++ l2) = combine l l1.
Proof.
  revert l1; induction l as [|x l IH]; intros [|y l1] H; cbn in *;
    try reflexivity; try discriminate.
  f_equal. apply IH. lia.
Qed.

(** Packing into a buffer that is at least as long as the row is large
    writes the values at its start and leaves the rest. *)
Lemma pack_fluid_prefix (src : Array) (r : Range) (buf : list Real) :
  0 <= NFLUID ->
  NFLUID * range_count r <= Z.of_nat (length buf) ->
  pack_fluid src r buf
  = Ret (length (fluid_values src r),
         fluid_values src r ++ skipn (length (fluid_values src r)) buf).
Proof.
  intros Hf Hb. rewrite pack_fluid_values. apply put_prefix.
  apply Nat2Z.inj_le. now rewrite length_fluid_values.
Qed.

Lemma unpack_fluid_prefix (vs : list Real) (r : Range) (dst : Array) :
  0 <= NFLUID ->
  NFLUID * range_count r <= Z.of_nat (length vs) ->
  unpack_fluid vs r dst
  = Ret (length (points4 r),
         fold_left (fun d xv => aset4 d (fst xv) (snd xv))
                   (combine (points4 r) vs) dst).
Proof.
  intros Hf Hb. rewrite unpack_fluid_points.
  apply (take_prefix (fun p v d => aset4 d p v)).
  apply Nat2Z.inj_le. now rewrite length_points4.
Qed.

Lemma pack_fluid_Ret (src : Array) (r : Range) (buf : list Real) :
  0 <= NFLUID ->
  Z.of_nat (length buf) = NFLUID * range_count r ->
  pack_fluid src r buf = Ret (length buf, fluid_values src r).
Proof.
  intros Hf Hb. rewrite pack_fluid_values. apply put_all_exact.
  apply Nat2Z.inj. now rewrite length_fluid_values.
Qed.

Lemma unpack_fluid_Ret (vs : list Real) (r : Range) (dst : Array) :
  0 <= NFLUID ->
  Z.of_nat (length vs) = NFLUID * range_count r ->
  unpack_fluid vs r dst
  = Ret (length (points4 r),
         fold_left (fun d xv => aset4 d (fst xv) (snd xv))
                   (combine (points4 r) vs) dst).
Proof.
  intros Hf Hb. rewrite unpack_fluid_points.
  apply (take_all_exact (fun p v d => aset4 d p v)).
  apply Nat2Z.inj. now rewrite length_points4.
Qed.

(** LoadAndSend to a neighbor on the same rank: the packed values arrive
    in the receive buffer of the opposite side of the neighbor block and
    its flag is raised. *)
Lemma LoadAndSendFluid_local
  (w : Process) (ib ia : nat) (B A : MeshBlock) (d flag : Z) (src : Array) :
  0 <= NFLUID ->
  nth_error (pblock w) ib = Some B ->
  nth_error (pblock w) ia = Some A ->
  NeighborBlock.gid (neighbor B d 0 0) <> -1 ->
  NeighborBlock.rank (neighbor B d 0 0) = myrank ->
  find_gid (NeighborBlock.gid (neighbor B d 0 0)) (pblock w) = Some ia ->
  Z.of_nat (length (send_ (fluid (pbval B)) d)) = fluid_bufsize_ (tabs w) d ->
  NFLUID * range_count (fluid_send_se_ (tabs w) d) <= fluid_bufsize_ (tabs w) d ->
  Z.of_nat (length (recv_ (fluid (pbval A)) (oside d))) = fluid_bufsize_ (tabs w) d ->
  exists w1 A1,
    LoadAndSendFluidBoundaryBuffer w ib d src flag = Ret w1
    /\ tabs w1 = tabs w
    /\ nth_error (pblock w1) ia = Some A1
    /\ neighbor A1 = neighbor A
    /\ recv_ (fluid (pbval A1)) (oside d)
       = fluid_values src (fluid_send_se_ (tabs w) d)
         ++ skipn (length (fluid_values src (fluid_send_se_ (tabs w) d)))
                  (send_ (fluid (pbval B)) d)
    /\ flag_ (fluid (pbval A1)) (oside d) 0 0 = true.
Proof.
  intros Hf HB HA Hg Hr Hfind Hs Hsz Hrc.
  unfold LoadAndSendFluidBoundaryBuffer.
  rewrite (block_Ret _ _ _ HB). cbn [bind].
  apply Z.eqb_neq in Hg. rewrite Hg.
  rewrite (pack_fluid_prefix src _ (send_ (fluid (pbval B)) d) Hf)
    by (rewrite Hs; exact Hsz).
  cbn [bind].
  rewrite (put_chan_Ret _ _ _ _ _ HB). cbn [bind].
  set (vals := fluid_values src (fluid_send_se_ (tabs w) d) ++ _).
  set (B' := set_pbval B _). set (wB := set_block w ib B').
  assert (HB' : nth_error (pblock wB) ib = Some B').
  { cbn. apply nth_error_set_nth_eq. eapply nth_error_lt; eauto. }
  assert (Hlen : Z.of_nat (length vals) = fluid_bufsize_ (tabs w) d).
  { unfold vals. rewrite length_app, length_skipn, Nat2Z.inj_add.
    generalize (length_fluid_values src (fluid_send_se_ (tabs w) d) Hf).
    lia. }
  assert (HA' : exists A0, nth_error (pblock wB) ia = Some A0
                           /\ neighbor A0 = neighbor A
                           /\ recv_ (fluid (pbval A0)) = recv_ (fluid (pbval A))).
  { destruct (Nat.eq_dec ib ia) as [<-|Hne].
    - exists B'. split; [exact HB'|]. rewrite HB in HA. injection HA as <-.
      split; reflexivity.
    - exists A. split; [|split; reflexivity].
      cbn. now rewrite nth_error_set_nth_ne. }
  destruct HA' as [A0 [HA0 [Hn0 Hr0]]].
  rewrite (SendBuffer_local Fluid wB ib ia d flag B' A0); auto.
  - eexists; eexists. split; [reflexivity|]. split; [reflexivity|].
    split; [|split; [|split]].
    + cbn. apply nth_error_set_nth_eq. rewrite length_set_nth.
      eapply nth_error_lt; eauto.
    + exact Hn0.
    + cbn. unfold upd. now rewrite !Z.eqb_refl.
    + cbn. unfold upd3. now rewrite !Z.eqb_refl.
  - cbn. unfold wB. cbn.
    now rewrite (find_gid_set_nth _ ib B B' (pblock w) HB eq_refl).
  - cbn. unfold upd. rewrite !Z.eqb_refl. exact Hlen.
  - cbn [get_chan]. rewrite Hr0. exact Hrc.
Qed.

(** ReceiveAndSet on a direction with a neighbor whose data is in the
    receive buffer and whose flag is raised. *)
Lemma ReceiveAndSetFluid_ready
  (w : Process) (ia : nat) (A : MeshBlock) (e : Z) (dst : Array) :
  0 <= NFLUID ->
  nth_error (pblock w) ia = Some A ->
  NeighborBlock.gid (neighbor A e 0 0) <> -1 ->
  flag_ (fluid (pbval A)) e 0 0 = true ->
  NFLUID * range_count (fluid_recv_se_ (tabs w) e)
    <= Z.of_nat (length (recv_ (fluid (pbval A)) e)) ->
  exists w2 A2,
    ReceiveAndSetFluidBoundary w ia e dst
    = Ret (w2,
           fold_left (fun d xv => aset4 d (fst xv) (snd xv))
                     (combine (points4 (fluid_recv_se_ (tabs w) e))
                              (recv_ (fluid (pbval A)) e)) dst,
           true)
    /\ nth_error (pblock w2) ia = Some A2
    /\ flag_ (fluid (pbval A2)) e 0 0 = false.
Proof.
  intros Hf HA Hg Hflag Hlen. unfold ReceiveAndSetFluidBoundary.
  rewrite (block_Ret _ _ _ HA). cbn [bind].
  apply Z.eqb_neq in Hg. rewrite Hg, Hflag.
  cbn [negb andb]. rewrite andb_false_r. cbn [andb bind].
  rewrite (block_Ret _ _ _ HA). cbn [bind].
  rewrite (unpack_fluid_prefix _ _ _ Hf Hlen). cbn [bind].
  rewrite (put_chan_Ret _ _ _ _ _ HA). cbn [bind].
  eexists; eexists. split; [reflexivity|]. split.
  - cbn. apply nth_error_set_nth_eq. eapply nth_error_lt; eauto.
  - cbn. unfold upd3. now rewrite !Z.eqb_refl.
Qed.

(** ** Round trip of the fluid channel (C2) *)

(** C2: block [B] (at position [ib]) has block [A] (at position [ia]) of
    the same rank as its neighbor in direction [d].  After [B] loads and
    sends [src] and [A] receives and sets [dst] on the opposite side, every
    element of the receive range of [A] holds the corresponding element of
    the send range of [B], and the flag of [A] for that side is false. *)
Theorem fluid_round_trip
  (w : Process) (ib ia : nat) (B A : MeshBlock)
  (d flag nx1 nx2 nx3 : Z) (src dst : Array) :
  0 <= NGHOST -> 0 <= NFLUID -> 1 <= nx1 -> 1 <= nx2 -> 1 <= nx3 ->
  0 <= d < 6 ->
  tabs w = the_tables nx1 nx2 nx3 ->
  nth_error (pblock w) ib = Some B ->
  nth_error (pblock w) ia = Some A ->
  NeighborBlock.gid (neighbor B d 0 0) <> -1 ->
  NeighborBlock.rank (neighbor B d 0 0) = myrank ->
  find_gid (NeighborBlock.gid (neighbor B d 0 0)) (pblock w) = Some ia ->
  NeighborBlock.gid (neighbor A (oside d) 0 0) <> -1 ->
  Z.of_nat (length (send_ (fluid (pbval B)) d)) = fluid_bufsize_ (tabs w) d ->
  Z.of_nat (length (recv_ (fluid (pbval A)) (oside d)))
    = fluid_bufsize_ (tabs w) (oside d) ->
  exists w1 w2 dst' A2,
    LoadAndSendFluidBoundaryBuffer w ib d src flag = Ret w1
    /\ ReceiveAndSetFluidBoundary w1 ia (oside d) dst = Ret (w2, dst', true)
    /\ same_extents (fluid_send_se_ (tabs w) d)
                    (fluid_recv_se_ (tabs w) (oside d))
    /\ (forall n k j i,
          0 <= n < NFLUID ->
          sk (fluid_send_se_ (tabs w) d) <= k <= ek (fluid_send_se_ (tabs w) d) ->
          sj (fluid_send_se_ (tabs w) d) <= j <= ej (fluid_send_se_ (tabs w) d) ->
          si (fluid_send_se_ (tabs w) d) <= i <= ei (fluid_send_se_ (tabs w) d) ->
          dst' n
            (k + (sk (fluid_recv_se_ (tabs w) (oside d))
                  - sk (fluid_send_se_ (tabs w) d)))
            (j + (sj (fluid_recv_se_ (tabs w) (oside d))
                  - sj (fluid_send_se_ (tabs w) d)))
            (i + (si (fluid_recv_se_ (tabs w) (oside d))
                  - si (fluid_send_se_ (tabs w) d)))
          = src n k j i)
    /\ nth_error (pblock w2) ia = Some A2
    /\ flag_ (fluid (pbval A2)) (oside d) 0 0 = false.
Proof.
  intros Hg Hf H1 H2 H3 Hd Ht HB HA Hgid Hrank Hfind HgA Hs Hr.
  assert (Hop : fluid_bufsize_ (tabs w) (oside d) = fluid_bufsize_ (tabs w) d).
  { rewrite Ht. symmetry. now apply fluid_bufsize_oside. }
  assert (Hcs : NFLUID * range_count (fluid_send_se_ (tabs w) d)
                <= fluid_bufsize_ (tabs w) d).
  { rewrite Ht. now apply fluid_send_count_le. }
  assert (Hse : same_extents (fluid_send_se_ (tabs w) d)
                             (fluid_recv_se_ (tabs w) (oside d))).
  { rewrite Ht. now apply fluid_recv_matches_send. }
  assert (Hpl : length (points4 (fluid_recv_se_ (tabs w) (oside d)))
                = length (fluid_values src (fluid_send_se_ (tabs w) d))).
  { rewrite (points4_corresponding _ _ Hse). unfold fluid_values.
    now rewrite !length_map. }
  destruct (LoadAndSendFluid_local w ib ia B A d flag src)
    as [w1 [A1 [E1 [Ht1 [HA1 [Hn1 [Hrv1 Hfl1]]]]]]]; auto; try congruence.
  destruct (ReceiveAndSetFluid_ready w1 ia A1 (oside d) dst)
    as [w2 [A2 [E2 [HA2 Hfl2]]]]; auto.
  { now rewrite Hn1. }
  { rewrite Ht1, <- length_points4, Hpl, Hrv1, length_app by exact Hf. lia. }
  exists w1, w2. eexists. exists A2.
  split; [exact E1|]. split; [exact E2|]. split; [exact Hse|].
  split; [|split; [exact HA2 | exact Hfl2]].
  intros n k j i Hn Hk Hj Hi.
  rewrite Hrv1, Ht1, (combine_prefix _ _ _ Hpl). unfold fluid_values.
  match goal with |- ?f n ?k' ?j' ?i' = _ =>
    change (at4 f (n, (k', j', i')) = at4 src (n, (k, j, i))) end.
  apply (fold_write_read _ _ (fun p v d => aset4 d p v) at4
           at4_aset4_same at4_aset4_other).
  - apply NoDup_points4.
  - rewrite (points4_corresponding _ _ Hse), combine_map_same.
    apply in_map_iff. exists (n, (k, j, i)).
    split; [reflexivity|].
    apply In_points4. split; [exact Hn|]. now apply In_points3.
Qed.


(** ** The eflux blocks in terms of locations *)

Lemma eflux_values_locs (pmb : MeshBlock) (fsrc wsrc : InterfaceField) (d : Z) :
  eflux_values pmb fsrc wsrc d
  = map (read (fsrc, wsrc)) (eflux_send_locs pmb d).
Proof.
  unfold eflux_values, eflux_send_locs, eflux_locs.
  rewrite map_flat_map. apply flat_map_ext. intros sg.
  unfold seg_fluxes, seg_weights, seg_locs. rewrite map_app, !map_map.
  f_equal; apply map_ext; now intros [[k j] i].
Qed.

Lemma unpack_eflux_locs (pmb : MeshBlock) (buf : list Real) (e : Z)
  (dst : InterfaceField * InterfaceField) :
  unpack_eflux pmb buf e dst
  = for_each (eflux_recv_locs pmb e) (fun l => take buf (write l)) (O, dst).
Proof.
  unfold unpack_eflux, eflux_recv_locs, eflux_locs.
  rewrite for_each_flat_map. apply for_each_ext. intros sg st.
  unfold seg_locs. rewrite for_each_app, !for_each_map.
  assert (E : forall (isw : bool) (n : Z) W l st,
            (forall k j i v d, W k j i v d = write (isw, seg_face sg, n, (k, j, i)) v d) ->
            for_each l (fun '(k, j, i) => take buf (W k j i)) st
            = for_each l (fun p : Z * Z * Z =>
                            take buf (write (isw, seg_face sg, n, p))) st).
  { intros isw n W l st0 HW. apply for_each_ext.
    intros [[k j] i] [p d]. unfold take. destruct (load buf p); cbn; auto.
    now rewrite HW. }
  rewrite (E false (seg_comp sg)) by (now intros k j i v [fd wd]).
  destruct (for_each (seg_pts sg) _ st); cbn [bind]; try reflexivity.
  rewrite for_each_map.
  apply (E true 0). now intros k j i v [fd wd].
Qed.

Lemma aset_same (a : Array) (n k j i : Z) (v : Real) :
  aset a n k j i v n k j i = v.
Proof. unfold aset. now rewrite !Z.eqb_refl. Qed.

Lemma aset_other (a : Array) (n k j i n' k' j' i' : Z) (v : Real) :
  (n, (k, j, i)) <> (n', (k', j', i')) ->
  aset a n k j i v n' k' j' i' = a n' k' j' i'.
Proof.
  intros H. unfold aset.
  destruct (Z.eqb_spec n' n); [|reflexivity].
  destruct (Z.eqb_spec k' k); [|reflexivity].
  destruct (Z.eqb_spec j' j); [|reflexivity].
  destruct (Z.eqb_spec i' i); [|reflexivity].
  subst. now elim H.
Qed.

Lemma read_write_same (l : Loc) (v : Real) (d : InterfaceField * InterfaceField) :
  read (write l v d) l = v.
Proof.
  destruct l as [[[isw c] n] [[k j] i]], d as [fd wd].
  destruct isw, c; cbn; apply aset_same.
Qed.

Lemma read_write_other (l l' : Loc) (v : Real)
  (d : InterfaceField * InterfaceField) :
  l <> l' -> read (write l v d) l' = read d l'.
Proof.
  destruct l as [[[isw c] n] [[k j] i]], l' as [[[isw' c'] n'] [[k' j'] i']],
    d as [fd wd].
  intros H. destruct isw, isw', c, c'; cbn; try reflexivity;
    apply aset_other; intros E; apply H; congruence.
Qed.

Lemma In_line (mk : Z -> Z * Z * Z) (s e : Z) (p : Z * Z * Z) :
  In p (line mk s e) <-> exists x, s <= x <= e /\ mk x = p.
Proof.
  unfold line. rewrite in_map_iff. split.
  - intros [x [E H]]. apply In_zrange in H. eauto.
  - intros [x [H E]]. exists x. split; [exact E | now apply In_zrange].
Qed.

Lemma In_plane (mk : Z -> Z -> Z * Z * Z) (s1 e1 s2 e2 : Z) (p : Z * Z * Z) :
  In p (plane mk s1 e1 s2 e2)
  <-> exists a b, s1 <= a <= e1 /\ s2 <= b <= e2 /\ mk a b = p.
Proof.
  unfold plane. rewrite in_flat_map. split.
  - intros [a [Ha H]]. apply in_map_iff in H. destruct H as [b [E Hb]].
    apply In_zrange in Ha, Hb. eauto.
  - intros [a [b [Ha [Hb E]]]]. exists a. split; [now apply In_zrange|].
    apply in_map_iff. exists b. split; [exact E | now apply In_zrange].
Qed.

Lemma NoDup_line (mk : Z -> Z * Z * Z) (s e : Z) :
  (forall x y, mk x = mk y -> x = y) -> NoDup (line mk s e).
Proof.
  intros H. unfold line. apply NoDup_map_inj; [|apply NoDup_zrange].
  intros x y _ _. apply H.
Qed.

Lemma NoDup_plane (mk : Z -> Z -> Z * Z * Z) (s1 e1 s2 e2 : Z) :
  (forall a b a' b', mk a b = mk a' b' -> a = a' /\ b = b') ->
  NoDup (plane mk s1 e1 s2 e2).
Proof.
  intros H. unfold plane. apply NoDup_flat_map; [apply NoDup_zrange| |].
  - intros a. apply NoDup_map_inj; [|apply NoDup_zrange].
    intros x y _ _ E. now apply H in E.
  - intros a a' y H1 H2. apply in_map_iff in H1, H2.
    destruct H1 as [b [<- _]], H2 as [b' [E _]]. symmetry in E.
    now apply H in E.
Qed.

Lemma In_seg_locs (s : Segment) (isw : bool) (c : face) (n : Z) (p : Z * Z * Z) :
  In (isw, c, n, p) (seg_locs s) -> c = seg_face s /\ In p (seg_pts s).
Proof.
  unfold seg_locs. rewrite in_app_iff, !in_map_iff.
  intros [[q [E H]]|[q [E H]]]; injection E as _ <- _ <-; auto.
Qed.

Lemma NoDup_seg_locs (s : Segment) : NoDup (seg_pts s) -> NoDup (seg_locs s).
Proof.
  intros H. unfold seg_locs. apply NoDup_app.
  - apply NoDup_map_inj; [|exact H]. intros x y _ _ E. now injection E.
  - apply NoDup_map_inj; [|exact H]. intros x y _ _ E. now injection E.
  - intros l H1 H2. apply in_map_iff in H1, H2.
    destruct H1 as [p [<- _]], H2 as [q [E _]]. discriminate.
Qed.


Ltac segs :=
  unfold eflux_recv_locs, eflux_send_locs, eflux_locs, eflux_segments,
    eflux_recv_at, eflux_send_at,
    inner_x1, outer_x1, inner_x2, outer_x2, inner_x3, outer_x3;
  cbn [Z.eqb Pos.eqb orb flat_map].

(** Membership in the locations of a direction, spelled out. *)
Ltac in_seg H :=
  apply In_seg_locs in H; cbn [seg_face seg_pts] in H;
  let Hc := fresh "Hc" in let Hp := fresh "Hp" in
  destruct H as [Hc Hp];
  first [ apply In_line in Hp; destruct Hp as [? [? Hp]]
        | apply In_plane in Hp; destruct Hp as [? [? [? [? Hp]]]] ];
  injection Hp as ? ? ?.

Ltac in_locs H :=
  lazymatch type of H with
  | In _ (seg_locs _ ++ _) =>
      apply in_app_or in H; destruct H as [H|H]; [in_seg H | in_locs H]
  | In _ [] => destruct H
  end.

Lemma NoDup_eflux_locs (pmb : MeshBlock) (e x : Z) :
  NoDup (eflux_locs pmb e x).
Proof.
  unfold eflux_locs, eflux_segments.
  destruct (_ =? 1);
    repeat match goal with
           | |- context [if ?b then _ else _] => destruct b
           end;
    cbn [flat_map]; rewrite ?app_nil_r; try apply NoDup_nil;
    try first [ apply NoDup_seg_locs
              | apply NoDup_app; [apply NoDup_seg_locs | apply NoDup_seg_locs | ] ];
    cbn [seg_pts];
    try (apply NoDup_line; intros ? ? E; now injection E);
    try (apply NoDup_plane; intros ? ? ? ? E; now injection E);
    intros [[[isw c] n] p] H1 H2;
    apply In_seg_locs in H1, H2; cbn [seg_face] in *;
    destruct H1 as [-> _], H2 as [E _]; discriminate.
Qed.

(** The unpack blocks of two different directions write to different
    locations. *)
Lemma eflux_recv_locs_disjoint (pmb : MeshBlock) (e e' : Z) (l : Loc) :
  is_ pmb <= ie pmb -> js pmb <= je pmb -> ks pmb <= ke pmb ->
  0 <= e < 6 -> 0 <= e' < 6 -> e <> e' ->
  In l (eflux_recv_locs pmb e) -> ~ In l (eflux_recv_locs pmb e').
Proof.
  intros Hi Hj Hk He He' Hne.
  destruct l as [[[isw c] n] [[k j] i]].
  unfold eflux_recv_locs, eflux_locs, eflux_segments, eflux_recv_at.
  destruct (_ =? 1);
    each_dir He; each_dir He'; try (now elim Hne);
    unfold inner_x1, outer_x1, inner_x2, outer_x2, inner_x3, outer_x3;
    cbn [Z.eqb Pos.eqb orb flat_map];
    intros H1 H2; in_locs H1; in_locs H2; subst; try discriminate; lia.
Qed.


(** ** ReceiveAndSet returns (C10) *)

Lemma unpack_face_points (recvbuf : list Real) (c : face)
  (r : Range) (st : nat * InterfaceField) :
  unpack_face recvbuf
    (match c with x1face => set_x1f | x2face => set_x2f | x3face => set_x3f end)
    r st
  = for_each (map (fun p => (c, p)) (points3 r))
             (fun l => take recvbuf (write_face l)) st.
Proof.
  unfold unpack_face.
  rewrite (nest3_points r (fun k j i => take recvbuf (fun v dst =>
    (match c with x1face => set_x1f | x2face => set_x2f | x3face => set_x3f end)
      dst 0 k j i v))).
  rewrite for_each_map. apply for_each_ext.
  intros [[k j] i] s0. now destruct c.
Qed.

Lemma unpack_field_locs (recvbuf : list Real) (rs : face -> Range)
  (dst : InterfaceField) :
  unpack_field recvbuf rs dst
  = for_each (field_locs rs) (fun l => take recvbuf (write_face l)) (O, dst).
Proof.
  unfold unpack_field, field_locs. rewrite for_each_app.
  rewrite (unpack_face_points recvbuf x1face).
  destruct (for_each (map _ (points3 (rs x1face))) _ (O, dst)) as [st| | |];
    cbn [bind]; try reflexivity.
  rewrite for_each_app, (unpack_face_points recvbuf x2face).
  destruct (for_each (map _ (points3 (rs x2face))) _ st);
    cbn [bind]; try reflexivity.
  apply (unpack_face_points recvbuf x3face).
Qed.

Lemma length_field_locs (rs : face -> Range) :
  Z.of_nat (length (field_locs rs))
  = range_count (rs x1face) + range_count (rs x2face) + range_count (rs x3face).
Proof.
  unfold field_locs.
  rewrite !length_app, !length_map, !Nat2Z.inj_add, !length_points3. ring.
Qed.

Lemma length_deliver (data buf : list Real) :
  length (deliver data buf) = length buf.
Proof.
  unfold deliver. rewrite length_app, length_firstn, length_skipn. lia.
Qed.

(** Waiting on a receive that completes keeps the block in place and the
    length of its receive buffers. *)
Lemma WaitReceive_Some (c : chan) (me : nat) (dir : Z) (w : Process)
  (pmb : MeshBlock) (m : MPI) (rq : MPI_Request) (data : list Real) :
  nth_error (pblock w) me = Some pmb ->
  MPI_Wait (mpi w) (req_recv_ (get_chan c (pbval pmb)) dir 0 0)
  = Some (m, rq, data) ->
  WaitReceive c me dir w
  = Ret (set_block (set_mpi w m) me
           (set_pbval pmb
              (set_chan c (pbval pmb)
                 (set_req_recv
                    (set_recv (get_chan c (pbval pmb)) dir
                       (deliver data (recv_ (get_chan c (pbval pmb)) dir)))
                    dir 0 0 rq)))).
Proof.
  intros Hb Hw. unfold WaitReceive. rewrite (block_Ret _ _ _ Hb). cbn [bind].
  rewrite Hw. now apply (put_chan_Ret (set_mpi w m)).
Qed.

Lemma WaitReceive_Ret (c : chan) (me : nat) (dir : Z) (w : Process)
  (pmb : MeshBlock) :
  nth_error (pblock w) me = Some pmb ->
  MPI_Wait (mpi w) (req_recv_ (get_chan c (pbval pmb)) dir 0 0) <> None ->
  exists m rq data,
    WaitReceive c me dir w
    = Ret (set_block (set_mpi w m) me
             (set_pbval pmb
                (set_chan c (pbval pmb)
                   (set_req_recv
                      (set_recv (get_chan c (pbval pmb)) dir
                         (deliver data (recv_ (get_chan c (pbval pmb)) dir)))
                      dir 0 0 rq)))).
Proof.
  intros Hb Hw. unfold WaitReceive. rewrite (block_Ret _ _ _ Hb). cbn [bind].
  destruct (MPI_Wait _ _) as [[[m rq] data]|]; [|now elim Hw].
  exists m, rq, data. now apply (put_chan_Ret (set_mpi w m)).
Qed.

Lemma get_set_chan (c : chan) (bv : BoundaryValues) (ch : Channel) :
  get_chan c (set_chan c bv ch) = ch.
Proof. now destruct c. Qed.

Lemma ReceiveAndSetFluid_returns
  (w : Process) (me : nat) (dir : Z) (dst : Array) (pmb : MeshBlock) :
  0 <= NFLUID ->
  nth_error (pblock w) me = Some pmb ->
  fluid_receivable w pmb dir ->
  exists w' dst', ReceiveAndSetFluidBoundary w me dir dst = Ret (w', dst', true).
Proof.
  intros Hf Hb H. unfold fluid_receivable in H.
  unfold ReceiveAndSetFluidBoundary.
  rewrite (block_Ret _ _ _ Hb). cbn [bind].
  destruct (_ =? -1).
  - destruct (Boundary_ _ _); [eauto | now elim H].
  - destruct H as [Hlen Hw].
    assert (E : exists w1 b1,
              (if MPI_PARALLEL && negb (flag_ (fluid (pbval pmb)) dir 0 0)
                  && negb (NeighborBlock.rank (neighbor pmb dir 0 0) =? myrank)
               then WaitReceive Fluid me dir w else Ret w) = Ret w1
              /\ nth_error (pblock w1) me = Some b1
              /\ tabs w1 = tabs w
              /\ length (recv_ (fluid (pbval b1)) dir)
                 = length (recv_ (fluid (pbval pmb)) dir)).
    { destruct (MPI_PARALLEL && _ && _) eqn:Ec.
      - apply andb_true_iff in Ec. destruct Ec as [Ec E3].
        apply andb_true_iff in Ec. destruct Ec as [E1 E2].
        apply negb_true_iff in E2, E3. apply Z.eqb_neq in E3.
        destruct (WaitReceive_Ret Fluid me dir w pmb Hb (Hw E1 E2 E3))
          as [m [rq [data ->]]].
        eexists; eexists. split; [reflexivity|]. split; [|split].
        + cbn. apply nth_error_set_nth_eq. eapply nth_error_lt; eauto.
        + reflexivity.
        + cbn. unfold upd. rewrite Z.eqb_refl. apply length_deliver.
      - exists w, pmb. auto. }
    destruct E as [w1 [b1 [-> [Hb1 [Ht1 Hl1]]]]]. cbn [bind].
    rewrite (block_Ret _ _ _ Hb1). cbn [bind].
    rewrite unpack_fluid_points, Ht1.
    rewrite (take_prefix (fun p v d => aset4 d p v))
      by (apply Nat2Z.inj_le; rewrite length_points4, Hl1 by exact Hf; exact Hlen).
    cbn [bind]. rewrite (put_chan_Ret _ _ _ _ _ Hb1). cbn [bind]. eauto.
Qed.

Lemma ReceiveAndSetField_returns
  (w : Process) (me : nat) (dir : Z) (dst : InterfaceField) (pmb : MeshBlock) :
  nth_error (pblock w) me = Some pmb ->
  field_receivable w pmb dir ->
  exists w' dst', ReceiveAndSetFieldBoundary w me dir dst = Ret (w', dst', true).
Proof.
  intros Hb H. unfold field_receivable in H.
  unfold ReceiveAndSetFieldBoundary.
  rewrite (block_Ret _ _ _ Hb). cbn [bind].
  destruct (_ =? -1).
  - destruct (Boundary_ _ _); [eauto | now elim H].
  - destruct H as [Hlen Hw].
    assert (E : exists w1 b1,
              (if MPI_PARALLEL && negb (flag_ (field (pbval pmb)) dir 0 0)
                  && negb (NeighborBlock.rank (neighbor pmb dir 0 0) =? myrank)
               then WaitReceive Field me dir w else Ret w) = Ret w1
              /\ nth_error (pblock w1) me = Some b1
              /\ tabs w1 = tabs w
              /\ length (recv_ (field (pbval b1)) dir)
                 = length (recv_ (field (pbval pmb)) dir)).
    { destruct (MPI_PARALLEL && _ && _) eqn:Ec.
      - apply andb_true_iff in Ec. destruct Ec as [Ec E3].
        apply andb_true_iff in Ec. destruct Ec as [E1 E2].
        apply negb_true_iff in E2, E3. apply Z.eqb_neq in E3.
        destruct (WaitReceive_Ret Field me dir w pmb Hb (Hw E1 E2 E3))
          as [m [rq [data ->]]].
        eexists; eexists. split; [reflexivity|]. split; [|split].
        + cbn. apply nth_error_set_nth_eq. eapply nth_error_lt; eauto.
        + reflexivity.
        + cbn. unfold upd. rewrite Z.eqb_refl. apply length_deliver.
      - exists w, pmb. auto. }
    destruct E as [w1 [b1 [-> [Hb1 [Ht1 Hl1]]]]]. cbn [bind].
    rewrite (block_Ret _ _ _ Hb1). cbn [bind].
    rewrite unpack_field_locs, Ht1.
    rewrite (take_prefix write_face)
      by (apply Nat2Z.inj_le; rewrite length_field_locs, Hl1; exact Hlen).
    cbn [bind]. rewrite (put_chan_Ret _ _ _ _ _ Hb1). cbn [bind]. eauto.
Qed.


(** ** Blocks across transfers *)

Lemma kin_refl (b : MeshBlock) : kin b b.
Proof. unfold kin. destruct b; cbn; auto. Qed.

Lemma kin_trans (a b c : MeshBlock) : kin a b -> kin b c -> kin a c.
Proof.
  intros [E1 [B1 L1]] [E2 [B2 L2]]. unfold kin. split; [|split].
  - rewrite E2. rewrite E1 at 1. reflexivity.
  - congruence.
  - intros y. now rewrite L2, L1.
Qed.

Lemma kin_update (b b' : MeshBlock) (bv : BoundaryValues) :
  kin b b' ->
  Boundary_ (eflux bv) = Boundary_ (eflux (pbval b')) ->
  (forall y, length (recv_ (eflux bv) y)
             = length (recv_ (eflux (pbval b')) y)) ->
  kin b (set_pbval b' bv).
Proof.
  intros [E [HB HL]] H1 H2. unfold kin. split; [|split].
  - rewrite E. reflexivity.
  - cbn. congruence.
  - intros y. cbn. now rewrite H2.
Qed.

Lemma kin_set_flag (b b' : MeshBlock) (x u v : Z) (t : bool) :
  kin b b' ->
  kin b (set_pbval b' (set_chan EFlux (pbval b')
                         (set_flag (eflux (pbval b')) x u v t))).
Proof.
  intros Hk. apply kin_update; [exact Hk | reflexivity | reflexivity].
Qed.

Lemma kin_geometry (b b' : MeshBlock) :
  kin b b' ->
  neighbor b' = neighbor b /\ block_size b' = block_size b
  /\ eflux_dirs b' = eflux_dirs b
  /\ (forall e, eflux_recv_locs b' e = eflux_recv_locs b e)
  /\ gid b' = gid b.
Proof. intros [E _]. rewrite E. repeat split; reflexivity. Qed.

Lemma eflux_dirs_range (b : MeshBlock) (e : Z) :
  In e (eflux_dirs b) -> 0 <= e < 6.
Proof.
  unfold eflux_dirs, inner_x1, outer_x1, inner_x2, outer_x2, inner_x3, outer_x3.
  destruct (_ =? 1); cbn; intros H;
    repeat (destruct H as [<-|H]; [lia|]); destruct H.
Qed.

Lemma map_fst_combine {X Y} (l : list X) (l' : list Y) :
  (length l <= length l')%nat -> map fst (combine l l') = l.
Proof.
  revert l'; induction l as [|x l IH]; intros [|y l'] H; cbn in *;
    try reflexivity; try lia.
  f_equal. apply IH. lia.
Qed.

Lemma map_snd_combine {X Y} (l : list X) (l' : list Y) :
  map snd (combine l l') = firstn (length l) l'.
Proof.
  revert l'; induction l as [|x l IH]; intros [|y l']; cbn;
    try reflexivity. f_equal. apply IH.
Qed.

(** After unpacking, reading the written locations in order gives the
    prefix of the buffer. *)
Lemma read_after_unpack (locs : list Loc) (vs : list Real)
  (d : InterfaceField * InterfaceField) :
  NoDup locs -> (length locs <= length vs)%nat ->
  map (read (fold_left (fun d xv => write (fst xv) (snd xv) d)
                       (combine locs vs) d)) locs
  = firstn (length locs) vs.
Proof.
  intros Hnd Hlen. rewrite <- map_snd_combine.
  rewrite <- (map_fst_combine locs vs Hlen) at 2. rewrite map_map.
  apply map_ext_in. intros [l v] Hin. cbn.
  now apply (fold_write_read _ _ write read read_write_same read_write_other).
Qed.

Lemma read_after_unpack_other (locs : list Loc) (vs : list Real)
  (d : InterfaceField * InterfaceField) (l : Loc) :
  ~ In l locs ->
  read (fold_left (fun d xv => write (fst xv) (snd xv) d) (combine locs vs) d) l
  = read d l.
Proof.
  apply (fold_write_other _ _ write read read_write_other).
Qed.

(** ** Receiving edge fluxes *)

Lemma eflux_dirs_loop (B : MeshBlock) (e : Z) :
  In e (zrange 0 ((if RegionSize.nx3 (block_size B) >? 1 then 6 else 4) - 1)) ->
  In e (eflux_dirs B).
Proof.
  rewrite In_zrange. unfold eflux_dirs.
  destruct (Z.gtb_spec (RegionSize.nx3 (block_size B)) 1) as [H|H];
    destruct (Z.eqb_spec (RegionSize.nx3 (block_size B)) 1) as [E|E];
    try lia; intros Hr;
    unfold inner_x1, outer_x1, inner_x2, outer_x2, inner_x3, outer_x3; cbn;
    lia.
Qed.

Lemma eflux_loop_dirs (B : MeshBlock) (e : Z) :
  1 <= RegionSize.nx3 (block_size B) ->
  In e (eflux_dirs B) ->
  In e (zrange 0 ((if RegionSize.nx3 (block_size B) >? 1 then 6 else 4) - 1)).
Proof.
  rewrite In_zrange. unfold eflux_dirs.
  destruct (Z.gtb_spec (RegionSize.nx3 (block_size B)) 1) as [H|H];
    destruct (Z.eqb_spec (RegionSize.nx3 (block_size B)) 1) as [E|E];
    try lia; intros _;
    unfold inner_x1, outer_x1, inner_x2, outer_x2, inner_x3, outer_x3; cbn;
    lia.
Qed.

(** A loop over a list without repetition: the body may rely on its
    element not having been visited. *)
Lemma for_each_fresh {X S} (Q : list X -> S -> Prop) (l : list X)
  (body : X -> S -> outcome S) :
  (forall done x s, In x l -> ~ In x done -> Q done s ->
     exists s', body x s = Ret s' /\ Q (done ++ [x]) s') ->
  forall done s, NoDup (done ++ l) -> Q done s ->
    exists s', for_each l body s = Ret s' /\ Q (done ++ l) s'.
Proof.
  induction l as [|x l IH]; intros Hstep done s Hnd HQ; cbn.
  - exists s. now rewrite app_nil_r.
  - destruct (Hstep done x s) as [s1 [E1 Q1]]; [now left | | exact HQ |].
    { intros Hin. apply NoDup_remove_2 in Hnd. apply Hnd.
      apply in_or_app. now left. }
    rewrite E1. cbn.
    destruct (IH (fun d y s0 Hy => Hstep d y s0 (or_intror Hy)) (done ++ [x]) s1)
      as [s2 [E2 Q2]]; [now rewrite <- app_assoc | exact Q1 |].
    exists s2. split; [exact E2|]. now rewrite <- app_assoc in Q2.
Qed.

(** One pass of the wait loop.  For a neighbor on another rank the
    receive buffer of direction [x] takes the message of the completed
    wait on the receive request of [x]; the receive buffers and receive
    requests of the other directions stay. *)
Lemma WaitEFlux_step (me : nat) (x : Z) (w : Process) (A A' : MeshBlock) :
  nth_error (pblock w) me = Some A' -> kin A A' ->
  (forall m rq, MPI_Wait m rq <> None) ->
  exists w' A'',
    WaitEFlux me x w = Ret w'
    /\ tabs w' = tabs w
    /\ nth_error (pblock w') me = Some A''
    /\ kin A A''
    /\ (forall y,
         NeighborBlock.gid (neighbor A x 0 0) = -1
         \/ NeighborBlock.rank (neighbor A x 0 0) = myrank \/ y <> x ->
         recv_ (eflux (pbval A'')) y = recv_ (eflux (pbval A')) y
         /\ req_recv_ (eflux (pbval A'')) y 0 0
            = req_recv_ (eflux (pbval A')) y 0 0)
    /\ (NeighborBlock.gid (neighbor A x 0 0) <> -1 ->
        NeighborBlock.rank (neighbor A x 0 0) <> myrank ->
        exists m rq data,
          MPI_Wait (mpi w) (req_recv_ (eflux (pbval A')) x 0 0)
          = Some (m, rq, data)
          /\ recv_ (eflux (pbval A'')) x
             = deliver data (recv_ (eflux (pbval A')) x)).
Proof using MPI MPI_Request MPI_Wait Real X1E2 X1E3 X2E1 X2E3 X3E1 X3E2 myrank.
  intros Hb Hk Hw. unfold WaitEFlux.
  rewrite (block_Ret _ _ _ Hb). cbn [bind].
  destruct (kin_geometry _ _ Hk) as [Hn _]. rewrite Hn.
  destruct (negb _ && negb _) eqn:Ec.
  - apply andb_true_iff in Ec. destruct Ec as [E1 E2].
    apply negb_true_iff in E1, E2. apply Z.eqb_neq in E1, E2.
    destruct (MPI_Wait (mpi w) (req_recv_ (eflux (pbval A')) x 0 0))
      as [[[m rq] data]|] eqn:EW; [|now elim (Hw _ _ EW)].
    rewrite (WaitReceive_Some EFlux me x w A' m rq data Hb EW).
    cbn [bind get_chan].
    set (A1 := set_pbval A' _). set (w1 := set_block _ me A1).
    assert (Hb1 : nth_error (pblock w1) me = Some A1).
    { cbn. apply nth_error_set_nth_eq. eapply nth_error_lt; eauto. }
    rewrite (block_Ret _ _ _ Hb1). cbn [bind].
    rewrite (put_chan_Ret _ _ _ _ _ Hb1).
    eexists; eexists. split; [reflexivity|]. split; [reflexivity|].
    split; [|split; [|split]].
    + cbn. apply nth_error_set_nth_eq. rewrite length_set_nth.
      eapply nth_error_lt; eauto.
    + assert (Hk1 : kin A A1).
      { apply kin_update; [exact Hk | reflexivity |].
        intros y. cbn. unfold upd. destruct (y =? x) eqn:Ey; [|reflexivity].
        apply Z.eqb_eq in Ey. subst. apply length_deliver. }
      apply kin_update; [exact Hk1 | reflexivity | reflexivity].
    + intros y [H|[H|H]]; try contradiction.
      cbn. unfold upd, upd3. apply Z.eqb_neq in H. rewrite H.
      split; reflexivity.
    + intros _ _. exists m, rq, data. split; [reflexivity|].
      cbn. unfold upd. now rewrite Z.eqb_refl.
  - exists w, A'. split; [reflexivity|]. split; [reflexivity|].
    split; [exact Hb|]. split; [exact Hk|]. split.
    + intros y _. split; reflexivity.
    + intros Hg Hr. apply Z.eqb_neq in Hg, Hr. rewrite Hg, Hr in Ec.
      discriminate Ec.
Qed.

(** The wait loop: the receive buffer of a side whose neighbor is on
    another rank holds the message of the completed wait on the receive
    request that the side had before the loop; the other receive buffers
    are as before. *)
Lemma WaitEFlux_loop (me : nat) (s e : Z) (w : Process) (A : MeshBlock) :
  nth_error (pblock w) me = Some A ->
  (forall m rq, MPI_Wait m rq <> None) ->
  exists w' A',
    for_loop s e (WaitEFlux me) w = Ret w'
    /\ tabs w' = tabs w
    /\ nth_error (pblock w') me = Some A'
    /\ kin A A'
    /\ (forall y,
         NeighborBlock.gid (neighbor A y 0 0) = -1
         \/ NeighborBlock.rank (neighbor A y 0 0) = myrank ->
         recv_ (eflux (pbval A')) y = recv_ (eflux (pbval A)) y)
    /\ (forall y, s <= y <= e ->
         NeighborBlock.gid (neighbor A y 0 0) <> -1 ->
         NeighborBlock.rank (neighbor A y 0 0) <> myrank ->
         exists m m' rq data,
           MPI_Wait m (req_recv_ (eflux (pbval A)) y 0 0) = Some (m', rq, data)
           /\ recv_ (eflux (pbval A')) y
              = deliver data (recv_ (eflux (pbval A)) y)).
Proof using MPI MPI_Request MPI_Wait Real X1E2 X1E3 X2E1 X2E3 X3E1 X3E2 myrank.
  intros Hb Hw. unfold for_loop.
  destruct (for_each_fresh
    (fun done w' => tabs w' = tabs w
       /\ exists A', nth_error (pblock w') me = Some A' /\ kin A A'
          /\ (forall y,
               NeighborBlock.gid (neighbor A y 0 0) = -1
               \/ NeighborBlock.rank (neighbor A y 0 0) = myrank
               \/ ~ In y done ->
               recv_ (eflux (pbval A')) y = recv_ (eflux (pbval A)) y
               /\ req_recv_ (eflux (pbval A')) y 0 0
                  = req_recv_ (eflux (pbval A)) y 0 0)
          /\ (forall y, In y done ->
               NeighborBlock.gid (neighbor A y 0 0) <> -1 ->
               NeighborBlock.rank (neighbor A y 0 0) <> myrank ->
               exists m m' rq data,
                 MPI_Wait m (req_recv_ (eflux (pbval A)) y 0 0)
                 = Some (m', rq, data)
                 /\ recv_ (eflux (pbval A')) y
                    = deliver data (recv_ (eflux (pbval A)) y)))
    (zrange s e) (WaitEFlux me)) with (done := @nil Z) (s := w)
    as [w' [E [Ht [A' [Hb' [Hk [Hr Hd]]]]]]].
  - intros done x w0 _ Hfresh [Ht0 [A0 [Hb0 [Hk0 [Hr0 Hd0]]]]].
    destruct (WaitEFlux_step me x w0 A A0 Hb0 Hk0 Hw)
      as [w1 [A1 [E1 [Ht1 [Hb1 [Hk1 [Hr1 Hd1]]]]]]].
    exists w1. split; [exact E1|]. split; [congruence|].
    exists A1. split; [exact Hb1|]. split; [exact Hk1|]. split.
    + intros y Hy.
      assert (Hs : recv_ (eflux (pbval A1)) y = recv_ (eflux (pbval A0)) y
                   /\ req_recv_ (eflux (pbval A1)) y 0 0
                      = req_recv_ (eflux (pbval A0)) y 0 0).
      { apply Hr1. destruct (Z.eq_dec y x) as [->|Hne]; [|auto].
        destruct Hy as [Hy|[Hy|Hy]]; auto.
        elim Hy. apply in_or_app. right. now left. }
      assert (H0 : recv_ (eflux (pbval A0)) y = recv_ (eflux (pbval A)) y
                   /\ req_recv_ (eflux (pbval A0)) y 0 0
                      = req_recv_ (eflux (pbval A)) y 0 0).
      { apply Hr0. destruct Hy as [Hy|[Hy|Hy]]; auto.
        right. right. intros Hin. apply Hy. apply in_or_app. now left. }
      destruct Hs as [-> ->]. exact H0.
    + intros y Hy Hg Hrk. apply in_app_or in Hy.
      destruct Hy as [Hy|[<-|[]]].
      * destruct (Hd0 y Hy Hg Hrk) as [m [m' [rq [data [EW R]]]]].
        exists m, m', rq, data. split; [exact EW|].
        assert (Hne : y <> x) by (intros ->; contradiction).
        destruct (Hr1 y (or_intror (or_intror Hne))) as [-> _]. exact R.
      * destruct (Hd1 Hg Hrk) as [m [rq [data [EW R]]]].
        destruct (Hr0 x (or_intror (or_intror Hfresh))) as [R0 Q0].
        exists (mpi w0), m, rq, data. rewrite <- Q0, <- R0. now split.
  - cbn [app]. apply NoDup_zrange.
  - split; [reflexivity|]. exists A. split; [exact Hb|].
    split; [apply kin_refl|]. split; [intros y _; now split | intros y []].
  - cbn [app] in Hr, Hd. exists w', A'. split; [exact E|].
    split; [exact Ht|]. split; [exact Hb'|]. split; [exact Hk|]. split.
    + intros y Hy. apply Hr. destruct Hy; auto.
    + intros y Hy. apply Hd. now apply In_zrange.
Qed.

Lemma SetEFlux_step (me : nat) (x e0 : Z) (w : Process)
  (dst : InterfaceField * InterfaceField) (A A' : MeshBlock) (done : list Z) :
  nth_error (pblock w) me = Some A' -> kin A A' ->
  eflux_receivable A ->
  In x (eflux_dirs A) ->
  exists w' dst' A'',
    SetEFlux me x (w, dst) = Ret (w', dst')
    /\ tabs w' = tabs w
    /\ nth_error (pblock w') me = Some A''
    /\ kin A A''
    /\ recv_ (eflux (pbval A'')) = recv_ (eflux (pbval A'))
    /\ flag_ (eflux (pbval A'')) x 0 0 = false
    /\ (forall y, flag_ (eflux (pbval A')) y 0 0 = false ->
                  flag_ (eflux (pbval A'')) y 0 0 = false)
    /\ (In e0 (eflux_dirs A) ->
        NeighborBlock.gid (neighbor A e0 0 0) <> -1 ->
        is_ A <= ie A -> js A <= je A -> ks A <= ke A ->
        handlers_keep A e0 ->
        recv_ (eflux (pbval A')) e0 = recv_ (eflux (pbval A)) e0 ->
        (x = e0 ->
         map (read dst') (eflux_recv_locs A e0)
         = firstn (length (eflux_recv_locs A e0)) (recv_ (eflux (pbval A)) e0))
        /\ (x <> e0 ->
            map (read dst') (eflux_recv_locs A e0)
            = map (read dst) (eflux_recv_locs A e0))).
Proof.
  intros Hb Hk Hrcv Hx. unfold SetEFlux.
  rewrite (block_Ret _ _ _ Hb). cbn [bind].
  destruct (kin_geometry _ _ Hk) as [Hn [_ [_ [Hlocs _]]]].
  destruct Hk as [E [HB HL]].
  rewrite Hn, HB. specialize (Hrcv x Hx).
  assert (Hfin : forall dst' : InterfaceField * InterfaceField,
    exists w' A'',
      (w0 <- put_chan w me EFlux (set_flag (eflux (pbval A')) x 0 0 false) ;;
       Ret (w0, dst')) = Ret (w', dst')
      /\ tabs w' = tabs w
      /\ nth_error (pblock w') me = Some A''
      /\ kin A A''
      /\ recv_ (eflux (pbval A'')) = recv_ (eflux (pbval A'))
      /\ flag_ (eflux (pbval A'')) x 0 0 = false
      /\ (forall y, flag_ (eflux (pbval A')) y 0 0 = false ->
                    flag_ (eflux (pbval A'')) y 0 0 = false)).
  { intros dst'. rewrite (put_chan_Ret _ _ _ _ _ Hb). cbn [bind].
    eexists; eexists. split; [reflexivity|]. split; [reflexivity|].
    split; [|split; [|split; [|split]]].
    - cbn. apply nth_error_set_nth_eq. eapply nth_error_lt; eauto.
    - apply kin_set_flag. unfold kin; auto.
    - reflexivity.
    - cbn. unfold upd3. now rewrite !Z.eqb_refl.
    - intros y Hy. cbn. unfold upd3. destruct (_ && _); auto. }
  destruct (NeighborBlock.gid (neighbor A x 0 0) =? -1) eqn:Eg.
  - destruct (Boundary_ (eflux (pbval A)) x) as [f|] eqn:Ef; [|now elim Hrcv].
    cbn [bind].
    destruct (Hfin (call_eflux f A' (fst dst) (snd dst)))
      as [w' [A'' [E1 [Ht [Hb' [Hk' [Hr' [Hf1 Hf2]]]]]]]].
    exists w', (call_eflux f A' (fst dst) (snd dst)), A''.
    repeat (split; [assumption|]).
    intros He0 Hg0 Hi Hj Hkk Hkeep Hr0. apply Z.eqb_eq in Eg. split.
    + intros ->. contradiction.
    + intros _. apply map_ext_in. intros l Hl.
      rewrite (Hkeep x f A' (fst dst) (snd dst) l Hx Eg Ef Hl).
      now destruct dst.
  - rewrite unpack_eflux_locs, Hlocs.
    rewrite (take_prefix write) by (rewrite HL; exact Hrcv).
    cbn [bind].
    match goal with |- context [Ret (_, ?d)] =>
      destruct (Hfin d) as [w' [A'' [E1 [Ht [Hb' [Hk' [Hr' [Hf1 Hf2]]]]]]]];
      exists w', d, A'' end.
    repeat (split; [assumption|]).
    intros He0 Hg0 Hi Hj Hkk Hkeep Hr0. split.
    + intros ->. rewrite Hr0. apply read_after_unpack.
      * apply NoDup_eflux_locs.
      * rewrite <- Hr0, HL. exact Hrcv.
    + intros Hne. apply map_ext_in. intros l Hl.
      apply read_after_unpack_other.
      apply (eflux_recv_locs_disjoint A e0 x l); auto;
        try (eapply eflux_dirs_range; eauto).
Qed.


Lemma SetEFlux_loop (me : nat) (e0 : Z) (w : Process)
  (dst : InterfaceField * InterfaceField) (A A1 : MeshBlock) :
  nth_error (pblock w) me = Some A1 -> kin A A1 ->
  eflux_receivable A ->
  exists w' dst' A',
    for_each (eflux_dirs A) (SetEFlux me) (w, dst) = Ret (w', dst')
    /\ nth_error (pblock w') me = Some A'
    /\ kin A A'
    /\ (forall e, In e (eflux_dirs A) -> flag_ (eflux (pbval A')) e 0 0 = false)
    /\ recv_ (eflux (pbval A')) = recv_ (eflux (pbval A1))
    /\ (eflux_set_at A e0 ->
        recv_ (eflux (pbval A1)) e0 = recv_ (eflux (pbval A)) e0 ->
        map (read dst') (eflux_recv_locs A e0)
        = firstn (length (eflux_recv_locs A e0)) (recv_ (eflux (pbval A)) e0)).
Proof.
  intros Hb Hk Hrcv.
  destruct (for_each_acc
    (fun done (st : Process * (InterfaceField * InterfaceField)) =>
       exists A', nth_error (pblock (fst st)) me = Some A' /\ kin A A'
         /\ recv_ (eflux (pbval A')) = recv_ (eflux (pbval A1))
         /\ (forall e, In e done -> flag_ (eflux (pbval A')) e 0 0 = false)
         /\ (eflux_set_at A e0 ->
             recv_ (eflux (pbval A1)) e0 = recv_ (eflux (pbval A)) e0 ->
             In e0 done ->
             map (read (snd st)) (eflux_recv_locs A e0)
             = firstn (length (eflux_recv_locs A e0))
                      (recv_ (eflux (pbval A)) e0)))
    (eflux_dirs A) (SetEFlux me)) with (done := @nil Z) (s := (w, dst))
    as [[w' dst'] [E [A' [Hb' [Hk' [Hr' [Hf' Hc']]]]]]].
  - intros done x [w0 dst0] Hx [A0 [Hb0 [Hk0 [Hr0 [Hf0 Hc0]]]]]. cbn in *.
    destruct (SetEFlux_step me x e0 w0 dst0 A A0 done Hb0 Hk0 Hrcv Hx)
      as [w2 [dst2 [A2 [E2 [Ht2 [Hb2 [Hk2 [Hr2 [Hfx [Hfo Hc2]]]]]]]]]].
    exists (w2, dst2). split; [exact E2|]. exists A2. cbn.
    split; [exact Hb2|]. split; [exact Hk2|]. split; [congruence|]. split.
    + intros e He. apply in_app_iff in He. destruct He as [He|[<-|[]]]; auto.
    + intros Hd Hrv He.
      destruct Hd as [Hd1 [Hd2 [Hd4 [Hd5 [Hd6 Hd7]]]]].
      destruct (Hc2 Hd1 Hd2 Hd4 Hd5 Hd6 Hd7) as [Hsame Hother];
        [now rewrite Hr0|].
      destruct (Z.eq_dec x e0) as [Heq|Hne]; [now apply Hsame|].
      rewrite (Hother Hne). apply Hc0; auto.
      * repeat split; assumption.
      * apply in_app_iff in He. destruct He as [He|[He|[]]]; [exact He|].
        now elim Hne.
  - exists A1. cbn. split; [exact Hb|]. split; [exact Hk|].
    split; [reflexivity|]. split; [intros e []|intros _ _ []].
  - exists w', dst', A'. cbn in *. split; [exact E|]. split; [exact Hb'|].
    split; [exact Hk'|]. split; [exact Hf'|]. split; [exact Hr'|].
    intros Hd Hrv. apply Hc'; auto. now destruct Hd.
Qed.

Lemma eflux_receivable_kin (A A' : MeshBlock) :
  kin A A' -> eflux_receivable A -> eflux_receivable A'.
Proof.
  intros K H e He.
  destruct (kin_geometry _ _ K) as [Hn [_ [Hd [Hl _]]]].
  destruct K as [_ [HB HL]].
  rewrite Hd in He. specialize (H e He).
  rewrite Hn, HB, Hl, HL. exact H.
Qed.

Lemma eflux_set_at_kin (A A' : MeshBlock) (e0 : Z) :
  kin A A' -> eflux_set_at A e0 -> eflux_set_at A' e0.
Proof.
  intros K [H1 [H2 [H4 [H5 [H6 H7]]]]].
  destruct (kin_geometry _ _ K) as [Hn [_ [Hd [Hl _]]]].
  destruct K as [E [HB HL]].
  unfold eflux_set_at. rewrite Hn, Hd.
  split; [exact H1|]. split; [exact H2|].
  split; [rewrite E; exact H4|]. split; [rewrite E; exact H5|].
  split; [rewrite E; exact H6|].
  intros e f pmb' fd wd l He Hg Hf Hin.
  rewrite Hd in He. rewrite Hn in Hg. rewrite HB in Hf. rewrite Hl in Hin.
  now apply (H7 e f pmb' fd wd l).
Qed.

(** ReceiveAndSetEFluxBoundary on a block of dimension two or three: it
    returns, with every flag cleared; the ghost edges of a side with a
    neighbor hold the leading elements of the receive buffer of that side
    as the call leaves it.  The call leaves that buffer as it was when the
    neighbor is on this rank; for a neighbor on another rank it holds the
    message of the completed wait on the receive request of the side. *)
Lemma ReceiveAndSetEFlux_result (w : Process) (me : nat) (A : MeshBlock)
  (fdst wdst : InterfaceField) (e0 : Z) :
  nth_error (pblock w) me = Some A ->
  RegionSize.nx2 (block_size A) <> 1 ->
  (MPI_PARALLEL = true -> forall m rq, MPI_Wait m rq <> None) ->
  eflux_receivable A ->
  exists w' dst' A',
    ReceiveAndSetEFluxBoundary w me fdst wdst = Ret (w', dst', true)
    /\ nth_error (pblock w') me = Some A'
    /\ (forall e, In e (eflux_dirs A) -> flag_ (eflux (pbval A')) e 0 0 = false)
    /\ (eflux_set_at A e0 ->
        map (read dst') (eflux_recv_locs A e0)
        = firstn (length (eflux_recv_locs A e0)) (recv_ (eflux (pbval A')) e0))
    /\ (MPI_PARALLEL = false
        \/ NeighborBlock.gid (neighbor A e0 0 0) = -1
        \/ NeighborBlock.rank (neighbor A e0 0 0) = myrank ->
        recv_ (eflux (pbval A')) e0 = recv_ (eflux (pbval A)) e0)
    /\ (MPI_PARALLEL = true ->
        1 <= RegionSize.nx3 (block_size A) ->
        In e0 (eflux_dirs A) ->
        NeighborBlock.gid (neighbor A e0 0 0) <> -1 ->
        NeighborBlock.rank (neighbor A e0 0 0) <> myrank ->
        exists m m' rq data,
          MPI_Wait m (req_recv_ (eflux (pbval A)) e0 0 0) = Some (m', rq, data)
          /\ recv_ (eflux (pbval A')) e0
             = deliver data (recv_ (eflux (pbval A)) e0)).
Proof.
  intros Hb Hnx Hw Hrcv. unfold ReceiveAndSetEFluxBoundary.
  rewrite (block_Ret _ _ _ Hb). cbn [bind].
  apply Z.eqb_neq in Hnx. rewrite Hnx.
  assert (Hwait : exists w1 A1,
            (if MPI_PARALLEL
             then for_loop 0 ((if RegionSize.nx3 (block_size A) >? 1
                               then 6 else 4) - 1) (WaitEFlux me) w
             else Ret w) = Ret w1
            /\ nth_error (pblock w1) me = Some A1 /\ kin A A1
            /\ (forall y,
                 MPI_PARALLEL = false
                 \/ NeighborBlock.gid (neighbor A y 0 0) = -1
                 \/ NeighborBlock.rank (neighbor A y 0 0) = myrank ->
                 recv_ (eflux (pbval A1)) y = recv_ (eflux (pbval A)) y)
            /\ (MPI_PARALLEL = true ->
                1 <= RegionSize.nx3 (block_size A) ->
                In e0 (eflux_dirs A) ->
                NeighborBlock.gid (neighbor A e0 0 0) <> -1 ->
                NeighborBlock.rank (neighbor A e0 0 0) <> myrank ->
                exists m m' rq data,
                  MPI_Wait m (req_recv_ (eflux (pbval A)) e0 0 0)
                  = Some (m', rq, data)
                  /\ recv_ (eflux (pbval A1)) e0
                     = deliver data (recv_ (eflux (pbval A)) e0))).
  { destruct MPI_PARALLEL.
    - destruct (WaitEFlux_loop me 0
                  ((if RegionSize.nx3 (block_size A) >? 1 then 6 else 4) - 1)
                  w A Hb (Hw eq_refl))
        as [w1 [A1 [E1 [_ [Hb1 [Hk1 [Hr1 Hd1]]]]]]].
      exists w1, A1. split; [exact E1|]. split; [exact Hb1|].
      split; [exact Hk1|]. split.
      + intros y [H|H]; [discriminate | now apply Hr1].
      + intros _ H3 He Hg Hrk. apply Hd1; auto.
        apply In_zrange. now apply eflux_loop_dirs.
    - exists w, A. split; [reflexivity|]. split; [exact Hb|].
      split; [apply kin_refl|]. split; [reflexivity | discriminate]. }
  destruct Hwait as [w1 [A1 [-> [Hb1 [Hk1 [Hr1 Hd1]]]]]]. cbn [bind].
  destruct (kin_geometry _ _ Hk1) as [_ [_ [Hdir1 [Hl1 _]]]].
  destruct (SetEFlux_loop me e0 w1 (fdst, wdst) A1 A1 Hb1 (kin_refl A1)
              (eflux_receivable_kin A A1 Hk1 Hrcv))
    as [w' [dst' [A' [E [Hb' [Hk' [Hf' [Hr' Hc']]]]]]]].
  rewrite Hdir1 in E, Hf'. rewrite Hl1 in Hc'.
  rewrite E. cbn [bind].
  exists w', dst', A'. split; [reflexivity|]. split; [exact Hb'|].
  split; [exact Hf'|]. split; [|split].
  - intros Hd. rewrite Hr'. apply Hc'; [|reflexivity].
    now apply (eflux_set_at_kin A A1).
  - intros H. rewrite Hr'. now apply Hr1.
  - rewrite Hr'. exact Hd1.
Qed.

Lemma bind_Ret_inv {X Y} (m : outcome X) (f : X -> outcome Y) (y : Y) :
  bind m f = Ret y -> exists x, m = Ret x /\ f x = Ret y.
Proof. destruct m; cbn; try discriminate. eauto. Qed.

Lemma ReceiveAndSetFluid_never_false (w : Process) (me : nat) (dir : Z)
  (dst : Array) (w' : Process) (dst' : Array) (b : bool) :
  ReceiveAndSetFluidBoundary w me dir dst = Ret (w', dst', b) -> b = true.
Proof.
  unfold ReceiveAndSetFluidBoundary. intros H.
  apply bind_Ret_inv in H. destruct H as [pmb [_ H]].
  destruct (_ =? -1).
  - destruct (Boundary_ _ _); [|discriminate]. now injection H.
  - apply bind_Ret_inv in H. destruct H as [w1 [_ H]].
    apply bind_Ret_inv in H. destruct H as [pmb1 [_ H]].
    apply bind_Ret_inv in H. destruct H as [[p d] [_ H]].
    apply bind_Ret_inv in H. destruct H as [w2 [_ H]]. now injection H.
Qed.

Lemma ReceiveAndSetField_never_false (w : Process) (me : nat) (dir : Z)
  (dst : InterfaceField) (w' : Process) (dst' : InterfaceField) (b : bool) :
  ReceiveAndSetFieldBoundary w me dir dst = Ret (w', dst', b) -> b = true.
Proof.
  unfold ReceiveAndSetFieldBoundary. intros H.
  apply bind_Ret_inv in H. destruct H as [pmb [_ H]].
  destruct (_ =? -1).
  - destruct (Boundary_ _ _); [|discriminate]. now injection H.
  - apply bind_Ret_inv in H. destruct H as [w1 [_ H]].
    apply bind_Ret_inv in H. destruct H as [pmb1 [_ H]].
    apply bind_Ret_inv in H. destruct H as [[p d] [_ H]].
    apply bind_Ret_inv in H. destruct H as [w2 [_ H]]. now injection H.
Qed.

Lemma ReceiveAndSetEFlux_never_false (w : Process) (me : nat)
  (fdst wdst : InterfaceField) (w' : Process)
  (dst' : InterfaceField * InterfaceField) (b : bool) :
  ReceiveAndSetEFluxBoundary w me fdst wdst = Ret (w', dst', b) -> b = true.
Proof.
  unfold ReceiveAndSetEFluxBoundary. intros H.
  apply bind_Ret_inv in H. destruct H as [pmb [_ H]].
  destruct (_ =? 1).
  - now injection H.
  - apply bind_Ret_inv in H. destruct H as [w1 [_ H]].
    apply bind_Ret_inv in H. destruct H as [[w2 d] [_ H]]. now injection H.
Qed.


(** C10: whenever one of the three ReceiveAndSet functions returns, the
    value it returns is [true]; and each of them does return [true] in
    every state in which it has what it needs: a boundary function at a
    physical boundary, receive buffers that hold the elements the unpack
    loops read, and waits that complete where the code waits for a
    message. *)
Theorem receive_and_set_returns_true :
  (forall w me dir dst w' dst' b,
     ReceiveAndSetFluidBoundary w me dir dst = Ret (w', dst', b) -> b = true)
  /\ (forall w me dir dst w' dst' b,
        ReceiveAndSetFieldBoundary w me dir dst = Ret (w', dst', b) ->
        b = true)
  /\ (forall w me fdst wdst w' dst' b,
        ReceiveAndSetEFluxBoundary w me fdst wdst = Ret (w', dst', b) ->
        b = true)
  /\ (forall w me dir dst pmb,
        0 <= NFLUID ->
        nth_error (pblock w) me = Some pmb ->
        fluid_receivable w pmb dir ->
        exists w' dst',
          ReceiveAndSetFluidBoundary w me dir dst = Ret (w', dst', true))
  /\ (forall w me dir dst pmb,
        nth_error (pblock w) me = Some pmb ->
        field_receivable w pmb dir ->
        exists w' dst',
          ReceiveAndSetFieldBoundary w me dir dst = Ret (w', dst', true))
  /\ (forall w me fdst wdst pmb,
        nth_error (pblock w) me = Some pmb ->
        (MPI_PARALLEL = true -> forall m rq, MPI_Wait m rq <> None) ->
        RegionSize.nx2 (block_size pmb) = 1 \/ eflux_receivable pmb ->
        exists w' dst',
          ReceiveAndSetEFluxBoundary w me fdst wdst = Ret (w', dst', true)).
Proof.
  split; [|split; [|split; [|split; [|split]]]].
  - intros; eapply ReceiveAndSetFluid_never_false; eauto.
  - intros; eapply ReceiveAndSetField_never_false; eauto.
  - intros; eapply ReceiveAndSetEFlux_never_false; eauto.
  - intros; eapply ReceiveAndSetFluid_returns; eauto.
  - intros; eapply ReceiveAndSetField_returns; eauto.
  - intros w me fdst wdst pmb Hb Hw H.
    destruct (Z.eq_dec (RegionSize.nx2 (block_size pmb)) 1) as [E|E].
    + unfold ReceiveAndSetEFluxBoundary.
      rewrite (block_Ret _ _ _ Hb). cbn [bind].
      rewrite E. cbn. eauto.
    + destruct H as [H|H]; [contradiction|].
      destruct (ReceiveAndSetEFlux_result w me pmb fdst wdst 0 Hb E Hw H)
        as [w' [dst' [A' [R _]]]].
      eauto.
Qed.

(** ** Sending edge fluxes *)

Lemma oside_involutive (d : Z) : 0 <= d < 6 -> oside (oside d) = d.
Proof. intros H. each_dir H; reflexivity. Qed.

Lemma oside_range (d : Z) : 0 <= d < 6 -> 0 <= oside d < 6.
Proof.
  intros H. each_dir H; cbv; split; congruence.
Qed.

Lemma eflux_bufsize_oside (nx1 nx2 nx3 d : Z) :
  MAGNETIC_FIELDS_ENABLED = true -> 0 <= d < 6 ->
  eflux_bufsize_ (the_tables nx1 nx2 nx3) (oside d)
  = eflux_bufsize_ (the_tables nx1 nx2 nx3) d.
Proof.
  intros Hm Hd. rewrite !the_tables_eflux_bufsize by exact Hm.
  each_dir Hd; reflexivity.
Qed.

Lemma length_eflux_locs (pmb : MeshBlock) (nx1 nx2 nx3 d x : Z) :
  MAGNETIC_FIELDS_ENABLED = true ->
  1 <= nx1 -> 1 < nx2 -> 1 <= nx3 -> 0 <= d < 6 ->
  block_fits pmb nx1 nx2 nx3 ->
  Z.of_nat (length (eflux_locs pmb d x))
  = eflux_bufsize_ (the_tables nx1 nx2 nx3) d.
Proof.
  intros Hm H1 H2 H3 Hd [Hsz [Hi [Hj Hk]]].
  rewrite the_tables_eflux_bufsize by exact Hm.
  unfold eflux_locs, eflux_segments. rewrite Hsz. cbn [RegionSize.nx3].
  replace (nx2 =? 1) with false by (symmetry; apply Z.eqb_neq; lia).
  destruct (Z.eqb_spec nx3 1);
    each_dir Hd; cbn [Z.eqb Pos.eqb orb inner_x1 outer_x1 inner_x2 outer_x2
                      inner_x3 outer_x3 flat_map app];
    unfold inner_x1, outer_x1, inner_x2, outer_x2, inner_x3, outer_x3;
    cbn [Z.eqb Pos.eqb orb flat_map app length];
    rewrite ?app_nil_r, ?length_app; unfold seg_locs;
    rewrite ?length_app, ?length_map; cbn [seg_pts];
    rewrite ?Nat2Z.inj_add, ?length_line, ?length_plane;
    unfold extent; max0; lia.
Qed.

Lemma kin_send_geometry (b b' : MeshBlock) :
  kin b b' ->
  (forall f w e buf, pack_eflux b' f w e buf = pack_eflux b f w e buf)
  /\ (forall e, eflux_send_locs b' e = eflux_send_locs b e).
Proof. intros [E _]. rewrite E. split; reflexivity. Qed.

Lemma evolves_refl (w : Process) : evolves w w.
Proof.
  split; [reflexivity|]. split; [reflexivity|].
  intros n b H. exists b. split; [exact H | apply kin_refl].
Qed.

Lemma evolves_trans (a b c : Process) : evolves a b -> evolves b c -> evolves a c.
Proof.
  intros [T1 [F1 P1]] [T2 [F2 P2]]. split; [congruence|].
  split; [intros g; now rewrite F2, F1|].
  intros n x H. destruct (P1 n x H) as [y [Hy K1]].
  destruct (P2 n y Hy) as [z [Hz K2]].
  exists z. split; [exact Hz | eapply kin_trans; eauto].
Qed.

Lemma evolves_set_block (w : Process) (n : nat) (b b' : MeshBlock) :
  nth_error (pblock w) n = Some b -> kin b b' -> evolves w (set_block w n b').
Proof using MPI MPI_Request Real X1E2 X1E3 X2E1 X2E3 X3E1 X3E2.
  intros H K. split; [reflexivity|]. split.
  - intros g. cbn. apply (find_gid_set_nth g n b b' _ H).
    now destruct (kin_geometry _ _ K) as [_ [_ [_ [_ G]]]].
  - intros m x Hx. cbn. destruct (Nat.eq_dec n m) as [<-|Hne].
    + exists b'. split.
      * apply nth_error_set_nth_eq. eapply nth_error_lt; eauto.
      * congruence.
    + exists x. split; [|apply kin_refl].
      now rewrite nth_error_set_nth_ne.
Qed.

Lemma evolves_set_mpi (w : Process) (m : MPI) : evolves w (set_mpi w m).
Proof.
  split; [reflexivity|]. split; [reflexivity|].
  intros n b H. exists b. split; [exact H | apply kin_refl].
Qed.

(** One pack block: the send buffer of direction [e] holds the packed
    values; nothing else of the edge-flux channel changes. *)
Lemma LoadEFlux_step (me : nat) (fsrc wsrc : InterfaceField) (e : Z)
  (w : Process) (B B' : MeshBlock) :
  nth_error (pblock w) me = Some B' -> kin B B' ->
  (NeighborBlock.gid (neighbor B e 0 0) <> -1 ->
   length (send_ (eflux (pbval B')) e) = length (eflux_values B fsrc wsrc e)) ->
  exists w' B'',
    LoadEFlux me fsrc wsrc e w = Ret w'
    /\ evolves w w'
    /\ nth_error (pblock w') me = Some B''
    /\ kin B B''
    /\ (forall y, y <> e ->
          send_ (eflux (pbval B'')) y = send_ (eflux (pbval B')) y)
    /\ (NeighborBlock.gid (neighbor B e 0 0) <> -1 ->
          send_ (eflux (pbval B'')) e = eflux_values B fsrc wsrc e)
    /\ (NeighborBlock.gid (neighbor B e 0 0) = -1 ->
          send_ (eflux (pbval B'')) e = send_ (eflux (pbval B')) e).
Proof.
  intros Hb Hk Hlen. unfold LoadEFlux.
  rewrite (block_Ret _ _ _ Hb). cbn [bind].
  destruct (kin_geometry _ _ Hk) as [Hn _]. rewrite Hn.
  destruct (Z.eqb_spec (NeighborBlock.gid (neighbor B e 0 0)) (-1)) as [Eg|Eg];
    cbn [negb].
  - exists w, B'. split; [reflexivity|]. split; [apply evolves_refl|].
    split; [exact Hb|]. split; [exact Hk|].
    split; [reflexivity|]. split; [contradiction | reflexivity].
  - destruct (kin_send_geometry _ _ Hk) as [Hp _]. rewrite Hp.
    rewrite pack_eflux_values, (put_all_exact _ _ (Hlen Eg)). cbn [bind].
    rewrite (put_chan_Ret _ _ _ _ _ Hb).
    set (B1 := set_pbval B' _).
    assert (K1 : kin B B1).
    { apply kin_update; [exact Hk | reflexivity | reflexivity]. }
    exists (set_block w me B1), B1. split; [reflexivity|].
    split.
    { apply (evolves_set_block w me B' B1 Hb).
      apply kin_update; [apply kin_refl | reflexivity | reflexivity]. }
    split.
    { cbn. apply nth_error_set_nth_eq. eapply nth_error_lt; eauto. }
    split; [exact K1|].
    split; [|split].
    + intros y Hy. cbn. unfold upd. apply Z.eqb_neq in Hy. now rewrite Hy.
    + intros _. cbn. unfold upd. now rewrite Z.eqb_refl.
    + contradiction.
Qed.

Lemma LoadEFlux_loop (me : nat) (fsrc wsrc : InterfaceField) (l : list Z)
  (w : Process) (B : MeshBlock) :
  nth_error (pblock w) me = Some B ->
  (forall e, In e l -> NeighborBlock.gid (neighbor B e 0 0) <> -1 ->
     length (send_ (eflux (pbval B)) e) = length (eflux_values B fsrc wsrc e)) ->
  exists w' B',
    for_each l (LoadEFlux me fsrc wsrc) w = Ret w'
    /\ evolves w w'
    /\ nth_error (pblock w') me = Some B'
    /\ kin B B'
    /\ (forall y, In y l -> NeighborBlock.gid (neighbor B y 0 0) <> -1 ->
          send_ (eflux (pbval B')) y = eflux_values B fsrc wsrc y)
    /\ (forall y, ~ In y l \/ NeighborBlock.gid (neighbor B y 0 0) = -1 ->
          send_ (eflux (pbval B')) y = send_ (eflux (pbval B)) y).
Proof.
  intros Hb Hlen.
  destruct (for_each_acc
    (fun done w' =>
       evolves w w'
       /\ exists B', nth_error (pblock w') me = Some B' /\ kin B B'
          /\ (forall y, In y done ->
                NeighborBlock.gid (neighbor B y 0 0) <> -1 ->
                send_ (eflux (pbval B')) y = eflux_values B fsrc wsrc y)
          /\ (forall y, ~ In y done
                        \/ NeighborBlock.gid (neighbor B y 0 0) = -1 ->
                send_ (eflux (pbval B')) y = send_ (eflux (pbval B)) y))
    l (LoadEFlux me fsrc wsrc)) with (done := @nil Z) (s := w)
    as [w' [E [Hev [B' [Hb' [Hk [Hs Hf]]]]]]].
  - intros done x w0 Hx [Hev0 [B0 [Hb0 [Hk0 [Hs0 Hf0]]]]].
    destruct (LoadEFlux_step me fsrc wsrc x w0 B B0 Hb0 Hk0)
      as [w1 [B1 [E1 [Hev1 [Hb1 [Hk1 [Ho1 [Hn1 Hp1]]]]]]]].
    { intros Hg. destruct (in_dec Z.eq_dec x done) as [Hin|Hin].
      - rewrite (Hs0 x Hin Hg). reflexivity.
      - rewrite (Hf0 x (or_introl Hin)). now apply Hlen. }
    exists w1. split; [exact E1|]. split; [eapply evolves_trans; eauto|].
    exists B1. split; [exact Hb1|]. split; [exact Hk1|]. split.
    + intros y Hy Hg. apply in_app_or in Hy.
      destruct (Z.eq_dec y x) as [->|Hne]; [now apply Hn1|].
      rewrite (Ho1 y Hne). destruct Hy as [Hy|[Hy|[]]]; [now apply Hs0|].
      now elim Hne.
    + intros y Hy. destruct (Z.eq_dec y x) as [->|Hne].
      * destruct Hy as [Hy|Hy].
        -- elim Hy. apply in_or_app. right. now left.
        -- rewrite (Hp1 Hy). apply Hf0. now right.
      * rewrite (Ho1 y Hne). apply Hf0. destruct Hy as [Hy|Hy]; [left|now right].
        intros Hin. apply Hy. apply in_or_app. now left.
  - split; [apply evolves_refl|]. exists B. split; [exact Hb|].
    split; [apply kin_refl|]. split; [intros y []|reflexivity].
  - exists w', B'. cbn [app] in *. auto 10.
Qed.

(** One pass of the send loop.  Every block keeps its send buffers, its
    send requests of the directions other than [e], and its receive
    buffers and flags of the sides other than [oside e]; for a neighbor on
    this rank, the block found for it has received the send buffer of
    direction [e] on side [oside e], with the flag raised; for a neighbor
    on another rank, in a build with MPI, the send buffer has been passed
    to [MPI_Isend] with the rank and the tag of the neighbor, and the
    request is stored for direction [e]. *)
Lemma SendEFlux_step (me : nat) (flag e : Z) (w : Process) (B : MeshBlock) :
  nth_error (pblock w) me = Some B ->
  eflux_sendable_at w B e ->
  exists w',
    SendEFlux me flag e w = Ret w'
    /\ evolves w w'
    /\ (forall n b, nth_error (pblock w) n = Some b ->
          exists b', nth_error (pblock w') n = Some b'
            /\ send_ (eflux (pbval b')) = send_ (eflux (pbval b))
            /\ (forall y, y <> oside e ->
                 recv_ (eflux (pbval b')) y = recv_ (eflux (pbval b)) y
                 /\ flag_ (eflux (pbval b')) y 0 0
                    = flag_ (eflux (pbval b)) y 0 0)
            /\ (forall y, y <> e ->
                 req_send_ (eflux (pbval b')) y 0 0
                 = req_send_ (eflux (pbval b)) y 0 0))
    /\ (NeighborBlock.gid (neighbor B e 0 0) <> -1 ->
        NeighborBlock.rank (neighbor B e 0 0) = myrank ->
        forall n,
          find_gid (NeighborBlock.gid (neighbor B e 0 0)) (pblock w) = Some n ->
          exists T', nth_error (pblock w') n = Some T'
            /\ recv_ (eflux (pbval T')) (oside e) = send_ (eflux (pbval B)) e
            /\ flag_ (eflux (pbval T')) (oside e) 0 0 = true)
    /\ (NeighborBlock.gid (neighbor B e 0 0) <> -1 ->
        NeighborBlock.rank (neighbor B e 0 0) <> myrank ->
        MPI_PARALLEL = true ->
        exists m' B', nth_error (pblock w') me = Some B'
          /\ MPI_Isend (mpi w) (send_ (eflux (pbval B)) e)
               (NeighborBlock.rank (neighbor B e 0 0))
               (CreateMPITag (NeighborBlock.lid (neighbor B e 0 0)) flag
                  (oside e) tag_eflux 0 0)
             = (m', req_send_ (eflux (pbval B')) e 0 0)).
Proof using CreateMPITag MPI MPI_Isend MPI_PARALLEL MPI_Request Real X1E2 X1E3 X2E1 X2E3 X3E1 X3E2 myrank tag_eflux tag_field tag_fluid.
  intros Hb Hs. unfold SendEFlux.
  rewrite (block_Ret _ _ _ Hb). cbn [bind].
  assert (Hsame : forall n b, nth_error (pblock w) n = Some b ->
            exists b', nth_error (pblock w) n = Some b'
              /\ send_ (eflux (pbval b')) = send_ (eflux (pbval b))
              /\ (forall y, y <> oside e ->
                   recv_ (eflux (pbval b')) y = recv_ (eflux (pbval b)) y
                   /\ flag_ (eflux (pbval b')) y 0 0
                      = flag_ (eflux (pbval b)) y 0 0)
              /\ (forall y, y <> e ->
                   req_send_ (eflux (pbval b')) y 0 0
                   = req_send_ (eflux (pbval b)) y 0 0)).
  { intros n b H. exists b. split; [exact H|]. split; [reflexivity|].
    split; [intros y _; split; reflexivity | reflexivity]. }
  destruct (Z.eqb_spec (NeighborBlock.gid (neighbor B e 0 0)) (-1)) as [Eg|Eg].
  { exists w. split; [reflexivity|]. split; [apply evolves_refl|].
    split; [exact Hsame|]. split; contradiction. }
  destruct (Hs Eg) as [Hls Hloc].
  destruct (Z.eq_dec (NeighborBlock.rank (neighbor B e 0 0)) myrank) as [Er|Er].
  - destruct (Hloc Er) as [n [T [Hfind [HT HlT]]]].
    rewrite (SendBuffer_local EFlux w me n e flag B T Hb Er Hfind HT Hls HlT).
    cbn [get_chan].
    set (T1 := set_pbval T _).
    assert (K : kin T T1).
    { apply kin_update; [apply kin_refl | reflexivity |].
      intros y. cbn. unfold upd. destruct (Z.eqb_spec y (oside e)) as [->|];
        [|reflexivity].
      apply Nat2Z.inj. congruence. }
    exists (set_block w n T1). split; [reflexivity|].
    split; [now apply (evolves_set_block w n T T1)|].
    split; [|split; [|contradiction]].
    + intros m b Hm. cbn [pblock set_block].
      destruct (Nat.eq_dec n m) as [<-|Hne].
      * exists T1. split.
        { apply nth_error_set_nth_eq. eapply nth_error_lt; eauto. }
        assert (b = T) by congruence. subst b.
        split; [reflexivity|]. split; [|reflexivity].
        intros y Hy. cbn. unfold upd, upd3. apply Z.eqb_neq in Hy.
        rewrite Hy. cbn [andb]. split; reflexivity.
      * exists b. split; [now rewrite nth_error_set_nth_ne|].
        split; [reflexivity|].
        split; [intros y _; split; reflexivity | reflexivity].
    + intros _ _ n' Hn'. assert (n' = n) by congruence. subst n'.
      exists T1. split.
      { cbn. apply nth_error_set_nth_eq. eapply nth_error_lt; eauto. }
      split.
      * cbn. unfold upd. now rewrite Z.eqb_refl.
      * cbn. unfold upd3. now rewrite !Z.eqb_refl.
  - unfold SendBuffer. rewrite (block_Ret _ _ _ Hb). cbn [bind].
    apply Z.eqb_neq in Er. rewrite Er. apply Z.eqb_neq in Er.
    destruct MPI_PARALLEL.
    + cbn [bufsize tag_of get_chan].
      rewrite (firstn_all2 (n := Z.to_nat (eflux_bufsize_ (tabs w) e))
                 (send_ (eflux (pbval B)) e)) by lia.
      destruct (MPI_Isend _ _ _ _) as [m rq] eqn:ES.
      assert (Hb1 : nth_error (pblock (set_mpi w m)) me = Some B) by exact Hb.
      rewrite (put_chan_Ret _ _ _ _ _ Hb1).
      set (B1 := set_pbval B _).
      assert (K : kin B B1).
      { apply kin_update; [apply kin_refl | reflexivity | reflexivity]. }
      assert (HB1 : nth_error (pblock (set_block (set_mpi w m) me B1)) me
                    = Some B1).
      { cbn. apply nth_error_set_nth_eq. eapply nth_error_lt; eauto. }
      eexists. split; [reflexivity|]. split.
      { eapply evolves_trans; [apply (evolves_set_mpi w m)|].
        now apply (evolves_set_block (set_mpi w m) me B B1). }
      split; [|split; [contradiction|]].
      * intros k b Hk. cbn [pblock set_block set_mpi].
        destruct (Nat.eq_dec me k) as [<-|Hne].
        -- exists B1. split.
           { apply nth_error_set_nth_eq. eapply nth_error_lt; eauto. }
           assert (b = B) by congruence. subst b.
           split; [reflexivity|].
           split; [intros y _; split; reflexivity|].
           intros y Hy. cbn. unfold upd3. apply Z.eqb_neq in Hy.
           now rewrite Hy.
        -- exists b. split; [now rewrite nth_error_set_nth_ne|].
           split; [reflexivity|].
           split; [intros y _; split; reflexivity | reflexivity].
      * intros _ _ _. exists m, B1. split; [exact HB1|].
        cbn. unfold upd3. now rewrite !Z.eqb_refl.
    + exists w. split; [reflexivity|]. split; [apply evolves_refl|].
      split; [exact Hsame|]. split; [contradiction | discriminate].
Qed.

Lemma oside_injective (a b : Z) :
  0 <= a < 6 -> 0 <= b < 6 -> oside a = oside b -> a = b.
Proof.
  intros Ha Hb E. rewrite <- (oside_involutive a Ha), E.
  now apply oside_involutive.
Qed.

Lemma eflux_sendable_at_evolves (w w' : Process) (me : nat) (B B' : MeshBlock)
  (e : Z) :
  evolves w w' ->
  nth_error (pblock w) me = Some B -> nth_error (pblock w') me = Some B' ->
  length (send_ (eflux (pbval B')) e) = length (send_ (eflux (pbval B)) e) ->
  eflux_sendable_at w B e -> eflux_sendable_at w' B' e.
Proof using MPI MPI_Request Real X1E2 X1E3 X2E1 X2E3 X3E1 X3E2 myrank.
  intros [Ht [Hf Hp]] Hb Hb' Hl Hs.
  destruct (Hp me B Hb) as [B2 [Hb2 K]].
  assert (B2 = B') by congruence. subst B2.
  destruct (kin_geometry _ _ K) as [Hn _].
  unfold eflux_sendable_at. rewrite Hn, Ht, Hl. intros Hg.
  destruct (Hs Hg) as [H1 H2]. split; [exact H1|].
  intros Hr. destruct (H2 Hr) as [n [T [Hfind [HT HlT]]]].
  destruct (Hp n T HT) as [T' [HT' [_ [_ KT]]]].
  exists n, T'. split; [now rewrite Hf|]. split; [exact HT'|].
  now rewrite KT.
Qed.

Lemma SendEFlux_loop (me : nat) (flag : Z) (l : list Z) (w : Process)
  (B : MeshBlock) :
  nth_error (pblock w) me = Some B ->
  (forall e, In e l -> 0 <= e < 6) ->
  (forall e, In e l -> eflux_sendable_at w B e) ->
  exists w' B',
    for_each l (SendEFlux me flag) w = Ret w'
    /\ evolves w w'
    /\ nth_error (pblock w') me = Some B'
    /\ (forall n b, nth_error (pblock w) n = Some b ->
          exists b', nth_error (pblock w') n = Some b'
            /\ send_ (eflux (pbval b')) = send_ (eflux (pbval b)))
    /\ (forall e, In e l ->
        NeighborBlock.gid (neighbor B e 0 0) <> -1 ->
        NeighborBlock.rank (neighbor B e 0 0) = myrank ->
        forall n,
          find_gid (NeighborBlock.gid (neighbor B e 0 0)) (pblock w) = Some n ->
          exists T', nth_error (pblock w') n = Some T'
            /\ recv_ (eflux (pbval T')) (oside e) = send_ (eflux (pbval B)) e
            /\ flag_ (eflux (pbval T')) (oside e) 0 0 = true)
    /\ (forall e, In e l ->
        NeighborBlock.gid (neighbor B e 0 0) <> -1 ->
        NeighborBlock.rank (neighbor B e 0 0) <> myrank ->
        MPI_PARALLEL = true ->
        exists m m',
          MPI_Isend m (send_ (eflux (pbval B)) e)
            (NeighborBlock.rank (neighbor B e 0 0))
            (CreateMPITag (NeighborBlock.lid (neighbor B e 0 0)) flag
               (oside e) tag_eflux 0 0)
          = (m', req_send_ (eflux (pbval B')) e 0 0)).
Proof using CreateMPITag MPI MPI_Isend MPI_PARALLEL MPI_Request Real X1E2 X1E3 X2E1 X2E3 X3E1 X3E2 myrank tag_eflux tag_field tag_fluid.
  intros Hb Hrange Hs.
  destruct (for_each_acc
    (fun done w' =>
       evolves w w'
       /\ (forall n b, nth_error (pblock w) n = Some b ->
             exists b', nth_error (pblock w') n = Some b'
               /\ send_ (eflux (pbval b')) = send_ (eflux (pbval b)))
       /\ (forall e, In e done ->
           NeighborBlock.gid (neighbor B e 0 0) <> -1 ->
           NeighborBlock.rank (neighbor B e 0 0) = myrank ->
           forall n,
             find_gid (NeighborBlock.gid (neighbor B e 0 0)) (pblock w)
               = Some n ->
             exists T', nth_error (pblock w') n = Some T'
               /\ recv_ (eflux (pbval T')) (oside e) = send_ (eflux (pbval B)) e
               /\ flag_ (eflux (pbval T')) (oside e) 0 0 = true)
       /\ (forall e, In e done ->
           NeighborBlock.gid (neighbor B e 0 0) <> -1 ->
           NeighborBlock.rank (neighbor B e 0 0) <> myrank ->
           MPI_PARALLEL = true ->
           exists m m' B', nth_error (pblock w') me = Some B'
             /\ MPI_Isend m (send_ (eflux (pbval B)) e)
                  (NeighborBlock.rank (neighbor B e 0 0))
                  (CreateMPITag (NeighborBlock.lid (neighbor B e 0 0)) flag
                     (oside e) tag_eflux 0 0)
                = (m', req_send_ (eflux (pbval B')) e 0 0))
       /\ forall e, In e done -> 0 <= e < 6)
    l (SendEFlux me flag)) with (done := @nil Z) (s := w)
    as [w' [E [Hev [Hsend [Hdel [Hmpi _]]]]]].
  - intros done x w0 Hx [Hev0 [Hsend0 [Hdel0 [Hmpi0 Hr0]]]].
    destruct (Hsend0 me B Hb) as [B0 [Hb0 HsB0]].
    assert (Hn0 : neighbor B0 = neighbor B).
    { destruct Hev0 as [_ [_ Hp]]. destruct (Hp me B Hb) as [B2 [Hb2 K]].
      assert (B2 = B0) by congruence. subst B2.
      now destruct (kin_geometry _ _ K). }
    destruct (SendEFlux_step me flag x w0 B0 Hb0)
      as [w1 [E1 [Hev1 [Hfr1 [Hd1 Hm1]]]]].
    { apply (eflux_sendable_at_evolves w w0 me B B0 x Hev0 Hb Hb0).
      - now rewrite HsB0.
      - now apply Hs. }
    exists w1. split; [exact E1|]. split; [eapply evolves_trans; eauto|].
    split; [|split; [|split]].
    + intros n b Hn. destruct (Hsend0 n b Hn) as [b0 [Hnb0 Hs0]].
      destruct (Hfr1 n b0 Hnb0) as [b1 [Hnb1 [Hs1 _]]].
      exists b1. split; [exact Hnb1 | congruence].
    + intros e He Hg Hr n Hfind.
      destruct (Z.eq_dec e x) as [->|Hne].
      * rewrite Hn0 in Hd1.
        destruct (Hd1 Hg Hr n) as [T' [HT' [R1 F1]]].
        { destruct Hev0 as [_ [Hf0 _]]. now rewrite Hf0. }
        exists T'. split; [exact HT'|]. split; [|exact F1].
        rewrite R1. now rewrite HsB0.
      * apply in_app_or in He. destruct He as [He|[He|[]]]; [|now elim Hne].
        destruct (Hdel0 e He Hg Hr n Hfind) as [T0 [HT0 [R0 F0]]].
        destruct (Hfr1 n T0 HT0) as [T1 [HT1 [_ [Hfr _]]]].
        assert (Ho : oside e <> oside x).
        { intros Eo. apply Hne.
          apply (oside_injective e x); auto. }
        destruct (Hfr (oside e) Ho) as [R1 F1].
        exists T1. split; [exact HT1|]. split; congruence.
    + intros e He Hg Hr Hp.
      destruct (Z.eq_dec e x) as [->|Hne].
      * rewrite Hn0 in Hm1.
        destruct (Hm1 Hg Hr Hp) as [m' [B' [HB' EI]]].
        exists (mpi w0), m', B'. split; [exact HB'|].
        rewrite <- EI. now rewrite HsB0.
      * apply in_app_or in He. destruct He as [He|[He|[]]]; [|now elim Hne].
        destruct (Hmpi0 e He Hg Hr Hp) as [m [m' [B' [HB' EI]]]].
        destruct (Hfr1 me B' HB') as [B1 [HB1 [_ [_ Hq]]]].
        exists m, m', B1. split; [exact HB1|]. rewrite EI.
        now rewrite (Hq e Hne).
    + intros e He. apply in_app_or in He. destruct He as [He|[<-|[]]]; auto.
  - split; [apply evolves_refl|]. split.
    + intros n b H. exists b. split; [exact H | reflexivity].
    + split; [intros e []|]. split; [intros e [] | intros e []].
  - cbn [app] in *. destruct (Hsend me B Hb) as [B' [HB' _]].
    exists w', B'. split; [exact E|]. split; [exact Hev|].
    split; [exact HB'|]. split; [exact Hsend|]. split; [exact Hdel|].
    intros e He Hg Hr Hp.
    destruct (Hmpi e He Hg Hr Hp) as [m [m' [B2 [HB2 EI]]]].
    assert (B2 = B') by congruence. subst B2. now exists m, m'.
Qed.

(** LoadAndSendEFluxBoundaryBuffer of block [B]: for every direction with
    a neighbor, the send buffer holds the packed values; for a neighbor on
    this rank they arrive in the receive buffer of side [oside d] of the
    neighbor block, with its flag raised; for a neighbor on another rank,
    in a build with MPI, they are what [MPI_Isend] was called with. *)
Lemma LoadAndSendEFlux_result (w : Process) (ib : nat) (B : MeshBlock)
  (flag : Z) (fsrc wsrc : InterfaceField) :
  nth_error (pblock w) ib = Some B ->
  RegionSize.nx2 (block_size B) <> 1 ->
  1 <= RegionSize.nx3 (block_size B) ->
  eflux_sendable w B ->
  (forall e, In e (eflux_dirs B) ->
     NeighborBlock.gid (neighbor B e 0 0) <> -1 ->
     Z.of_nat (length (eflux_values B fsrc wsrc e)) = eflux_bufsize_ (tabs w) e) ->
  exists w1 B1,
    LoadAndSendEFluxBoundaryBuffer w ib fsrc wsrc flag = Ret w1
    /\ evolves w w1
    /\ nth_error (pblock w1) ib = Some B1
    /\ (forall d, In d (eflux_dirs B) ->
        NeighborBlock.gid (neighbor B d 0 0) <> -1 ->
        send_ (eflux (pbval B1)) d = eflux_values B fsrc wsrc d)
    /\ (forall d, In d (eflux_dirs B) ->
        NeighborBlock.gid (neighbor B d 0 0) <> -1 ->
        NeighborBlock.rank (neighbor B d 0 0) = myrank ->
        forall n,
          find_gid (NeighborBlock.gid (neighbor B d 0 0)) (pblock w) = Some n ->
          exists T, nth_error (pblock w1) n = Some T
            /\ recv_ (eflux (pbval T)) (oside d) = eflux_values B fsrc wsrc d
            /\ flag_ (eflux (pbval T)) (oside d) 0 0 = true)
    /\ (forall d, In d (eflux_dirs B) ->
        NeighborBlock.gid (neighbor B d 0 0) <> -1 ->
        NeighborBlock.rank (neighbor B d 0 0) <> myrank ->
        MPI_PARALLEL = true ->
        exists m m',
          MPI_Isend m (eflux_values B fsrc wsrc d)
            (NeighborBlock.rank (neighbor B d 0 0))
            (CreateMPITag (NeighborBlock.lid (neighbor B d 0 0)) flag
               (oside d) tag_eflux 0 0)
          = (m', req_send_ (eflux (pbval B1)) d 0 0)).
Proof.
  intros Hb Hnx2 Hnx3 Hs Hcount.
  unfold LoadAndSendEFluxBoundaryBuffer.
  rewrite (block_Ret _ _ _ Hb). cbn [bind].
  apply Z.eqb_neq in Hnx2. rewrite Hnx2.
  destruct (LoadEFlux_loop ib fsrc wsrc (eflux_dirs B) w B Hb)
    as [w0 [B0 [E0 [Hev0 [Hb0 [Hk0 [Hv0 Hf0]]]]]]].
  { intros e He Hge. apply Nat2Z.inj. rewrite (Hcount e He Hge).
    now destruct (Hs e He Hge). }
  rewrite E0. cbn [bind]. unfold for_loop.
  destruct (kin_geometry _ _ Hk0) as [Hn0 _].
  destruct (SendEFlux_loop ib flag
              (zrange 0 ((if RegionSize.nx3 (block_size B) >? 1
                          then 6 else 4) - 1)) w0 B0 Hb0)
    as [w1 [B1 [E1 [Hev1 [Hb1 [Hsend1 [Hdel1 Hmpi1]]]]]]].
  { intros e He. apply eflux_dirs_loop in He.
    now apply eflux_dirs_range in He. }
  { intros e He. apply eflux_dirs_loop in He.
    apply (eflux_sendable_at_evolves w w0 ib B B0 e Hev0 Hb Hb0);
      [|now apply Hs].
    destruct (Z.eq_dec (NeighborBlock.gid (neighbor B e 0 0)) (-1)) as [Ee|Ee].
    - rewrite Hf0; [reflexivity | now right].
    - rewrite (Hv0 e He Ee). apply Nat2Z.inj. rewrite (Hcount e He Ee).
      now destruct (Hs e He Ee). }
  rewrite E1.
  destruct (Hsend1 ib B0 Hb0) as [B2 [Hb2 Hs1]].
  assert (B2 = B1) by congruence. subst B2.
  rewrite Hn0 in Hdel1, Hmpi1.
  exists w1, B1. split; [reflexivity|].
  split; [eapply evolves_trans; eauto|]. split; [exact Hb1|].
  split; [|split].
  - intros d Hd Hg. rewrite Hs1. now apply Hv0.
  - intros d Hd Hg Hr n Hfind.
    destruct (Hdel1 d (eflux_loop_dirs B d Hnx3 Hd) Hg Hr n) as [T [HT [R F]]].
    { destruct Hev0 as [_ [Hf _]]. now rewrite Hf. }
    exists T. split; [exact HT|]. split; [|exact F].
    rewrite R. now apply Hv0.
  - intros d Hd Hg Hr Hp.
    destruct (Hmpi1 d (eflux_loop_dirs B d Hnx3 Hd) Hg Hr Hp)
      as [m [m' EI]].
    exists m, m'. rewrite <- EI. now rewrite (Hv0 d Hd Hg).
Qed.

Lemma firstn_deliver_all (data buf : list Real) :
  (length data <= length buf)%nat ->
  firstn (length data) (deliver data buf) = data.
Proof.
  intros H. unfold deliver. rewrite (firstn_all2 (n := length buf) data H).
  rewrite firstn_app, Nat.sub_diag, firstn_all. cbn. apply app_nil_r.
Qed.

(** C4: on blocks of dimension two or three, with magnetic fields, for
    every direction with a neighbor, on this rank or on another one.
    (1) The pack block of direction [d] fills a buffer of the size of the
    table with, per edge segment, the run of the flux values of the
    segment followed by the run of its weight samples (not value/weight
    pairs side by side).
    (2) When the send buffers have the size of the table and every
    neighbor on this rank is a block of the list whose receive buffer has
    that size, LoadAndSendEFluxBoundaryBuffer returns; the send buffer of
    every direction [d] with a neighbor holds that sequence; a neighbor
    on this rank has it in its receive buffer of side [oside d], flag
    raised; for a neighbor on another rank, in a build with MPI, it is the
    buffer [MPI_Isend] was called with, with the rank of the neighbor and
    the tag made of its local id, [flag] and [oside d], and the request is
    stored for [d].
    (3) When every [MPI_Wait] completes, the physical sides have a
    boundary function and the receive buffers of the other sides hold at
    least the elements of the table, ReceiveAndSetEFluxBoundary returns
    true; for every side [e] with a neighbor, with ordered index bounds,
    whose ghost edges the boundary functions of the physical sides leave
    alone, the flag is false and the ghost-edge locations of [e], in the
    order of the pack loops, hold the leading elements of the receive
    buffer of [e]; the call leaves that buffer as it was for a neighbor on
    this rank, and for a neighbor on another rank it holds the message of
    the completed wait on the receive request of [e].
    (4) Hence, when block [A] of this rank is the neighbor of block [B] in
    direction [d], after [B] loads and sends and [A] receives and sets the
    ghost-edge locations of side [oside d] of [A] hold, in the same order,
    the fluxes and the weights read from the edge locations of direction
    [d] of [B].
    (5) And when the neighbor of side [oside d] of [A] is on another rank
    and the wait on the receive request of that side completes with the
    sequence packed for direction [d] of a block [B], the ghost-edge
    locations hold, in the same order, the fluxes and the weights read
    from the edge locations of direction [d] of [B]. *)
Theorem eflux_runs_delivered_in_order (nx1 nx2 nx3 : Z) :
  MAGNETIC_FIELDS_ENABLED = true ->
  1 <= nx1 -> 1 < nx2 -> 1 <= nx3 ->
  (forall (B : MeshBlock) (fsrc wsrc : InterfaceField) (d : Z) (buf : list Real),
     block_fits B nx1 nx2 nx3 ->
     In d (eflux_dirs B) ->
     Z.of_nat (length buf) = eflux_bufsize_ (the_tables nx1 nx2 nx3) d ->
     pack_eflux B fsrc wsrc d buf
     = Ret (length buf, flux_run_then_weight_run B fsrc wsrc d))
  /\ (forall (w : Process) (ib : nat) (B : MeshBlock) (flag : Z)
             (fsrc wsrc : InterfaceField),
        tabs w = the_tables nx1 nx2 nx3 ->
        nth_error (pblock w) ib = Some B ->
        block_fits B nx1 nx2 nx3 ->
        eflux_sendable w B ->
        exists w1 B1,
          LoadAndSendEFluxBoundaryBuffer w ib fsrc wsrc flag = Ret w1
          /\ nth_error (pblock w1) ib = Some B1
          /\ forall d, In d (eflux_dirs B) ->
               NeighborBlock.gid (neighbor B d 0 0) <> -1 ->
               send_ (eflux (pbval B1)) d
               = flux_run_then_weight_run B fsrc wsrc d
               /\ (NeighborBlock.rank (neighbor B d 0 0) = myrank ->
                   forall n,
                     find_gid (NeighborBlock.gid (neighbor B d 0 0)) (pblock w)
                     = Some n ->
                     exists T, nth_error (pblock w1) n = Some T
                       /\ recv_ (eflux (pbval T)) (oside d)
                          = flux_run_then_weight_run B fsrc wsrc d
                       /\ flag_ (eflux (pbval T)) (oside d) 0 0 = true)
               /\ (NeighborBlock.rank (neighbor B d 0 0) <> myrank ->
                   MPI_PARALLEL = true ->
                   exists m m',
                     MPI_Isend m (flux_run_then_weight_run B fsrc wsrc d)
                       (NeighborBlock.rank (neighbor B d 0 0))
                       (CreateMPITag (NeighborBlock.lid (neighbor B d 0 0))
                          flag (oside d) tag_eflux 0 0)
                     = (m', req_send_ (eflux (pbval B1)) d 0 0)))
  /\ (forall (w : Process) (ia : nat) (A : MeshBlock)
             (fdst wdst : InterfaceField),
        nth_error (pblock w) ia = Some A ->
        block_fits A nx1 nx2 nx3 ->
        eflux_receivable A ->
        (MPI_PARALLEL = true -> forall m rq, MPI_Wait m rq <> None) ->
        exists w2 dst' A2,
          ReceiveAndSetEFluxBoundary w ia fdst wdst = Ret (w2, dst', true)
          /\ nth_error (pblock w2) ia = Some A2
          /\ forall e, eflux_set_at A e ->
               flag_ (eflux (pbval A2)) e 0 0 = false
               /\ map (read dst') (eflux_recv_locs A e)
                  = firstn (length (eflux_recv_locs A e))
                           (recv_ (eflux (pbval A2)) e)
               /\ (MPI_PARALLEL = false
                   \/ NeighborBlock.rank (neighbor A e 0 0) = myrank ->
                   recv_ (eflux (pbval A2)) e = recv_ (eflux (pbval A)) e)
               /\ (MPI_PARALLEL = true ->
                   NeighborBlock.rank (neighbor A e 0 0) <> myrank ->
                   exists m m' rq data,
                     MPI_Wait m (req_recv_ (eflux (pbval A)) e 0 0)
                     = Some (m', rq, data)
                     /\ recv_ (eflux (pbval A2)) e
                        = deliver data (recv_ (eflux (pbval A)) e)))
  /\ (forall (w : Process) (ib ia : nat) (B A : MeshBlock) (d flag : Z)
             (fsrc wsrc fdst wdst : InterfaceField),
        tabs w = the_tables nx1 nx2 nx3 ->
        nth_error (pblock w) ib = Some B ->
        nth_error (pblock w) ia = Some A ->
        block_fits B nx1 nx2 nx3 ->
        block_fits A nx1 nx2 nx3 ->
        In d (eflux_dirs B) ->
        NeighborBlock.gid (neighbor B d 0 0) <> -1 ->
        NeighborBlock.rank (neighbor B d 0 0) = myrank ->
        find_gid (NeighborBlock.gid (neighbor B d 0 0)) (pblock w) = Some ia ->
        eflux_sendable w B ->
        eflux_receivable A ->
        eflux_set_at A (oside d) ->
        (MPI_PARALLEL = true ->
         NeighborBlock.rank (neighbor A (oside d) 0 0) = myrank) ->
        (MPI_PARALLEL = true -> forall m rq, MPI_Wait m rq <> None) ->
        exists w1 w2 dst' A2,
          LoadAndSendEFluxBoundaryBuffer w ib fsrc wsrc flag = Ret w1
          /\ ReceiveAndSetEFluxBoundary w1 ia fdst wdst = Ret (w2, dst', true)
          /\ map (read dst') (eflux_recv_locs A (oside d))
             = map (read (fsrc, wsrc)) (eflux_send_locs B d)
          /\ nth_error (pblock w2) ia = Some A2
          /\ flag_ (eflux (pbval A2)) (oside d) 0 0 = false)
  /\ (forall (w : Process) (ia : nat) (A B : MeshBlock) (d : Z)
             (fsrc wsrc fdst wdst : InterfaceField),
        nth_error (pblock w) ia = Some A ->
        block_fits A nx1 nx2 nx3 ->
        block_fits B nx1 nx2 nx3 ->
        In d (eflux_dirs B) ->
        eflux_receivable A ->
        eflux_set_at A (oside d) ->
        MPI_PARALLEL = true ->
        NeighborBlock.rank (neighbor A (oside d) 0 0) <> myrank ->
        (forall m rq, MPI_Wait m rq <> None) ->
        (forall m m' rq data,
           MPI_Wait m (req_recv_ (eflux (pbval A)) (oside d) 0 0)
           = Some (m', rq, data) ->
           data = flux_run_then_weight_run B fsrc wsrc d) ->
        exists w2 dst',
          ReceiveAndSetEFluxBoundary w ia fdst wdst = Ret (w2, dst', true)
          /\ map (read dst') (eflux_recv_locs A (oside d))
             = map (read (fsrc, wsrc)) (eflux_send_locs B d)).
Proof.
  intros Hm H1 H2 H3.
  assert (Hcount : forall B fsrc wsrc e, block_fits B nx1 nx2 nx3 ->
            In e (eflux_dirs B) ->
            Z.of_nat (length (eflux_values B fsrc wsrc e))
            = eflux_bufsize_ (the_tables nx1 nx2 nx3) e).
  { intros B fsrc wsrc e HfB He. apply eflux_send_count; auto.
    eapply eflux_dirs_range; eauto. }
  assert (Hlocs : forall A B fsrc wsrc d, block_fits A nx1 nx2 nx3 ->
            block_fits B nx1 nx2 nx3 -> In d (eflux_dirs B) ->
            length (eflux_recv_locs A (oside d))
            = length (eflux_values B fsrc wsrc d)).
  { intros A B fsrc wsrc d HfA HfB Hd.
    assert (Hdr : 0 <= d < 6) by (eapply eflux_dirs_range; eauto).
    apply Nat2Z.inj. rewrite (Hcount B fsrc wsrc d HfB Hd).
    unfold eflux_recv_locs.
    rewrite (length_eflux_locs A nx1 nx2 nx3 (oside d)); auto.
    - now apply eflux_bufsize_oside.
    - now apply oside_range. }
  assert (Hnx : forall B, block_fits B nx1 nx2 nx3 ->
            RegionSize.nx2 (block_size B) <> 1
            /\ 1 <= RegionSize.nx3 (block_size B)).
  { intros B [Hsz _]. rewrite Hsz. cbn. lia. }
  unfold flux_run_then_weight_run.
  change (fun (B : MeshBlock) (fsrc wsrc : InterfaceField) (d : Z) =>
            flat_map (fun s => seg_fluxes fsrc s ++ seg_weights wsrc s)
                     (eflux_segments B d (eflux_send_at B d)))
    with eflux_values in *.
  split; [|split; [|split; [|split]]].
  - intros B fsrc wsrc d buf HfB Hd Hl.
    change (flat_map _ _) with (eflux_values B fsrc wsrc d).
    rewrite pack_eflux_values. apply put_all_exact.
    apply Nat2Z.inj. rewrite Hl. symmetry. now apply Hcount.
  - intros w ib B flag fsrc wsrc Ht Hb HfB Hs.
    change (fun d => flat_map _ _) with (eflux_values B fsrc wsrc).
    destruct (Hnx B HfB) as [Hn2 Hn3].
    destruct (LoadAndSendEFlux_result w ib B flag fsrc wsrc Hb Hn2 Hn3 Hs)
      as [w1 [B1 [E1 [_ [Hb1 [Hsend [Hloc Hmpi]]]]]]].
    { intros e He _. rewrite Ht. now apply Hcount. }
    exists w1, B1. split; [exact E1|]. split; [exact Hb1|].
    intros d Hd Hg.
    change (flat_map _ _) with (eflux_values B fsrc wsrc d).
    split; [now apply Hsend|]. split.
    + intros Hr. now apply Hloc.
    + intros Hr Hp. now apply Hmpi.
  - intros w ia A fdst wdst Ha HfA Hrcv Hw.
    destruct (Hnx A HfA) as [Hn2 Hn3].
    destruct (ReceiveAndSetEFlux_result w ia A fdst wdst 0 Ha Hn2 Hw Hrcv)
      as [w2 [dst' [A2 [E2 [Ha2 _]]]]].
    exists w2, dst', A2. split; [exact E2|]. split; [exact Ha2|].
    intros e Hset.
    destruct (ReceiveAndSetEFlux_result w ia A fdst wdst e Ha Hn2 Hw Hrcv)
      as [w3 [dst3 [A3 [E3 [Ha3 [Hfl [Hdata [Hsame Hmsg]]]]]]]].
    rewrite E2 in E3. injection E3 as <- <-.
    assert (A3 = A2) by congruence. subst A3.
    destruct Hset as [Hin [Hg Hrest]].
    split; [now apply Hfl|]. split; [|split].
    + apply Hdata. split; [exact Hin|]. split; [exact Hg | exact Hrest].
    + intros [H|H]; apply Hsame; auto.
    + intros Hp Hr. now apply Hmsg.
  - intros w ib ia B A d flag fsrc wsrc fdst wdst Ht Hb Ha HfB HfA Hd Hg Hr
      Hfind Hs Hrcv Hset Hra Hw.
    destruct (Hnx B HfB) as [Hn2 Hn3].
    destruct (LoadAndSendEFlux_result w ib B flag fsrc wsrc Hb Hn2 Hn3 Hs)
      as [w1 [B1 [E1 [Hev [Hb1 [Hsend [Hloc _]]]]]]].
    { intros e He _. rewrite Ht. now apply Hcount. }
    destruct (Hloc d Hd Hg Hr ia Hfind) as [A1 [Ha1 [R1 F1]]].
    assert (Ka : kin A A1).
    { destruct Hev as [_ [_ Hp]]. destruct (Hp ia A Ha) as [A' [Ha' K]].
      assert (A' = A1) by congruence. now subst A'. }
    destruct (kin_geometry _ _ Ka) as [HnA [HsA [HdA [HlA _]]]].
    destruct (ReceiveAndSetEFlux_result w1 ia A1 fdst wdst (oside d) Ha1)
      as [w2 [dst' [A2 [E2 [Ha2 [Hfl [Hdata [Hsame _]]]]]]]].
    { rewrite HsA. now destruct (Hnx A HfA). }
    { exact Hw. }
    { now apply (eflux_receivable_kin A A1). }
    exists w1, w2, dst', A2.
    split; [exact E1|]. split; [exact E2|]. split; [|split; [exact Ha2|]].
    + specialize (Hdata (eflux_set_at_kin A A1 (oside d) Ka Hset)).
      rewrite HlA in Hdata. rewrite Hdata, Hsame, R1.
      * rewrite <- eflux_values_locs.
        rewrite (Hlocs A B fsrc wsrc d HfA HfB Hd). apply firstn_all.
      * rewrite HnA. destruct MPI_PARALLEL; [|now left].
        right. right. now apply Hra.
    + apply Hfl. rewrite HdA. apply Hset.
  - intros w ia A B d fsrc wsrc fdst wdst Ha HfA HfB Hd Hrcv Hset Hp Hr Hw
      Hpay.
    destruct (Hnx A HfA) as [Hn2 Hn3].
    destruct (ReceiveAndSetEFlux_result w ia A fdst wdst (oside d) Ha Hn2
                (fun _ => Hw) Hrcv)
      as [w2 [dst' [A2 [E2 [Ha2 [_ [Hdata [_ Hmsg]]]]]]]].
    exists w2, dst'. split; [exact E2|].
    rewrite (Hdata Hset).
    destruct Hset as [Hin [Hg _]].
    destruct (Hmsg Hp Hn3 Hin Hg Hr) as [m [m' [rq [data [EW ->]]]]].
    rewrite (Hpay m m' rq data EW).
    change (flat_map _ _) with (eflux_values B fsrc wsrc d).
    rewrite (Hlocs A B fsrc wsrc d HfA HfB Hd).
    rewrite firstn_deliver_all; [apply eflux_values_locs|].
    rewrite <- (Hlocs A B fsrc wsrc d HfA HfB Hd).
    specialize (Hrcv (oside d) Hin). apply Z.eqb_neq in Hg.
    now rewrite Hg in Hrcv.
Qed.

(** * Further properties of the code *)

(** ** Geometry of the index-range table *)

Ltac closed_tests :=
  repeat match goal with
  | |- context [?a <? ?b] =>
      let v := eval vm_compute in (a <? b) in
      match v with
      | true => change (a <? b) with true
      | false => change (a <? b) with false
      end
  | |- context [Z.even ?a] =>
      let v := eval vm_compute in (Z.even a) in
      match v with
      | true => change (Z.even a) with true
      | false => change (Z.even a) with false
      end
  end.

Ltac moved d Hd :=
  destruct (oside_cases d Hd)
    as [[-> ->]|[[-> ->]|[[-> ->]|[[-> ->]|[[-> ->]|[-> ->]]]]]];
  unfold move_along, outward, cells_along;
  unfold upd, upd2, inner_x1, outer_x1, inner_x2, outer_x2, inner_x3, outer_x3;
  closed_tests;
  cbn [Z.eqb Pos.eqb face_eqb andb orb si ei sj ej sk ek];
  f_equal; lia.

(** X1: in the fluid table, the receive row of the opposite side is the
    send row of direction [d] moved by one block length along the normal
    axis, towards the receiver: the ghost cell [(k,j,i)] of the neighbor is
    filled from the cell of the sender that lies one block length away,
    with the same transverse indices. *)
Theorem fluid_recv_row_is_moved_send_row (nx1 nx2 nx3 d : Z) :
  1 <= nx1 -> 1 <= nx2 -> 1 <= nx3 -> 0 <= d < 6 ->
  fluid_recv_se_ (the_tables nx1 nx2 nx3) (oside d)
  = move_along d (- outward d * cells_along d nx1 nx2 nx3)
               (fluid_send_se_ (the_tables nx1 nx2 nx3) d).
Proof.
  intros H1 H2 H3 Hd. unfold the_tables, InitBoundaryBuffer. cbv zeta.
  destruct MAGNETIC_FIELDS_ENABLED; cbn [negb fluid_send_se_ fluid_recv_se_];
    destruct (Z.gtb_spec nx2 1); destruct (Z.gtb_spec nx3 1);
    try is_one nx2; try is_one nx3; moved d Hd.
Qed.

(** X2: in the field table, for each of the three components, the receive
    row of the opposite side is the send row of direction [d] moved by one
    block length along the normal axis. *)
Theorem field_recv_row_is_moved_send_row (nx1 nx2 nx3 d : Z) (c : face) :
  MAGNETIC_FIELDS_ENABLED = true ->
  1 <= nx1 -> 1 <= nx2 -> 1 <= nx3 -> 0 <= d < 6 ->
  field_recv_se_ (the_tables nx1 nx2 nx3) (oside d) c
  = move_along d (- outward d * cells_along d nx1 nx2 nx3)
               (field_send_se_ (the_tables nx1 nx2 nx3) d c).
Proof.
  intros Hm H1 H2 H3 Hd. unfold the_tables, InitBoundaryBuffer. cbv zeta.
  rewrite Hm; cbn [negb field_send_se_ field_recv_se_];
    destruct (Z.gtb_spec nx2 1); destruct (Z.gtb_spec nx3 1);
    try is_one nx2; try is_one nx3; destruct c; moved d Hd.
Qed.

(** X3: the receive row of a direction is its send row moved outwards
    through the face: by [NGHOST] layers for the fluid and for the field
    components that are not aligned with the face, and by [NGHOST+1]
    layers for the aligned field component, so that the face lying on the
    block boundary is neither sent nor received. *)
Theorem recv_row_is_send_row_moved_outward (nx1 nx2 nx3 d : Z) :
  0 <= d < 6 ->
  fluid_recv_se_ (the_tables nx1 nx2 nx3) d
  = move_along d (outward d * NGHOST) (fluid_send_se_ (the_tables nx1 nx2 nx3) d)
  /\ (MAGNETIC_FIELDS_ENABLED = true ->
      forall c,
        field_recv_se_ (the_tables nx1 nx2 nx3) d c
        = move_along d
            (outward d * (NGHOST + if face_eqb c (aligned_face d) then 1 else 0))
            (field_send_se_ (the_tables nx1 nx2 nx3) d c)).
Proof.
  intros Hd. split.
  - unfold the_tables, InitBoundaryBuffer. cbv zeta.
    destruct MAGNETIC_FIELDS_ENABLED; cbn [negb fluid_send_se_ fluid_recv_se_];
      each_dir Hd;
      unfold move_along, outward;
      unfold upd, inner_x1, outer_x1, inner_x2, outer_x2, inner_x3, outer_x3;
      closed_tests; cbn [Z.eqb Pos.eqb si ei sj ej sk ek]; f_equal; lia.
  - intros Hm c. unfold the_tables, InitBoundaryBuffer. cbv zeta.
    rewrite Hm; cbn [negb field_send_se_ field_recv_se_];
      each_dir Hd; destruct c;
      unfold move_along, outward, aligned_face;
      unfold upd, upd2, inner_x1, outer_x1, inner_x2, outer_x2, inner_x3,
        outer_x3;
      closed_tests;
      cbn [Z.eqb Pos.eqb face_eqb andb orb si ei sj ej sk ek]; f_equal; lia.
Qed.

(** ** Buffers of the table's size are never overrun *)

Lemma range_count_same_extents (a b : Range) :
  same_extents a b -> range_count b = range_count a.
Proof.
  intros [Hi [Hj Hk]]. unfold range_count, extent.
  replace (ek b - sk b + 1) with (ek a - sk a + 1) by lia.
  replace (ej b - sj b + 1) with (ej a - sj a + 1) by lia.
  replace (ei b - si b + 1) with (ei a - si a + 1) by lia.
  reflexivity.
Qed.

(** The field receive rows of the opposite side have the extents of the
    send rows. *)
Lemma field_recv_matches_send (nx1 nx2 nx3 d : Z) (c : face) :
  MAGNETIC_FIELDS_ENABLED = true -> 0 <= d < 6 ->
  same_extents (field_send_se_ (the_tables nx1 nx2 nx3) d c)
               (field_recv_se_ (the_tables nx1 nx2 nx3) (oside d) c).
Proof.
  intros Hm Hd. unfold the_tables, InitBoundaryBuffer, same_extents. cbv zeta.
  rewrite Hm; cbn [negb field_send_se_ field_recv_se_];
    destruct c;
    destruct (oside_cases d Hd)
      as [[-> ->]|[[-> ->]|[[-> ->]|[[-> ->]|[[-> ->]|[-> ->]]]]]];
    rows; lia.
Qed.

Lemma field_bufsize_oside (nx1 nx2 nx3 d : Z) :
  MAGNETIC_FIELDS_ENABLED = true -> 0 <= d < 6 ->
  field_bufsize_ (the_tables nx1 nx2 nx3) (oside d)
  = field_bufsize_ (the_tables nx1 nx2 nx3) d.
Proof.
  intros Hm Hd. rewrite !the_tables_field_bufsize by exact Hm.
  destruct (oside_cases d Hd)
    as [[-> ->]|[[-> ->]|[[-> ->]|[[-> ->]|[[-> ->]|[-> ->]]]]]];
    reflexivity.
Qed.

Lemma field_send_count_le (nx1 nx2 nx3 d : Z) :
  MAGNETIC_FIELDS_ENABLED = true ->
  0 <= NGHOST -> 1 <= nx1 -> 1 <= nx2 -> 1 <= nx3 -> 0 <= d < 6 ->
  range_count (field_send_se_ (the_tables nx1 nx2 nx3) d x1face)
  + range_count (field_send_se_ (the_tables nx1 nx2 nx3) d x2face)
  + range_count (field_send_se_ (the_tables nx1 nx2 nx3) d x3face)
  <= field_bufsize_ (the_tables nx1 nx2 nx3) d.
Proof.
  intros Hm Hg H1 H2 H3 Hd.
  destruct (Z_lt_le_dec d 4) as [Hlt|Hge];
    [apply Z.eq_le_incl; apply field_send_count; auto|].
  destruct (Z.eq_dec nx2 1) as [E|E];
    [|apply Z.eq_le_incl; apply field_send_count; auto; lia].
  rewrite the_tables_field_bufsize by exact Hm.
  unfold the_tables, InitBoundaryBuffer. cbv zeta.
  rewrite Hm; cbn [negb field_send_se_];
    destruct (Z.gtb_spec nx2 1); destruct (Z.gtb_spec nx3 1);
    try is_one nx2; try is_one nx3;
    each_dir Hd; rows; try (exfalso; lia); max0; nia.
Qed.

(** X4: with the table of InitBoundaryBuffer, in every direction and for
    every geometry whose element count [bufsize[d]] is representable as an
    [int], the pack loops and the unpack loops of the fluid and field
    channels visit at most [bufsize[d]] elements: run on a buffer of the
    size the [int] [bufsize[d]] gives they never write or read past its
    end. *)
Theorem table_size_buffers_are_never_overrun (nx1 nx2 nx3 d : Z) :
  0 <= NGHOST -> 0 <= NFLUID -> 1 <= nx1 -> 1 <= nx2 -> 1 <= nx3 ->
  0 <= d < 6 ->
  (fits_int (fluid_bufsize_ (the_tables nx1 nx2 nx3) d) ->
   forall src dst buf,
     Z.of_nat (length buf)
       = int_wrap (fluid_bufsize_ (the_tables nx1 nx2 nx3) d) ->
     (exists p buf',
        pack_fluid src (fluid_send_se_ (the_tables nx1 nx2 nx3) d) buf
        = Ret (p, buf') /\ length buf' = length buf)
     /\ exists p dst',
          unpack_fluid buf (fluid_recv_se_ (the_tables nx1 nx2 nx3) d) dst
          = Ret (p, dst'))
  /\ (MAGNETIC_FIELDS_ENABLED = true ->
      fits_int (field_bufsize_ (the_tables nx1 nx2 nx3) d) ->
      forall src dst buf,
        Z.of_nat (length buf)
          = int_wrap (field_bufsize_ (the_tables nx1 nx2 nx3) d) ->
        (exists p buf',
           pack_field src (field_send_se_ (the_tables nx1 nx2 nx3) d) buf
           = Ret (p, buf') /\ length buf' = length buf)
        /\ exists p dst',
             unpack_field buf (field_recv_se_ (the_tables nx1 nx2 nx3) d) dst
             = Ret (p, dst')).
Proof.
  intros Hg Hf H1 H2 H3 Hd.
  assert (Hd' : 0 <= oside d < 6) by now apply oside_range.
  split.
  - intros Hfit src dst buf Hb. rewrite (int_wrap_fits _ Hfit) in Hb. split.
    + rewrite (pack_fluid_prefix src _ buf Hf).
      * eexists; eexists. split; [reflexivity|].
        rewrite length_app, length_skipn.
        generalize (length_fluid_values src
                      (fluid_send_se_ (the_tables nx1 nx2 nx3) d) Hf).
        generalize (fluid_send_count_le nx1 nx2 nx3 d Hg Hf H1 H2 H3 Hd).
        lia.
      * rewrite Hb. now apply fluid_send_count_le.
    + rewrite (unpack_fluid_prefix buf _ dst Hf); [eauto|].
      rewrite Hb, <- (oside_involutive d Hd) at 1.
      rewrite (range_count_same_extents _ _
                 (fluid_recv_matches_send nx1 nx2 nx3 (oside d) Hd')).
      rewrite (fluid_bufsize_oside nx1 nx2 nx3 d Hd).
      now apply fluid_send_count_le.
  - intros Hm Hfit src dst buf Hb. rewrite (int_wrap_fits _ Hfit) in Hb.
    assert (Hle : forall e, 0 <= e < 6 ->
              range_count (field_send_se_ (the_tables nx1 nx2 nx3) e x1face)
              + range_count (field_send_se_ (the_tables nx1 nx2 nx3) e x2face)
              + range_count (field_send_se_ (the_tables nx1 nx2 nx3) e x3face)
              <= field_bufsize_ (the_tables nx1 nx2 nx3) e)
      by (intros e He; now apply field_send_count_le).
    split.
    + rewrite pack_field_values, put_prefix.
      * eexists; eexists. split; [reflexivity|].
        rewrite length_app, length_skipn.
        generalize (length_field_values src
                      (field_send_se_ (the_tables nx1 nx2 nx3) d)).
        generalize (Hle d Hd). lia.
      * apply Nat2Z.inj_le. rewrite length_field_values, Hb. now apply Hle.
    + rewrite unpack_field_locs, (take_prefix write_face); [eauto|].
      apply Nat2Z.inj_le. rewrite length_field_locs, Hb.
      rewrite <- (oside_involutive d Hd) at 1 2 3.
      rewrite !(range_count_same_extents _ _
                  (field_recv_matches_send nx1 nx2 nx3 (oside d) _ Hm Hd')).
      rewrite <- (field_bufsize_oside nx1 nx2 nx3 d Hm Hd). now apply Hle.
Qed.

(** ** Round trip of the field channel *)

Lemma read_write_cell_same (l : FCell) (v : Real) (f : InterfaceField) :
  read_cell (write_cell l v f) l = v.
Proof.
  destruct l as [[c n] [[k j] i]]. destruct c; cbn; apply aset_same.
Qed.

Lemma read_write_cell_other (l l' : FCell) (v : Real) (f : InterfaceField) :
  l <> l' -> read_cell (write_cell l v f) l' = read_cell f l'.
Proof.
  destruct l as [[c n] [[k j] i]], l' as [[c' n'] [[k' j'] i']]. intros H.
  destruct c, c'; cbn; try reflexivity; apply aset_other; congruence.
Qed.

Lemma unpack_field_cells (buf : list Real) (rs : face -> Range)
  (dst : InterfaceField) :
  unpack_field buf rs dst
  = for_each (field_cells rs) (fun l => take buf (write_cell l)) (O, dst).
Proof.
  rewrite unpack_field_locs. unfold field_cells. rewrite for_each_map.
  apply for_each_ext. now intros [c [[k j] i]] st.
Qed.

Lemma field_values_cells (src : InterfaceField) (rs : face -> Range) :
  field_values src rs = map (read_cell src) (field_cells rs).
Proof.
  unfold field_values, field_cells, field_locs.
  rewrite !map_app, !map_map.
  repeat f_equal; apply map_ext; now intros [[k j] i].
Qed.

Lemma In_field_cells (rs : face -> Range) (c : face) (n k j i : Z) :
  In (c, n, (k, j, i)) (field_cells rs)
  <-> n = 0 /\ In (k, j, i) (points3 (rs c)).
Proof.
  unfold field_cells, field_locs. rewrite !map_app, !map_map. cbn [fst snd].
  rewrite !in_app_iff, !in_map_iff. split.
  - intros [[p [E H]]|[[p [E H]]|[p [E H]]]]; injection E as <- <- <-; auto.
  - intros [-> H]. destruct c; [left|right; left|right; right];
      exists (k, j, i); auto.
Qed.

Lemma NoDup_field_cells (rs : face -> Range) : NoDup (field_cells rs).
Proof.
  unfold field_cells, field_locs. rewrite !map_app, !map_map. cbn [fst snd].
  assert (N : forall c : face,
            NoDup (map (fun p : Z * Z * Z => ((c, 0, p) : FCell))
                       (points3 (rs c)))).
  { intros c. apply NoDup_map_inj; [|apply NoDup_points3].
    intros x y _ _ E. now injection E. }
  apply NoDup_app; [apply N | |].
  - apply NoDup_app; [apply N | apply N |].
    intros l H1 H2. apply in_map_iff in H1, H2.
    destruct H1 as [p [<- _]], H2 as [q [E _]]. discriminate.
  - intros l H1 H2. apply in_map_iff in H1. destruct H1 as [p [<- _]].
    apply in_app_iff in H2.
    destruct H2 as [H2|H2]; apply in_map_iff in H2;
      destruct H2 as [q [E _]]; discriminate.
Qed.

Lemma field_cells_corresponding (s r : face -> Range) :
  (forall c, same_extents (s c) (r c)) ->
  field_cells r
  = map (fun l : FCell =>
           (fst l, corresponding (s (fst (fst l))) (r (fst (fst l))) (snd l)))
        (field_cells s).
Proof.
  intros H. unfold field_cells, field_locs.
  rewrite !map_app, !map_map. cbn [fst snd].
  rewrite (points3_corresponding _ _ (H x1face)),
          (points3_corresponding _ _ (H x2face)),
          (points3_corresponding _ _ (H x3face)).
  now rewrite !map_map.
Qed.

Lemma length_field_cells (rs : face -> Range) :
  Z.of_nat (length (field_cells rs))
  = range_count (rs x1face) + range_count (rs x2face) + range_count (rs x3face).
Proof. unfold field_cells. rewrite length_map. apply length_field_locs. Qed.

(** LoadAndSend of the field channel to a neighbor on the same rank. *)
Lemma LoadAndSendField_local
  (w : Process) (ib ia : nat) (B A : MeshBlock) (d flag : Z)
  (src : InterfaceField) :
  nth_error (pblock w) ib = Some B ->
  nth_error (pblock w) ia = Some A ->
  NeighborBlock.gid (neighbor B d 0 0) <> -1 ->
  NeighborBlock.rank (neighbor B d 0 0) = myrank ->
  find_gid (NeighborBlock.gid (neighbor B d 0 0)) (pblock w) = Some ia ->
  Z.of_nat (length (send_ (field (pbval B)) d)) = field_bufsize_ (tabs w) d ->
  Z.of_nat (length (field_cells (field_send_se_ (tabs w) d)))
    <= field_bufsize_ (tabs w) d ->
  Z.of_nat (length (recv_ (field (pbval A)) (oside d))) = field_bufsize_ (tabs w) d ->
  exists w1 A1,
    LoadAndSendFieldBoundaryBuffer w ib d src flag = Ret w1
    /\ tabs w1 = tabs w
    /\ nth_error (pblock w1) ia = Some A1
    /\ neighbor A1 = neighbor A
    /\ recv_ (field (pbval A1)) (oside d)
       = field_values src (field_send_se_ (tabs w) d)
         ++ skipn (length (field_values src (field_send_se_ (tabs w) d)))
                  (send_ (field (pbval B)) d)
    /\ flag_ (field (pbval A1)) (oside d) 0 0 = true.
Proof.
  intros HB HA Hg Hr Hfind Hs Hsz Hrc.
  unfold LoadAndSendFieldBoundaryBuffer.
  rewrite (block_Ret _ _ _ HB). cbn [bind].
  apply Z.eqb_neq in Hg. rewrite Hg.
  assert (Hvl : length (field_values src (field_send_se_ (tabs w) d))
                = length (field_cells (field_send_se_ (tabs w) d)))
    by (rewrite field_values_cells; apply length_map).
  rewrite pack_field_values, put_prefix by lia.
  cbn [bind].
  rewrite (put_chan_Ret _ _ _ _ _ HB). cbn [bind].
  set (vals := field_values src (field_send_se_ (tabs w) d) ++ _).
  set (B' := set_pbval B _). set (wB := set_block w ib B').
  assert (HB' : nth_error (pblock wB) ib = Some B').
  { cbn. apply nth_error_set_nth_eq. eapply nth_error_lt; eauto. }
  assert (Hlen : Z.of_nat (length vals) = field_bufsize_ (tabs w) d).
  { unfold vals. rewrite length_app, length_skipn, Nat2Z.inj_add. lia. }
  assert (HA' : exists A0, nth_error (pblock wB) ia = Some A0
                           /\ neighbor A0 = neighbor A
                           /\ recv_ (field (pbval A0)) = recv_ (field (pbval A))).
  { destruct (Nat.eq_dec ib ia) as [<-|Hne].
    - exists B'. split; [exact HB'|]. rewrite HB in HA. injection HA as <-.
      split; reflexivity.
    - exists A. split; [|split; reflexivity].
      cbn. now rewrite nth_error_set_nth_ne. }
  destruct HA' as [A0 [HA0 [Hn0 Hr0]]].
  rewrite (SendBuffer_local Field wB ib ia d flag B' A0); auto.
  - eexists; eexists. split; [reflexivity|]. split; [reflexivity|].
    split; [|split; [|split]].
    + cbn. apply nth_error_set_nth_eq. rewrite length_set_nth.
      eapply nth_error_lt; eauto.
    + exact Hn0.
    + cbn. unfold upd. now rewrite !Z.eqb_refl.
    + cbn. unfold upd3. now rewrite !Z.eqb_refl.
  - cbn. unfold wB. cbn.
    now rewrite (find_gid_set_nth _ ib B B' (pblock w) HB eq_refl).
  - cbn. unfold upd. rewrite !Z.eqb_refl. exact Hlen.
  - cbn [get_chan]. rewrite Hr0. exact Hrc.
Qed.

(** ReceiveAndSet of the field channel when no wait is needed. *)
Lemma ReceiveAndSetField_ready
  (w : Process) (ia : nat) (A : MeshBlock) (e : Z) (dst : InterfaceField) :
  nth_error (pblock w) ia = Some A ->
  NeighborBlock.gid (neighbor A e 0 0) <> -1 ->
  MPI_PARALLEL = false \/ flag_ (field (pbval A)) e 0 0 = true
  \/ NeighborBlock.rank (neighbor A e 0 0) = myrank ->
  (length (field_cells (field_recv_se_ (tabs w) e))
   <= length (recv_ (field (pbval A)) e))%nat ->
  exists w2 A2,
    ReceiveAndSetFieldBoundary w ia e dst
    = Ret (w2,
           fold_left (fun d xv => write_cell (fst xv) (snd xv) d)
                     (combine (field_cells (field_recv_se_ (tabs w) e))
                              (recv_ (field (pbval A)) e)) dst,
           true)
    /\ nth_error (pblock w2) ia = Some A2
    /\ flag_ (field (pbval A2)) e 0 0 = false.
Proof.
  intros HA Hg Hready Hlen. unfold ReceiveAndSetFieldBoundary.
  rewrite (block_Ret _ _ _ HA). cbn [bind].
  apply Z.eqb_neq in Hg. rewrite Hg.
  replace (MPI_PARALLEL && negb (flag_ (field (pbval A)) e 0 0)
           && negb (NeighborBlock.rank (neighbor A e 0 0) =? myrank))
    with false.
  2:{ symmetry. apply andb_false_iff.
      destruct Hready as [H|[H|H]].
      - left. now rewrite H.
      - left. rewrite H. apply andb_false_r.
      - right. rewrite H, Z.eqb_refl. reflexivity. }
  cbn [bind]. rewrite (block_Ret _ _ _ HA). cbn [bind].
  rewrite unpack_field_cells, (take_prefix write_cell) by exact Hlen.
  cbn [bind]. rewrite (put_chan_Ret _ _ _ _ _ HA). cbn [bind].
  eexists; eexists. split; [reflexivity|]. split.
  - cbn. apply nth_error_set_nth_eq. eapply nth_error_lt; eauto.
  - cbn. unfold upd3. now rewrite !Z.eqb_refl.
Qed.

(** X5: round trip of the field channel between two blocks of one rank.
    When block [B] has block [A] as its neighbor in direction [d], then
    after [B] loads and sends [src] and [A] receives and sets [dst] on the
    opposite side, for each of the three face arrays every element of the
    receive row of [A] holds the corresponding element of the send row of
    [B], and the flag of [A] for that side is false. *)
Theorem field_round_trip
  (w : Process) (ib ia : nat) (B A : MeshBlock)
  (d flag nx1 nx2 nx3 : Z) (src dst : InterfaceField) :
  MAGNETIC_FIELDS_ENABLED = true ->
  0 <= NGHOST -> 1 <= nx1 -> 1 <= nx2 -> 1 <= nx3 ->
  0 <= d < 6 ->
  tabs w = the_tables nx1 nx2 nx3 ->
  nth_error (pblock w) ib = Some B ->
  nth_error (pblock w) ia = Some A ->
  NeighborBlock.gid (neighbor B d 0 0) <> -1 ->
  NeighborBlock.rank (neighbor B d 0 0) = myrank ->
  find_gid (NeighborBlock.gid (neighbor B d 0 0)) (pblock w) = Some ia ->
  NeighborBlock.gid (neighbor A (oside d) 0 0) <> -1 ->
  Z.of_nat (length (send_ (field (pbval B)) d)) = field_bufsize_ (tabs w) d ->
  Z.of_nat (length (recv_ (field (pbval A)) (oside d)))
    = field_bufsize_ (tabs w) (oside d) ->
  exists w1 w2 dst' A2,
    LoadAndSendFieldBoundaryBuffer w ib d src flag = Ret w1
    /\ ReceiveAndSetFieldBoundary w1 ia (oside d) dst = Ret (w2, dst', true)
    /\ (forall c k j i,
          sk (field_send_se_ (tabs w) d c) <= k <= ek (field_send_se_ (tabs w) d c) ->
          sj (field_send_se_ (tabs w) d c) <= j <= ej (field_send_se_ (tabs w) d c) ->
          si (field_send_se_ (tabs w) d c) <= i <= ei (field_send_se_ (tabs w) d c) ->
          face_of dst' c 0
            (k + (sk (field_recv_se_ (tabs w) (oside d) c)
                  - sk (field_send_se_ (tabs w) d c)))
            (j + (sj (field_recv_se_ (tabs w) (oside d) c)
                  - sj (field_send_se_ (tabs w) d c)))
            (i + (si (field_recv_se_ (tabs w) (oside d) c)
                  - si (field_send_se_ (tabs w) d c)))
          = face_of src c 0 k j i)
    /\ nth_error (pblock w2) ia = Some A2
    /\ flag_ (field (pbval A2)) (oside d) 0 0 = false.
Proof.
  intros Hm Hg H1 H2 H3 Hd Ht HB HA Hgid Hrank Hfind HgA Hs Hr.
  assert (Hop : field_bufsize_ (tabs w) (oside d) = field_bufsize_ (tabs w) d).
  { rewrite Ht. now apply field_bufsize_oside. }
  assert (Hcs : Z.of_nat (length (field_cells (field_send_se_ (tabs w) d)))
                <= field_bufsize_ (tabs w) d).
  { rewrite length_field_cells, Ht. now apply field_send_count_le. }
  assert (Hse : forall c, same_extents (field_send_se_ (tabs w) d c)
                                       (field_recv_se_ (tabs w) (oside d) c)).
  { intros c. rewrite Ht. now apply field_recv_matches_send. }
  assert (Hpl : length (field_cells (field_recv_se_ (tabs w) (oside d)))
                = length (field_values src (field_send_se_ (tabs w) d))).
  { rewrite (field_cells_corresponding _ _ Hse), field_values_cells.
    now rewrite !length_map. }
  destruct (LoadAndSendField_local w ib ia B A d flag src)
    as [w1 [A1 [E1 [Ht1 [HA1 [Hn1 [Hrv1 Hfl1]]]]]]]; auto; try congruence.
  destruct (ReceiveAndSetField_ready w1 ia A1 (oside d) dst)
    as [w2 [A2 [E2 [HA2 Hfl2]]]]; auto.
  { now rewrite Hn1. }
  { rewrite Ht1, Hpl, Hrv1, length_app. lia. }
  exists w1, w2. eexists. exists A2.
  split; [exact E1|]. split; [exact E2|].
  split; [|split; [exact HA2 | exact Hfl2]].
  intros c k j i Hk Hj Hi.
  rewrite Hrv1, Ht1, (combine_prefix _ _ _ Hpl), field_values_cells.
  match goal with |- face_of ?f c 0 ?k' ?j' ?i' = _ =>
    change (read_cell f (c, 0, (k', j', i')) = read_cell src (c, 0, (k, j, i)))
  end.
  apply (fold_write_read _ _ write_cell read_cell
           read_write_cell_same read_write_cell_other).
  - apply NoDup_field_cells.
  - rewrite (field_cells_corresponding _ _ Hse), combine_map_same.
    apply in_map_iff. exists (c, 0, (k, j, i)).
    split; [reflexivity|].
    apply In_field_cells. split; [reflexivity|]. now apply In_points3.
Qed.

(** ** What the unpack loops leave alone *)

Section TakeFrame.
Variables (X D : Type) (W : X -> Real -> D -> D) (R : D -> X -> Real).
Hypothesis R_W_other : forall x y v d, x <> y -> R (W x v d) y = R d y.

Lemma take_loop_frame (buf : list Real) (pts : list X) :
  forall p d p' d' y,
    for_each pts (fun x => take buf (W x)) (p, d) = Ret (p', d') ->
    ~ In y pts -> R d' y = R d y.
Proof using R_W_other.
  induction pts as [|x pts IH]; intros p d p' d' y E Hy.
  - cbn in E. now injection E as _ <-.
  - cbn [for_each] in E. unfold take at 1, load in E.
    destruct (nth_error buf p) as [v|]; cbn [bind] in E; [|discriminate].
    rewrite (IH _ _ _ _ y E) by (intros H; apply Hy; now right).
    apply R_W_other. intros ->. apply Hy. now left.
Qed.
End TakeFrame.

Lemma WaitReceive_tabs (c : chan) (me : nat) (dir : Z) (w w1 : Process) :
  WaitReceive c me dir w = Ret w1 -> tabs w1 = tabs w.
Proof.
  unfold WaitReceive, put_chan, block.
  destruct (nth_error (pblock w) me) as [b|]; cbn [bind]; [|discriminate].
  destruct (MPI_Wait _ _) as [[[m rq] data]|]; [|discriminate].
  cbn [pblock set_mpi]. destruct (nth_error (pblock w) me) as [b'|];
    cbn [bind]; [|discriminate].
  intros E. now injection E as <-.
Qed.

Lemma ReceiveAndSetFluid_frame (w : Process) (me : nat) (dir : Z)
  (pmb : MeshBlock) (dst : Array) (w' : Process) (dst' : Array) (b : bool) :
  nth_error (pblock w) me = Some pmb ->
  NeighborBlock.gid (neighbor pmb dir 0 0) <> -1 ->
  ReceiveAndSetFluidBoundary w me dir dst = Ret (w', dst', b) ->
  forall n k j i,
    ~ (0 <= n < NFLUID /\ inside (fluid_recv_se_ (tabs w) dir) k j i) ->
    dst' n k j i = dst n k j i.
Proof.
  intros Hb Hg E n k j i Hout. apply Z.eqb_neq in Hg.
  unfold ReceiveAndSetFluidBoundary in E.
  rewrite (block_Ret _ _ _ Hb) in E. cbn [bind] in E. rewrite Hg in E.
  apply bind_Ret_inv in E. destruct E as [w1 [Ew E]].
  assert (Ht : tabs w1 = tabs w).
  { destruct (_ && _ && _); [now apply WaitReceive_tabs in Ew|].
    now injection Ew as <-. }
  apply bind_Ret_inv in E. destruct E as [b1 [_ E]].
  apply bind_Ret_inv in E. destruct E as [[p d1] [Eu E]].
  apply bind_Ret_inv in E. destruct E as [w2 [_ E]].
  injection E as _ <- _.
  rewrite unpack_fluid_points, Ht in Eu.
  change (at4 d1 (n, (k, j, i)) = at4 dst (n, (k, j, i))).
  apply (take_loop_frame _ _ (fun p v d => aset4 d p v) at4
           at4_aset4_other _ _ _ _ _ _ _ Eu).
  intros Hin. apply In_points4 in Hin. destruct Hin as [Hn Hin].
  apply In_points3 in Hin. apply Hout. split; assumption.
Qed.

Lemma ReceiveAndSetField_frame (w : Process) (me : nat) (dir : Z)
  (pmb : MeshBlock) (dst : InterfaceField) (w' : Process)
  (dst' : InterfaceField) (b : bool) :
  nth_error (pblock w) me = Some pmb ->
  NeighborBlock.gid (neighbor pmb dir 0 0) <> -1 ->
  ReceiveAndSetFieldBoundary w me dir dst = Ret (w', dst', b) ->
  forall c n k j i,
    ~ (n = 0 /\ inside (field_recv_se_ (tabs w) dir c) k j i) ->
    face_of dst' c n k j i = face_of dst c n k j i.
Proof.
  intros Hb Hg E c n k j i Hout. apply Z.eqb_neq in Hg.
  unfold ReceiveAndSetFieldBoundary in E.
  rewrite (block_Ret _ _ _ Hb) in E. cbn [bind] in E. rewrite Hg in E.
  apply bind_Ret_inv in E. destruct E as [w1 [Ew E]].
  assert (Ht : tabs w1 = tabs w).
  { destruct (_ && _ && _); [now apply WaitReceive_tabs in Ew|].
    now injection Ew as <-. }
  apply bind_Ret_inv in E. destruct E as [b1 [_ E]].
  apply bind_Ret_inv in E. destruct E as [[p d1] [Eu E]].
  apply bind_Ret_inv in E. destruct E as [w2 [_ E]].
  injection E as _ <- _.
  rewrite unpack_field_cells, Ht in Eu.
  change (read_cell d1 (c, n, (k, j, i)) = read_cell dst (c, n, (k, j, i))).
  apply (take_loop_frame _ _ write_cell read_cell
           read_write_cell_other _ _ _ _ _ _ _ Eu).
  intros Hin. apply In_field_cells in Hin. destruct Hin as [Hn Hin].
  apply In_points3 in Hin. apply Hout. split; assumption.
Qed.

(** X6: whenever ReceiveAndSetFluidBoundary or ReceiveAndSetFieldBoundary
    returns on a direction with a neighbor, every array element outside
    the receive row of that direction is as it was before the call; the
    field version writes component 0 of the face arrays only. *)
Theorem unpack_writes_receive_row_only
  (w : Process) (me : nat) (dir : Z) (pmb : MeshBlock) :
  nth_error (pblock w) me = Some pmb ->
  NeighborBlock.gid (neighbor pmb dir 0 0) <> -1 ->
  (forall dst w' dst' b,
     ReceiveAndSetFluidBoundary w me dir dst = Ret (w', dst', b) ->
     forall n k j i,
       ~ (0 <= n < NFLUID
          /\ sk (fluid_recv_se_ (tabs w) dir) <= k <= ek (fluid_recv_se_ (tabs w) dir)
          /\ sj (fluid_recv_se_ (tabs w) dir) <= j <= ej (fluid_recv_se_ (tabs w) dir)
          /\ si (fluid_recv_se_ (tabs w) dir) <= i <= ei (fluid_recv_se_ (tabs w) dir)) ->
       dst' n k j i = dst n k j i)
  /\ (forall dst w' dst' b,
        ReceiveAndSetFieldBoundary w me dir dst = Ret (w', dst', b) ->
        forall c n k j i,
          ~ (n = 0
             /\ sk (field_recv_se_ (tabs w) dir c) <= k <= ek (field_recv_se_ (tabs w) dir c)
             /\ sj (field_recv_se_ (tabs w) dir c) <= j <= ej (field_recv_se_ (tabs w) dir c)
             /\ si (field_recv_se_ (tabs w) dir c) <= i <= ei (field_recv_se_ (tabs w) dir c)) ->
          face_of dst' c n k j i = face_of dst c n k j i).
Proof.
  intros Hb Hg. split.
  - intros dst w' dst' b E. exact (ReceiveAndSetFluid_frame _ _ _ _ _ _ _ _ Hb Hg E).
  - intros dst w' dst' b E. exact (ReceiveAndSetField_frame _ _ _ _ _ _ _ _ Hb Hg E).
Qed.

(** ** The cells of the block itself are never written *)

Lemma fluid_recv_row_outside (nx1 nx2 nx3 d k j i : Z) :
  0 <= d < 6 ->
  inside (fluid_recv_se_ (the_tables nx1 nx2 nx3) d) k j i ->
  inside (active_zone nx1 nx2 nx3) k j i -> False.
Proof.
  intros Hd. unfold the_tables, InitBoundaryBuffer, active_zone, inside.
  cbv zeta.
  destruct MAGNETIC_FIELDS_ENABLED; cbn [negb fluid_recv_se_];
    each_dir Hd;
    unfold upd, inner_x1, outer_x1, inner_x2, outer_x2, inner_x3, outer_x3;
    closed_tests; cbn [Z.eqb Pos.eqb si ei sj ej sk ek];
    destruct (nx2 >? 1), (nx3 >? 1); lia.
Qed.

Lemma field_recv_row_outside (nx1 nx2 nx3 d : Z) (c : face) (k j i : Z) :
  MAGNETIC_FIELDS_ENABLED = true ->
  0 <= d < 6 ->
  inside (field_recv_se_ (the_tables nx1 nx2 nx3) d c) k j i ->
  inside (active_faces nx1 nx2 nx3 c) k j i -> False.
Proof.
  intros Hm Hd.
  unfold the_tables, InitBoundaryBuffer, active_faces, active_zone, inside.
  cbv zeta. rewrite Hm; cbn [negb field_recv_se_];
    each_dir Hd; destruct c;
    unfold upd, upd2, inner_x1, outer_x1, inner_x2, outer_x2, inner_x3,
      outer_x3;
    closed_tests;
    cbn [Z.eqb Pos.eqb face_eqb andb orb si ei sj ej sk ek];
    destruct (nx2 >? 1), (nx3 >? 1); lia.
Qed.

(** X17: with the tables of [InitBoundaryBuffer], ReceiveAndSet on a
    direction with a neighbor writes ghost cells only: every cell of the
    block itself, and in the field version every face that bounds such a
    cell (the faces shared with the neighbor included), holds after the
    call what it held before. *)
Theorem receive_leaves_active_zone_alone
  (w : Process) (me : nat) (dir : Z) (pmb : MeshBlock) (nx1 nx2 nx3 : Z) :
  0 <= dir < 6 ->
  tabs w = the_tables nx1 nx2 nx3 ->
  nth_error (pblock w) me = Some pmb ->
  NeighborBlock.gid (neighbor pmb dir 0 0) <> -1 ->
  (forall dst w' dst' b,
     ReceiveAndSetFluidBoundary w me dir dst = Ret (w', dst', b) ->
     forall n k j i,
       inside (active_zone nx1 nx2 nx3) k j i -> dst' n k j i = dst n k j i)
  /\ (MAGNETIC_FIELDS_ENABLED = true ->
      forall dst w' dst' b,
        ReceiveAndSetFieldBoundary w me dir dst = Ret (w', dst', b) ->
        forall c n k j i,
          inside (active_faces nx1 nx2 nx3 c) k j i ->
          face_of dst' c n k j i = face_of dst c n k j i).
Proof.
  intros Hd Ht Hb Hg. split.
  - intros dst w' dst' b E n k j i Hin.
    apply (ReceiveAndSetFluid_frame _ _ _ _ _ _ _ _ Hb Hg E).
    rewrite Ht. intros [_ H].
    exact (fluid_recv_row_outside nx1 nx2 nx3 dir k j i Hd H Hin).
  - intros Hm dst w' dst' b E c n k j i Hin.
    apply (ReceiveAndSetField_frame _ _ _ _ _ _ _ _ Hb Hg E).
    rewrite Ht. intros [_ H].
    exact (field_recv_row_outside nx1 nx2 nx3 dir c k j i Hm Hd H Hin).
Qed.

(** ** What LoadAndSend leaves alone *)

Lemma get_set_chan_other (c c' : chan) (bv : BoundaryValues) (ch : Channel) :
  c' <> c -> get_chan c' (set_chan c bv ch) = get_chan c' bv.
Proof. destruct c, c'; intros H; try reflexivity; now elim H. Qed.

Section SameExcept.
Variable c : chan.
Variables Ws Wr : nat -> Z -> Prop.
Variables Wf Wqs Wqr : nat -> Z -> Z -> Z -> Prop.

Lemma same_except_refl (w : Process) : same_except c Ws Wr Wf Wqs Wqr w w.
Proof.
  split; [reflexivity|]. split; [reflexivity|].
  intros n b H. exists b. split; [exact H|].
  split; [now destruct b|]. repeat split; reflexivity.
Qed.

Lemma same_except_trans (w w1 w2 : Process) :
  same_except c Ws Wr Wf Wqs Wqr w w1 ->
  same_except c Ws Wr Wf Wqs Wqr w1 w2 ->
  same_except c Ws Wr Wf Wqs Wqr w w2.
Proof.
  intros [T1 [M1 P1]] [T2 [M2 P2]].
  split; [congruence|]. split; [congruence|].
  intros n b H.
  destruct (P1 n b H) as [b1 [H1 [E1 [O1 [B1 [S1 [R1 [F1 [Q1 G1]]]]]]]]].
  destruct (P2 n b1 H1) as [b2 [H2 [E2 [O2 [B2 [S2 [R2 [F2 [Q2 G2]]]]]]]]].
  exists b2. split; [exact H2|].
  split; [rewrite E2; rewrite E1 at 1; reflexivity|].
  split; [intros c' Hc; now rewrite O2, O1|].
  split; [congruence|].
  split; [intros y Hy; now rewrite S2, S1|].
  split; [intros y Hy; now rewrite R2, R1|].
  split; [intros y u v Hy; now rewrite F2, F1|].
  split; [intros y u v Hy; now rewrite Q2, Q1|].
  intros y u v Hy; now rewrite G2, G1.
Qed.

(** Replacing the channel of one block by a channel that agrees with the
    old one outside the places that may be written. *)
Lemma same_except_put (w : Process) (n : nat) (b : MeshBlock) (ch : Channel) :
  nth_error (pblock w) n = Some b ->
  Boundary_ ch = Boundary_ (get_chan c (pbval b)) ->
  (forall y, ~ Ws n y -> send_ ch y = send_ (get_chan c (pbval b)) y) ->
  (forall y, ~ Wr n y -> recv_ ch y = recv_ (get_chan c (pbval b)) y) ->
  (forall y u v, ~ Wf n y u v ->
     flag_ ch y u v = flag_ (get_chan c (pbval b)) y u v) ->
  (forall y u v, ~ Wqs n y u v ->
     req_send_ ch y u v = req_send_ (get_chan c (pbval b)) y u v) ->
  (forall y u v, ~ Wqr n y u v ->
     req_recv_ ch y u v = req_recv_ (get_chan c (pbval b)) y u v) ->
  same_except c Ws Wr Wf Wqs Wqr w
    (set_block w n (set_pbval b (set_chan c (pbval b) ch))).
Proof.
  intros Hb HB HS HR HF HQ HG. split; [reflexivity|]. split; [reflexivity|].
  intros m x Hx. cbn [pblock set_block].
  destruct (Nat.eq_dec n m) as [<-|Hne].
  - assert (x = b) by congruence. subst x.
    eexists. split.
    { apply nth_error_set_nth_eq. eapply nth_error_lt; eauto. }
    split; [reflexivity|]. cbn [pbval set_pbval]. rewrite get_set_chan.
    split; [intros c' Hc; now apply get_set_chan_other|].
    split; [exact HB|]. split; [exact HS|]. split; [exact HR|].
    split; [exact HF|]. split; [exact HQ | exact HG].
  - exists x. split; [now rewrite nth_error_set_nth_ne|].
    split; [now destruct x|]. repeat split; reflexivity.
Qed.

Lemma same_except_set_mpi (w : Process) (m : MPI) :
  same_except c Ws Wr Wf Wqs Wqr w (set_mpi w m).
Proof.
  split; [reflexivity|]. split; [reflexivity|].
  intros n b H. exists b. split; [exact H|].
  split; [now destruct b|]. repeat split; reflexivity.
Qed.

End SameExcept.

Lemma upd_outside {A} (f : Z -> A) (d y : Z) (v : A) :
  y <> d -> upd f d v y = f y.
Proof. intros H. unfold upd. apply Z.eqb_neq in H. now rewrite H. Qed.

Lemma upd3_outside {A} (f : Z -> Z -> Z -> A) (d a b y u v : Z) (x : A) :
  ~ (y = d /\ u = a /\ v = b) -> upd3 f d a b x y u v = f y u v.
Proof.
  intros H. unfold upd3.
  destruct (Z.eqb_spec y d); [|reflexivity].
  destruct (Z.eqb_spec u a); [|reflexivity].
  destruct (Z.eqb_spec v b); [|reflexivity].
  elim H. auto.
Qed.

Lemma SendBuffer_only_sends (c : chan) (w : Process) (me : nat) (dir flag : Z)
  (w1 : Process) :
  SendBuffer c w me dir flag = Ret w1 -> only_sends c me dir w w1.
Proof.
  unfold SendBuffer, only_sends. intros E.
  apply bind_Ret_inv in E. destruct E as [pmb [Hb E]]. apply block_inv in Hb.
  destruct (_ =? myrank).
  - destruct (find_gid _ _) as [ib|]; [|discriminate].
    apply bind_Ret_inv in E. destruct E as [pbl [Hl E]]. apply block_inv in Hl.
    apply bind_Ret_inv in E. destruct E as [buf [_ E]].
    rewrite (put_chan_Ret _ _ _ _ _ Hl) in E. injection E as <-.
    apply same_except_put; try exact Hl; try reflexivity.
    + intros y Hy. cbn. now apply upd_outside.
    + intros y u v Hy. cbn. now apply upd3_outside.
  - destruct MPI_PARALLEL.
    + destruct (MPI_Isend _ _ _ _) as [m rq].
      assert (Hb1 : nth_error (pblock (set_mpi w m)) me = Some pmb) by exact Hb.
      rewrite (put_chan_Ret _ _ _ _ _ Hb1) in E. injection E as <-.
      eapply same_except_trans; [apply (same_except_set_mpi _ _ _ _ _ _ w m)|].
      apply same_except_put; try exact Hb1; try reflexivity.
      intros y u v Hy. cbn. apply upd3_outside.
      intros H. apply Hy. split; [reflexivity | exact H].
    + injection E as <-. apply same_except_refl.
Qed.

Lemma pack_then_send_only_sends (c : chan) (w : Process) (me : nat)
  (dir flag : Z) (pmb : MeshBlock) (sendbuf : list Real) (w1 : Process) :
  nth_error (pblock w) me = Some pmb ->
  (w' <- put_chan w me c (set_send (get_chan c (pbval pmb)) dir sendbuf) ;;
   SendBuffer c w' me dir flag) = Ret w1 ->
  only_sends c me dir w w1.
Proof.
  intros Hb E. rewrite (put_chan_Ret _ _ _ _ _ Hb) in E. cbn [bind] in E.
  apply SendBuffer_only_sends in E.
  eapply same_except_trans; [|exact E].
  apply same_except_put; try exact Hb; try reflexivity.
  intros y Hy. cbn. apply upd_outside. intros ->. apply Hy. now split.
Qed.

(** X7: whenever LoadAndSendFluidBoundaryBuffer or
    LoadAndSendFieldBoundaryBuffer returns, the process differs from the
    one before the call at most in the send buffer and the send request
    [[dir][0][0]] of the calling block, in the receive buffers of side
    [oside dir], in the flags [[oside dir][0][0]], and in the MPI state:
    tables, mesh, block geometry, boundary functions, the other channels,
    all other send buffers, receive buffers and flags, all other send
    requests and all receive requests are untouched. *)
Theorem load_and_send_writes_one_slot_only
  (w : Process) (me : nat) (dir flag : Z) (w1 : Process) :
  (forall src, LoadAndSendFluidBoundaryBuffer w me dir src flag = Ret w1 ->
               only_sends Fluid me dir w w1)
  /\ (forall src, LoadAndSendFieldBoundaryBuffer w me dir src flag = Ret w1 ->
                  only_sends Field me dir w w1).
Proof.
  split.
  - intros src E. unfold LoadAndSendFluidBoundaryBuffer in E.
    apply bind_Ret_inv in E. destruct E as [pmb [Hb E]]. apply block_inv in Hb.
    destruct (_ =? -1); [injection E as <-; apply same_except_refl|].
    apply bind_Ret_inv in E. destruct E as [[p sb] [_ E]].
    now apply (pack_then_send_only_sends Fluid w me dir flag pmb sb).
  - intros src E. unfold LoadAndSendFieldBoundaryBuffer in E.
    apply bind_Ret_inv in E. destruct E as [pmb [Hb E]]. apply block_inv in Hb.
    destruct (_ =? -1); [injection E as <-; apply same_except_refl|].
    apply bind_Ret_inv in E. destruct E as [[p sb] [_ E]].
    now apply (pack_then_send_only_sends Field w me dir flag pmb sb).
Qed.

(** ** What a constructed object holds *)

Lemma for_each_ret_acc {X S} (Q : list X -> S -> Prop) (l : list X)
  (body : X -> S -> outcome S) :
  (forall done x s s', In x l -> Q done s -> body x s = Ret s' ->
     Q (done ++ [x]) s') ->
  forall done s s', Q done s -> for_each l body s = Ret s' -> Q (done ++ l) s'.
Proof.
  induction l as [|x l IH]; intros Hstep done s s' HQ E; cbn in E.
  - injection E as <-. now rewrite app_nil_r.
  - apply bind_Ret_inv in E. destruct E as [s1 [E1 E]].
    assert (Q1 : Q (done ++ [x]) s1)
      by (apply (Hstep done x s s1); auto; now left).
    generalize (IH (fun d y a b Hy => Hstep d y a b (or_intror Hy)) _ _ _ Q1 E).
    now rewrite <- app_assoc.
Qed.

Lemma alloc_buffers_inv (size : Z -> Z) (r : Z) (ch ch' : Channel) :
  alloc_buffers size r ch = Ret ch' ->
  Boundary_ ch' = Boundary_ ch /\ flag_ ch' = flag_ ch
  /\ (forall i, 0 <= i < r ->
        Z.of_nat (length (send_ ch' i)) = size i
        /\ Z.of_nat (length (recv_ ch' i)) = size i)
  /\ (forall i, ~ 0 <= i < r ->
        send_ ch' i = send_ ch i /\ recv_ ch' i = recv_ ch i).
Proof.
  unfold alloc_buffers, for_loop. intros E.
  set (Q := fun (done : list Z) (c : Channel) =>
       Boundary_ c = Boundary_ ch /\ flag_ c = flag_ ch
       /\ (forall i, In i done ->
             Z.of_nat (length (send_ c i)) = size i
             /\ Z.of_nat (length (recv_ c i)) = size i)
       /\ (forall i, ~ In i done ->
             send_ c i = send_ ch i /\ recv_ c i = recv_ ch i)).
  assert (H : Q ([] ++ zrange 0 (r - 1)) ch').
  { apply (for_each_ret_acc Q) with (3 := E).
    - intros done x c c' Hx HQ Eb.
      destruct HQ as [HB [HF [HL HO]]]. unfold new_Real in Eb.
      destruct (size x <? 0) eqn:Es; cbn [bind] in Eb; [discriminate|].
      apply Z.ltb_ge in Es. injection Eb as <-. unfold Q. cbn.
      split; [exact HB|]. split; [exact HF|]. split.
      + intros i Hi. unfold upd. destruct (Z.eqb_spec i x) as [->|Hne].
        * rewrite repeat_length. lia.
        * apply in_app_iff in Hi. destruct Hi as [Hi|[Hi|[]]];
            [now apply HL | now elim Hne].
      + intros i Hi. unfold upd. destruct (Z.eqb_spec i x) as [->|Hne].
        * elim Hi. apply in_or_app. right. now left.
        * apply HO. intros H. apply Hi. apply in_or_app. now left.
    - unfold Q. split; [reflexivity|]. split; [reflexivity|].
      split; [intros i []|intros i _; split; reflexivity]. }
  cbn [app] in H. destruct H as [HB [HF [HL HO]]].
  split; [exact HB|]. split; [exact HF|]. split.
  - intros i Hi. apply HL. apply In_zrange. lia.
  - intros i Hi. apply HO. rewrite In_zrange. lia.
Qed.

Lemma init_flags_spec (ch : Channel) :
  exists ch', init_flags ch = Ret ch'
    /\ Boundary_ ch' = Boundary_ ch
    /\ send_ ch' = send_ ch /\ recv_ ch' = recv_ ch
    /\ (forall i a b, 0 <= i < 6 -> 0 <= a <= 1 -> 0 <= b <= 1 ->
          flag_ ch' i a b = false).
Proof.
  unfold init_flags, for_loop.
  destruct (for_each_acc
    (fun done ch' => Boundary_ ch' = Boundary_ ch
       /\ send_ ch' = send_ ch /\ recv_ ch' = recv_ ch
       /\ forall i a b, In i done -> 0 <= a <= 1 -> 0 <= b <= 1 ->
            flag_ ch' i a b = false)
    (zrange 0 5)
    (fun i ch0 =>
       Ret (set_flag (set_flag (set_flag (set_flag ch0 i 0 0 false)
                                         i 0 1 false) i 1 0 false) i 1 1 false)))
    with (done := @nil Z) (s := ch) as [ch' [E [HB [HS [HR HF]]]]].
  - intros done x ch0 _ [HB [HS [HR HF]]].
    eexists; split; [reflexivity|]. cbn. repeat split; auto.
    intros i a b Hi Ha Hb. unfold upd3.
    destruct (Z.eqb_spec i x) as [->|Hne].
    + assert (Ea : a = 0 \/ a = 1) by lia. assert (Eb : b = 0 \/ b = 1) by lia.
      destruct Ea as [-> | ->], Eb as [-> | ->]; reflexivity.
    + cbn [andb]. apply in_app_iff in Hi. destruct Hi as [Hi|[Hi|[]]].
      * now apply HF.
      * now elim Hne.
  - repeat split; auto. intros i a b [].
  - exists ch'. repeat split; auto.
    intros i a b Hi. apply HF. cbn [app]. apply In_zrange. lia.
Qed.

Lemma bc_switch_inv (name : string) (d : Z) (refl outf defl : BValFunc)
  (code : Z) (bv bv' : BoundaryValues) :
  bc_switch name d refl outf defl code bv = Ret bv' ->
  recognized code = true
  /\ handlers_at bv' d
     = (if code =? 1 then (Some refl, Some refl, Some defl)
        else if code =? 2 then (Some outf, Some outf, Some defl)
        else (None, None, None))
  /\ (forall y, y <> d -> handlers_at bv' y = handlers_at bv y)
  /\ (forall c, send_ (get_chan c bv') = send_ (get_chan c bv)
                /\ recv_ (get_chan c bv') = recv_ (get_chan c bv)
                /\ flag_ (get_chan c bv') = flag_ (get_chan c bv)).
Proof.
  rewrite bc_switch_cases.
  destruct (recognized code); [|discriminate].
  destruct (code =? 1); [|destruct (code =? 2)]; intros E; injection E as <-;
    (split; [reflexivity|]; split;
     [unfold handlers_at; cbn; unfold upd; now rewrite Z.eqb_refl|]; split;
     [intros y Hy; apply Z.eqb_neq in Hy; unfold handlers_at; cbn; unfold upd;
      now rewrite Hy
     |intros c; destruct c; cbn; auto]).
Qed.

(** The part of the object a channel's buffers and flags occupy. *)
Lemma allocate_and_clear_inv (t : Tables) (nx2 nx3 : Z) (bv bv' : BoundaryValues) :
  allocate_and_clear t nx2 nx3 bv = Ret bv' ->
  let r := if nx3 >? 1 then 6 else if nx2 >? 1 then 4 else 2 in
  (forall d, handlers_at bv' d = handlers_at bv d)
  /\ (forall i a b, 0 <= i < 6 -> 0 <= a <= 1 -> 0 <= b <= 1 ->
        flag_ (fluid bv') i a b = false
        /\ (MAGNETIC_FIELDS_ENABLED = true ->
            flag_ (field bv') i a b = false
            /\ flag_ (eflux bv') i a b = false))
  /\ (forall i, 0 <= i < r ->
        Z.of_nat (length (send_ (fluid bv') i)) = fluid_bufsize_ t i
        /\ Z.of_nat (length (recv_ (fluid bv') i)) = fluid_bufsize_ t i
        /\ (MAGNETIC_FIELDS_ENABLED = true ->
            Z.of_nat (length (send_ (field bv') i)) = field_bufsize_ t i
            /\ Z.of_nat (length (recv_ (field bv') i)) = field_bufsize_ t i
            /\ (1 < nx2 ->
                Z.of_nat (length (send_ (eflux bv') i)) = eflux_bufsize_ t i
                /\ Z.of_nat (length (recv_ (eflux bv') i)) = eflux_bufsize_ t i)))
  /\ (forall i, ~ 0 <= i < r ->
        send_ (fluid bv') i = send_ (fluid bv) i
        /\ recv_ (fluid bv') i = recv_ (fluid bv) i
        /\ send_ (field bv') i = send_ (field bv) i
        /\ recv_ (field bv') i = recv_ (field bv) i
        /\ send_ (eflux bv') i = send_ (eflux bv) i
        /\ recv_ (eflux bv') i = recv_ (eflux bv) i).
Proof.
  unfold allocate_and_clear. cbv zeta.
  set (r := if nx3 >? 1 then 6 else if nx2 >? 1 then 4 else 2).
  intros E.
  apply bind_Ret_inv in E. destruct E as [fl [Efl E]].
  apply alloc_buffers_inv in Efl. destruct Efl as [B1 [F1 [L1 O1]]].
  destruct (init_flags_spec fl) as [fl' [E2 [B2 [S2 [R2 G2]]]]].
  destruct MAGNETIC_FIELDS_ENABLED.
  - apply bind_Ret_inv in E. destruct E as [[fd ef] [Ep E]].
    apply bind_Ret_inv in Ep. destruct Ep as [fd0 [Efd Ep]].
    apply alloc_buffers_inv in Efd. destruct Efd as [B3 [F3 [L3 O3]]].
    apply bind_Ret_inv in Ep. destruct Ep as [ef0 [Eef Ep]].
    injection Ep as <- <-.
    assert (He : Boundary_ ef0 = Boundary_ (eflux bv)
                 /\ (forall i, 0 <= i < r -> 1 < nx2 ->
                       Z.of_nat (length (send_ ef0 i)) = eflux_bufsize_ t i
                       /\ Z.of_nat (length (recv_ ef0 i)) = eflux_bufsize_ t i)
                 /\ (forall i, ~ 0 <= i < r ->
                       send_ ef0 i = send_ (eflux bv) i
                       /\ recv_ ef0 i = recv_ (eflux bv) i)).
    { destruct (Z.gtb_spec nx2 1) as [Hn|Hn].
      - apply alloc_buffers_inv in Eef. destruct Eef as [B4 [_ [L4 O4]]].
        split; [exact B4|]. split; [intros i Hi _; now apply L4 | exact O4].
      - injection Eef as <-. split; [reflexivity|].
        split; [intros i _ H; lia | intros i _; split; reflexivity]. }
    destruct He as [B4 [L4 O4]].
    rewrite E2 in E. cbn [bind] in E.
    destruct (init_flags_spec fd0) as [fd' [E5 [B5 [S5 [R5 G5]]]]].
    destruct (init_flags_spec ef0) as [ef' [E6 [B6 [S6 [R6 G6]]]]].
    rewrite E5 in E. cbn [bind] in E. rewrite E6 in E. cbn [bind] in E.
    injection E as <-. cbn [fluid field eflux].
    split; [intros d; unfold handlers_at; cbn; congruence|].
    split; [intros i a b Hi Ha Hb; split; [now apply G2|];
            intros _; split; [now apply G5 | now apply G6]|].
    rewrite S2, R2, S5, R5, S6, R6. split.
    + intros i Hi. destruct (L1 i Hi) as [La Lb]. destruct (L3 i Hi) as [Lc Ld].
      split; [exact La|]. split; [exact Lb|]. intros _.
      split; [exact Lc|]. split; [exact Ld|]. intros Hn. now apply L4.
    + intros i Hi. destruct (O1 i Hi), (O3 i Hi), (O4 i Hi). auto 10.
  - cbn [bind] in E. rewrite E2 in E. cbn [bind] in E. injection E as <-.
    cbn [fluid field eflux].
    split; [intros d; unfold handlers_at; cbn; congruence|].
    split; [intros i a b Hi Ha Hb; split; [now apply G2 | discriminate]|].
    rewrite S2, R2. split.
    + intros i Hi. destruct (L1 i Hi) as [La Lb].
      split; [exact La|]. split; [exact Lb | discriminate].
    + intros i Hi. destruct (O1 i Hi). auto 10.
Qed.

Lemma switched_step (pmb : MeshBlock) (raw : BoundaryValues) (L : list Z)
  (name : string) (d : Z) (bv bv' : BoundaryValues) :
  0 <= d < 6 ->
  switched pmb raw L bv ->
  bc_switch name d (reflect_of d) (outflow_of d) (default_eflux_of d)
    (block_bcs pmb d) bv = Ret bv' ->
  switched pmb raw (L ++ [d]) bv'.
Proof.
  intros Hd [HL [HO HC]] E. apply bc_switch_inv in E.
  destruct E as [R [Hh [Hy Hc]]]. split; [|split].
  - intros y Hi. destruct (Z.eq_dec y d) as [->|Hne].
    + split; [exact R|]. rewrite Hh. reflexivity.
    + apply in_app_iff in Hi. destruct Hi as [Hi|[Hi|[]]];
        [|now elim Hne]. rewrite (Hy y Hne). now apply HL.
  - intros y Hi. rewrite Hy.
    + apply HO. intros H. apply Hi. apply in_or_app. now left.
    + intros ->. apply Hi. apply in_or_app. right. now left.
  - intros c. destruct (Hc c) as [A [B C]], (HC c) as [A' [B' C']].
    rewrite A, B, C. auto.
Qed.

Lemma constructor_inv (t : Tables) (pmb : MeshBlock) (raw bv : BoundaryValues) :
  BoundaryValues_new t pmb raw = Ret bv ->
  exists bv0,
    switched pmb raw (checked_dirs pmb) bv0
    /\ allocate_and_clear t (RegionSize.nx2 (block_size pmb))
         (RegionSize.nx3 (block_size pmb)) bv0 = Ret bv.
Proof.
  unfold BoundaryValues_new, checked_dirs. cbv zeta. intros E.
  assert (S0 : switched pmb raw [] raw).
  { split; [intros d []|]. split; [reflexivity|]. intros c. auto. }
  apply bind_Ret_inv in E. destruct E as [b1 [E1 E]].
  eapply (switched_step pmb raw _ _ inner_x1) in E1; [|unfold inner_x1; lia|exact S0].
  apply bind_Ret_inv in E. destruct E as [b2 [E2 E]].
  eapply (switched_step pmb raw _ _ outer_x1) in E2; [|unfold outer_x1; lia|exact E1].
  apply bind_Ret_inv in E. destruct E as [b3 [E3 E]].
  apply bind_Ret_inv in E. destruct E as [b4 [E4 E]].
  exists b4. split; [|exact E].
  assert (S3 : switched pmb raw
            ([inner_x1; outer_x1]
             ++ (if RegionSize.nx2 (block_size pmb) >? 1
                 then [inner_x2; outer_x2] else [])) b3).
  { destruct (RegionSize.nx2 (block_size pmb) >? 1).
    - apply bind_Ret_inv in E3. destruct E3 as [b [Ea Eb]].
      eapply (switched_step pmb raw _ _ inner_x2) in Ea; [|unfold inner_x2; lia|exact E2].
      eapply (switched_step pmb raw _ _ outer_x2) in Eb; [|unfold outer_x2; lia|exact Ea].
      exact Eb.
    - injection E3 as <-. exact E2. }
  rewrite app_assoc.
  destruct (RegionSize.nx3 (block_size pmb) >? 1).
  - apply bind_Ret_inv in E4. destruct E4 as [b [Ea Eb]].
    eapply (switched_step pmb raw _ _ inner_x3) in Ea; [|unfold inner_x3; lia|exact S3].
    eapply (switched_step pmb raw _ _ outer_x3) in Eb; [|unfold outer_x3; lia|exact Ea].
    rewrite <- !app_assoc in Eb. rewrite <- !app_assoc. exact Eb.
  - injection E4 as <-. now rewrite app_nil_r.
Qed.

(** X8: when the constructor returns, all four flags of each of the six
    directions are false in every channel it clears (field and eflux in a
    build with magnetic fields); the send and the receive buffer of each
    direction below [allocated_dirs] have exactly the length the table
    gives (eflux only when [nx2>1]); and the buffers of the other
    directions are those of the storage before construction: no buffer
    exists for x2 in 1D or for x3 in 1D and 2D. *)
Theorem constructor_allocates_and_clears
  (t : Tables) (pmb : MeshBlock) (raw bv : BoundaryValues) :
  BoundaryValues_new t pmb raw = Ret bv ->
  (forall i a b, 0 <= i < 6 -> 0 <= a <= 1 -> 0 <= b <= 1 ->
     flag_ (fluid bv) i a b = false
     /\ (MAGNETIC_FIELDS_ENABLED = true ->
         flag_ (field bv) i a b = false /\ flag_ (eflux bv) i a b = false))
  /\ (forall i, 0 <= i < allocated_dirs pmb ->
        Z.of_nat (length (send_ (fluid bv) i)) = fluid_bufsize_ t i
        /\ Z.of_nat (length (recv_ (fluid bv) i)) = fluid_bufsize_ t i
        /\ (MAGNETIC_FIELDS_ENABLED = true ->
            Z.of_nat (length (send_ (field bv) i)) = field_bufsize_ t i
            /\ Z.of_nat (length (recv_ (field bv) i)) = field_bufsize_ t i
            /\ (1 < RegionSize.nx2 (block_size pmb) ->
                Z.of_nat (length (send_ (eflux bv) i)) = eflux_bufsize_ t i
                /\ Z.of_nat (length (recv_ (eflux bv) i))
                   = eflux_bufsize_ t i)))
  /\ (forall i c, ~ 0 <= i < allocated_dirs pmb ->
        send_ (get_chan c bv) i = send_ (get_chan c raw) i
        /\ recv_ (get_chan c bv) i = recv_ (get_chan c raw) i).
Proof.
  intros E. apply constructor_inv in E. destruct E as [bv0 [[_ [_ HC]] E]].
  apply allocate_and_clear_inv in E. cbv zeta in E.
  destruct E as [_ [HF [HL HO]]].
  split; [exact HF|]. split; [exact HL|].
  intros i c Hi. destruct (HO i Hi) as [A1 [A2 [A3 [A4 [A5 A6]]]]].
  destruct (HC c) as [S [R _]].
  rewrite <- S, <- R. destruct c; cbn [get_chan]; auto.
Qed.

(** X9: a block whose boundary object was just constructed, at a side
    whose code the constructor examined and where the block has no
    neighbor: ReceiveAndSet applies the reflecting function of that side
    for code 1 and the outflow function for code 2; for the codes -1, 3
    and 4 the stored function is null and the call through it is a fault. *)
Theorem boundary_call_after_construction
  (t : Tables) (pmb : MeshBlock) (raw bv : BoundaryValues)
  (w : Process) (me : nat) (dir : Z) :
  BoundaryValues_new t pmb raw = Ret bv ->
  nth_error (pblock w) me = Some (set_pbval pmb bv) ->
  In dir (checked_dirs pmb) ->
  NeighborBlock.gid (neighbor pmb dir 0 0) = -1 ->
  forall dst fdst,
    ReceiveAndSetFluidBoundary w me dir dst
    = (if block_bcs pmb dir =? 1
       then Ret (w, call_fluid (reflect_of dir) (set_pbval pmb bv) dst, true)
       else if block_bcs pmb dir =? 2
       then Ret (w, call_fluid (outflow_of dir) (set_pbval pmb bv) dst, true)
       else Fault)
    /\ ReceiveAndSetFieldBoundary w me dir fdst
    = (if block_bcs pmb dir =? 1
       then Ret (w, call_field (reflect_of dir) (set_pbval pmb bv) fdst, true)
       else if block_bcs pmb dir =? 2
       then Ret (w, call_field (outflow_of dir) (set_pbval pmb bv) fdst, true)
       else Fault).
Proof.
  intros E Hb Hd Hg dst fdst. apply constructor_inv in E.
  destruct E as [bv0 [[HL _] E]].
  apply allocate_and_clear_inv in E. cbv zeta in E. destruct E as [Hh _].
  destruct (HL dir Hd) as [_ H]. rewrite <- Hh in H.
  unfold handlers_at, handlers_for in H.
  unfold ReceiveAndSetFluidBoundary, ReceiveAndSetFieldBoundary.
  rewrite (block_Ret _ _ _ Hb). cbn [bind].
  change (neighbor (set_pbval pmb bv)) with (neighbor pmb).
  change (pbval (set_pbval pmb bv)) with bv.
  rewrite Hg. cbn [Z.eqb Pos.eqb].
  destruct (block_bcs pmb dir =? 1); [|destruct (block_bcs pmb dir =? 2)];
    injection H as -> -> _; split; reflexivity.
Qed.

(** ** Neighbors on another rank *)

Section WriteReadAll.
Variables (X D : Type) (W : X -> Real -> D -> D) (R : D -> X -> Real).
Hypothesis R_W_same : forall x v d, R (W x v d) x = v.
Hypothesis R_W_other : forall x y v d, x <> y -> R (W x v d) y = R d y.

(** Reading back, in order, the places that were written in order. *)
Lemma fold_write_read_all (pts : list X) :
  NoDup pts ->
  forall vs d, (length pts <= length vs)%nat ->
    map (R (fold_left (fun d xv => W (fst xv) (snd xv) d) (combine pts vs) d))
        pts
    = firstn (length pts) vs.
Proof using R_W_same R_W_other.
  induction 1 as [|x pts Hx Hnd IH]; intros vs d Hl; [reflexivity|].
  destruct vs as [|v vs]; [cbn in Hl; lia|].
  cbn [combine fold_left fst snd map length firstn]. f_equal.
  - rewrite (fold_write_other X D W R R_W_other pts vs _ x Hx).
    apply R_W_same.
  - apply IH. cbn in Hl. lia.
Qed.
End WriteReadAll.

Lemma firstn_deliver (n : nat) (data buf : list Real) :
  (n <= length data)%nat -> (n <= length buf)%nat ->
  firstn n (deliver data buf) = firstn n data.
Proof.
  intros Hd Hb. unfold deliver. rewrite firstn_app, length_firstn.
  replace (n - Nat.min (length buf) (length data))%nat with O by lia.
  rewrite firstn_O, app_nil_r, firstn_firstn. f_equal. lia.
Qed.

(** The branch of "Send the buffer" for a neighbor on another rank. *)
Lemma pack_then_send_remote (c : chan) (w : Process) (me : nat)
  (dir flag : Z) (B : MeshBlock) (msg : list Real) :
  MPI_PARALLEL = true ->
  nth_error (pblock w) me = Some B ->
  NeighborBlock.rank (neighbor B dir 0 0) <> myrank ->
  Z.of_nat (length msg) = bufsize c (tabs w) dir ->
  exists w1 B1,
    (w' <- put_chan w me c (set_send (get_chan c (pbval B)) dir msg) ;;
     SendBuffer c w' me dir flag) = Ret w1
    /\ nth_error (pblock w1) me = Some B1
    /\ neighbor B1 = neighbor B
    /\ MPI_Isend (mpi w) msg (NeighborBlock.rank (neighbor B dir 0 0))
         (CreateMPITag (NeighborBlock.lid (neighbor B dir 0 0)) flag
            (oside dir) (tag_of c) 0 0)
       = (mpi w1, req_send_ (get_chan c (pbval B1)) dir 0 0).
Proof.
  intros HM HB Hr Hl.
  rewrite (put_chan_Ret _ _ _ _ _ HB). cbn [bind].
  set (B' := set_pbval B _). set (wB := set_block w me B').
  assert (HB' : nth_error (pblock wB) me = Some B').
  { cbn. apply nth_error_set_nth_eq. eapply nth_error_lt; eauto. }
  unfold SendBuffer. rewrite (block_Ret _ _ _ HB'). cbn [bind].
  change (neighbor B') with (neighbor B).
  apply Z.eqb_neq in Hr. rewrite Hr, HM.
  change (pbval B') with (set_chan c (pbval B)
                            (set_send (get_chan c (pbval B)) dir msg)).
  rewrite get_set_chan.
  change (send_ (set_send (get_chan c (pbval B)) dir msg) dir)
    with (upd (send_ (get_chan c (pbval B))) dir msg dir).
  unfold upd at 1. rewrite Z.eqb_refl.
  change (tabs wB) with (tabs w). change (mpi wB) with (mpi w).
  rewrite <- Hl, Nat2Z.id, firstn_all.
  destruct (MPI_Isend _ _ _ _) as [m rq].
  assert (HB2 : nth_error (pblock (set_mpi wB m)) me = Some B') by exact HB'.
  rewrite (put_chan_Ret _ _ _ _ _ HB2).
  eexists; eexists. split; [reflexivity|]. split; [|split].
  - cbn. apply nth_error_set_nth_eq. rewrite length_set_nth.
    eapply nth_error_lt; eauto.
  - reflexivity.
  - cbn [pbval set_pbval mpi set_block set_mpi]. rewrite get_set_chan.
    cbn. unfold upd3. now rewrite !Z.eqb_refl.
Qed.

(** X10: in a build with MPI, for a neighbor on another rank, LoadAndSend
    hands to [MPI_Isend] the values of the send row in loop order, followed
    by the part of the send buffer behind them that the loops do not
    write; the destination is the rank of the neighbor and the tag is made
    from the local id of the neighbor, the caller's [flag] and the opposite
    side; the request it gets back is stored for direction [d]. *)
Theorem remote_send_hands_packed_row_to_mpi
  (w : Process) (me : nat) (B : MeshBlock) (d flag : Z) :
  MPI_PARALLEL = true ->
  nth_error (pblock w) me = Some B ->
  NeighborBlock.gid (neighbor B d 0 0) <> -1 ->
  NeighborBlock.rank (neighbor B d 0 0) <> myrank ->
  (forall src,
     0 <= NFLUID ->
     Z.of_nat (length (send_ (fluid (pbval B)) d)) = fluid_bufsize_ (tabs w) d ->
     NFLUID * range_count (fluid_send_se_ (tabs w) d)
       <= fluid_bufsize_ (tabs w) d ->
     exists w1 B1,
       LoadAndSendFluidBoundaryBuffer w me d src flag = Ret w1
       /\ nth_error (pblock w1) me = Some B1
       /\ MPI_Isend (mpi w)
            (fluid_values src (fluid_send_se_ (tabs w) d)
             ++ skipn (length (fluid_values src (fluid_send_se_ (tabs w) d)))
                      (send_ (fluid (pbval B)) d))
            (NeighborBlock.rank (neighbor B d 0 0))
            (CreateMPITag (NeighborBlock.lid (neighbor B d 0 0)) flag
               (oside d) tag_fluid 0 0)
          = (mpi w1, req_send_ (fluid (pbval B1)) d 0 0))
  /\ (forall src,
        Z.of_nat (length (send_ (field (pbval B)) d)) = field_bufsize_ (tabs w) d ->
        Z.of_nat (length (field_values src (field_send_se_ (tabs w) d)))
          <= field_bufsize_ (tabs w) d ->
        exists w1 B1,
          LoadAndSendFieldBoundaryBuffer w me d src flag = Ret w1
          /\ nth_error (pblock w1) me = Some B1
          /\ MPI_Isend (mpi w)
               (field_values src (field_send_se_ (tabs w) d)
                ++ skipn (length (field_values src (field_send_se_ (tabs w) d)))
                         (send_ (field (pbval B)) d))
               (NeighborBlock.rank (neighbor B d 0 0))
               (CreateMPITag (NeighborBlock.lid (neighbor B d 0 0)) flag
                  (oside d) tag_field 0 0)
             = (mpi w1, req_send_ (field (pbval B1)) d 0 0)).
Proof.
  intros HM HB Hg Hr. apply Z.eqb_neq in Hg. split.
  - intros src Hf Hs Hc. unfold LoadAndSendFluidBoundaryBuffer.
    rewrite (block_Ret _ _ _ HB). cbn [bind]. rewrite Hg.
    rewrite (pack_fluid_prefix src _ (send_ (fluid (pbval B)) d) Hf)
      by (rewrite Hs; exact Hc).
    cbn [bind].
    destruct (pack_then_send_remote Fluid w me d flag B
                (fluid_values src (fluid_send_se_ (tabs w) d)
                 ++ skipn (length (fluid_values src (fluid_send_se_ (tabs w) d)))
                          (send_ (fluid (pbval B)) d)) HM HB Hr)
      as [w1 [B1 [E [H1 [_ H3]]]]].
    { cbn [bufsize]. rewrite length_app, length_skipn, Nat2Z.inj_add.
      generalize (length_fluid_values src (fluid_send_se_ (tabs w) d) Hf).
      lia. }
    exists w1, B1. split; [exact E|]. split; [exact H1 | exact H3].
  - intros src Hs Hc. unfold LoadAndSendFieldBoundaryBuffer.
    rewrite (block_Ret _ _ _ HB). cbn [bind]. rewrite Hg.
    rewrite pack_field_values.
    rewrite (put_prefix (field_values src (field_send_se_ (tabs w) d))
               (send_ (field (pbval B)) d)) by lia.
    cbn [bind].
    destruct (pack_then_send_remote Field w me d flag B
                (field_values src (field_send_se_ (tabs w) d)
                 ++ skipn (length (field_values src (field_send_se_ (tabs w) d)))
                          (send_ (field (pbval B)) d)) HM HB Hr)
      as [w1 [B1 [E [H1 [_ H3]]]]].
    { cbn [bufsize]. rewrite length_app, length_skipn, Nat2Z.inj_add. lia. }
    exists w1, B1. split; [exact E|]. split; [exact H1 | exact H3].
Qed.

(** X11: in a build with MPI, for a neighbor on another rank whose flag is
    not raised, ReceiveAndSet waits on the stored receive request; when
    the wait completes with a message that covers the receive row, the
    elements of the receive row, read in loop order, are the leading values
    of the message, the MPI state is the one the wait left, and the flag
    is false. *)
Theorem remote_receive_sets_row_from_message
  (w : Process) (me : nat) (A : MeshBlock) (e : Z) (m : MPI)
  (rq : MPI_Request) (data : list Real) :
  MPI_PARALLEL = true ->
  nth_error (pblock w) me = Some A ->
  NeighborBlock.gid (neighbor A e 0 0) <> -1 ->
  NeighborBlock.rank (neighbor A e 0 0) <> myrank ->
  (0 <= NFLUID ->
   flag_ (fluid (pbval A)) e 0 0 = false ->
   MPI_Wait (mpi w) (req_recv_ (fluid (pbval A)) e 0 0) = Some (m, rq, data) ->
   (length (points4 (fluid_recv_se_ (tabs w) e)) <= length data)%nat ->
   (length (points4 (fluid_recv_se_ (tabs w) e))
    <= length (recv_ (fluid (pbval A)) e))%nat ->
   forall dst, exists w2 dst' A2,
     ReceiveAndSetFluidBoundary w me e dst = Ret (w2, dst', true)
     /\ mpi w2 = m
     /\ map (at4 dst') (points4 (fluid_recv_se_ (tabs w) e))
        = firstn (length (points4 (fluid_recv_se_ (tabs w) e))) data
     /\ nth_error (pblock w2) me = Some A2
     /\ flag_ (fluid (pbval A2)) e 0 0 = false)
  /\ (flag_ (field (pbval A)) e 0 0 = false ->
      MPI_Wait (mpi w) (req_recv_ (field (pbval A)) e 0 0)
      = Some (m, rq, data) ->
      (length (field_cells (field_recv_se_ (tabs w) e)) <= length data)%nat ->
      (length (field_cells (field_recv_se_ (tabs w) e))
       <= length (recv_ (field (pbval A)) e))%nat ->
      forall dst, exists w2 dst' A2,
        ReceiveAndSetFieldBoundary w me e dst = Ret (w2, dst', true)
        /\ mpi w2 = m
        /\ map (read_cell dst') (field_cells (field_recv_se_ (tabs w) e))
           = firstn (length (field_cells (field_recv_se_ (tabs w) e))) data
        /\ nth_error (pblock w2) me = Some A2
        /\ flag_ (field (pbval A2)) e 0 0 = false).
Proof.
  intros HM HA Hg Hr. apply Z.eqb_neq in Hg, Hr. split.
  - intros Hf Hfl Hw Hd Hb dst. unfold ReceiveAndSetFluidBoundary.
    rewrite (block_Ret _ _ _ HA). cbn [bind].
    rewrite Hg, HM, Hfl, Hr. cbn [negb andb].
    rewrite (WaitReceive_Some Fluid me e w A m rq data HA Hw). cbn [bind].
    set (A1 := set_pbval A _). set (w1 := set_block (set_mpi w m) me A1).
    assert (HA1 : nth_error (pblock w1) me = Some A1).
    { cbn. apply nth_error_set_nth_eq. eapply nth_error_lt; eauto. }
    rewrite (block_Ret _ _ _ HA1). cbn [bind].
    change (tabs w1) with (tabs w).
    change (recv_ (fluid (pbval A1)) e)
      with (upd (recv_ (fluid (pbval A))) e
                (deliver data (recv_ (fluid (pbval A)) e)) e).
    unfold upd at 1. rewrite Z.eqb_refl.
    rewrite unpack_fluid_points.
    rewrite (take_prefix (fun p v d => aset4 d p v))
      by (rewrite length_deliver; exact Hb).
    cbn [bind]. rewrite (put_chan_Ret _ _ _ _ _ HA1). cbn [bind].
    eexists; eexists; eexists. split; [reflexivity|].
    split; [reflexivity|]. split; [|split].
    + rewrite (fold_write_read_all _ _ (fun p v d => aset4 d p v) at4
                 at4_aset4_same at4_aset4_other _ (NoDup_points4 _))
        by (rewrite length_deliver; exact Hb).
      now apply firstn_deliver.
    + cbn. apply nth_error_set_nth_eq. rewrite length_set_nth.
      eapply nth_error_lt; eauto.
    + cbn. unfold upd3. now rewrite !Z.eqb_refl.
  - intros Hfl Hw Hd Hb dst. unfold ReceiveAndSetFieldBoundary.
    rewrite (block_Ret _ _ _ HA). cbn [bind].
    rewrite Hg, HM, Hfl, Hr. cbn [negb andb].
    rewrite (WaitReceive_Some Field me e w A m rq data HA Hw). cbn [bind].
    set (A1 := set_pbval A _). set (w1 := set_block (set_mpi w m) me A1).
    assert (HA1 : nth_error (pblock w1) me = Some A1).
    { cbn. apply nth_error_set_nth_eq. eapply nth_error_lt; eauto. }
    rewrite (block_Ret _ _ _ HA1). cbn [bind].
    change (tabs w1) with (tabs w).
    change (recv_ (field (pbval A1)) e)
      with (upd (recv_ (field (pbval A))) e
                (deliver data (recv_ (field (pbval A)) e)) e).
    unfold upd at 1. rewrite Z.eqb_refl.
    rewrite unpack_field_cells.
    rewrite (take_prefix (fun l v d => write_cell l v d))
      by (rewrite length_deliver; exact Hb).
    cbn [bind]. rewrite (put_chan_Ret _ _ _ _ _ HA1). cbn [bind].
    eexists; eexists; eexists. split; [reflexivity|].
    split; [reflexivity|]. split; [|split].
    + rewrite (fold_write_read_all _ _ (fun l v d => write_cell l v d)
                 read_cell read_write_cell_same read_write_cell_other _
                 (NoDup_field_cells _))
        by (rewrite length_deliver; exact Hb).
      now apply firstn_deliver.
    + cbn. apply nth_error_set_nth_eq. rewrite length_set_nth.
      eapply nth_error_lt; eauto.
    + cbn. unfold upd3. now rewrite !Z.eqb_refl.
Qed.

(** ** When a call can block *)

Lemma for_each_take_not_blocked {X D : Type} (pts : list X) (buf : list Real)
  (wr : X -> Real -> D -> D) (st : nat * D) :
  for_each pts (fun p => take buf (wr p)) st <> Blocked.
Proof.
  revert st; induction pts as [|p pts IH]; intros [q d]; cbn; [discriminate|].
  unfold load. destruct (nth_error buf q); cbn; [apply IH | discriminate].
Qed.

Lemma put_chan_not_blocked (w : Process) (me : nat) (c : chan) (ch : Channel) :
  put_chan w me c ch <> Blocked.
Proof.
  unfold put_chan, block. destruct (nth_error _ _); cbn; discriminate.
Qed.

(** The part of ReceiveAndSet after the wait. *)
Lemma unpack_and_clear_not_blocked {D : Type} (c : chan) (w : Process)
  (me : nat) (dir : Z) (unpack : list Real -> outcome (nat * D)) :
  (forall buf, unpack buf <> Blocked) ->
  (pmb <- block w me ;;
   ' (p, dst) <- unpack (recv_ (get_chan c (pbval pmb)) dir) ;;
   w' <- put_chan w me c (set_flag (get_chan c (pbval pmb)) dir 0 0 false) ;;
   Ret (w', dst, true)) <> Blocked.
Proof.
  intros Hu. unfold block. destruct (nth_error _ _) as [b|]; cbn [bind];
    [|discriminate].
  generalize (Hu (recv_ (get_chan c (pbval b)) dir)).
  destruct (unpack _) as [[p d]| | |]; cbn [bind]; try discriminate;
    [|intros H; now elim H].
  intros _.
  generalize (put_chan_not_blocked w me c
                (set_flag (get_chan c (pbval b)) dir 0 0 false)).
  destruct (put_chan _ _ _ _); cbn [bind]; try discriminate.
  intros H; now elim H.
Qed.

(** X12: ReceiveAndSetFluidBoundary and ReceiveAndSetFieldBoundary are
    held up in exactly one situation: the build has MPI, the direction has
    a neighbor on another rank, the flag of the direction is not raised,
    and the wait on the stored receive request does not complete.  In
    particular they never wait for a neighbor on the same rank, whether
    its data has arrived or not. *)
Theorem receive_blocks_exactly_when_wait_does
  (w : Process) (me : nat) (dir : Z) (pmb : MeshBlock) :
  nth_error (pblock w) me = Some pmb ->
  (forall dst,
     ReceiveAndSetFluidBoundary w me dir dst = Blocked
     <-> (MPI_PARALLEL = true
          /\ NeighborBlock.gid (neighbor pmb dir 0 0) <> -1
          /\ NeighborBlock.rank (neighbor pmb dir 0 0) <> myrank
          /\ flag_ (fluid (pbval pmb)) dir 0 0 = false
          /\ MPI_Wait (mpi w) (req_recv_ (fluid (pbval pmb)) dir 0 0) = None))
  /\ (forall dst,
        ReceiveAndSetFieldBoundary w me dir dst = Blocked
        <-> (MPI_PARALLEL = true
             /\ NeighborBlock.gid (neighbor pmb dir 0 0) <> -1
             /\ NeighborBlock.rank (neighbor pmb dir 0 0) <> myrank
             /\ flag_ (field (pbval pmb)) dir 0 0 = false
             /\ MPI_Wait (mpi w) (req_recv_ (field (pbval pmb)) dir 0 0) = None)).
Proof.
  intros Hb. split; intros dst.
  - unfold ReceiveAndSetFluidBoundary.
    rewrite (block_Ret _ _ _ Hb). cbn [bind].
    destruct (Z.eqb_spec (NeighborBlock.gid (neighbor pmb dir 0 0)) (-1))
      as [Hg|Hg].
    { split; [destruct (Boundary_ _ _); discriminate|].
      intros [_ [H _]]. now elim H. }
    destruct MPI_PARALLEL; cbn [andb].
    2:{ split; [|intros [H _]; discriminate]. intros H. exfalso. revert H.
        apply (unpack_and_clear_not_blocked Fluid w me dir
                 (fun buf => unpack_fluid buf (fluid_recv_se_ (tabs w) dir) dst)).
        intros buf. rewrite unpack_fluid_points.
        apply for_each_take_not_blocked. }
    destruct (flag_ (fluid (pbval pmb)) dir 0 0); cbn [negb andb].
    { split; [|intros [_ [_ [_ [H _]]]]; discriminate]. intros H. exfalso.
      revert H.
      apply (unpack_and_clear_not_blocked Fluid w me dir
               (fun buf => unpack_fluid buf (fluid_recv_se_ (tabs w) dir) dst)).
      intros buf. rewrite unpack_fluid_points.
      apply for_each_take_not_blocked. }
    destruct (Z.eqb_spec (NeighborBlock.rank (neighbor pmb dir 0 0)) myrank)
      as [Hr|Hr]; cbn [negb].
    { split; [|intros [_ [_ [H _]]]; now elim H]. intros H. exfalso.
      revert H.
      apply (unpack_and_clear_not_blocked Fluid w me dir
               (fun buf => unpack_fluid buf (fluid_recv_se_ (tabs w) dir) dst)).
      intros buf. rewrite unpack_fluid_points.
      apply for_each_take_not_blocked. }
    destruct (MPI_Wait (mpi w) (req_recv_ (fluid (pbval pmb)) dir 0 0))
      as [[[m rq] data]|] eqn:Ew.
    + rewrite (WaitReceive_Some Fluid me dir w pmb m rq data Hb Ew). cbn [bind].
      split; [|intros [_ [_ [_ [_ H]]]]; discriminate]. intros H. exfalso.
      revert H.
      match goal with |- context [block ?w1 me] =>
        apply (unpack_and_clear_not_blocked Fluid w1 me dir
                 (fun buf => unpack_fluid buf (fluid_recv_se_ (tabs w1) dir) dst))
      end.
      intros buf. rewrite unpack_fluid_points.
      apply for_each_take_not_blocked.
    + unfold WaitReceive. rewrite (block_Ret _ _ _ Hb). cbn [bind get_chan].
      rewrite Ew. cbn [bind]. split; auto 10.
  - unfold ReceiveAndSetFieldBoundary.
    rewrite (block_Ret _ _ _ Hb). cbn [bind].
    destruct (Z.eqb_spec (NeighborBlock.gid (neighbor pmb dir 0 0)) (-1))
      as [Hg|Hg].
    { split; [destruct (Boundary_ _ _); discriminate|].
      intros [_ [H _]]. now elim H. }
    destruct MPI_PARALLEL; cbn [andb].
    2:{ split; [|intros [H _]; discriminate]. intros H. exfalso. revert H.
        apply (unpack_and_clear_not_blocked Field w me dir
                 (fun buf => unpack_field buf (field_recv_se_ (tabs w) dir) dst)).
        intros buf. rewrite unpack_field_cells.
        apply for_each_take_not_blocked. }
    destruct (flag_ (field (pbval pmb)) dir 0 0); cbn [negb andb].
    { split; [|intros [_ [_ [_ [H _]]]]; discriminate]. intros H. exfalso.
      revert H.
      apply (unpack_and_clear_not_blocked Field w me dir
               (fun buf => unpack_field buf (field_recv_se_ (tabs w) dir) dst)).
      intros buf. rewrite unpack_field_cells.
      apply for_each_take_not_blocked. }
    destruct (Z.eqb_spec (NeighborBlock.rank (neighbor pmb dir 0 0)) myrank)
      as [Hr|Hr]; cbn [negb].
    { split; [|intros [_ [_ [H _]]]; now elim H]. intros H. exfalso.
      revert H.
      apply (unpack_and_clear_not_blocked Field w me dir
               (fun buf => unpack_field buf (field_recv_se_ (tabs w) dir) dst)).
      intros buf. rewrite unpack_field_cells.
      apply for_each_take_not_blocked. }
    destruct (MPI_Wait (mpi w) (req_recv_ (field (pbval pmb)) dir 0 0))
      as [[[m rq] data]|] eqn:Ew.
    + rewrite (WaitReceive_Some Field me dir w pmb m rq data Hb Ew). cbn [bind].
      split; [|intros [_ [_ [_ [_ H]]]]; discriminate]. intros H. exfalso.
      revert H.
      match goal with |- context [block ?w1 me] =>
        apply (unpack_and_clear_not_blocked Field w1 me dir
                 (fun buf => unpack_field buf (field_recv_se_ (tabs w1) dir) dst))
      end.
      intros buf. rewrite unpack_field_cells.
      apply for_each_take_not_blocked.
    + unfold WaitReceive. rewrite (block_Ret _ _ _ Hb). cbn [bind get_chan].
      rewrite Ew. cbn [bind]. split; auto 10.
Qed.

(** ** Enrollment, then the call *)

(** X13: after a user function has been enrolled for a side without
    neighbor, ReceiveAndSet of the same channel calls that function on
    that side, whatever the constructor had stored there; the function of
    the other channel on that side is the one that was there before. *)
Theorem enrolled_function_is_the_one_called
  (w : Process) (me : nat) (dir : Z) (pmb : MeshBlock) (f : BValFunc) :
  0 <= dir <= 5 ->
  mesh_bcs w dir = 3 ->
  nth_error (pblock w) me = Some pmb ->
  NeighborBlock.gid (neighbor pmb dir 0 0) = -1 ->
  (exists w1 pmb1,
     EnrollFluidBoundaryFunction w me dir f = Ret w1
     /\ nth_error (pblock w1) me = Some pmb1
     /\ (forall dst, ReceiveAndSetFluidBoundary w1 me dir dst
                     = Ret (w1, call_fluid f pmb1 dst, true))
     /\ (forall dst, ReceiveAndSetFieldBoundary w1 me dir dst
                     = match Boundary_ (field (pbval pmb)) dir with
                       | None => Fault
                       | Some g => Ret (w1, call_field g pmb1 dst, true)
                       end))
  /\ (exists w1 pmb1,
        EnrollFieldBoundaryFunction w me dir f = Ret w1
        /\ nth_error (pblock w1) me = Some pmb1
        /\ (forall dst, ReceiveAndSetFieldBoundary w1 me dir dst
                        = Ret (w1, call_field f pmb1 dst, true))
        /\ (forall dst, ReceiveAndSetFluidBoundary w1 me dir dst
                        = match Boundary_ (fluid (pbval pmb)) dir with
                          | None => Fault
                          | Some g => Ret (w1, call_fluid g pmb1 dst, true)
                          end)).
Proof.
  intros Hd Hm Hb Hg.
  assert (Hlt : (me < length (pblock w))%nat) by (eapply nth_error_lt; eauto).
  split.
  - destruct (Enroll_cases Fluid "EnrollFluidBoundaryCondition" " not valid"
                w me dir f) as [_ [_ H]].
    destruct (H Hd Hm pmb Hb) as [_ E]. specialize (E Hg).
    unfold EnrollFluidBoundaryFunction. rewrite E.
    eexists; eexists. split; [reflexivity|]. split.
    { cbn. now apply nth_error_set_nth_eq. }
    split; intros dst.
    + unfold ReceiveAndSetFluidBoundary, block. cbn [pblock set_block].
      rewrite nth_error_set_nth_eq by exact Hlt. cbn [bind].
      change (neighbor (set_pbval pmb ?x)) with (neighbor pmb).
      rewrite Hg. cbn. unfold upd. now rewrite Z.eqb_refl.
    + unfold ReceiveAndSetFieldBoundary, block. cbn [pblock set_block].
      rewrite nth_error_set_nth_eq by exact Hlt. cbn [bind].
      change (neighbor (set_pbval pmb ?x)) with (neighbor pmb).
      rewrite Hg. cbn. reflexivity.
  - destruct (Enroll_cases Field "EnrollFieldBoundaryCondition" " is not valid"
                w me dir f) as [_ [_ H]].
    destruct (H Hd Hm pmb Hb) as [_ E]. specialize (E Hg).
    unfold EnrollFieldBoundaryFunction. rewrite E.
    eexists; eexists. split; [reflexivity|]. split.
    { cbn. now apply nth_error_set_nth_eq. }
    split; intros dst.
    + unfold ReceiveAndSetFieldBoundary, block. cbn [pblock set_block].
      rewrite nth_error_set_nth_eq by exact Hlt. cbn [bind].
      change (neighbor (set_pbval pmb ?x)) with (neighbor pmb).
      rewrite Hg. cbn. unfold upd. now rewrite Z.eqb_refl.
    + unfold ReceiveAndSetFluidBoundary, block. cbn [pblock set_block].
      rewrite nth_error_set_nth_eq by exact Hlt. cbn [bind].
      change (neighbor (set_pbval pmb ?x)) with (neighbor pmb).
      rewrite Hg. cbn. reflexivity.
Qed.

(** ** Waiting for sends *)

Lemma WaitSend_only_waits (c : chan) (me : nat) (dir : Z) (dirs : Z -> Prop)
  (w w' : Process) :
  dirs dir ->
  WaitSend c me dir w = Ret w' -> only_waits c me dirs w w'.
Proof.
  unfold WaitSend, only_waits. intros Hd E.
  apply bind_Ret_inv in E. destruct E as [pmb [Hb E]]. apply block_inv in Hb.
  destruct (_ && _); [|injection E as <-; apply same_except_refl].
  destruct (MPI_Wait _ _) as [[[m rq] data]|]; [|discriminate].
  assert (Hb1 : nth_error (pblock (set_mpi w m)) me = Some pmb) by exact Hb.
  rewrite (put_chan_Ret _ _ _ _ _ Hb1) in E. injection E as <-.
  eapply same_except_trans; [apply (same_except_set_mpi _ _ _ _ _ _ w m)|].
  apply same_except_put; try exact Hb1; try reflexivity.
  intros y u v Hy. cbn. apply upd3_outside.
  intros [-> [-> ->]]. apply Hy. auto.
Qed.

(** X14: in a build with MPI, after LoadAndSendFluidBoundaryBuffer has
    sent to a neighbor on another rank, WaitSendFluid for that direction
    waits on the request that this [MPI_Isend] returned, in the MPI state
    it left: it is held up when that wait does not complete, and otherwise
    returns with the MPI state of the wait, the request variable of the
    direction holding what the wait left in it, and everything else as
    the send left it. *)
Theorem wait_send_waits_on_the_request_of_the_send
  (w : Process) (me : nat) (B : MeshBlock) (d flag : Z) (src : Array) :
  MPI_PARALLEL = true ->
  0 <= NFLUID ->
  nth_error (pblock w) me = Some B ->
  NeighborBlock.gid (neighbor B d 0 0) <> -1 ->
  NeighborBlock.rank (neighbor B d 0 0) <> myrank ->
  NeighborBlock.rank (neighbor B d 0 0) <> -1 ->
  Z.of_nat (length (send_ (fluid (pbval B)) d)) = fluid_bufsize_ (tabs w) d ->
  NFLUID * range_count (fluid_send_se_ (tabs w) d)
    <= fluid_bufsize_ (tabs w) d ->
  exists w1 B1 m rq,
    LoadAndSendFluidBoundaryBuffer w me d src flag = Ret w1
    /\ nth_error (pblock w1) me = Some B1
    /\ MPI_Isend (mpi w)
         (fluid_values src (fluid_send_se_ (tabs w) d)
          ++ skipn (length (fluid_values src (fluid_send_se_ (tabs w) d)))
                   (send_ (fluid (pbval B)) d))
         (NeighborBlock.rank (neighbor B d 0 0))
         (CreateMPITag (NeighborBlock.lid (neighbor B d 0 0)) flag
            (oside d) tag_fluid 0 0)
       = (m, rq)
    /\ WaitSendFluid w1 me d
       = match MPI_Wait m rq with
         | None => Blocked
         | Some (m', rq', _) =>
             Ret (set_block (set_mpi w1 m') me
                    (set_pbval B1
                       (set_chan Fluid (pbval B1)
                          (set_req_send (fluid (pbval B1)) d 0 0 rq'))))
         end.
Proof.
  intros HM Hf HB Hg Hr Hr1 Hs Hc. apply Z.eqb_neq in Hg.
  unfold LoadAndSendFluidBoundaryBuffer.
  rewrite (block_Ret _ _ _ HB). cbn [bind]. rewrite Hg.
  rewrite (pack_fluid_prefix src _ (send_ (fluid (pbval B)) d) Hf)
    by (rewrite Hs; exact Hc).
  cbn [bind].
  destruct (pack_then_send_remote Fluid w me d flag B
              (fluid_values src (fluid_send_se_ (tabs w) d)
               ++ skipn (length (fluid_values src (fluid_send_se_ (tabs w) d)))
                        (send_ (fluid (pbval B)) d)) HM HB Hr)
    as [w1 [B1 [E [H1 [Hn H3]]]]].
  { cbn [bufsize]. rewrite length_app, length_skipn, Nat2Z.inj_add.
    generalize (length_fluid_values src (fluid_send_se_ (tabs w) d) Hf).
    lia. }
  exists w1, B1, (mpi w1), (req_send_ (fluid (pbval B1)) d 0 0).
  split; [exact E|]. split; [exact H1|]. split; [exact H3|].
  unfold WaitSendFluid, WaitSend. rewrite HM, (block_Ret _ _ _ H1).
  cbn [bind]. rewrite Hn.
  apply Z.eqb_neq in Hr, Hr1. rewrite Hr, Hr1. cbn [negb andb get_chan].
  destruct (MPI_Wait _ _) as [[[m' rq'] data]|]; [|reflexivity].
  assert (Hb1 : nth_error (pblock (set_mpi w1 m')) me = Some B1) by exact H1.
  now rewrite (put_chan_Ret _ _ _ _ _ Hb1).
Qed.

(** X15: WaitSendFluid and WaitSendField for direction [dir] write
    nothing but the MPI state and the send request [[dir][0][0]] of their
    channel in the calling block, which [MPI_Wait] receives by address;
    WaitSendEFlux writes nothing but the MPI state and eflux send requests
    [[y][0][0]] of the calling block.  Tables, buffers, flags, boundary
    functions, receive requests and the other channels are what they
    were. *)
Theorem wait_send_writes_its_request_only (w : Process) (me : nat) :
  (forall dir w', WaitSendFluid w me dir = Ret w' ->
                  only_waits Fluid me (fun y => y = dir) w w')
  /\ (forall dir w', WaitSendField w me dir = Ret w' ->
                     only_waits Field me (fun y => y = dir) w w')
  /\ (forall w', WaitSendEFlux w me = Ret w' ->
                 only_waits EFlux me (fun y => 0 <= y < 6) w w').
Proof.
  split; [|split].
  - intros dir w'. unfold WaitSendFluid. destruct MPI_PARALLEL.
    + now apply WaitSend_only_waits.
    + intros E. injection E as <-. apply same_except_refl.
  - intros dir w'. unfold WaitSendField. destruct MPI_PARALLEL.
    + now apply WaitSend_only_waits.
    + intros E. injection E as <-. apply same_except_refl.
  - intros w'. unfold WaitSendEFlux.
    destruct MPI_PARALLEL;
      [|intros E; injection E as <-; apply same_except_refl].
    intros E. apply bind_Ret_inv in E. destruct E as [pmb [_ E]].
    destruct (_ =? 1); [injection E as <-; apply same_except_refl|].
    unfold for_loop in E.
    set (Q := fun (_ : list Z) (s : Process) =>
                only_waits EFlux me (fun y => 0 <= y < 6) w s).
    change (Q ([] ++ zrange 0
                       ((if RegionSize.nx3 (block_size pmb) >? 1 then 6 else 4)
                        - 1)) w').
    apply (for_each_ret_acc Q) with (3 := E).
    + intros done x s s' Hx Hs Es. unfold Q in *.
      eapply same_except_trans; [exact Hs|].
      apply (WaitSend_only_waits EFlux me x _ s s'); [|exact Es].
      apply In_zrange in Hx. destruct (_ >? 1); lia.
    + apply same_except_refl.
Qed.

(** ** The receives that StartReceiving posts *)

Lemma post_loop_posts (c : chan) (flag : Z) (me : nat) (l : list Z)
  (w : Process) (pmb : MeshBlock) :
  nth_error (pblock w) me = Some pmb ->
  exists w' b',
    for_each l (PostReceive c flag me) w = Ret w'
    /\ mpi w' = receives_posted c flag (tabs w) pmb
                  (filter (remote_side pmb) l) (mpi w)
    /\ nth_error (pblock w') me = Some b'
    /\ forall c', send_ (get_chan c' (pbval b')) = send_ (get_chan c' (pbval pmb))
                  /\ recv_ (get_chan c' (pbval b')) = recv_ (get_chan c' (pbval pmb)).
Proof.
  intros Hb.
  destruct (@for_each_acc Z Process
    (fun done w' =>
       tabs w' = tabs w
       /\ mpi w' = receives_posted c flag (tabs w) pmb
                     (filter (remote_side pmb) done) (mpi w)
       /\ exists b', nth_error (pblock w') me = Some b'
            /\ neighbor b' = neighbor pmb /\ lid b' = lid pmb
            /\ forall c', send_ (get_chan c' (pbval b'))
                          = send_ (get_chan c' (pbval pmb))
                          /\ recv_ (get_chan c' (pbval b'))
                             = recv_ (get_chan c' (pbval pmb)))
    l (PostReceive c flag me)) with (done := @nil Z) (s := w)
    as [w' [E [_ [Hm [b' [Hb' [_ [_ Hc]]]]]]]].
  - intros done x w0 _ [Ht [Hm [b0 [Hb0 [Hn [Hl Hc]]]]]].
    unfold PostReceive. rewrite (block_Ret _ _ _ Hb0). cbn [bind].
    rewrite filter_app. unfold receives_posted. rewrite fold_left_app.
    fold (receives_posted c flag (tabs w) pmb (filter (remote_side pmb) done)
            (mpi w)).
    rewrite <- Hm. cbn [filter]. unfold remote_side. rewrite Hn, Hl, Ht.
    destruct (_ && _).
    + cbn [fold_left].
      destruct (MPI_Irecv _ _ _ _) as [m rq].
      rewrite (@put_chan_Ret (set_mpi w0 m) me c _ b0 Hb0).
      eexists; split; [reflexivity|]. split; [exact Ht|].
      split; [reflexivity|].
      eexists. split.
      { cbn. apply nth_error_set_nth_eq. eapply nth_error_lt; eauto. }
      split; [exact Hn|]. split; [exact Hl|].
      intros c'. cbn [pbval set_pbval].
      destruct (Hc c') as [S R]. rewrite <- S, <- R.
      destruct c, c'; cbn; auto.
    + cbn [fold_left]. exists w0. split; [reflexivity|].
      split; [exact Ht|]. split; [reflexivity|].
      exists b0. auto.
  - split; [reflexivity|]. split; [reflexivity|].
    exists pmb. auto.
  - exists w', b'. auto.
Qed.

(** X16: in a build with MPI, StartReceivingFluid and StartReceivingField
    post one receive for each direction in which the block has a neighbor
    on another rank, in the order of the directions 0 to 5 and for no other
    direction: each with the element count of the direction's table entry,
    the rank of the neighbor as source, and the tag made from the block's
    own local id, the caller's [flag] and the direction.  The send and
    receive buffers of the block are left as they were. *)
Theorem start_receiving_posts_for_remote_sides
  (w : Process) (me : nat) (flag : Z) (pmb : MeshBlock) :
  MPI_PARALLEL = true ->
  nth_error (pblock w) me = Some pmb ->
  (exists w' b',
     StartReceivingFluid w me flag = Ret w'
     /\ mpi w' = receives_posted Fluid flag (tabs w) pmb
                   (filter (remote_side pmb) (zrange 0 5)) (mpi w)
     /\ nth_error (pblock w') me = Some b'
     /\ forall c, send_ (get_chan c (pbval b')) = send_ (get_chan c (pbval pmb))
                  /\ recv_ (get_chan c (pbval b')) = recv_ (get_chan c (pbval pmb)))
  /\ (exists w' b',
        StartReceivingField w me flag = Ret w'
        /\ mpi w' = receives_posted Field flag (tabs w) pmb
                      (filter (remote_side pmb) (zrange 0 5)) (mpi w)
        /\ nth_error (pblock w') me = Some b'
        /\ forall c, send_ (get_chan c (pbval b')) = send_ (get_chan c (pbval pmb))
                     /\ recv_ (get_chan c (pbval b'))
                        = recv_ (get_chan c (pbval pmb))).
Proof.
  intros HM Hb. unfold StartReceivingFluid, StartReceivingField, for_loop.
  rewrite HM. split; now apply post_loop_posts.
Qed.

End Athena.

(** * A concrete configuration

    Two blocks of 4 x 2 cells with two ghost layers and one fluid
    variable, side by side along x1 on one rank, in a build without MPI:
    block [ex_B] (gid 0) has block [ex_A] (gid 1) as its outer-x1 neighbor,
    and [ex_A] has [ex_B] as its inner-x1 neighbor; every other side is a
    physical boundary. *)

Definition ex_tabs : Tables := the_tables 2 1 true 4 2 1.

Definition ex_chan (sz : Z -> Z) : Channel Z unit :=
  mkChannel Z unit (fun _ => Some (UserFunction 0))
    (fun d => repeat 0 (Z.to_nat (sz d)))
    (fun d => repeat 0 (Z.to_nat (sz d)))
    (fun _ _ _ => false) (fun _ _ _ => tt) (fun _ _ _ => tt).

Definition ex_bv : BoundaryValues Z unit :=
  mkBV Z unit (ex_chan (fluid_bufsize_ ex_tabs))
       (ex_chan (field_bufsize_ ex_tabs))
       (ex_chan (eflux_bufsize_ ex_tabs)).

Definition ex_block (g side other : Z) : MeshBlock Z unit :=
  mkMeshBlock Z unit g g 2 5 2 3 0 0 (RegionSize.mk 4 2 1) (fun _ => 2)
    (fun d _ _ => if d =? side then NeighborBlock.mk other other 0
                  else NeighborBlock.mk (-1) (-1) (-1))
    ex_bv.

Definition ex_B : MeshBlock Z unit := ex_block 0 outer_x1 1.
Definition ex_A : MeshBlock Z unit := ex_block 1 inner_x1 0.

Definition ex_w : Process Z unit unit :=
  mkProcess Z unit unit ex_tabs (fun _ => 2) [ex_B; ex_A] tt.

Definition ex_array (c : Z) : Array Z :=
  fun n k j i => c + 1000 * n + 100 * k + 10 * j + i.

Definition ex_field (c : Z) : InterfaceField Z :=
  mkIF Z (ex_array (c + 10000)) (ex_array (c + 20000)) (ex_array (c + 30000)).

Definition ex_isend (m : unit) (buf : list Z) (rank tag : Z) : unit * unit :=
  (tt, tt).
Definition ex_irecv (m : unit) (n rank tag : Z) : unit * unit := (tt, tt).
Definition ex_wait (m : unit) (rq : unit) : option (unit * unit * list Z) :=
  None.
Definition ex_tag (a b c d e f : Z) : Z := 0.
Definition ex_call_fluid (f : BValFunc) (b : MeshBlock Z unit) (a : Array Z)
  : Array Z := a.
Definition ex_call_field (f : BValFunc) (b : MeshBlock Z unit)
  (a : InterfaceField Z) : InterfaceField Z := a.
Definition ex_call_eflux (f : BValFunc) (b : MeshBlock Z unit)
  (a c : InterfaceField Z) : InterfaceField Z * InterfaceField Z := (a, c).

(** ** C1 *)

Lemma bufsize_opposite_side_example :
  fluid_bufsize_ ex_tabs outer_x1 = fluid_bufsize_ ex_tabs (oside outer_x1)
  /\ field_bufsize_ ex_tabs outer_x1 = field_bufsize_ ex_tabs (oside outer_x1)
  /\ eflux_bufsize_ ex_tabs outer_x1 = eflux_bufsize_ ex_tabs (oside outer_x1).
Proof.
  apply (bufsize_opposite_side 2 1 true 4 2 1 outer_x1).
  unfold outer_x1. lia.
Defined.

(** ** C2 *)

Lemma fluid_round_trip_example :
  exists w1 w2 dst',
    LoadAndSendFluidBoundaryBuffer 1 Z false 0 unit unit ex_isend ex_tag 0 1 2
      ex_w 0 outer_x1 (ex_array 0) 0 = Ret w1
    /\ ReceiveAndSetFluidBoundary 1 Z false 0 unit unit ex_wait ex_call_fluid
         w1 1 inner_x1 (ex_array 5000) = Ret (w2, dst', true)
    /\ dst' 0 0 3 1 = ex_array 0 0 0 3 5.
Proof.
  destruct (fluid_round_trip 2 1 true Z false 0 unit unit ex_isend ex_wait
              ex_tag 0 1 2 ex_call_fluid ex_w 0 1 ex_B ex_A outer_x1 0 4 2 1
              (ex_array 0) (ex_array 5000))
    as [w1 [w2 [dst' [A2 [E1 [E2 [_ [H _]]]]]]]];
    try reflexivity; try lia; try (unfold outer_x1; lia);
    try (vm_compute; discriminate).
  exists w1, w2, dst'. split; [exact E1|]. split; [exact E2|].
  apply (H 0 0 3 5); vm_compute; split; congruence.
Defined.

(** ** C3 *)


(** ** C4 *)

(** The pack block of the outer-x1 side of [ex_B] writes the three flux
    values of its edge segment and then the three weights; value/weight
    pairs side by side would give another buffer. *)
Lemma eflux_pairs_not_adjacent :
  pack_eflux Z unit 0 1 1 0 0 1 ex_B (ex_field 0) (ex_field 500000) outer_x1
    (repeat 0 6)
  = Ret (6%nat, [20025; 20035; 20045; 520025; 520035; 520045])
  /\ adjacent_pairs Z
       (flat_map (seg_fluxes Z (ex_field 0))
          (eflux_segments Z unit 0 1 1 0 0 1 ex_B outer_x1
             (eflux_send_at Z unit ex_B outer_x1)))
       (flat_map (seg_weights Z (ex_field 500000))
          (eflux_segments Z unit 0 1 1 0 0 1 ex_B outer_x1
             (eflux_send_at Z unit ex_B outer_x1)))
     = [20025; 520025; 20035; 520035; 20045; 520045].
Proof. split; reflexivity. Qed.

(** A block of rank 0 whose outer-x1 neighbor (local id 3) lives on rank
    1, in a build with MPI.  The state of the message-passing layer is the
    list of the calls made so far; a request is the number of the call that
    made it, and 0 once a wait on it has completed. *)

Inductive ex_call : Type :=
| Sent (buf : list Z) (rank tag : Z)
| Posted (count rank tag : Z)
| Waited (rq : nat).

Definition far_isend (m : list ex_call) (buf : list Z) (rank tag : Z)
  : list ex_call * nat := (m ++ [Sent buf rank tag], S (length m)).
Definition far_tag (lid flag dir phys a b : Z) : Z :=
  1000 * lid + 100 * flag + 10 * dir + phys.

Definition far_chan (bc : option BValFunc) (sz : Z -> Z) : Channel Z nat :=
  mkChannel Z nat (fun _ => bc)
    (fun d => repeat 0 (Z.to_nat (sz d)))
    (fun d => repeat 0 (Z.to_nat (sz d)))
    (fun _ _ _ => false) (fun _ _ _ => 7%nat) (fun _ _ _ => 7%nat).

Definition far_block_with (bc : option BValFunc) : MeshBlock Z nat :=
  mkMeshBlock Z nat 0 5 2 5 2 3 0 0 (RegionSize.mk 4 2 1) (fun _ => 2)
    (fun d _ _ => if d =? outer_x1 then NeighborBlock.mk 8 3 1
                  else NeighborBlock.mk (-1) (-1) (-1))
    (mkBV Z nat (far_chan bc (fluid_bufsize_ ex_tabs))
          (far_chan bc (field_bufsize_ ex_tabs))
          (far_chan bc (eflux_bufsize_ ex_tabs))).

(** The block with a boundary function on its physical sides, and the
    process that holds it. *)
Definition far_A : MeshBlock Z nat := far_block_with (Some (UserFunction 0)).

Definition far_w_A : Process Z (list ex_call) nat :=
  mkProcess Z (list ex_call) nat ex_tabs (fun _ => 2) [far_A] [].

Definition far_call_eflux (f : BValFunc) (b : MeshBlock Z nat)
  (a c : InterfaceField Z) : InterfaceField Z * InterfaceField Z := (a, c).

(** A wait that completes with the edge fluxes that a block of the other
    rank packs for its inner-x1 side. *)
Definition far_wait_flux (m : list ex_call) (rq : nat)
  : option (list ex_call * nat * list Z) :=
  Some (m ++ [Waited rq], O,
        flux_run_then_weight_run Z nat 0 1 1 0 0 1 far_A
          (ex_field 0) (ex_field 500000) inner_x1).

Lemma eflux_runs_delivered_example :
  (exists w1 w2 dst',
     LoadAndSendEFluxBoundaryBuffer Z false 0 unit unit ex_isend ex_tag 0 1 2
       0 1 1 0 0 1 ex_w 0 (ex_field 0) (ex_field 500000) 0 = Ret w1
     /\ ReceiveAndSetEFluxBoundary Z false 0 unit unit ex_wait ex_call_eflux
          0 1 1 0 0 1 w1 1 (ex_field 7000) (ex_field 9000)
        = Ret (w2, dst', true)
     /\ map (read Z dst')
            (eflux_recv_locs Z unit 0 1 1 0 0 1 ex_A inner_x1)
        = [20025; 20035; 20045; 520025; 520035; 520045])
  /\ (exists w1 B1 m m',
        LoadAndSendEFluxBoundaryBuffer Z true 0 (list ex_call) nat far_isend
          far_tag 0 1 2 0 1 1 0 0 1 far_w_A 0 (ex_field 0) (ex_field 500000) 6
        = Ret w1
        /\ nth_error (pblock Z (list ex_call) nat w1) 0 = Some B1
        /\ far_isend m [20025; 20035; 20045; 520025; 520035; 520045] 1 3602
           = (m', req_send_ Z nat (eflux Z nat (pbval Z nat B1)) outer_x1 0 0))
  /\ (exists w2 dst',
        ReceiveAndSetEFluxBoundary Z true 0 (list ex_call) nat far_wait_flux
          far_call_eflux 0 1 1 0 0 1 far_w_A 0 (ex_field 7000) (ex_field 9000)
        = Ret (w2, dst', true)
        /\ map (read Z dst')
               (eflux_recv_locs Z nat 0 1 1 0 0 1 far_A outer_x1)
           = [20022; 20032; 20042; 520022; 520032; 520042]).
Proof.
  assert (Hsame := eflux_runs_delivered_in_order 2 1 true Z false 0 unit unit
                     ex_isend ex_wait ex_tag 0 1 2 ex_call_eflux 0 1 1 0 0 1
                     4 2 1 eq_refl ltac:(lia) ltac:(lia) ltac:(lia)).
  assert (Hsend := eflux_runs_delivered_in_order 2 1 true Z true 0
                     (list ex_call) nat far_isend far_wait_flux far_tag 0 1 2
                     far_call_eflux 0 1 1 0 0 1
                     4 2 1 eq_refl ltac:(lia) ltac:(lia) ltac:(lia)).
  destruct Hsame as [_ [_ [_ [Hsame _]]]].
  destruct Hsend as [_ [Hsend [_ [_ Hrecv]]]].
  split; [|split].
  - destruct (Hsame ex_w 0%nat 1%nat ex_B ex_A outer_x1 0
                (ex_field 0) (ex_field 500000) (ex_field 7000) (ex_field 9000)
                eq_refl eq_refl eq_refl)
      as [w1 [w2 [dst' [A2 [E1 [E2 [H _]]]]]]].
    + repeat split; reflexivity.
    + repeat split; reflexivity.
    + right. left. reflexivity.
    + vm_compute. discriminate.
    + reflexivity.
    + reflexivity.
    + intros e He Hg. cbn in He.
      destruct He as [<-|[<-|[<-|[<-|[]]]]]; try (now elim Hg).
      split; [reflexivity|]. intros _. exists 1%nat, ex_A.
      repeat split; reflexivity.
    + intros e He. cbn in He.
      destruct He as [<-|[<-|[<-|[<-|[]]]]]; vm_compute;
        first [congruence | apply le_n].
    + split; [left; reflexivity|]. split; [vm_compute; discriminate|].
      split; [vm_compute; congruence|].
      split; [vm_compute; congruence|]. split; [vm_compute; congruence|].
      intros e f pmb' fd wd l _ _ _ _. reflexivity.
    + discriminate.
    + discriminate.
    + exists w1, w2, dst'. split; [exact E1|]. split; [exact E2|]. exact H.
  - destruct (Hsend far_w_A 0%nat far_A 6 (ex_field 0) (ex_field 500000)
                eq_refl eq_refl)
      as [w1 [B1 [E1 [Hb1 H]]]].
    + repeat split; reflexivity.
    + intros e He Hg. cbn in He.
      destruct He as [<-|[<-|[<-|[<-|[]]]]]; try (now elim Hg).
      split; [reflexivity|]. intros Hr. vm_compute in Hr. discriminate Hr.
    + destruct (H outer_x1 ltac:(right; left; reflexivity)
                  ltac:(vm_compute; discriminate)) as [_ [_ Hm]].
      destruct (Hm ltac:(vm_compute; discriminate) eq_refl) as [m [m' EI]].
      exists w1, B1, m, m'. split; [exact E1|]. split; [exact Hb1|].
      exact EI.
  - apply (Hrecv far_w_A 0%nat far_A far_A inner_x1
             (ex_field 0) (ex_field 500000) (ex_field 7000) (ex_field 9000)
             eq_refl).
    + repeat split; reflexivity.
    + repeat split; reflexivity.
    + left. reflexivity.
    + intros e He. cbn in He.
      destruct He as [<-|[<-|[<-|[<-|[]]]]]; vm_compute;
        first [congruence | apply le_n].
    + split; [right; left; reflexivity|]. split; [vm_compute; discriminate|].
      split; [vm_compute; congruence|].
      split; [vm_compute; congruence|]. split; [vm_compute; congruence|].
      intros e f pmb' fd wd l _ _ _ _. reflexivity.
    + reflexivity.
    + vm_compute. discriminate.
    + intros m rq. discriminate.
    + intros m m' rq data E. injection E as _ _ <-. reflexivity.
Defined.

(** ** C5 *)

(** At an outer face the aligned component uses the plain slab itself. *)
Lemma aligned_range_not_shifted_at_outer_face :
  normal_range outer_x1 (field_send_se_ ex_tabs outer_x1 x1face) = (4, 5)
  /\ plain_slab ex_tabs outer_x1 = (4, 5)
  /\ shift_inward outer_x1 1 (plain_slab ex_tabs outer_x1) = (3, 4).
Proof. repeat split; reflexivity. Qed.

Lemma field_send_normal_ranges_example :
  normal_range inner_x1 (field_send_se_ ex_tabs inner_x1 x1face)
  = shift_inward inner_x1 1 (plain_slab ex_tabs inner_x1).
Proof.
  apply (field_send_normal_ranges 2 1 true 4 2 1 inner_x1 eq_refl).
  unfold inner_x1. lia.
Defined.

(** ** C6 *)

Definition ex_coded (nx2 : Z) (codes : Z -> Z) : MeshBlock Z unit :=
  mkMeshBlock Z unit 0 0 2 5 0 0 0 0 (RegionSize.mk 4 nx2 1) codes
    (fun _ _ _ => NeighborBlock.mk (-1) (-1) (-1)) ex_bv.

(** In a one-dimensional block the code of an x2 side is not examined:
    construction succeeds with a code that is not recognized. *)
Lemma unexamined_code_is_accepted :
  recognized 7 = false
  /\ exists bv,
       BoundaryValues_new true Z unit 0 (the_tables 2 1 true 4 1 1)
         (ex_coded 1 (fun d => if d =? inner_x2 then 7 else 2)) ex_bv
       = Ret bv.
Proof. split; [reflexivity|]. eexists. reflexivity. Qed.

Lemma constructor_codes_example :
  BoundaryValues_new true Z unit 0 ex_tabs
    (ex_coded 2 (fun d => if d =? inner_x2 then 7 else 2)) ex_bv
  = Throw (invalid_code_message inner_x2 7).
Proof.
  apply (constructor_codes true Z unit 0 ex_tabs
           (ex_coded 2 (fun d => if d =? inner_x2 then 7 else 2)) ex_bv).
  intros i Hi.
  assert (H : i = 0 \/ i = 1 \/ i = 2 \/ i = 3 \/ i = 4 \/ i = 5) by lia.
  destruct H as [-> | [-> | [-> | [-> | [-> | ->]]]]]; vm_compute;
    repeat split; congruence.
Defined.

(** ** C7 *)

(** Enrollment on a side backed by a neighbor returns without an error
    and without effect. *)
Lemma enrollment_with_neighbor_is_ignored :
  NeighborBlock.gid (neighbor Z unit ex_B outer_x1 0 0) = 1
  /\ EnrollFluidBoundaryFunction Z unit unit
       (mkProcess Z unit unit ex_tabs (fun _ => 3) [ex_B; ex_A] tt)
       0 outer_x1 (UserFunction 1)
     = Ret (mkProcess Z unit unit ex_tabs (fun _ => 3) [ex_B; ex_A] tt).
Proof. split; reflexivity. Qed.

(** ** C8 *)





(** ** C9 *)

Definition ex_raised : Process Z unit unit :=
  mkProcess Z unit unit ex_tabs (fun _ => 2)
    [mkMeshBlock Z unit 0 0 2 5 2 3 0 0 (RegionSize.mk 4 2 1) (fun _ => 2)
       (fun d _ _ => if d =? outer_x1 then NeighborBlock.mk 1 1 1
                     else NeighborBlock.mk (-1) (-1) (-1))
       (mkBV Z unit
          (mkChannel Z unit (fun _ => None) (fun _ => []) (fun _ => [])
             (fun _ _ _ => true) (fun _ _ _ => tt) (fun _ _ _ => tt))
          (ex_chan (field_bufsize_ ex_tabs))
          (ex_chan (eflux_bufsize_ ex_tabs)))] tt.

(** A fluid flag that is raised stays raised when StartReceivingFluid
    posts the receive for its direction. *)
Lemma fluid_flag_survives_start_receiving :
  exists w',
    StartReceivingFluid Z true 0 unit unit ex_irecv ex_tag 0 1 2 ex_raised 0 0
    = Ret w'
    /\ map (fun b => flag_ Z unit (fluid Z unit (pbval Z unit b)) outer_x1 0 0)
           (pblock Z unit unit w') = [true].
Proof. eexists. split; reflexivity. Qed.

Lemma start_receiving_flags_example :
  exists w',
    StartReceivingFluid Z true 0 unit unit ex_irecv ex_tag 0 1 2 ex_raised 0 0
    = Ret w'
    /\ all_flags Z unit unit w' = all_flags Z unit unit ex_raised.
Proof.
  destruct (start_receiving_flags Z true 0 unit unit ex_irecv ex_tag 0 1 2
              ex_raised 0 0 _ eq_refl) as [H _].
  exact H.
Defined.

(** * The further properties on concrete configurations *)

(** ** Index rows *)

Lemma fluid_recv_row_is_moved_send_row_example :
  fluid_recv_se_ ex_tabs (oside outer_x1)
  = move_along outer_x1 (- outward outer_x1 * cells_along outer_x1 4 2 1)
      (fluid_send_se_ ex_tabs outer_x1).
Proof.
  apply (fluid_recv_row_is_moved_send_row 2 1 true 4 2 1 outer_x1);
    unfold outer_x1; lia.
Defined.

Lemma field_recv_row_is_moved_send_row_example :
  field_recv_se_ ex_tabs (oside inner_x2) x2face
  = move_along inner_x2 (- outward inner_x2 * cells_along inner_x2 4 2 1)
      (field_send_se_ ex_tabs inner_x2 x2face).
Proof.
  apply (field_recv_row_is_moved_send_row 2 1 true 4 2 1 inner_x2 x2face);
    try reflexivity; unfold inner_x2; lia.
Defined.

Lemma recv_row_is_send_row_moved_outward_example :
  field_recv_se_ ex_tabs outer_x1 x1face
  = move_along outer_x1 (outward outer_x1 * (2 + 1))
      (field_send_se_ ex_tabs outer_x1 x1face).
Proof.
  refine (proj2 (recv_row_is_send_row_moved_outward 2 1 true 4 2 1 outer_x1 _)
            eq_refl x1face).
  unfold outer_x1. lia.
Defined.

Lemma table_size_buffers_are_never_overrun_example :
  exists p buf',
    pack_fluid 1 Z (ex_array 0) (fluid_send_se_ ex_tabs inner_x2) (repeat 0 16)
    = Ret (p, buf')
    /\ length buf' = 16%nat.
Proof.
  destruct (table_size_buffers_are_never_overrun 2 1 true Z 4 2 1 inner_x2
              ltac:(lia) ltac:(lia) ltac:(lia) ltac:(lia) ltac:(lia)
              ltac:(unfold inner_x2; lia))
    as [H _].
  destruct (H ltac:(vm_compute; split; discriminate)
              (ex_array 0) (ex_array 0) (repeat 0 16)
              ltac:(vm_compute; reflexivity)) as [H1 _].
  exact H1.
Defined.

(** ** Round trip of the field channel *)

Lemma field_round_trip_example :
  exists w1 w2 dst',
    LoadAndSendFieldBoundaryBuffer Z false 0 unit unit ex_isend ex_tag 0 1 2
      ex_w 0 outer_x1 (ex_field 0) 0 = Ret w1
    /\ ReceiveAndSetFieldBoundary Z false 0 unit unit ex_wait ex_call_field
         w1 1 inner_x1 (ex_field 5000) = Ret (w2, dst', true)
    /\ face_of Z dst' x2face 0 0 4 1 = face_of Z (ex_field 0) x2face 0 0 4 5.
Proof.
  destruct (field_round_trip 2 1 true Z false 0 unit unit ex_isend ex_wait
              ex_tag 0 1 2 ex_call_field ex_w 0 1 ex_B ex_A outer_x1 0 4 2 1
              (ex_field 0) (ex_field 5000) eq_refl
              ltac:(lia) ltac:(lia) ltac:(lia) ltac:(lia)
              ltac:(unfold outer_x1; lia) eq_refl eq_refl eq_refl
              ltac:(vm_compute; discriminate) eq_refl eq_refl
              ltac:(vm_compute; discriminate)
              ltac:(vm_compute; reflexivity) ltac:(vm_compute; reflexivity))
    as [w1 [w2 [dst' [A2 [E1 [E2 [H _]]]]]]].
  exists w1, w2, dst'. split; [exact E1|]. split; [exact E2|].
  apply (H x2face 0 4 5); vm_compute; split; congruence.
Defined.

(** ** What a receive leaves alone *)

Lemma unpack_writes_receive_row_only_example :
  exists w' dst',
    ReceiveAndSetFluidBoundary 1 Z false 0 unit unit ex_wait ex_call_fluid
      ex_w 1 inner_x1 (ex_array 5000) = Ret (w', dst', true)
    /\ dst' 0 0 2 1 = 0
    /\ dst' 0 0 2 2 = ex_array 5000 0 0 2 2.
Proof.
  eexists. eexists. split; [reflexivity|]. split; [reflexivity|].
  eapply (proj1 (unpack_writes_receive_row_only 1 Z false 0 unit unit ex_wait
                   ex_call_fluid ex_call_field ex_w 1 inner_x1 ex_A eq_refl _)
            (ex_array 5000)).
  - reflexivity.
  - vm_compute. intros [_ [_ [_ [_ H]]]]. now apply H.
  Unshelve. vm_compute. discriminate.
Defined.

Lemma receive_leaves_active_zone_alone_example :
  exists w' dst',
    ReceiveAndSetFieldBoundary Z false 0 unit unit ex_wait ex_call_field
      ex_w 1 inner_x1 (ex_field 5000) = Ret (w', dst', true)
    /\ face_of Z dst' x1face 0 0 3 2 = face_of Z (ex_field 5000) x1face 0 0 3 2.
Proof.
  eexists. eexists. split; [reflexivity|].
  eapply (proj2 (receive_leaves_active_zone_alone 2 1 true Z false 0 unit unit
                   ex_wait ex_call_fluid ex_call_field ex_w 1 inner_x1 ex_A
                   4 2 1 _ eq_refl eq_refl _)
            eq_refl (ex_field 5000)).
  - reflexivity.
  - vm_compute. repeat split; congruence.
  Unshelve.
  + unfold inner_x1. lia.
  + vm_compute. discriminate.
Defined.

(** ** Construction *)

(** Storage in which every flag is raised and no buffer exists. *)
Definition ex_raw : BoundaryValues Z unit :=
  let ch := mkChannel Z unit (fun _ => None) (fun _ => []) (fun _ => [])
              (fun _ _ _ => true) (fun _ _ _ => tt) (fun _ _ _ => tt) in
  mkBV Z unit ch ch ch.

Lemma constructor_allocates_and_clears_example :
  exists bv,
    BoundaryValues_new true Z unit 0 ex_tabs (ex_coded 2 (fun _ => 2)) ex_raw
    = Ret bv
    /\ flag_ Z unit (field Z unit bv) outer_x3 1 1 = false
    /\ Z.of_nat (length (recv_ Z unit (fluid Z unit bv) inner_x2))
       = fluid_bufsize_ ex_tabs inner_x2
    /\ send_ Z unit (eflux Z unit bv) inner_x3 = [].
Proof.
  destruct (BoundaryValues_new true Z unit 0 ex_tabs
              (ex_coded 2 (fun _ => 2)) ex_raw) as [bv| | |] eqn:E;
    try (vm_compute in E; discriminate E).
  exists bv. split; [reflexivity|].
  destruct (constructor_allocates_and_clears true Z unit 0 ex_tabs
              (ex_coded 2 (fun _ => 2)) ex_raw bv E) as [HF [HL HO]].
  split; [|split].
  - apply (HF outer_x3 1 1); try reflexivity; unfold outer_x3; lia.
  - apply (HL inner_x2). vm_compute. split; congruence.
  - apply (HO inner_x3 EFlux). vm_compute. intros [_ H]. discriminate H.
Defined.

(** A side with the periodic code and no neighbor: the constructor stores
    no function for it, and the first ReceiveAndSet calls through null. *)
Lemma boundary_call_after_construction_example :
  exists bv,
    BoundaryValues_new true Z unit 0 ex_tabs
      (ex_coded 2 (fun d => if d =? inner_x1 then 4 else 1)) ex_raw
    = Ret bv
    /\ ReceiveAndSetFluidBoundary 1 Z false 0 unit unit ex_wait ex_call_fluid
         (mkProcess Z unit unit ex_tabs (fun _ => 2)
            [set_pbval Z unit
               (ex_coded 2 (fun d => if d =? inner_x1 then 4 else 1)) bv] tt)
         0 inner_x1 (ex_array 0)
       = Fault.
Proof.
  destruct (BoundaryValues_new true Z unit 0 ex_tabs
              (ex_coded 2 (fun d => if d =? inner_x1 then 4 else 1)) ex_raw)
    as [bv| | |] eqn:E; try (vm_compute in E; discriminate E).
  exists bv. split; [reflexivity|].
  exact (proj1 (boundary_call_after_construction 1 true Z false 0 unit unit
                  ex_wait ex_call_fluid ex_call_field 0 ex_tabs
                  (ex_coded 2 (fun d => if d =? inner_x1 then 4 else 1))
                  ex_raw bv
                  (mkProcess Z unit unit ex_tabs (fun _ => 2)
                     [set_pbval Z unit
                        (ex_coded 2 (fun d => if d =? inner_x1 then 4 else 1))
                        bv] tt)
                  0%nat inner_x1 E eq_refl (or_introl eq_refl) eq_refl
                  (ex_array 0) (ex_field 0))).
Defined.

(** ** A neighbor on another rank

    The block of rank 0 whose outer-x1 neighbor lives on rank 1, without
    boundary functions. *)

Definition far_irecv (m : list ex_call) (n rank tag : Z)
  : list ex_call * nat := (m ++ [Posted n rank tag], S (length m)).
(** A wait that completes, a receive bringing the values 100, 101, ... *)
Definition far_wait (m : list ex_call) (rq : nat)
  : option (list ex_call * nat * list Z) :=
  Some (m ++ [Waited rq], O, map Z.of_nat (seq 100 18)).
(** A wait that does not complete. *)
Definition far_never (m : list ex_call) (rq : nat)
  : option (list ex_call * nat * list Z) := None.

Definition far_block : MeshBlock Z nat := far_block_with None.

Definition far_w : Process Z (list ex_call) nat :=
  mkProcess Z (list ex_call) nat ex_tabs (fun _ => 2) [far_block] [].

Definition far_call_fluid (f : BValFunc) (b : MeshBlock Z nat) (a : Array Z)
  : Array Z := a.
Definition far_call_field (f : BValFunc) (b : MeshBlock Z nat)
  (a : InterfaceField Z) : InterfaceField Z := a.

Lemma remote_send_hands_packed_row_to_mpi_example :
  exists w1,
    LoadAndSendFluidBoundaryBuffer 1 Z true 0 (list ex_call) nat far_isend
      far_tag 0 1 2 far_w 0 outer_x1 (ex_array 0) 6 = Ret w1
    /\ mpi Z (list ex_call) nat w1 = [Sent [24; 25; 34; 35] 1 3600].
Proof.
  destruct (proj1 (remote_send_hands_packed_row_to_mpi 1 Z true 0
                     (list ex_call) nat far_isend far_tag 0 1 2
                     far_w 0 far_block outer_x1 6 eq_refl eq_refl
                     ltac:(vm_compute; discriminate)
                     ltac:(vm_compute; discriminate))
              (ex_array 0) ltac:(lia) eq_refl ltac:(vm_compute; congruence))
    as [w1 [B1 [E [_ H]]]].
  exists w1. split; [exact E|].
  exact (eq_sym (f_equal fst H)).
Defined.

Lemma remote_receive_sets_row_from_message_example :
  exists w2 dst',
    ReceiveAndSetFluidBoundary 1 Z true 0 (list ex_call) nat far_wait
      far_call_fluid far_w 0 outer_x1 (ex_array 5000) = Ret (w2, dst', true)
    /\ mpi Z (list ex_call) nat w2 = [Waited 7]
    /\ map (at4 Z dst') (points4 1 (fluid_recv_se_ ex_tabs outer_x1))
       = [100; 101; 102; 103].
Proof.
  destruct (proj1 (remote_receive_sets_row_from_message 1 Z true 0
                     (list ex_call) nat far_wait far_call_fluid far_call_field
                     far_w 0 far_block outer_x1 [Waited 7] O
                     (map Z.of_nat (seq 100 18)) eq_refl eq_refl
                     ltac:(vm_compute; discriminate)
                     ltac:(vm_compute; discriminate))
              ltac:(lia) eq_refl eq_refl
              ltac:(vm_compute; repeat constructor)
              ltac:(vm_compute; repeat constructor) (ex_array 5000))
    as [w2 [dst' [A2 [E [Hm [H _]]]]]].
  exists w2, dst'. split; [exact E|]. split; [exact Hm | exact H].
Defined.

Lemma receive_blocks_exactly_when_wait_does_example :
  ReceiveAndSetFieldBoundary Z true 0 (list ex_call) nat far_never
    far_call_field far_w 0 outer_x1 (ex_field 0) = Blocked.
Proof.
  apply (proj2 (receive_blocks_exactly_when_wait_does 1 Z true 0
                  (list ex_call) nat far_never far_call_fluid far_call_field
                  far_w 0 outer_x1 far_block eq_refl)).
  repeat split; try reflexivity; vm_compute; discriminate.
Defined.

Lemma wait_send_waits_on_the_request_of_the_send_example :
  exists w1 w2,
    LoadAndSendFluidBoundaryBuffer 1 Z true 0 (list ex_call) nat far_isend
      far_tag 0 1 2 far_w 0 outer_x1 (ex_array 0) 6 = Ret w1
    /\ WaitSendFluid Z true 0 (list ex_call) nat far_wait w1 0 outer_x1
       = Ret w2
    /\ mpi Z (list ex_call) nat w2 = [Sent [24; 25; 34; 35] 1 3600; Waited 1]
    /\ map (fun b => req_send_ Z nat (fluid Z nat (pbval Z nat b)) outer_x1 0 0)
           (pblock Z (list ex_call) nat w1) = [1%nat]
    /\ map (fun b => req_send_ Z nat (fluid Z nat (pbval Z nat b)) outer_x1 0 0)
           (pblock Z (list ex_call) nat w2) = [O].
Proof.
  destruct (wait_send_waits_on_the_request_of_the_send 1 Z true 0
              (list ex_call) nat far_isend far_wait far_tag 0 1 2
              far_w 0 far_block outer_x1 6 (ex_array 0) eq_refl
              ltac:(lia) eq_refl
              ltac:(vm_compute; discriminate) ltac:(vm_compute; discriminate)
              ltac:(vm_compute; discriminate) eq_refl
              ltac:(vm_compute; congruence))
    as [w1 [B1 [m [rq [E [Hb [Hs Hw]]]]]]].
  exists w1. eexists. split; [exact E|]. split; [exact Hw|].
  vm_compute in E. injection E as <-.
  vm_compute in Hb. injection Hb as <-.
  vm_compute in Hs. injection Hs as <- <-.
  repeat split; reflexivity.
Defined.

Lemma start_receiving_posts_for_remote_sides_example :
  exists w',
    StartReceivingFluid Z true 0 (list ex_call) nat far_irecv far_tag 0 1 2
      far_w 0 6 = Ret w'
    /\ mpi Z (list ex_call) nat w' = [Posted 4 1 5610].
Proof.
  destruct (proj1 (start_receiving_posts_for_remote_sides Z true 0
                     (list ex_call) nat far_irecv far_tag 0 1 2
                     far_w 0 6 far_block eq_refl eq_refl))
    as [w' [b' [E [Hm _]]]].
  exists w'. split; [exact E | exact Hm].
Defined.

(** ** Enrollment, then the call *)

(** A user function that fills the array with its own number. *)
Definition ex_user_fluid (f : BValFunc) (b : MeshBlock Z unit) (a : Array Z)
  : Array Z :=
  match f with UserFunction n => fun _ _ _ _ => Z.of_nat n | _ => a end.

Lemma enrolled_function_is_the_one_called_example :
  exists w1 dst',
    EnrollFluidBoundaryFunction Z unit unit
      (mkProcess Z unit unit ex_tabs (fun _ => 3)
         [ex_coded 2 (fun _ => 3)] tt) 0 inner_x1 (UserFunction 9) = Ret w1
    /\ ReceiveAndSetFluidBoundary 1 Z false 0 unit unit ex_wait ex_user_fluid
         w1 0 inner_x1 (ex_array 0) = Ret (w1, dst', true)
    /\ dst' 0 0 2 1 = 9.
Proof.
  destruct (proj1 (enrolled_function_is_the_one_called 1 Z false 0 unit unit
                     ex_wait ex_user_fluid ex_call_field
                     (mkProcess Z unit unit ex_tabs (fun _ => 3)
                        [ex_coded 2 (fun _ => 3)] tt)
                     0 inner_x1 (ex_coded 2 (fun _ => 3)) (UserFunction 9)
                     ltac:(unfold inner_x1; lia) eq_refl eq_refl eq_refl))
    as [w1 [pmb1 [E [_ [H _]]]]].
  exists w1. eexists. split; [exact E|]. split; [apply H | reflexivity].
Defined.
